(** * Git Control Center: parsers, registry, cache and workflows

    A shallow embedding of the TypeScript sources of the extension, and the
    properties of its specification proved or refuted on it.

    Part one, the embedding:
    - module [Js]: the string operations of JavaScript that the sources use;
    - the domain records of [src/types/git.ts];
    - the parsers of [src/domain/parsers.ts];
    - [suggestAction] of [src/services/errorReporter.ts];
    - [getActiveRepository] of [src/services/repositoryManager.ts];
    - asynchronous code as suspended runs over the heap of the extension
      host, with the traces of a task that runs alone;
    - the cache, [runGit] and the git wrappers of [src/services/gitService.ts];
    - [src/services/branchMemoryService.ts];
    - the bodies of the handlers of [gitcc.sync] and [gitcc.smartCheckout]
      of [src/commands/registerCommands.ts];
    - the event loop, for tasks that interleave at their [await]s.

    Part two, definitions after the words of the specification and sample
    inputs; part three, the properties.

    Strings are sequences of code units below 256 (Rocq's [string]); numbers
    that the code obtains from runs of decimal digits are kept exact in [N]
    (JavaScript agrees up to 2^53, and a comparison with zero agrees for
    every digit run). *)

From Stdlib Require Import ZArith NArith Ascii String List Bool Lia.
From Stdlib Require DecimalString.
From stdpp Require Import base option list strings gmap.


(** ** The JavaScript string operations the sources rely on *)

Module Js.

(** [s.startsWith(p)] *)
Definition startsWith (p s : string) : bool := String.prefix p s.

(** Drop the first [n] code units. *)
Fixpoint dropChars (n : nat) (s : string) : string :=
  match n, s with
  | O, _ => s
  | S _, EmptyString => EmptyString
  | S n', String _ s' => dropChars n' s'
  end.

(** [s.slice(0, n)] *)
Fixpoint takeChars (n : nat) (s : string) : string :=
  match n, s with
  | O, _ => EmptyString
  | S _, EmptyString => EmptyString
  | S n', String c s' => String c (takeChars n' s')
  end.

(** [s.includes(p)] *)
Fixpoint includes (p s : string) : bool :=
  if startsWith p s then true
  else match s with
       | EmptyString => false
       | String _ s' => includes p s'
       end.

(** [s.replace(p, r)] with a string pattern: only the first occurrence. *)
Fixpoint replace (p r s : string) : string :=
  if startsWith p s then r +:+ dropChars (String.length p) s
  else match s with
       | EmptyString => EmptyString
       | String c s' => String c (replace p r s')
       end.

(** [s.replace(/:/g, r)]-style global replacement of one code unit. *)
Fixpoint replaceAllChar (c : ascii) (r : string) (s : string) : string :=
  match s with
  | EmptyString => EmptyString
  | String d s' =>
      if Ascii.eqb c d then r +:+ replaceAllChar c r s'
      else String d (replaceAllChar c r s')
  end.

(** White space and line terminators among the code units below 256. *)
Definition isSpace (c : ascii) : bool :=
  let n := nat_of_ascii c in
  ((9 <=? n) && (n <=? 13)) || (n =? 32) || (n =? 160).

Fixpoint trimStart (s : string) : string :=
  match s with
  | EmptyString => EmptyString
  | String c s' => if isSpace c then trimStart s' else s
  end.

Fixpoint trimEnd (s : string) : string :=
  match s with
  | EmptyString => EmptyString
  | String c s' =>
      match trimEnd s' with
      | EmptyString => if isSpace c then EmptyString else String c EmptyString
      | t => String c t
      end
  end.

Definition trim (s : string) : string := trimEnd (trimStart s).

(** Prefix the head element of a non-empty list of pieces. *)
Definition consHead (c : ascii) (pieces : list string) : list string :=
  match pieces with
  | [] => [String c EmptyString]
  | p :: ps => String c p :: ps
  end.

(** [s.split(sep)] for a separator of one code unit. *)
Fixpoint split (sep : ascii) (s : string) : list string :=
  match s with
  | EmptyString => [EmptyString]
  | String c s' =>
      if Ascii.eqb c sep then EmptyString :: split sep s'
      else consHead c (split sep s')
  end.

Definition LF : ascii := ascii_of_nat 10.
Definition CR : ascii := ascii_of_nat 13.
Definition TAB : ascii := ascii_of_nat 9.

(** [s.split(/\r?\n/)]: a line feed ends a piece, and a carriage return
    immediately before it belongs to the separator. *)
Fixpoint splitLines (s : string) : list string :=
  match s with
  | EmptyString => [EmptyString]
  | String c s' =>
      if Ascii.eqb c LF then EmptyString :: splitLines s'
      else if Ascii.eqb c CR && startsWith (String LF EmptyString) s'
           then splitLines s'
           else consHead c (splitLines s')
  end.

(** [pieces.join(sep)] *)
Fixpoint join (sep : string) (pieces : list string) : string :=
  match pieces with
  | [] => EmptyString
  | [p] => p
  | p :: ps => p +:+ sep +:+ join sep ps
  end.

(** [s.toLowerCase()] on code units below 256. *)
Definition lowerChar (c : ascii) : ascii :=
  let n := nat_of_ascii c in
  if ((65 <=? n) && (n <=? 90))
     || ((192 <=? n) && (n <=? 222) && negb (n =? 215))
  then ascii_of_nat (n + 32) else c.

Fixpoint toLowerCase (s : string) : string :=
  match s with
  | EmptyString => EmptyString
  | String c s' => String (lowerChar c) (toLowerCase s')
  end.

(** [\d] *)
Definition isDigit (c : ascii) : bool :=
  let n := nat_of_ascii c in (48 <=? n) && (n <=? 57).

(** The longest run of digits at the start of [s] (a greedy [\d*]). *)
Fixpoint spanDigits (s : string) : string :=
  match s with
  | EmptyString => EmptyString
  | String c s' => if isDigit c then String c (spanDigits s') else EmptyString
  end.

(** One attempt of the pattern [lit(\d+)] at the start of [s]. *)
Definition matchHere (lit s : string) : option string :=
  if startsWith lit s then
    match spanDigits (dropChars (String.length lit) s) with
    | EmptyString => None
    | ds => Some ds
    end
  else None.

(** [s.match(/lit(\d+)/)?.[1]]: the capture of the leftmost match. *)
Fixpoint matchDigitsAfter (lit s : string) : option string :=
  match matchHere lit s with
  | Some ds => Some ds
  | None =>
      match s with
      | EmptyString => None
      | String _ s' => matchDigitsAfter lit s'
      end
  end.

(** The value of a run of decimal digits [ds].  [Number(ds)] is this
    value when it is at most 2^53; above, [Number] rounds it to a double,
    so a statement that reads the value of a count carries that bound,
    and the tests of a count against zero need none. *)
Fixpoint digitsFrom (acc : N) (ds : string) : N :=
  match ds with
  | EmptyString => acc
  | String c ds' => digitsFrom (10 * acc + (N.of_nat (nat_of_ascii c) - 48))%N ds'
  end.

Definition digitsValue (ds : string) : N := digitsFrom 0%N ds.

(** Truthiness of an optional string: [undefined] and [""] are falsy. *)
Definition truthy (o : option string) : bool :=
  match o with
  | None => false
  | Some EmptyString => false
  | Some _ => true
  end.

(** [a ?? b] *)
Definition orElse {A} (o : option A) (d : A) : A :=
  match o with Some a => a | None => d end.

End Js.


(** ** Domain records ([src/types/git.ts]) *)

Inductive BranchKind := local | remote.

Inductive ChangeSection := staged | unstaged | untracked | conflicts.

Record FileChange := mkFileChange {
  fc_path : string;
  fc_originalPath : option string;
  fc_section : ChangeSection;
  fc_x : string;
  fc_y : string }.

Record StatusInfo := mkStatusInfo {
  st_branch : string;
  st_detachedHead : bool;
  st_upstream : option string;
  st_ahead : N;
  st_behind : N;
  st_staged : list FileChange;
  st_unstaged : list FileChange;
  st_untracked : list FileChange;
  st_conflicts : list FileChange }.

(** The value of [lastCommitEpochSeconds].  [Number(text)] is evaluated for
    the runs of decimal digits that [%(committerdate:unix)] prints (exactly
    up to 2^53); for any other text, where the source still evaluates
    [Number(text)], the field stands for that number and keeps the text it
    is the number of. *)
Inductive EpochField :=
| EpochUndefined
| EpochSeconds (n : N)
| EpochOfText (raw : string).

Record BranchInfo := mkBranchInfo {
  bi_name : string;
  bi_shortName : string;
  bi_kind : BranchKind;
  bi_remoteName : option string;
  bi_isCurrent : bool;
  bi_upstream : option string;
  bi_ahead : N;
  bi_behind : N;
  bi_merged : bool;
  bi_stale : bool;
  bi_lastCommitEpochSeconds : EpochField }.

Record WorktreeInfo := mkWorktreeInfo {
  wt_path : string;
  wt_head : string;
  wt_branch : option string;
  wt_detached : bool;
  wt_bare : bool;
  wt_prunable : option string }.

Record MiniLogEntry := mkMiniLogEntry {
  ml_hash : string;
  ml_shortHash : string;
  ml_author : string;
  ml_relativeDate : string;
  ml_subject : string }.

(** ** Parsing engine ([src/domain/parsers.ts]) *)

Definition BranchKind_eqb (a b : BranchKind) : bool :=
  match a, b with
  | local, local | remote, remote => true
  | _, _ => false
  end.

(** [Number(s.match(/lit(\d+)/)?.[1] ?? '0')], as the value of the captured
    digits: the number of the source for captures up to 2^53. *)
Definition capturedNumber (lit s : string) : N :=
  Js.digitsValue (Js.orElse (Js.matchDigitsAfter lit s) "0").

Definition parseAheadBehind (metadata : string) : N * N :=
  let ahead := capturedNumber "ahead " metadata in
  let behind := capturedNumber "behind " metadata in
  (ahead, behind).

(** [s[0]] and [s[1]] as one-unit strings. *)
Definition charAt (i : nat) (s : string) : option string :=
  match String.get i s with
  | Some c => Some (String c EmptyString)
  | None => None
  end.

Definition emptyStatus : StatusInfo :=
  mkStatusInfo "HEAD" false None 0 0 [] [] [] [].

(** The test of the conflict branch of a [1]/[2] record. *)
Definition isConflictPair (x y : string) : bool :=
  String.eqb x "U" || String.eqb y "U"
  || (String.eqb x "A" && String.eqb y "A")
  || (String.eqb x "D" && String.eqb y "D").

(** The [x], [y] and [path] that the loop computes for a [1]/[2] record. *)
Definition recordFields (line : string) : string * string * string :=
  let parts := Js.split " " line in
  let xy := Js.orElse (parts !! 1%nat) ".." in
  let x := Js.orElse (charAt 0 xy) "." in
  let y := Js.orElse (charAt 1 xy) "." in
  let path := Js.join " " (drop 8 parts) in
  (x, y, path).

(** One iteration of the loop of [parseStatusPorcelainV2]. *)
Definition statusLine (st : StatusInfo) (line : string) : StatusInfo :=
  if Js.startsWith "# branch.head " line then
    let head := Js.trim (Js.replace "# branch.head " "" line) in
    let detachedHead := String.eqb head "(detached)" in
    mkStatusInfo (if detachedHead then "HEAD (detached)" else head) detachedHead
      (st_upstream st) (st_ahead st) (st_behind st)
      (st_staged st) (st_unstaged st) (st_untracked st) (st_conflicts st)
  else if Js.startsWith "# branch.upstream " line then
    mkStatusInfo (st_branch st) (st_detachedHead st)
      (Some (Js.trim (Js.replace "# branch.upstream " "" line)))
      (st_ahead st) (st_behind st)
      (st_staged st) (st_unstaged st) (st_untracked st) (st_conflicts st)
  else if Js.startsWith "# branch.ab " line then
    let fragment := Js.trim (Js.replace "# branch.ab " "" line) in
    mkStatusInfo (st_branch st) (st_detachedHead st) (st_upstream st)
      (capturedNumber "+" fragment) (capturedNumber "-" fragment)
      (st_staged st) (st_unstaged st) (st_untracked st) (st_conflicts st)
  else if Js.startsWith "1 " line || Js.startsWith "2 " line then
    let '(x, y, path) := recordFields line in
    let change := mkFileChange path None unstaged x y in
    if isConflictPair x y then
      mkStatusInfo (st_branch st) (st_detachedHead st) (st_upstream st)
        (st_ahead st) (st_behind st)
        (st_staged st) (st_unstaged st) (st_untracked st)
        (st_conflicts st ++ [mkFileChange path None conflicts x y])
    else
      mkStatusInfo (st_branch st) (st_detachedHead st) (st_upstream st)
        (st_ahead st) (st_behind st)
        (if negb (String.eqb x ".")
         then st_staged st ++ [mkFileChange path None staged x y]
         else st_staged st)
        (if negb (String.eqb y ".")
         then st_unstaged st ++ [change]
         else st_unstaged st)
        (st_untracked st) (st_conflicts st)
  else if Js.startsWith "u " line then
    let path := Js.join " " (drop 10 (Js.split " " line)) in
    mkStatusInfo (st_branch st) (st_detachedHead st) (st_upstream st)
      (st_ahead st) (st_behind st)
      (st_staged st) (st_unstaged st) (st_untracked st)
      (st_conflicts st ++ [mkFileChange path None conflicts "U" "U"])
  else if Js.startsWith "? " line then
    let path := Js.trim (Js.replace "? " "" line) in
    mkStatusInfo (st_branch st) (st_detachedHead st) (st_upstream st)
      (st_ahead st) (st_behind st)
      (st_staged st) (st_unstaged st)
      (st_untracked st ++ [mkFileChange path None untracked "?" "?"])
      (st_conflicts st)
  else st.

(** [output.split(/\r?\n/).filter((line) => line.trim().length > 0)] *)
Definition statusLines (output : string) : list string :=
  List.filter (fun line => (0 <? String.length (Js.trim line))%nat)
              (Js.splitLines output).

Definition parseStatusPorcelainV2 (output : string) : StatusInfo :=
  fold_left statusLine (statusLines output) emptyStatus.

(** [output.split(/\r?\n/).filter(Boolean)] *)
Definition nonEmptyLines (output : string) : list string :=
  List.filter (fun line => negb (String.eqb line "")) (Js.splitLines output).

Definition allDigits (s : string) : bool :=
  forallb Js.isDigit (list_ascii_of_string s).

(** [Number.isFinite(e) && e > 0 ? e : undefined] for
    [e = Number(commitTimeRaw ?? '0')]. *)
Definition commitEpoch (commitTimeRaw : option string) : EpochField :=
  let raw := Js.orElse commitTimeRaw "0" in
  if allDigits raw then
    (if (0 <? Js.digitsValue raw)%N then EpochSeconds (Js.digitsValue raw)
     else EpochUndefined)
  else EpochOfText raw.

(** [short === currentBranchName] *)
Definition sameName (short : string) (currentBranchName : option string) : bool :=
  match currentBranchName with
  | Some c => String.eqb short c
  | None => false
  end.

(** The body of the loop of [parseBranchRefs]: [None] is [continue]. *)
Definition branchRow (currentBranchName : option string) (line : string)
  : option BranchInfo :=
  let fields := Js.split Js.TAB line in
  let refName := fields !! 0%nat in
  let upstreamRaw := fields !! 1%nat in
  let aheadBehindRaw := fields !! 2%nat in
  let commitTimeRaw := fields !! 3%nat in
  if negb (Js.truthy refName) then None
  else
    let refName := Js.orElse refName "" in
    let isRemote := Js.startsWith "refs/remotes/" refName in
    let kind := if isRemote then remote else local in
    let short :=
      Js.trim (Js.replace "refs/remotes/" "" (Js.replace "refs/heads/" "" refName)) in
    let remoteName :=
      if BranchKind_eqb kind remote then Js.split "/" short !! 0%nat else None in
    let upstream :=
      if Js.truthy upstreamRaw && negb (String.eqb (Js.orElse upstreamRaw "") "-")
      then upstreamRaw else None in
    let '(ahead, behind) := parseAheadBehind (Js.orElse aheadBehindRaw "") in
    let isCurrent := BranchKind_eqb kind local && sameName short currentBranchName in
    let merged := (ahead =? 0)%N && (behind =? 0)%N && Js.truthy upstream in
    let stale := BranchKind_eqb kind local && negb (Js.truthy upstream) in
    Some (mkBranchInfo refName short kind remoteName isCurrent upstream
            ahead behind merged stale (commitEpoch commitTimeRaw)).

Definition parseBranchRefs (output : string) (currentBranchName : option string)
  : list BranchInfo :=
  omap (branchRow currentBranchName) (nonEmptyLines output).

Definition miniLogRow (line : string) : MiniLogEntry :=
  let fields := Js.split Js.TAB line in
  let hash := Js.orElse (fields !! 0%nat) "" in
  mkMiniLogEntry hash (Js.takeChars 8 hash)
    (Js.orElse (fields !! 1%nat) "unknown")
    (Js.orElse (fields !! 2%nat) "unknown")
    (Js.orElse (fields !! 3%nat) "").

Definition parseMiniLog (output : string) : list MiniLogEntry :=
  List.filter (fun entry => (0 <? String.length (ml_hash entry))%nat)
              (List.map miniLogRow (nonEmptyLines output)).

(** [Partial<WorktreeInfo>]: the block being accumulated. *)
Record PartialWorktree := mkPartialWorktree {
  pw_path : option string;
  pw_head : option string;
  pw_branch : option string;
  pw_detached : option bool;
  pw_bare : option bool;
  pw_prunable : option string }.

Definition emptyPartial : PartialWorktree :=
  mkPartialWorktree None None None None None None.

(** [Boolean(flag)] for an optional flag. *)
Definition flagSet (o : option bool) : bool := Js.orElse o false.

(** The state of [parseWorktrees]: [worktrees] and [current]. *)
Definition WorktreeState : Type := list WorktreeInfo * PartialWorktree.

(** The closure [pushCurrent]: on an incomplete block it returns before
    the push and before [current = {}]. *)
Definition pushCurrent (s : WorktreeState) : WorktreeState :=
  let '(worktrees, current) := s in
  if negb (Js.truthy (pw_path current)) || negb (Js.truthy (pw_head current))
  then s
  else
    (worktrees ++
       [mkWorktreeInfo (Js.orElse (pw_path current) "")
          (Js.orElse (pw_head current) "")
          (pw_branch current)
          (flagSet (pw_detached current))
          (flagSet (pw_bare current))
          (pw_prunable current)],
     emptyPartial).

(** One iteration of the loop of [parseWorktrees]. *)
Definition worktreeLine (s : WorktreeState) (line : string) : WorktreeState :=
  let '(worktrees, current) := s in
  if String.eqb (Js.trim line) "" then pushCurrent s
  else if Js.startsWith "worktree " line then
    (worktrees,
     mkPartialWorktree (Some (Js.trim (Js.replace "worktree " "" line)))
       (pw_head current) (pw_branch current) (pw_detached current)
       (pw_bare current) (pw_prunable current))
  else if Js.startsWith "HEAD " line then
    (worktrees,
     mkPartialWorktree (pw_path current)
       (Some (Js.trim (Js.replace "HEAD " "" line)))
       (pw_branch current) (pw_detached current)
       (pw_bare current) (pw_prunable current))
  else if Js.startsWith "branch " line then
    (worktrees,
     mkPartialWorktree (pw_path current) (pw_head current)
       (Some (Js.trim (Js.replace "branch refs/heads/" "" line)))
       (pw_detached current) (pw_bare current) (pw_prunable current))
  else if String.eqb line "detached" then
    (worktrees,
     mkPartialWorktree (pw_path current) (pw_head current) (pw_branch current)
       (Some true) (pw_bare current) (pw_prunable current))
  else if String.eqb line "bare" then
    (worktrees,
     mkPartialWorktree (pw_path current) (pw_head current) (pw_branch current)
       (pw_detached current) (Some true) (pw_prunable current))
  else if Js.startsWith "prunable " line then
    (worktrees,
     mkPartialWorktree (pw_path current) (pw_head current) (pw_branch current)
       (pw_detached current) (pw_bare current)
       (Some (Js.trim (Js.replace "prunable " "" line))))
  else s.

Definition parseWorktrees (output : string) : list WorktreeInfo :=
  fst (pushCurrent (fold_left worktreeLine (Js.splitLines output) ([], emptyPartial))).

(** ** Error classifier ([src/services/errorReporter.ts]) *)

Record Suggestion := mkSuggestion {
  sg_message : string;
  sg_actions : list string }.

(** [`${message}\n${stderr ?? ''}`.toLowerCase()] *)
Definition errorSource (message : string) (stderr : option string) : string :=
  Js.toLowerCase (message +:+ String Js.LF (Js.orElse stderr "")).

Definition suggestAction (message : string) (stderr : option string) : Suggestion :=
  let source := errorSource message stderr in
  if Js.includes "not a git repository" source then
    mkSuggestion "Selected folder is not a Git repository." []
  else if Js.includes "no upstream configured" source then
    mkSuggestion "No upstream configured for this branch." ["Set Upstream"]
  else if Js.includes "could not read from remote repository" source
          || Js.includes "authentication failed" source then
    mkSuggestion "Authentication failed. Check credentials and use VS Code Git auth." []
  else if Js.includes "pathspec" source then
    mkSuggestion "Branch or file was not found. Refresh and retry." []
  else if Js.includes "nothing to commit" source then
    mkSuggestion "Nothing to commit. Stage changes first." []
  else if Js.includes "merge conflict" source then
    mkSuggestion "Repository has conflicts. Resolve conflicts before continuing." []
  else if Js.includes "would be overwritten by checkout" source then
    mkSuggestion "Checkout would overwrite local changes." ["Smart Checkout"]
  else if Js.includes "non-fast-forward" source then
    mkSuggestion "Push rejected (non-fast-forward)." ["Pull then Push"; "Force with Lease"]
  else mkSuggestion message [].

(** ** Repository registry ([src/services/repositoryManager.ts]) *)

(** A [vscode.Uri]: its [fsPath] and the text of [toString()]. *)
Record Uri := mkUri {
  fsPath : string;
  uriText : string }.

Record RepositoryInfo := mkRepositoryInfo {
  ri_id : string;
  ri_rootUri : Uri;
  ri_name : string;
  ri_currentBranch : string;
  ri_detachedHead : bool;
  ri_upstream : option string;
  ri_ahead : N;
  ri_behind : N;
  ri_dirtyCount : nat;
  ri_hasSubmodules : bool }.

(** The two fields of [RepositoryManager] read by [getActiveRepository]. *)
Record RepositoryManager := mkRepositoryManager {
  activeRepositoryId : option string;
  repositories : list RepositoryInfo }.

Definition getRepositories (m : RepositoryManager) : list RepositoryInfo :=
  repositories m.

(** [repo.id === this.activeRepositoryId] *)
Definition isActiveId (m : RepositoryManager) (repo : RepositoryInfo) : bool :=
  match activeRepositoryId m with
  | Some id => String.eqb (ri_id repo) id
  | None => false
  end.

Definition getActiveRepository (m : RepositoryManager) : option RepositoryInfo :=
  if negb (Js.truthy (activeRepositoryId m)) then repositories m !! 0%nat
  else
    match List.find (isActiveId m) (repositories m) with
    | Some repo => Some repo
    | None => repositories m !! 0%nat
    end.

Definition setActiveRepository (repositoryId : string) (m : RepositoryManager)
  : RepositoryManager :=
  mkRepositoryManager (Some repositoryId) (repositories m).

(** ** Asynchronous code: heap, interactions, suspended runs

    Code between two [await]s runs to completion on the heap of the
    extension host; at an [await] the run is suspended with the heap it
    leaves behind, and it is resumed with the answer and the heap it finds. *)

(** Thrown values: [GitCcError] and a plain [Error]. *)
Inductive Exn :=
| GitCcError (message : string) (stderr : option string) (exitCode : option Z)
| PlainError (message : string).

Set Implicit Arguments.
Set Contextual Implicit.
Set Maximal Implicit Insertion.

Inductive Result (A : Type) :=
| Ok (a : A)
| Thrown (e : Exn).

(** Values kept in [GitService.cache]. *)
Inductive CacheValue :=
| BranchList (v : list BranchInfo)
| LogSlice (v : list MiniLogEntry).

Record CacheEntry := mkCacheEntry {
  ce_at : Z;
  ce_value : CacheValue }.

(** [RepoBranchMemory] of [branchMemoryService.ts]. *)
Record RepoBranchMemory := mkRepoBranchMemory {
  favorites : list string;
  recents : list string }.

(** Calls that the sources do not await ([progress.report], [void
    showInformationMessage(...)], [void showErrorMessage(...)]). *)
Inductive Notice :=
| ProgressReport (message : string) (increment : Z)
| InformationNotice (message : string)
| ErrorNotice (message : string).

Record Heap := mkHeap {
  clock : Z;                                   (* Date.now(), in ms *)
  gitCache : gmap string CacheEntry;           (* GitService.cache *)
  workspaceState : gmap string RepoBranchMemory; (* the Memento *)
  notices : list Notice }.                     (* posted, oldest first *)

Record ExecOutput := mkExecOutput {
  stdout : string;
  stderr : string }.

Inductive ExitCode :=
| CodeNumber (n : Z)
| CodeText (s : string).

(** What [execFile] rejects with. *)
Record ExecFailure := mkExecFailure {
  failure_message : string;
  failure_stderr : option string;
  failure_code : option ExitCode }.

(** Awaited interactions, indexed by the type of their answer.  A quick
    pick answers with the position of the chosen item, if any. *)
Inductive Eff : Type -> Type :=
| ExecFile (file : string) (argv : list string) : Eff (ExecOutput + ExecFailure)
| ShowQuickPick (labels : list string) (placeHolder : string) : Eff (option nat)
| ShowInformationMessage (message : string) (items : list string) : Eff (option string)
| ExecuteCommand (command : string) : Eff unit
| MementoUpdate (key : string) : Eff unit.

Inductive Run (A : Type) : Type :=
| Done (h : Heap) (r : Result A)
| Await (h : Heap) (X : Type) (e : Eff X) (k : X -> Heap -> Run A).

Unset Maximal Implicit Insertion.
Unset Contextual Implicit.
Unset Implicit Arguments.

Definition Async (A : Type) : Type := Heap -> Run A.

Fixpoint bindRun {A B : Type} (r : Run A) (f : A -> Async B) : Run B :=
  match r with
  | Done h (Ok a) => f a h
  | Done h (Thrown e) => Done h (Thrown e)
  | Await h e k => Await h e (fun x h' => bindRun (k x h') f)
  end.

#[global] Instance Async_ret : MRet Async := fun A a h => Done h (Ok a).
#[global] Instance Async_bind : MBind Async := fun A B f m h => bindRun (m h) f.

Definition throw {A : Type} (e : Exn) : Async A := fun h => Done h (Thrown e).

(** [await] of one interaction. *)
Definition await {X : Type} (e : Eff X) : Async X :=
  fun h => Await h e (fun x h' => Done h' (Ok x)).

Definition post (n : Notice) : Async unit :=
  fun h => Done (mkHeap (clock h) (gitCache h) (workspaceState h) (notices h ++ [n]))
                (Ok tt).

(** [Date.now()] *)
Definition dateNow : Async Z := fun h => Done h (Ok (clock h)).

Definition heapOf {A : Type} (r : Run A) : Heap :=
  match r with
  | Done h _ => h
  | Await h _ _ => h
  end.

Definition setClock (t : Z) (h : Heap) : Heap :=
  mkHeap t (gitCache h) (workspaceState h) (notices h).

(** *** Traces of one task running alone *)

Inductive Event :=
| EvExec (file : string) (argv : list string) (answer : ExecOutput + ExecFailure)
| EvQuickPick (labels : list string) (placeHolder : string) (answer : option nat)
| EvInformationMessage (message : string) (items : list string) (answer : option string)
| EvCommand (command : string)
| EvMementoUpdate (key : string).

Definition record {X : Type} (e : Eff X) : X -> Event :=
  match e in Eff X return X -> Event with
  | ExecFile file argv => EvExec file argv
  | ShowQuickPick labels placeHolder => EvQuickPick labels placeHolder
  | ShowInformationMessage message items => EvInformationMessage message items
  | ExecuteCommand command => fun _ => EvCommand command
  | MementoUpdate key => fun _ => EvMementoUpdate key
  end.

(** [runs r tr h res]: resumed at each [await] with some answer at some
    time, and with the heap it left, [r] performs the interactions [tr] and
    settles with [res] on the heap [h].  The time of each answer is kept
    beside the event. *)
Fixpoint runs {A : Type} (r : Run A) (tr : list (Event * Z)) (h' : Heap)
  (res : Result A) : Prop :=
  match r with
  | Done h r0 => tr = [] /\ h' = h /\ res = r0
  | Await h e k =>
      exists x t tr', tr = (record e x, t) :: tr'
                      /\ runs (k x (setClock t h)) tr' h' res
  end.

(** An environment answers each interaction, given what happened so far,
    and tells the time of the answer. *)
Definition Environment : Type := forall X : Type, list (Event * Z) -> Eff X -> X * Z.

Fixpoint execute {A : Type} (env : Environment) (past : list (Event * Z)) (r : Run A)
  : list (Event * Z) * Heap * Result A :=
  match r with
  | Done h res => (past, h, res)
  | Await h e k =>
      let '(x, t) := env _ past e in
      execute env (past ++ [(record e x, t)]) (k x (setClock t h))
  end.

(** The subprocess calls of a trace, in order: the argument vectors. *)
Definition execArgv (ev : Event * Z) : option (list string) :=
  match fst ev with
  | EvExec _ argv _ => Some argv
  | _ => None
  end.

Definition subprocessCalls (tr : list (Event * Z)) : list (list string) :=
  omap execArgv tr.

(** ** GitService ([src/services/gitService.ts]) *)

Definition writeCommands : list string :=
  ["checkout"; "commit"; "merge"; "rebase"; "pull"; "push"; "branch";
   "stash"; "restore"; "add"; "clean"; "fetch"; "worktree"].

(** [writeCommands.has(args[0] ?? '')] *)
Definition isWriteCommand (args : list string) : bool :=
  existsb (String.eqb (Js.orElse (args !! 0%nat) "")) writeCommands.

Definition setGitCache (c : gmap string CacheEntry) (h : Heap) : Heap :=
  mkHeap (clock h) c (workspaceState h) (notices h).

(** The entries that survive the deletion loop for [cwd]. *)
Definition withoutKeysIncluding (cwd : string) (c : gmap string CacheEntry)
  : gmap string CacheEntry :=
  filter (fun kv => Js.includes cwd kv.1 = false) c.

Definition invalidateShallowCache (cwd : string) (args : list string) : Async unit :=
  fun h =>
    if negb (isWriteCommand args) then Done h (Ok tt)
    else Done (setGitCache (withoutKeysIncluding cwd (gitCache h)) h) (Ok tt).

(** [typeof failure.code === 'number' ? failure.code : undefined] *)
Definition numericCode (code : option ExitCode) : option Z :=
  match code with
  | Some (CodeNumber n) => Some n
  | _ => None
  end.

Definition runGitRaw (prefixArgs args : list string) : Async ExecOutput :=
  answer ← await (ExecFile "git" (prefixArgs ++ args));
  match answer with
  | inl result => mret result
  | inr failure =>
      throw (GitCcError (failure_message failure) (failure_stderr failure)
                        (numericCode (failure_code failure)))
  end.

Definition runGit (cwd : string) (args : list string) : Async string :=
  invalidateShallowCache cwd args;;
  result ← runGitRaw ["-C"; cwd] args;
  mret (Js.trimEnd (stdout result)).

Definition getCached (key : string) (ttlMs : Z) : Async (option CacheValue) :=
  fun h =>
    match gitCache h !! key with
    | None => Done h (Ok None)
    | Some cached =>
        if (clock h - ce_at cached >? ttlMs)%Z
        then Done (setGitCache (delete key (gitCache h)) h) (Ok None)
        else Done h (Ok (Some (ce_value cached)))
    end.

(** [this.cache.set(key, { at: Date.now(), value })] *)
Definition cacheSet (key : string) (value : CacheValue) : Async unit :=
  fun h =>
    Done (setGitCache (<[key := mkCacheEntry (clock h) value]> (gitCache h)) h) (Ok tt).

Definition getStatus (repoUri : Uri) : Async StatusInfo :=
  output ← runGit (fsPath repoUri) ["status"; "--porcelain=v2"; "-b"];
  mret (parseStatusPorcelainV2 output).

Definition branchesKey (repoUri : Uri) (currentBranch : option string) : string :=
  "branches:" +:+ uriText repoUri +:+ ":" +:+ Js.orElse currentBranch "".

Definition forEachRefFormat : string :=
  "--format=%(refname)" +:+ String Js.TAB "%(upstream:short)"
  +:+ String Js.TAB "%(upstream:track)" +:+ String Js.TAB "%(committerdate:unix)".

(** The cast [cached.value as BranchInfo[]]: the keys of branch lists and
    of log slices start differently, so the other kind of value is never
    found under such a key; the embedding reads it as no value. *)
Definition asBranchList (v : option CacheValue) : option (list BranchInfo) :=
  match v with
  | Some (BranchList l) => Some l
  | _ => None
  end.


Definition getBranches (repoUri : Uri) (currentBranch : option string)
  : Async (list BranchInfo) :=
  let key := branchesKey repoUri currentBranch in
  cached ← getCached key 3000;
  match asBranchList cached with
  | Some value => mret value
  | None =>
      output ← runGit (fsPath repoUri)
                 ["for-each-ref"; forEachRefFormat; "refs/heads"; "refs/remotes"];
      let value := parseBranchRefs output currentBranch in
      cacheSet key (BranchList value);;
      mret value
  end.

(** [String(limit)] for a natural number. *)
Definition numberText (n : N) : string :=
  DecimalString.NilEmpty.string_of_uint (N.to_uint n).


Definition miniLogFormat : string :=
  "--pretty=format:%H" +:+ String Js.TAB "%an" +:+ String Js.TAB "%ar"
  +:+ String Js.TAB "%s".


(** [...(remote ? [remote] : [])] *)
Definition remoteArg (remote : string) : list string :=
  if Js.truthy (Some remote) then [remote] else [].

Definition fetch (repoUri : Uri) (remote : string) : Async unit :=
  runGit (fsPath repoUri) (["fetch"; "--prune"] ++ remoteArg remote);;
  mret tt.

Definition pull (repoUri : Uri) (rebase : bool) (remote : string) : Async unit :=
  runGit (fsPath repoUri)
    (["pull"] ++ (if rebase then ["--rebase"] else []) ++ remoteArg remote);;
  mret tt.

Definition push (repoUri : Uri) (remote : string) (forceWithLease : bool)
  : Async unit :=
  runGit (fsPath repoUri)
    (["push"] ++ (if forceWithLease then ["--force-with-lease"] else [])
     ++ remoteArg remote);;
  mret tt.

Definition checkoutBranch (repoUri : Uri) (branchName : string) : Async unit :=
  runGit (fsPath repoUri) ["checkout"; branchName];;
  mret tt.

Definition mergeIntoCurrent (repoUri : Uri) (branchName : string) : Async unit :=
  runGit (fsPath repoUri) ["merge"; "--no-ff"; branchName];;
  mret tt.

Definition rebaseCurrentOnto (repoUri : Uri) (branchName : string) : Async unit :=
  runGit (fsPath repoUri) ["rebase"; branchName];;
  mret tt.

Definition stash (repoUri : Uri) (message : option string) (keepIndex : bool)
  : Async unit :=
  runGit (fsPath repoUri)
    (["stash"; "push"] ++ (if keepIndex then ["--keep-index"] else [])
     ++ (if Js.truthy message then ["-m"; Js.orElse message ""] else []));;
  mret tt.

Definition stashApply (repoUri : Uri) (ref : string) (pop : bool) : Async unit :=
  runGit (fsPath repoUri) ["stash"; if pop then "pop" else "apply"; ref];;
  mret tt.

(** ** Branch memory ([src/services/branchMemoryService.ts]) *)

Definition memoryKey (repoKey : string) : string :=
  "gitcc.branchMemory:" +:+ repoKey.

Definition emptyMemory : RepoBranchMemory := mkRepoBranchMemory [] [].

Definition memoryOf (h : Heap) (repoKey : string) : RepoBranchMemory :=
  default emptyMemory (workspaceState h !! memoryKey repoKey).

Definition getMemory (repoKey : string) : Async RepoBranchMemory :=
  fun h => Done h (Ok (memoryOf h repoKey)).

Definition saveMemory (repoKey : string) (memory : RepoBranchMemory) : Async unit :=
  fun h =>
    Await (mkHeap (clock h) (gitCache h)
             (<[memoryKey repoKey := memory]> (workspaceState h)) (notices h))
          (MementoUpdate (memoryKey repoKey))
          (fun _ h' => Done h' (Ok tt)).

Definition recordCheckout (repoKey branchName : string) : Async unit :=
  memory ← getMemory repoKey;
  saveMemory repoKey
    (mkRepoBranchMemory (favorites memory)
       (take 10 (branchName ::
                 List.filter (fun name => negb (String.eqb name branchName))
                             (recents memory)))).

Definition getRecents (h : Heap) (repoKey : string) : list string :=
  recents (memoryOf h repoKey).

(** ** Configuration snapshot ([src/services/configService.ts]) *)

Inductive SmartCheckoutStrategy := ask | autoStash | cancel.

Inductive PostCommitAction := postNone | postPush | postSync.

Record GitCcConfig := mkGitCcConfig {
  refreshIntervalSeconds : Z;
  pullRebase : bool;
  showRemoteBranches : bool;
  branchGroupingPrefixes : list string;
  confirmForcePush : bool;
  defaultRemote : string;
  commitTemplate : string;
  smartCheckoutDefaultStrategy : SmartCheckoutStrategy;
  postCommitAction : PostCommitAction;
  enableTelemetry : bool }.

(** ** Command handlers ([src/commands/registerCommands.ts])

    [syncBody] is the function that the handler of [gitcc.sync] runs under
    [withProgress], and [smartCheckoutBody] the function that the handler
    of [gitcc.smartCheckout] hands to [withRepo], both for the active
    repository [repo]. *)

(** [choice === 'Cancel'] and the like, for an optional string. *)
Definition isText (o : option string) (s : string) : bool :=
  match o with
  | Some v => String.eqb v s
  | None => false
  end.

Definition syncChoices : list string :=
  ["Rebase onto upstream"; "Merge upstream into current"; "Cancel"].

Definition divergedPlaceHolder : string :=
  "Branch is diverged. Choose a sync strategy.".

(** The corrective step of [gitcc.sync], after the first status; [false]
    is the [return] of the cancelled choice. *)
Definition syncCorrect (cfg : GitCcConfig) (repo : RepositoryInfo)
  (status : StatusInfo) : Async bool :=
  if (0 <? st_ahead status)%N && (0 <? st_behind status)%N then
    picked ← await (ShowQuickPick syncChoices divergedPlaceHolder);
    let choice := picked ≫= (fun i => syncChoices !! i) in
    if isText choice "Cancel" || negb (Js.truthy choice) then mret false
    else
      let rebasing := Js.startsWith "Rebase" (Js.orElse choice "") in
      post (ProgressReport (if rebasing then "Rebasing..." else "Merging...") 30);;
      if rebasing then
        (if negb (Js.truthy (st_upstream status))
         then throw (PlainError "no upstream configured")
         else rebaseCurrentOnto (ri_rootUri repo) (Js.orElse (st_upstream status) ""));;
        mret true
      else
        (if negb (Js.truthy (st_upstream status))
         then throw (PlainError "no upstream configured")
         else mergeIntoCurrent (ri_rootUri repo) (Js.orElse (st_upstream status) ""));;
        mret true
  else if (0 <? st_behind status)%N then
    post (ProgressReport "Pulling..." 30);;
    pull (ri_rootUri repo) (pullRebase cfg) (defaultRemote cfg);;
    mret true
  else mret true.

(** The last step of [gitcc.sync]: status once more, push if still ahead. *)
Definition syncPush (cfg : GitCcConfig) (repo : RepositoryInfo) : Async unit :=
  status ← getStatus (ri_rootUri repo);
  (if (0 <? st_ahead status)%N then
     post (ProgressReport "Pushing..." 40);;
     push (ri_rootUri repo) (defaultRemote cfg) false
   else mret tt);;
  post (ProgressReport "Done" 10);;
  post (InformationNotice "Sync complete.").

Definition syncBody (cfg : GitCcConfig) (repo : RepositoryInfo) : Async unit :=
  post (ProgressReport "Fetching..." 20);;
  fetch (ri_rootUri repo) (defaultRemote cfg);;
  status ← getStatus (ri_rootUri repo);
  proceed ← syncCorrect cfg repo status;
  if proceed : bool then syncPush cfg repo else mret tt.

Definition pickBranch (repoUri : Uri) (currentBranch placeholder : string)
  : Async (option BranchInfo) :=
  branches ← getBranches repoUri (Some currentBranch);
  picked ← await (ShowQuickPick (List.map bi_shortName branches) placeholder);
  mret (picked ≫= (fun i => branches !! i)).

(** [branchArg ?? (await pickBranch(...))] *)
Definition chooseTarget (repo : RepositoryInfo) (branchArg : option BranchInfo)
  : Async (option BranchInfo) :=
  match branchArg with
  | Some b => mret (Some b)
  | None => pickBranch (ri_rootUri repo) (ri_currentBranch repo)
              "Smart checkout target branch"
  end.

Inductive CheckoutAction := actAuto | actCommit | actCancel.

Definition strategyItems : list (string * CheckoutAction) :=
  [("Auto-stash and checkout", actAuto);
   ("Open Commit flow", actCommit);
   ("Cancel", actCancel)].

Definition strategyPlaceHolder : string :=
  "Working tree has changes. Choose a strategy.".

Definition stashPrompt : string := "Auto-stash created. Apply stash now?".

(** [status.staged.length + ... + status.conflicts.length] *)
Definition dirtyCount (status : StatusInfo) : nat :=
  length (st_staged status) + length (st_unstaged status)
  + length (st_untracked status) + length (st_conflicts status).

Section SmartCheckout.

(** [new Date(ms).toISOString()], of the JavaScript runtime. *)
Variable toISOString : Z -> string.

(** [`auto: ${timestamp} ${status.branch}`] *)
Definition autoStashMessage (nowMs : Z) (branch : string) : string :=
  "auto: " +:+ Js.replaceAllChar ":" "-" (toISOString nowMs) +:+ " " +:+ branch.

(** The dirty-tree step: [None] is a [return] of the handler, [Some b]
    goes on to the checkout with [autoStashed = b]. *)
Definition resolveDirty (cfg : GitCcConfig) (repo : RepositoryInfo)
  (status : StatusInfo) : Async (option bool) :=
  if (0 <? dirtyCount status)%nat then
    action ←
      match smartCheckoutDefaultStrategy cfg with
      | autoStash => mret actAuto
      | cancel => mret actCancel
      | ask =>
          picked ← await (ShowQuickPick (List.map fst strategyItems) strategyPlaceHolder);
          mret (Js.orElse (picked ≫= (fun i => snd <$> strategyItems !! i)) actCancel)
      end;
    match action with
    | actCommit => await (ExecuteCommand "gitcc.commit");; mret None
    | actCancel => mret None
    | actAuto =>
        nowMs ← dateNow;
        stash (ri_rootUri repo) (Some (autoStashMessage nowMs (st_branch status))) false;;
        mret (Some true)
    end
  else mret (Some false).

(** The offer that follows an auto-stash. *)
Definition offerStashRestore (repo : RepositoryInfo) : Async unit :=
  choice ← await (ShowInformationMessage stashPrompt ["Apply"; "Pop"; "Later"]);
  if isText choice "Apply"
  then stashApply (ri_rootUri repo) "stash@{0}" false
  else if isText choice "Pop"
       then stashApply (ri_rootUri repo) "stash@{0}" true
       else mret tt.

Definition checkoutAndRecord (repo : RepositoryInfo) (target : BranchInfo)
  (autoStashed : bool) : Async unit :=
  checkoutBranch (ri_rootUri repo) (bi_shortName target);;
  recordCheckout (fsPath (ri_rootUri repo)) (bi_shortName target);;
  if autoStashed then offerStashRestore repo else mret tt.

(** The handler once the target branch is known. *)
Definition smartCheckoutTo (cfg : GitCcConfig) (repo : RepositoryInfo)
  (target : BranchInfo) : Async unit :=
  status ← getStatus (ri_rootUri repo);
  if (0 <? length (st_conflicts status))%nat then
    post (ErrorNotice "Resolve conflicts before switching branches.")
  else
    resolved ← resolveDirty cfg repo status;
    match resolved with
    | None => mret tt
    | Some autoStashed => checkoutAndRecord repo target autoStashed
    end.

Definition smartCheckoutBody (cfg : GitCcConfig) (repo : RepositoryInfo)
  (branchArg : option BranchInfo) : Async unit :=
  target ← chooseTarget repo branchArg;
  match target with
  | None => mret tt
  | Some target => smartCheckoutTo cfg repo target
  end.

End SmartCheckout.

(** ** The event loop: several tasks on one heap

    A task is run until its next [await]; a suspended task is resumed, with
    the answer to what it awaits, on the heap that the other tasks have left
    in the meantime. *)









(** ** Definitions that follow the words of the specification

    They are compared below with the functions translated from the sources. *)

(** The ordered table of failure signatures of the error classifier: the
    substrings of one row, and what the row answers. *)
Definition errorTable : list (list string * Suggestion) :=
  [ (["not a git repository"],
     mkSuggestion "Selected folder is not a Git repository." []);
    (["no upstream configured"],
     mkSuggestion "No upstream configured for this branch." ["Set Upstream"]);
    (["could not read from remote repository"; "authentication failed"],
     mkSuggestion "Authentication failed. Check credentials and use VS Code Git auth." []);
    (["pathspec"],
     mkSuggestion "Branch or file was not found. Refresh and retry." []);
    (["nothing to commit"],
     mkSuggestion "Nothing to commit. Stage changes first." []);
    (["merge conflict"],
     mkSuggestion "Repository has conflicts. Resolve conflicts before continuing." []);
    (["would be overwritten by checkout"],
     mkSuggestion "Checkout would overwrite local changes." ["Smart Checkout"]);
    (["non-fast-forward"],
     mkSuggestion "Push rejected (non-fast-forward)." ["Pull then Push"; "Force with Lease"]) ].

(** First match wins. *)
Fixpoint firstMatch (table : list (list string * Suggestion)) (source : string)
  : option Suggestion :=
  match table with
  | [] => None
  | (signatures, answer) :: rest =>
      if existsb (fun signature => Js.includes signature source) signatures
      then Some answer
      else firstMatch rest source
  end.

(** The rows of the table above the non-fast-forward row. *)
Definition earlierSignatures : list string :=
  ["not a git repository"; "no upstream configured";
   "could not read from remote repository"; "authentication failed";
   "pathspec"; "nothing to commit"; "merge conflict";
   "would be overwritten by checkout"].

(** A file record of the status output: a line of kind [1] or [2]. *)
Definition isFileRecord (line : string) : bool :=
  Js.startsWith "1 " line || Js.startsWith "2 " line.

(** "Files whose two-character code has at least one non-empty side". *)
Definition hasNonEmptySide (line : string) : bool :=
  isFileRecord line &&
  let '(x, y, _) := recordFields line in
  negb (String.eqb x ".") || negb (String.eqb y ".").

Definition filesWithNonEmptySide (output : string) : nat :=
  length (List.filter hasNonEmptySide (statusLines output)).

(** ** Auxiliary definitions of the statements *)

(** What one file record adds to [staged.length + unstaged.length]: one for
    each non-empty side, unless the pair is a conflict pattern. *)
Definition sidesPlaced (line : string) : nat :=
  if isFileRecord line then
    let '(x, y, _) := recordFields line in
    if isConflictPair x y then 0
    else (if String.eqb x "." then 0 else 1) + (if String.eqb y "." then 0 else 1)
  else 0.

(** The code unit [c] occurs in [s]. *)
Fixpoint occursIn (c : ascii) (s : string) : bool :=
  match s with
  | EmptyString => false
  | String d s' => Ascii.eqb c d || occursIn c s'
  end.

(** [s] begins with a decimal digit. *)
Definition startsWithDigit (s : string) : bool :=
  match s with
  | EmptyString => false
  | String c _ => Js.isDigit c
  end.

(** A non-empty run of decimal digits. *)
Definition isDigitRun (s : string) : bool :=
  negb (String.eqb s "") && allDigits s.

(** [git -C <root> args], as [runGit] launches it for [repo]. *)
Definition gitArgv (repo : RepositoryInfo) (args : list string) : list string :=
  "-C" :: fsPath (ri_rootUri repo) :: args.

Definition statusArgs : list string := ["status"; "--porcelain=v2"; "-b"].

Definition fetchArgs (cfg : GitCcConfig) : list string :=
  ["fetch"; "--prune"] ++ remoteArg (defaultRemote cfg).

Definition pushArgs (cfg : GitCcConfig) : list string :=
  ["push"] ++ remoteArg (defaultRemote cfg).

(** The status that a successful [git status] answers with. *)
Definition statusOf (result : ExecOutput) : StatusInfo :=
  parseStatusPorcelainV2 (Js.trimEnd (stdout result)).

(** What [runGitRaw] throws for a failed launch. *)
Definition gitError (failure : ExecFailure) : Exn :=
  GitCcError (failure_message failure) (failure_stderr failure)
             (numericCode (failure_code failure)).

(** The heap that [invalidateShallowCache cwd args] leaves. *)
Definition purged (cwd : string) (args : list string) (h : Heap) : Heap :=
  if isWriteCommand args
  then setGitCache (withoutKeysIncluding cwd (gitCache h)) h
  else h.

(** The quick picks of a trace. *)
Definition isQuickPick (ev : Event * Z) : bool :=
  match fst ev with
  | EvQuickPick _ _ _ => true
  | _ => false
  end.


(** The target of a smart checkout has been chosen, by the interactions
    [pre] from the heap [h], leaving the heap [h1]. *)
Definition targetChosen (repo : RepositoryInfo) (branchArg : option BranchInfo)
  (h : Heap) (pre : list (Event * Z)) (h1 : Heap) (target : BranchInfo) : Prop :=
  runs (chooseTarget repo branchArg h) pre h1 (Ok (Some target)).

(** ** Sample inputs *)

(** A text with line feeds between its lines. *)
Definition textOf (lines : list string) : string :=
  Js.join (String Js.LF EmptyString) lines.

(** One row of [for-each-ref] output. *)
Definition refRow (refName upstreamShort track epoch : string) : string :=
  Js.join (String Js.TAB EmptyString) [refName; upstreamShort; track; epoch].

Definition sampleUri : Uri := mkUri "/work/app" "file:///work/app".

Definition sampleRepo (id : string) : RepositoryInfo :=
  mkRepositoryInfo id sampleUri "app" "main" false (Some "origin/main") 0 0 0 false.

Definition rejectedPush : string * option string :=
  ("Command failed: git -C /work/app push origin",
   Some "! [rejected] main -> main (non-fast-forward)").

(** The same rejection, from a directory named after a git term. *)
Definition misfiledPush : string * option string :=
  ("Command failed: git -C /work/pathspec-tools push origin",
   Some "! [rejected] main -> main (non-fast-forward)").

Definition sampleBranches : string :=
  textOf [ refRow "refs/heads/main" "origin/main" "" "1700000100";
           refRow "refs/heads/hotfix/ci" "-" "" "1700000000";
           refRow "refs/heads/topic" "origin/topic" "[ahead 3, behind 1]" "1700000200";
           refRow "refs/remotes/origin/main" "" "" "1700000100" ].

(** A row whose tracking field carries [+N]/[-N] tokens instead. *)
Definition plusMinusRow : string :=
  refRow "refs/heads/topic" "origin/topic" "+3 -1" "1700000200".

Definition partlyStagedRecord : string :=
  "1 MM N... 100644 100644 100644 1111111 2222222 src/app.ts".

Definition sampleStatus : string :=
  textOf [ "# branch.oid 3333333";
           "# branch.head feature/login";
           "# branch.upstream origin/feature/login";
           "# branch.ab +3 -1";
           "1 M. N... 100644 100644 100644 1111111 2222222 README.md";
           partlyStagedRecord;
           "1 .M N... 100644 100644 100644 1111111 1111111 src/util.ts";
           "1 AA N... 100644 100644 100644 1111111 2222222 both added.txt";
           "? notes.txt" ].

Definition headerlessStatus : string :=
  textOf [ "1 .M N... 100644 100644 100644 1111111 1111111 src/util.ts";
           "? notes.txt" ].

(** Worktree listings.  [splitBlocks]: a path in one block, its head in
    the next.  [bareThenLinked]: what git prints for a bare repository with
    one linked worktree. *)
Definition splitBlocks : string :=
  textOf [ "worktree /work/app"; ""; "HEAD 1111111" ].

Definition bareThenLinked : string :=
  textOf [ "worktree /work/app.git"; "bare"; "";
           "worktree /work/app-feature"; "HEAD 1111111"; "branch refs/heads/feature"; "" ].

Definition twoWorktrees : string :=
  textOf [ "worktree /work/app"; "HEAD 1111111"; "branch refs/heads/main"; "";
           "worktree /work/app-review"; "HEAD 2222222"; "detached"; "" ].

(** ** Sample heaps, environments and schedules *)

Definition emptyHeap : Heap := mkHeap 0 ∅ ∅ [].

Definition mainBranch : BranchInfo :=
  mkBranchInfo "refs/heads/main" "main" local None true (Some "origin/main")
    0 0 true false (EpochSeconds 1700000100).

(** A heap whose cache holds a branch list of [sampleUri]. *)
Definition cachedHeap : Heap :=
  mkHeap 5 {[ branchesKey sampleUri (Some "main") := mkCacheEntry 0 (BranchList [mainBranch]) ]}
         ∅ [].

(** A repository in a directory whose name has a space: [toString()]
    percent-encodes it, [fsPath] does not. *)
Definition spacedUri : Uri := mkUri "/work/my app" "file:///work/my%20app".

Definition spacedHeap : Heap :=
  mkHeap 5 {[ branchesKey spacedUri (Some "main") := mkCacheEntry 0 (BranchList [mainBranch]) ]}
         ∅ [].

(** An environment that answers subprocesses by [git], quick picks by
    [pick], message prompts by [info], one second after the other. *)
Definition scripted
  (git : list (Event * Z) -> list string -> ExecOutput + ExecFailure)
  (pick : option nat) (info : option string) : Environment :=
  fun X past e =>
    (match e in Eff X return X with
     | ExecFile _ argv => git past argv
     | ShowQuickPick _ _ => pick
     | ShowInformationMessage _ _ => info
     | ExecuteCommand _ => tt
     | MementoUpdate _ => tt
     end,
     (1000 * Z.of_nat (S (length past)))%Z).



Definition sampleConfig (strategy : SmartCheckoutStrategy) : GitCcConfig :=
  mkGitCcConfig 10 false true ["feature/"; "bugfix/"; "hotfix/"; "release/"]
    true "origin" "" strategy postNone false.

Definition divergedStatus : string :=
  textOf [ "# branch.oid 3333333"; "# branch.head main";
           "# branch.upstream origin/main"; "# branch.ab +2 -1" ].

Definition aheadStatus : string :=
  textOf [ "# branch.oid 4444444"; "# branch.head main";
           "# branch.upstream origin/main"; "# branch.ab +2 -0" ].

Definition isRebaseCall (ev : Event * Z) : bool :=
  match execArgv ev with
  | Some argv => isText (argv !! 2%nat) "rebase"
  | None => false
  end.

(** A repository that is diverged until it is rebased; every command
    succeeds. *)
Definition divergedGit (past : list (Event * Z)) (argv : list string)
  : ExecOutput + ExecFailure :=
  if isText (argv !! 2%nat) "status"
  then inl (mkExecOutput (if existsb isRebaseCall past then aheadStatus else divergedStatus) "")
  else inl (mkExecOutput "" "").

(** The operator picks the first item: "Rebase onto upstream". *)
Definition rebaseTrace : list (Event * Z) :=
  fst (fst (execute (scripted divergedGit (Some 0%nat) None) []
              (syncBody (sampleConfig ask) (sampleRepo "a") emptyHeap))).

(** A fixed rendering of the clock for the examples. *)
Definition sampleISO (nowMs : Z) : string := "2024-05-06T07:08:09.000Z".

Definition dirtyStatus : string :=
  textOf [ "# branch.oid 3333333"; "# branch.head feature/login";
           "1 .M N... 100644 100644 100644 1111111 1111111 src/app.ts" ].

Definition conflictedStatus : string :=
  textOf [ "# branch.oid 3333333"; "# branch.head feature/login";
           "u UU N... 100644 100644 100644 100644 1111111 2222222 3333333 src/app.ts" ].

(** Every command succeeds; [git status] prints [statusText]. *)
Definition steadyGit (statusText : string) (past : list (Event * Z))
  (argv : list string) : ExecOutput + ExecFailure :=
  if isText (argv !! 2%nat) "status"
  then inl (mkExecOutput statusText "")
  else inl (mkExecOutput "" "").

(** Smart checkout to [main] with the strategy [autoStash]: the result of
    the run in a repository whose status is [statusText]. *)
Definition autoStashRun (statusText : string)
  : list (Event * Z) * Heap * Result unit :=
  execute (scripted (steadyGit statusText) None (Some "Later")) []
    (smartCheckoutBody sampleISO (sampleConfig autoStash) (sampleRepo "a")
       (Some mainBranch) emptyHeap).

(** * Further code of the extension

    The functions below complete the embedding of the files above: the
    remaining parsers, the regular expressions they use, the rest of
    [GitService] and [BranchMemoryService], the registry, the state store,
    more command handlers and the branches view. *)

(** ** Regular expressions

    The fragment of JavaScript's regular expressions that the sources
    use: literals, the classes [\d], [\s], [.] and [[^c]] under the greedy
    quantifiers [*] and [+], capturing groups, the optional group
    [(?:r)?], and the assertions [^] and [$] (no flags).  Matching is by
    backtracking, the longest repetition first. *)

Module Rx.

Inductive Class :=
| Digit
| Space
| Dot
| Except (c : ascii).

(** [.] excludes the line terminators; below 256 these are line feed and
    carriage return. *)
Definition inClass (k : Class) (c : ascii) : bool :=
  match k with
  | Digit => Js.isDigit c
  | Space => Js.isSpace c
  | Dot => negb (Ascii.eqb c Js.LF || Ascii.eqb c Js.CR)
  | Except d => negb (Ascii.eqb c d)
  end.

Inductive Re :=
| Bol
| Eol
| Lit (s : string)
| Many (k : Class) (least : nat)
| Group (i : nat) (r : Re)
| Maybe (r : Re)
| Cat (r1 r2 : Re).

Record Match := mkMatch {
  m_start : nat;
  m_end : nat;
  m_rest : string;
  m_groups : gmap nat string }.

(** The length of the longest run of [k] at the start of [s]. *)
Fixpoint spanLength (k : Class) (s : string) : nat :=
  match s with
  | EmptyString => 0
  | String c s' => if inClass k c then S (spanLength k s') else 0
  end.

(** A greedy quantifier tries [n] repetitions, then fewer, down to
    [least]. *)
Fixpoint longestFirst {T : Type} (n least : nat) (attempt : nat -> option T)
  : option T :=
  if (n <? least)%nat then None
  else match attempt n with
       | Some x => Some x
       | None =>
           match n with
           | O => None
           | S n' => longestFirst n' least attempt
           end
       end.

(** [run r at s caps k]: match [r] at the position [at], where [s] is the
    rest of the input, then go on with [k]; a failure of [k] backtracks
    into [r]. *)
Fixpoint run {T : Type} (r : Re) (pos : nat) (s : string) (caps : gmap nat string)
  (k : nat -> string -> gmap nat string -> option T) : option T :=
  match r with
  | Bol => if (pos =? 0)%nat then k pos s caps else None
  | Eol => if String.eqb s "" then k pos s caps else None
  | Lit p =>
      if Js.startsWith p s
      then k (pos + String.length p)%nat (Js.dropChars (String.length p) s) caps
      else None
  | Many c least =>
      longestFirst (spanLength c s) least
        (fun j => k (pos + j)%nat (Js.dropChars j s) caps)
  | Group i r' =>
      run r' pos s caps
        (fun pos' s' caps' => k pos' s' (<[i := Js.takeChars (pos' - pos) s]> caps'))
  | Maybe r' =>
      match run r' pos s caps
              (fun pos' s' caps' => if (pos' =? pos)%nat then None else k pos' s' caps')
      with
      | Some x => Some x
      | None => k pos s caps
      end
  | Cat r1 r2 =>
      run r1 pos s caps (fun pos' s' caps' => run r2 pos' s' caps' k)
  end.

(** The leftmost match: each start position in turn. *)
Fixpoint search (r : Re) (pos : nat) (s : string) : option Match :=
  match run r pos s ∅ (fun pos' s' caps => Some (mkMatch pos pos' s' caps)) with
  | Some m => Some m
  | None =>
      match s with
      | EmptyString => None
      | String _ s' => search r (S pos) s'
      end
  end.

(** [s.match(r)] for a pattern without the [g] flag. *)
Definition exec (r : Re) (s : string) : option Match := search r 0 s.

(** [match[i]] for a capturing group [i >= 1]. *)
Definition group (i : nat) (m : Match) : option string := m_groups m !! i.

End Rx.

(** ** The remaining parsers ([src/domain/parsers.ts]) *)

Record StashEntry := mkStashEntry {
  se_ref : string;
  se_index : N;
  se_branch : option string;
  se_message : string;
  se_date : option string;
  se_baseCommit : option string }.

(** [/^(stash@\{(\d+)\}):(?:\s*On\s+([^:]+):)?\s*(.+)$/] *)
Definition stashPattern : Rx.Re :=
  Rx.Cat Rx.Bol
    (Rx.Cat (Rx.Group 1
               (Rx.Cat (Rx.Lit "stash@{")
                  (Rx.Cat (Rx.Group 2 (Rx.Many Rx.Digit 1)) (Rx.Lit "}"))))
       (Rx.Cat (Rx.Lit ":")
          (Rx.Cat (Rx.Maybe
                     (Rx.Cat (Rx.Many Rx.Space 0)
                        (Rx.Cat (Rx.Lit "On")
                           (Rx.Cat (Rx.Many Rx.Space 1)
                              (Rx.Cat (Rx.Group 3 (Rx.Many (Rx.Except ":") 1))
                                 (Rx.Lit ":"))))))
             (Rx.Cat (Rx.Many Rx.Space 0)
                (Rx.Cat (Rx.Group 4 (Rx.Many Rx.Dot 1)) Rx.Eol))))).

(** The body of the loop of [parseStashList]: [None] is [continue].  The
    index is the value of the digits of the selector, which is
    [Number(match[2])] up to 2^53. *)
Definition stashRow (line : string) : option StashEntry :=
  match Rx.exec stashPattern line with
  | None => None
  | Some m =>
      Some (mkStashEntry (Js.orElse (Rx.group 1 m) "")
              (Js.digitsValue (Js.orElse (Rx.group 2 m) ""))
              (Js.trim <$> Rx.group 3 m)
              (Js.trim (Js.orElse (Rx.group 4 m) ""))
              None None)
  end.

Definition parseStashList (output : string) : list StashEntry :=
  omap stashRow (nonEmptyLines output).

(** [formatRelativeAge], for a whole number of seconds [epoch] and
    [Date.now()] equal to [nowMs].  The source computes in doubles; for
    [0 <= nowMs <= 8640000000000000] (the time values of [Date]) and
    [0 < epoch <= 2^53] its results are those of the integer arithmetic
    below: [nowMs / 1000] is rounded by less than 1/1000, so its floor is
    the integer quotient; the difference with [epoch] is exact where it is
    positive; the quotients by 60, 3600 and 86400 are floored likewise; and
    a number below 10^21 prints in decimal digits.  The statements about
    [formatRelativeAge] are for that range. *)
Definition formatRelativeAge (nowMs : Z) (epochSeconds : option Z) : string :=
  match epochSeconds with
  | None => "unknown"
  | Some epoch =>
      if (epoch =? 0)%Z then "unknown"
      else
        let diff := Z.max 1 (nowMs / 1000 - epoch) in
        if (diff <? 60)%Z then numberText (Z.to_N diff) +:+ "s"
        else if (diff <? 3600)%Z then numberText (Z.to_N (diff / 60)) +:+ "m"
        else if (diff <? 86400)%Z then numberText (Z.to_N (diff / 3600)) +:+ "h"
        else numberText (Z.to_N (diff / 86400)) +:+ "d"
  end.

(** ** GitService, continued ([src/services/gitService.ts]) *)

(** [try { body } catch { handler }] *)
Fixpoint catchRun {A : Type} (r : Run A) (handler : Exn -> Async A) : Run A :=
  match r with
  | Done h (Ok a) => Done h (Ok a)
  | Done h (Thrown e) => handler e h
  | Await h e k => Await h e (fun x h' => catchRun (k x h') handler)
  end.

Definition tryCatch {A : Type} (body : Async A) (handler : Exn -> Async A) : Async A :=
  fun h => catchRun (body h) handler.

Definition isGitAvailable : Async bool :=
  tryCatch (runGitRaw [] ["--version"];; mret true) (fun _ => mret false).

Definition getStashes (repoUri : Uri) : Async (list StashEntry) :=
  output ← runGit (fsPath repoUri) ["stash"; "list"; "--date=relative"];
  mret (parseStashList output).

Definition getWorktrees (repoUri : Uri) : Async (list WorktreeInfo) :=
  output ← runGit (fsPath repoUri) ["worktree"; "list"; "--porcelain"];
  mret (parseWorktrees output).

Definition discardAll (repoUri : Uri) : Async unit :=
  runGit (fsPath repoUri) ["restore"; "--worktree"; "--"; "."];;
  runGit (fsPath repoUri) ["clean"; "-fd"];;
  mret tt.

Definition abortMergeOrRebase (repoUri : Uri) : Async unit :=
  tryCatch (runGit (fsPath repoUri) ["merge"; "--abort"];; mret tt)
           (fun _ => runGit (fsPath repoUri) ["rebase"; "--abort"];; mret tt).

Definition getTopLevel (repoPath : string) : Async (option string) :=
  tryCatch (output ← runGit repoPath ["rev-parse"; "--show-toplevel"];
            mret (Some (Js.trim output)))
           (fun _ => mret None).

Definition getMiniLogForRange (repoUri : Uri) (range : string) (limit : N)
  : Async (list MiniLogEntry) :=
  output ← runGit (fsPath repoUri)
             ["log"; range; "-n"; numberText limit; "--date=relative"; miniLogFormat];
  mret (parseMiniLog output).

(** [s.split(/\s+/)]: the pieces between the runs of white space. *)
Fixpoint splitSpacesFrom (inGap : bool) (s : string) : list string :=
  match s with
  | EmptyString => [EmptyString]
  | String c s' =>
      if Js.isSpace c
      then (if inGap then splitSpacesFrom true s'
            else EmptyString :: splitSpacesFrom true s')
      else Js.consHead c (splitSpacesFrom false s')
  end.

Definition splitSpaces (s : string) : list string := splitSpacesFrom false s.

(** [Number(raw)]: the value of a run of decimal digits (the empty run is
    zero), which is the number of the source up to 2^53; for any other
    text the field stands for [Number] of the text it keeps. *)
Inductive CountField :=
| CountOf (n : N)
| CountOfText (raw : string).

Definition countOf (raw : option string) : CountField :=
  let text := Js.orElse raw "0" in
  if allDigits text then CountOf (Js.digitsValue text) else CountOfText text.

Record BranchComparison := mkBranchComparison {
  bc_ahead : CountField;
  bc_behind : CountField;
  bc_leftOnly : list MiniLogEntry;
  bc_rightOnly : list MiniLogEntry }.

Definition compareBranches (repoUri : Uri) (left right : string)
  : Async BranchComparison :=
  counts ← runGit (fsPath repoUri)
             ["rev-list"; "--left-right"; "--count"; left +:+ "..." +:+ right];
  let pieces := splitSpaces (Js.trim counts) in
  let leftCountRaw := pieces !! 0%nat in
  let rightCountRaw := pieces !! 1%nat in
  leftOnly ← getMiniLogForRange repoUri (right +:+ ".." +:+ left) 20;
  rightOnly ← getMiniLogForRange repoUri (left +:+ ".." +:+ right) 20;
  mret (mkBranchComparison (countOf leftCountRaw) (countOf rightCountRaw)
          leftOnly rightOnly).

(** ** Branch memory, continued ([src/services/branchMemoryService.ts]) *)

(** [names.includes(name)] *)
Definition includesName (names : list string) (name : string) : bool :=
  existsb (String.eqb name) names.

Definition pin (repoKey branchName : string) : Async unit :=
  memory ← getMemory repoKey;
  if negb (includesName (favorites memory) branchName)
  then saveMemory repoKey
         (mkRepoBranchMemory (take 50 (branchName :: favorites memory))
                             (recents memory))
  else mret tt.

Definition unpin (repoKey branchName : string) : Async unit :=
  memory ← getMemory repoKey;
  saveMemory repoKey
    (mkRepoBranchMemory
       (List.filter (fun name => negb (String.eqb name branchName)) (favorites memory))
       (recents memory)).

Definition getFavorites (h : Heap) (repoKey : string) : list string :=
  favorites (memoryOf h repoKey).

Definition isFavorite (h : Heap) (repoKey branchName : string) : bool :=
  includesName (getFavorites h repoKey) branchName.

(** ** State store ([src/state/stateStore.ts])

    [Date.now()] is the argument [now]. *)

Module StateStore.

Record Entry (T : Type) := mkEntry {
  value : T;
  timestamp : Z }.

Arguments mkEntry {T} _ _.
Arguments value {T} _.
Arguments timestamp {T} _.

Definition t (T : Type) : Type := gmap string (Entry T).

Definition get {T : Type} (key : string) (store : t T) : option T :=
  value <$> (store : gmap string (Entry T)) !! key.

Definition set {T : Type} (key : string) (v : T) (now : Z) (store : t T) : t T :=
  <[key := mkEntry v now]> (store : gmap string (Entry T)).

(** [invalidate(key?)]: without a key, and with the empty key, everything
    goes. *)
Definition invalidate {T : Type} (key : option string) (store : t T) : t T :=
  if negb (Js.truthy key) then (∅ : gmap string (Entry T))
  else delete (Js.orElse key "") (store : gmap string (Entry T)).

Definition isFresh {T : Type} (key : string) (maxAgeMs now : Z) (store : t T) : bool :=
  match (store : gmap string (Entry T)) !! key with
  | None => false
  | Some cached => (now - timestamp cached <=? maxAgeMs)%Z
  end.

End StateStore.

(** ** Repository registry, continued ([src/services/repositoryManager.ts]) *)

(** [Array.prototype.sort] is stable; with a consistent comparator its
    result is the stable sorted arrangement, computed here by insertion. *)
Fixpoint insertBy {A : Type} (compare : A -> A -> Z) (x : A) (sorted : list A) : list A :=
  match sorted with
  | [] => [x]
  | y :: rest =>
      if (compare x y <=? 0)%Z then x :: y :: rest
      else y :: insertBy compare x rest
  end.

Definition sortBy {A : Type} (compare : A -> A -> Z) (l : list A) : list A :=
  foldr (insertBy compare) [] l.

(** [process.platform === 'win32' ? '\\' : '/'] *)
Definition pathSeparator (win32 : bool) : string :=
  if win32 then "\" else "/".

(** The filter of [setActiveRepositoryForUri]. *)
Definition enclosesPath (win32 : bool) (targetPath : string) (repo : RepositoryInfo)
  : bool :=
  String.eqb targetPath (fsPath (ri_rootUri repo))
  || Js.startsWith (fsPath (ri_rootUri repo) +:+ pathSeparator win32) targetPath.

(** [(a, b) => b.rootUri.fsPath.length - a.rootUri.fsPath.length] *)
Definition deeperFirst (a b : RepositoryInfo) : Z :=
  Z.of_nat (String.length (fsPath (ri_rootUri b)))
  - Z.of_nat (String.length (fsPath (ri_rootUri a))).

(** The new registry and the returned flag. *)
Definition setActiveRepositoryForUri (win32 : bool) (uri : Uri) (m : RepositoryManager)
  : RepositoryManager * bool :=
  let targetPath := fsPath uri in
  let matches :=
    sortBy deeperFirst (List.filter (enclosesPath win32 targetPath) (repositories m)) in
  match matches !! 0%nat with
  | None => (m, false)
  | Some found =>
      if isActiveId m found then (m, false)
      else (mkRepositoryManager (Some (ri_id found)) (repositories m), true)
  end.

(** The registry with its cache of repository descriptions. *)
Record Registry := mkRegistry {
  manager : RepositoryManager;
  infoCache : StateStore.t RepositoryInfo }.

(** The assignments to [activeRepositoryId] at the end of
    [refreshRepositories]. *)
Definition selectActive (active : option string) (next : list RepositoryInfo)
  : option string :=
  if negb (Js.truthy active) && (0 <? length next)%nat then ri_id <$> next !! 0%nat
  else if Js.truthy active
          && negb (existsb (fun r => String.eqb (ri_id r) (Js.orElse active "")) next)
       then ri_id <$> next !! 0%nat
       else active.

Section RefreshRepositories.

(** [GitService.detectRepositories] and [GitService.getRepositoryInfo],
    which go through the file system of the workspace. *)
Variable detectRepositories : Async (list Uri).
Variable getRepositoryInfo : Uri -> Async RepositoryInfo.

(** The loop of [refreshRepositories], with the cache and [next]. *)
Fixpoint gatherRepositories (force : bool) (found : list Uri)
  (cache : StateStore.t RepositoryInfo) (next : list RepositoryInfo)
  : Async (StateStore.t RepositoryInfo * list RepositoryInfo) :=
  match found with
  | [] => mret (cache, next)
  | repoUri :: rest =>
      let key := uriText repoUri in
      now ← dateNow;
      match (if negb force && StateStore.isFresh key 3000 now cache
             then StateStore.get key cache else None) with
      | Some cached => gatherRepositories force rest cache (next ++ [cached])
      | None =>
          info ← getRepositoryInfo repoUri;
          stored ← dateNow;
          gatherRepositories force rest (StateStore.set key info stored cache)
            (next ++ [info])
      end
  end.

(** [refreshRepositories], for a registry that no other handler touches
    while the refresh is suspended: its fields are threaded through the
    run. *)
Definition refreshRepositories (force : bool) (registry : Registry) : Async Registry :=
  found ← detectRepositories;
  gathered ← gatherRepositories force found (infoCache registry) [];
  mret (mkRegistry
          (mkRepositoryManager
             (selectActive (activeRepositoryId (manager registry)) gathered.2)
             gathered.2)
          gathered.1).

End RefreshRepositories.

(** ** Command handlers, continued ([src/commands/registerCommands.ts])

    As for [syncBody]: the functions that the handlers hand to [withRepo],
    for the active repository [repo]. *)

(** [branchArg ?? (await pickBranch(..., placeholder))] *)
Definition argOrPick (repo : RepositoryInfo) (branchArg : option BranchInfo)
  (placeholder : string) : Async (option BranchInfo) :=
  match branchArg with
  | Some b => mret (Some b)
  | None => pickBranch (ri_rootUri repo) (ri_currentBranch repo) placeholder
  end.

Definition checkoutBranchBody (repo : RepositoryInfo) (branchArg : option BranchInfo)
  : Async unit :=
  branch ← argOrPick repo branchArg "Select branch to checkout";
  match branch with
  | None => mret tt
  | Some branch =>
      checkoutBranch (ri_rootUri repo) (bi_shortName branch);;
      recordCheckout (fsPath (ri_rootUri repo)) (bi_shortName branch)
  end.

(** [deps.branchMemoryService.getRecents(...)], read from the heap. *)
Definition readRecents (repoKey : string) : Async (list string) :=
  fun h => Done h (Ok (getRecents h repoKey)).

Definition mergeIntoCurrentBody (repo : RepositoryInfo) (branchArg : option BranchInfo)
  : Async unit :=
  branch ← argOrPick repo branchArg "Merge which branch into current?";
  match branch with
  | None => mret tt
  | Some branch =>
      if bi_isCurrent branch then mret tt
      else mergeIntoCurrent (ri_rootUri repo) (bi_shortName branch)
  end.

Definition rebaseCurrentOntoBody (repo : RepositoryInfo) (branchArg : option BranchInfo)
  : Async unit :=
  branch ← argOrPick repo branchArg "Rebase current onto which branch?";
  match branch with
  | None => mret tt
  | Some branch =>
      if bi_isCurrent branch then mret tt
      else rebaseCurrentOnto (ri_rootUri repo) (bi_shortName branch)
  end.

Definition pickStash (stashes : list StashEntry) (placeholder : string)
  : Async (option StashEntry) :=
  picked ← await (ShowQuickPick (List.map se_ref stashes) placeholder);
  mret (picked ≫= (fun i => stashes !! i)).

(** [stashArg ?? (await pickStash(await getStashes(...), placeholder))] *)
Definition stashOrPick (repo : RepositoryInfo) (stashArg : option StashEntry)
  (placeholder : string) : Async (option StashEntry) :=
  match stashArg with
  | Some s => mret (Some s)
  | None =>
      stashes ← getStashes (ri_rootUri repo);
      pickStash stashes placeholder
  end.

Definition unstashBody (repo : RepositoryInfo) : Async unit :=
  stashes ← getStashes (ri_rootUri repo);
  selected ← pickStash stashes "Select stash to apply/pop";
  match selected with
  | None => mret tt
  | Some selected =>
      picked ← await (ShowQuickPick ["apply"; "pop"] "Unstash action");
      let action := picked ≫= (fun i => ["apply"; "pop"] !! i) in
      if negb (Js.truthy action) then mret tt
      else stashApply (ri_rootUri repo) (se_ref selected) (isText action "pop")
  end.

Definition stashApplyBody (repo : RepositoryInfo) (stashArg : option StashEntry)
  : Async unit :=
  selected ← stashOrPick repo stashArg "Select stash to apply";
  match selected with
  | None => mret tt
  | Some selected => stashApply (ri_rootUri repo) (se_ref selected) false
  end.

Definition stashPopBody (repo : RepositoryInfo) (stashArg : option StashEntry)
  : Async unit :=
  selected ← stashOrPick repo stashArg "Select stash to pop";
  match selected with
  | None => mret tt
  | Some selected => stashApply (ri_rootUri repo) (se_ref selected) true
  end.

Definition runErrorAction (cfg : GitCcConfig) (action : option string) (repoUri : Uri)
  : Async unit :=
  if negb (Js.truthy action) then mret tt
  else if isText action "Set Upstream" then await (ExecuteCommand "gitcc.setUpstream")
  else if isText action "Smart Checkout" then await (ExecuteCommand "gitcc.smartCheckout")
  else if isText action "Pull then Push" then
    pull repoUri (pullRebase cfg) (defaultRemote cfg);;
    push repoUri (defaultRemote cfg) false
  else if isText action "Force with Lease"
       then await (ExecuteCommand "gitcc.forcePushWithLease")
       else mret tt.

Definition DQUOTE : ascii := ascii_of_nat 34.

Definition escapeHtml (value : string) : string :=
  Js.replaceAllChar DQUOTE "&quot;"
    (Js.replaceAllChar ">" "&gt;"
       (Js.replaceAllChar "<" "&lt;"
          (Js.replaceAllChar "&" "&amp;" value))).

(** ** Branches view ([src/providers/branchesProvider.ts]) *)

(** A [Map<string, BranchInfo[]>], in the order of its keys. *)
Definition Groups : Type := list (string * list BranchInfo).

Fixpoint groupGet (group : string) (map : Groups) : option (list BranchInfo) :=
  match map with
  | [] => None
  | (g, members) :: rest => if String.eqb g group then Some members else groupGet group rest
  end.

(** [map.set(group, list)]: a key that is present keeps its place. *)
Fixpoint groupSet (group : string) (members : list BranchInfo) (map : Groups) : Groups :=
  match map with
  | [] => [(group, members)]
  | (g, old) :: rest =>
      if String.eqb g group then (g, members) :: rest
      else (g, old) :: groupSet group members rest
  end.

(** One iteration of the grouping loops. *)
Definition addToGroup (group : string) (branch : BranchInfo) (map : Groups) : Groups :=
  groupSet group (Js.orElse (groupGet group map) [] ++ [branch]) map.

Definition localGroup (prefixes : list string) (branch : BranchInfo) : string :=
  let foundPrefix :=
    List.find (fun prefix => Js.startsWith prefix (bi_shortName branch)) prefixes in
  if Js.truthy foundPrefix then Js.replace "/" "" (Js.orElse foundPrefix "") else "other".

Definition remoteGroup (branch : BranchInfo) : string :=
  Js.orElse (bi_remoteName branch) "unknown".

Record BranchesView := mkBranchesView {
  localByGroup : Groups;
  remoteByGroup : Groups;
  favoritesShown : list BranchInfo;
  recentsShown : list BranchInfo }.

Section BranchesProvider.

(** [a.localeCompare(b)], of the JavaScript runtime. *)
Variable localeCompare : string -> string -> Z.

Definition sortGroups (map : Groups) : Groups :=
  sortBy (fun a b => localeCompare a.1 b.1) map.

Definition groupLocal (branches : list BranchInfo) (prefixes : list string) : Groups :=
  sortGroups
    (fold_left (fun map branch => addToGroup (localGroup prefixes branch) branch map)
               branches []).

Definition groupRemote (branches : list BranchInfo) : Groups :=
  sortGroups
    (fold_left (fun map branch => addToGroup (remoteGroup branch) branch map)
               branches []).

(** [new Map(branches.map((branch) => [branch.shortName, branch]))] *)
Definition byName (branches : list BranchInfo) : gmap string BranchInfo :=
  fold_left (fun map branch => <[bi_shortName branch := branch]> map) branches ∅.

(** [names.map((name) => byName.get(name)).filter(Boolean)] *)
Definition resolveNames (names : list string) (branches : list BranchInfo)
  : list BranchInfo :=
  omap (fun name => byName branches !! name) names.

(** [refresh]: the fields of the provider after it, for the active
    repository [active]. *)
Definition refreshBranches (cfg : GitCcConfig) (active : option RepositoryInfo)
  : Async BranchesView :=
  match active with
  | None => mret (mkBranchesView [] [] [] [])
  | Some repo =>
      branches ← getBranches (ri_rootUri repo) (Some (ri_currentBranch repo));
      let locals := List.filter (fun b => BranchKind_eqb (bi_kind b) local) branches in
      let remotes := List.filter (fun b => BranchKind_eqb (bi_kind b) remote) branches in
      let repoKey := fsPath (ri_rootUri repo) in
      favoriteNames ← (fun h => Done h (Ok (getFavorites h repoKey)));
      recentNames ← readRecents repoKey;
      mret (mkBranchesView
              (groupLocal locals (branchGroupingPrefixes cfg))
              (groupRemote remotes)
              (resolveNames favoriteNames branches)
              (resolveNames recentNames branches))
  end.

End BranchesProvider.

(** ** Auxiliary definitions of the further statements *)

(** A text without line feed and carriage return. *)
Definition oneLine (s : string) : bool :=
  negb (occursIn Js.LF s) && negb (occursIn Js.CR s).

(** A text that can stand in a tab-separated row. *)
Definition isField (s : string) : bool :=
  oneLine s && negb (occursIn Js.TAB s).

(** A text that [trim] leaves as it is. *)
Definition isTrimmed (s : string) : bool := String.eqb (Js.trim s) s.

(** The row that [git log] prints for a commit under [miniLogFormat]. *)
Definition logRow (e : MiniLogEntry) : string :=
  Js.join (String Js.TAB EmptyString)
    [ml_hash e; ml_author e; ml_relativeDate e; ml_subject e].

(** The groups that a pattern can bind. *)
Fixpoint groupsOf (r : Rx.Re) : list nat :=
  match r with
  | Rx.Group i r' => i :: groupsOf r'
  | Rx.Maybe r' => groupsOf r'
  | Rx.Cat r1 r2 => groupsOf r1 ++ groupsOf r2
  | _ => []
  end.

(** What the sections of a status hold: each change names the section it
    is listed in, with the codes that put it there. *)
Definition sectionsAgree (st : StatusInfo) : Prop :=
  Forall (fun c => fc_section c = staged /\ fc_x c <> "."
                   /\ isConflictPair (fc_x c) (fc_y c) = false) (st_staged st)
  /\ Forall (fun c => fc_section c = unstaged /\ fc_y c <> "."
                      /\ isConflictPair (fc_x c) (fc_y c) = false) (st_unstaged st)
  /\ Forall (fun c => fc_section c = untracked /\ fc_x c = "?" /\ fc_y c = "?")
       (st_untracked st)
  /\ Forall (fun c => fc_section c = conflicts
                      /\ isConflictPair (fc_x c) (fc_y c) = true) (st_conflicts st).

(** A text that is not empty, on one line and not padded with white
    space. *)
Definition isWord (s : string) : bool :=
  negb (String.eqb s "") && isTrimmed s && oneLine s.

(** The number of lines of a worktree listing that name a worktree. *)
Definition worktreeLines (lines : list string) : nat :=
  length (List.filter (Js.startsWith "worktree ") lines).

(** The block that [git worktree list --porcelain] prints for a worktree
    with a checked-out commit, blank line included. *)
Definition worktreeBlock (w : WorktreeInfo) : list string :=
  ["worktree " +:+ wt_path w; "HEAD " +:+ wt_head w]
  ++ match wt_branch w with Some b => ["branch refs/heads/" +:+ b] | None => [] end
  ++ (if wt_detached w then ["detached"] else [])
  ++ match wt_prunable w with Some p => ["prunable " +:+ p] | None => [] end
  ++ [""].

(** A description of a worktree that is not bare, as the listing can show
    it: words for the path, the head, the branch and the reason. *)
Definition listedWorktree (w : WorktreeInfo) : Prop :=
  isWord (wt_path w) = true /\ isWord (wt_head w) = true
  /\ (forall b, wt_branch w = Some b -> isWord b = true)
  /\ (forall p, wt_prunable w = Some p -> isWord p = true)
  /\ wt_bare w = false.

(** The arguments of the listings behind [getBranches] and [getMiniLog]. *)
Definition forEachRefArgs : list string :=
  ["for-each-ref"; forEachRefFormat; "refs/heads"; "refs/remotes"].

Definition miniLogArgs (range : string) (limit : N) : list string :=
  ["log"; range; "-n"; numberText limit; "--date=relative"; miniLogFormat].

(** The cache entry under [key] is missing or older than [ttl]. *)
Definition staleOrMissing (key : string) (ttl : Z) (h : Heap) : Prop :=
  match gitCache h !! key with
  | None => True
  | Some cached => (ttl < clock h - ce_at cached)%Z
  end.

(** The git commands of a trace: the arguments after [-C cwd] of each
    subprocess, in the order of the launches. *)
Definition gitCommands (tr : list (Event * Z)) : list (list string) :=
  omap (fun ev => match ev.1 with
                  | EvExec _ argv _ => Some (drop 2 argv)
                  | _ => None
                  end) tr.

(** ** Sample inputs of the further statements *)

Definition topicBranch : BranchInfo :=
  mkBranchInfo "refs/heads/topic" "topic" local None false (Some "origin/topic")
    3 1 false false (EpochSeconds 1700000200).

Definition loginBranch : BranchInfo :=
  mkBranchInfo "refs/heads/feature/login" "feature/login" local None false None
    0 0 false true (EpochSeconds 1700000300).

Definition originMainBranch : BranchInfo :=
  mkBranchInfo "refs/remotes/origin/main" "origin/main" remote (Some "origin") false None
    0 0 false false (EpochSeconds 1700000100).

(** A heap whose cache holds the branch list of [sampleUri] and whose
    memento remembers branches of that repository, one of which is no
    longer listed. *)
Definition rememberingHeap : Heap :=
  mkHeap 5
    {[ branchesKey sampleUri (Some "main")
       := mkCacheEntry 0 (BranchList [mainBranch; topicBranch; loginBranch]) ]}
    {[ memoryKey "/work/app" := mkRepoBranchMemory ["topic"; "gone"; "main"] ["main"; "old"] ]}
    [].

(** The view that a refresh of the branches provider builds on
    [rememberingHeap]. *)
Definition rememberedView : BranchesView :=
  match snd (execute (scripted (fun _ _ => inl (mkExecOutput "" "")) None None) []
               (refreshBranches (fun _ _ => 0%Z) (sampleConfig ask) (Some (sampleRepo "a"))
                  rememberingHeap)) with
  | Ok view => view
  | Thrown _ => mkBranchesView [] [] [] []
  end.

(** An output of [git stash list] with two stashes. *)
Definition stashListing : string :=
  textOf ["stash@{0}: On main: wip"; "stash@{1}: WIP on main: 1111111 fix"].
(** * Properties *)

(** ** The string operations on small inputs *)

Example splitLines_crlf :
  Js.splitLines ("a" +:+ String Js.CR (String Js.LF "b") +:+ String Js.LF "")
  = ["a"; "b"; ""].
Proof. reflexivity. Qed.

Example split_keeps_empty_pieces : Js.split " " "1 M.  x" = ["1"; "M."; ""; "x"].
Proof. reflexivity. Qed.

Example trim_both_ends : Js.trim "  x y  " = "x y".
Proof. reflexivity. Qed.

Example replace_first_only : Js.replace "ab" "" "xabyab" = "xyab".
Proof. reflexivity. Qed.

Example match_leftmost_with_digits :
  Js.matchDigitsAfter "ahead " "[ahead x, ahead 12, behind 3]" = Some "12".
Proof. reflexivity. Qed.

Example digitsValue_leading_zero : Js.digitsValue "0120" = 120%N.
Proof. reflexivity. Qed.

Example toLowerCase_ascii : Js.toLowerCase "Non-Fast-Forward" = "non-fast-forward".
Proof. reflexivity. Qed.

(** The sections of [sampleStatus], as the unit test of the parser counts
    them. *)
Example parseStatus_sections :
  let status := parseStatusPorcelainV2 sampleStatus in
  st_branch status = "feature/login"
  /\ st_upstream status = Some "origin/feature/login"
  /\ length (st_staged status) = 2 /\ length (st_unstaged status) = 2
  /\ length (st_untracked status) = 1 /\ length (st_conflicts status) = 1.
Proof. vm_compute. repeat split; reflexivity. Qed.

(** ** Repository registry *)

Lemma first_None_iff {A : Type} (l : list A) : l !! 0%nat = None <-> l = [].
Proof. destruct l; simpl; split; congruence. Qed.

Lemma find_isActiveId_None (m : RepositoryManager) :
  (forall r, r ∈ repositories m -> Some (ri_id r) <> activeRepositoryId m) ->
  List.find (isActiveId m) (repositories m) = None.
Proof.
  intros Hno. destruct (List.find (isActiveId m) (repositories m)) as [r|] eqn:E;
    [|reflexivity].
  apply List.find_some in E as [Hin Hact]. exfalso.
  unfold isActiveId in Hact. destruct (activeRepositoryId m) as [id|] eqn:Eid;
    [|discriminate].
  apply String.eqb_eq in Hact. apply (Hno r).
  - apply list_elem_of_In. exact Hin.
  - congruence.
Qed.

(** C10.  [getActiveRepository] answers the first repository of the
    collection whenever no active id is set or the stored id matches no
    repository; it answers [undefined] exactly when the collection is empty,
    so with a non-empty collection an active repository is always resolved. *)
Theorem getActiveRepository_resolvable (m : RepositoryManager) :
  (activeRepositoryId m = None
   \/ (forall r, r ∈ repositories m -> Some (ri_id r) <> activeRepositoryId m) ->
   getActiveRepository m = repositories m !! 0%nat)
  /\ (getActiveRepository m = None <-> repositories m = [])
  /\ (repositories m <> [] -> exists r, getActiveRepository m = Some r).
Proof.
  assert (Hnone : getActiveRepository m = None <-> repositories m = []).
  { unfold getActiveRepository.
    destruct (negb (Js.truthy (activeRepositoryId m))).
    - apply first_None_iff.
    - destruct (List.find (isActiveId m) (repositories m)) as [r|] eqn:E.
      + split; [discriminate|]. intros Hnil. rewrite Hnil in E. discriminate.
      + apply first_None_iff. }
  split; [|split].
  - intros [Hunset | Hnomatch]; unfold getActiveRepository.
    + rewrite Hunset. reflexivity.
    + destruct (negb (Js.truthy (activeRepositoryId m))); [reflexivity|].
      rewrite find_isActiveId_None by exact Hnomatch. reflexivity.
  - exact Hnone.
  - intros Hne. destruct (getActiveRepository m) as [r|] eqn:E; [eauto|].
    exfalso. apply Hne, Hnone. reflexivity.
Qed.


Lemma getActiveRepository_resolvable_witness :
  getActiveRepository (mkRepositoryManager (Some "gone") [sampleRepo "a"; sampleRepo "b"])
  = Some (sampleRepo "a").
Proof.
  pose proof (getActiveRepository_resolvable
                (mkRepositoryManager (Some "gone") [sampleRepo "a"; sampleRepo "b"]))
    as [Hfirst _].
  rewrite Hfirst; [reflexivity|].
  right. intros r Hr. simpl in *.
  apply list_elem_of_In in Hr. simpl in Hr.
  destruct Hr as [<-|[<-|[]]]; simpl; discriminate.
Defined.

(** ** Error classifier *)

(** The classifier is a first-match-wins lookup in the ordered table. *)
Lemma suggestAction_firstMatch (message : string) (stderr : option string) :
  suggestAction message stderr
  = default (mkSuggestion message [])
            (firstMatch errorTable (errorSource message stderr)).
Proof.
  unfold suggestAction, errorTable, firstMatch, existsb.
  repeat match goal with
         | |- context [Js.includes ?p ?s] => destruct (Js.includes p s); simpl; try reflexivity
         end.
Qed.

(** C6, as the code has it.  Matching is first-match-wins over the ordered
    table; a failure whose case-folded message and stderr contain
    "non-fast-forward" and none of the signatures of the rows above it is
    answered with the actions "Pull then Push" and "Force with Lease", in
    that order. *)
Theorem suggestAction_non_fast_forward (message : string) (stderr : option string) :
  suggestAction message stderr
  = default (mkSuggestion message [])
            (firstMatch errorTable (errorSource message stderr))
  /\ (Js.includes "non-fast-forward" (errorSource message stderr) = true ->
      (forall signature, signature ∈ earlierSignatures ->
                         Js.includes signature (errorSource message stderr) = false) ->
      suggestAction message stderr
      = mkSuggestion "Push rejected (non-fast-forward)."
                     ["Pull then Push"; "Force with Lease"]).
Proof.
  split; [apply suggestAction_firstMatch|].
  intros Hnff Hearlier. unfold suggestAction.
  repeat match goal with
         | |- context [Js.includes ?p (errorSource message stderr)] =>
             first [ rewrite Hnff
                   | rewrite (Hearlier p) by (unfold earlierSignatures; set_solver) ]
         end.
  reflexivity.
Qed.


Lemma suggestAction_non_fast_forward_witness :
  sg_actions (suggestAction rejectedPush.1 rejectedPush.2)
  = ["Pull then Push"; "Force with Lease"].
Proof.
  destruct (suggestAction_non_fast_forward rejectedPush.1 rejectedPush.2) as [_ H].
  rewrite H; [reflexivity | vm_compute; reflexivity |].
  intros signature Hin. unfold earlierSignatures in Hin.
  repeat (apply elem_of_cons in Hin as [->|Hin]; [vm_compute; reflexivity|]).
  apply elem_of_nil in Hin. destruct Hin.
Defined.

(** Counterexample to C6 as the specification states it: an earlier row
    of the table also matches.  The repository lives in a directory whose
    name contains "pathspec", and the rejected push is answered by that
    row, without actions. *)
Lemma suggestAction_earlier_row_wins :
  Js.includes "non-fast-forward" (errorSource misfiledPush.1 misfiledPush.2) = true
  /\ sg_actions (suggestAction misfiledPush.1 misfiledPush.2) = []
  /\ sg_actions (suggestAction misfiledPush.1 misfiledPush.2)
     <> ["Pull then Push"; "Force with Lease"].
Proof. vm_compute. repeat split; discriminate. Qed.

(** ** Strings *)

Lemma append_cons (a : ascii) (s t : string) :
  String a s +:+ t = String a (s +:+ t).
Proof. reflexivity. Qed.

Lemma append_nil (t : string) : "" +:+ t = t.
Proof. reflexivity. Qed.

Lemma append_assoc (s t u : string) : (s +:+ t) +:+ u = s +:+ (t +:+ u).
Proof.
  induction s as [|a s IH]; [reflexivity|].
  rewrite !append_cons, IH. reflexivity.
Qed.

Lemma append_empty_r (s : string) : s +:+ "" = s.
Proof. induction s as [|a s IH]; [reflexivity|]. rewrite append_cons, IH. reflexivity. Qed.

Lemma startsWith_append (p s : string) : Js.startsWith p (p +:+ s) = true.
Proof.
  unfold Js.startsWith. induction p as [|a p IH]; simpl.
  - destruct s; reflexivity.
  - destruct (ascii_dec a a); [exact IH|congruence].
Qed.

Lemma dropChars_append (p s : string) :
  Js.dropChars (String.length p) (p +:+ s) = s.
Proof. induction p as [|a p IH]; simpl; [reflexivity|exact IH]. Qed.

Lemma startsWith_split (p s : string) :
  Js.startsWith p s = true -> s = p +:+ Js.dropChars (String.length p) s.
Proof.
  unfold Js.startsWith. revert s. induction p as [|a p IH]; intros s H; [reflexivity|].
  destruct s as [|b s]; simpl in H; [discriminate|].
  destruct (ascii_dec a b) as [->|]; [|discriminate].
  change (String b s = String b (p +:+ Js.dropChars (String.length p) s)).
  f_equal. apply IH, H.
Qed.

Lemma startsWith_head_ne (c d : ascii) (lit s : string) :
  Ascii.eqb c d = false -> Js.startsWith (String c lit) (String d s) = false.
Proof.
  intros H. unfold Js.startsWith. simpl.
  destruct (ascii_dec c d) as [->|]; [|reflexivity].
  rewrite Ascii.eqb_refl in H. discriminate.
Qed.

Lemma spanDigits_run (ds post : string) :
  allDigits ds = true -> startsWithDigit post = false ->
  Js.spanDigits (ds +:+ post) = ds.
Proof.
  intros Hds Hpost. induction ds as [|c ds IH]; simpl.
  - destruct post as [|d post]; simpl in *; [reflexivity|]. rewrite Hpost. reflexivity.
  - unfold allDigits in Hds. simpl in Hds. apply andb_true_iff in Hds as [Hc Hds].
    rewrite Hc, IH; [reflexivity|exact Hds].
Qed.

Lemma matchHere_hit (lit ds post : string) :
  isDigitRun ds = true -> startsWithDigit post = false ->
  Js.matchHere lit (lit +:+ ds +:+ post) = Some ds.
Proof.
  intros Hrun Hpost. unfold isDigitRun in Hrun.
  apply andb_true_iff in Hrun as [Hne Hds].
  unfold Js.matchHere. rewrite startsWith_append, dropChars_append.
  rewrite spanDigits_run by assumption.
  destruct ds; [discriminate|reflexivity].
Qed.

Lemma matchDigitsAfter_cons (lit : string) (a : ascii) (s : string) :
  Js.matchDigitsAfter lit (String a s)
  = match Js.matchHere lit (String a s) with
    | Some ds => Some ds
    | None => Js.matchDigitsAfter lit s
    end.
Proof. reflexivity. Qed.

Lemma matchDigitsAfter_hit (lit s ds : string) :
  Js.matchHere lit s = Some ds -> Js.matchDigitsAfter lit s = Some ds.
Proof. intros H. destruct s; simpl; rewrite H; reflexivity. Qed.

Lemma matchHere_head_ne (c d : ascii) (lit s : string) :
  Ascii.eqb c d = false -> Js.matchHere (String c lit) (String d s) = None.
Proof.
  intros H. unfold Js.matchHere. rewrite startsWith_head_ne by exact H. reflexivity.
Qed.

Lemma matchDigitsAfter_skip (c : ascii) (lit pre s : string) :
  occursIn c pre = false ->
  Js.matchDigitsAfter (String c lit) (pre +:+ s) = Js.matchDigitsAfter (String c lit) s.
Proof.
  induction pre as [|a pre IH]; intros H; [reflexivity|].
  simpl in H. apply orb_false_iff in H as [Ha Hpre].
  rewrite append_cons, matchDigitsAfter_cons, matchHere_head_ne by exact Ha.
  apply IH, Hpre.
Qed.

Lemma matchDigitsAfter_absent (c : ascii) (lit s : string) :
  occursIn c s = false -> Js.matchDigitsAfter (String c lit) s = None.
Proof.
  induction s as [|a s IH]; intros H; [reflexivity|].
  simpl in H. apply orb_false_iff in H as [Ha Hs].
  rewrite matchDigitsAfter_cons, matchHere_head_ne by exact Ha. apply IH, Hs.
Qed.

Lemma matchDigitsAfter_not_included (lit s : string) :
  Js.includes lit s = false -> Js.matchDigitsAfter lit s = None.
Proof.
  induction s as [|a s IH]; intros H.
  - change (Js.matchDigitsAfter lit "")
      with (match Js.matchHere lit "" with Some ds => Some ds | None => None end).
    change (Js.includes lit "")
      with (if Js.startsWith lit "" then true else false) in H.
    unfold Js.matchHere. destruct (Js.startsWith lit ""); [discriminate|reflexivity].
  - rewrite matchDigitsAfter_cons.
    change (Js.includes lit (String a s))
      with (if Js.startsWith lit (String a s) then true else Js.includes lit s) in H.
    unfold Js.matchHere.
    destruct (Js.startsWith lit (String a s)); [discriminate|exact (IH H)].
Qed.

Lemma occursIn_append (c : ascii) (s t : string) :
  occursIn c (s +:+ t) = occursIn c s || occursIn c t.
Proof.
  induction s as [|a s IH]; simpl; [reflexivity|].
  rewrite IH. apply orb_assoc.
Qed.

Lemma occursIn_digits (c : ascii) (ds : string) :
  Js.isDigit c = false -> allDigits ds = true -> occursIn c ds = false.
Proof.
  intros Hc. induction ds as [|d ds IH]; intros Hds; [reflexivity|].
  unfold allDigits in Hds. simpl in Hds. apply andb_true_iff in Hds as [Hd Hds].
  simpl. rewrite IH by exact Hds. rewrite orb_false_r.
  destruct (Ascii.eqb_spec c d) as [->|]; [congruence|reflexivity].
Qed.

Lemma isDigitRun_allDigits (ds : string) : isDigitRun ds = true -> allDigits ds = true.
Proof. unfold isDigitRun. intros H. apply andb_true_iff in H as [_ H]. exact H. Qed.

(** ** Branch-ref parser *)

(** What one accepted row yields, field by field. *)
Lemma branchRow_fields (cur : option string) (line : string) (b : BranchInfo) :
  branchRow cur line = Some b ->
  let fields := Js.split Js.TAB line in
  bi_name b = Js.orElse (fields !! 0%nat) ""
  /\ bi_kind b = (if Js.startsWith "refs/remotes/" (bi_name b) then remote else local)
  /\ bi_upstream b
     = (if Js.truthy (fields !! 1%nat)
           && negb (String.eqb (Js.orElse (fields !! 1%nat) "") "-")
        then fields !! 1%nat else None)
  /\ (bi_ahead b, bi_behind b) = parseAheadBehind (Js.orElse (fields !! 2%nat) "")
  /\ bi_merged b = ((bi_ahead b =? 0)%N && (bi_behind b =? 0)%N && Js.truthy (bi_upstream b))
  /\ bi_stale b = (BranchKind_eqb (bi_kind b) local && negb (Js.truthy (bi_upstream b))).
Proof.
  unfold branchRow, parseAheadBehind.
  cbv beta iota zeta.
  destruct (negb (Js.truthy (Js.split Js.TAB line !! 0%nat))); [discriminate|].
  intros [= <-]. simpl. repeat split; reflexivity.
Qed.

Lemma branchRow_accepts (cur : option string) (line refName : string) (rest : list string) :
  Js.split Js.TAB line = refName :: rest -> refName <> "" ->
  exists b, branchRow cur line = Some b.
Proof.
  intros Hsplit Hne. unfold branchRow. rewrite Hsplit. simpl.
  destruct refName; [congruence|]. simpl. eauto.
Qed.

Lemma truthy_Some (o : option string) :
  Js.truthy o = true -> exists u, o = Some u /\ u <> "".
Proof. destruct o as [[|c u]|]; simpl; intros; try discriminate. eauto. Qed.

(** C7.  Every record of [parseBranchRefs] has [merged] only with
    [ahead = 0], [behind = 0] and an upstream, and [stale] only for a local
    branch without upstream.  A row whose upstream field is the placeholder
    [-] yields a record without upstream, which is not merged; when the
    ref of the row is local, that is when it does not start with
    [refs/remotes/], the record is local and stale, and when the ref is
    remote the record is remote and not stale.  A row with another upstream
    yields a record with that upstream, which is not stale. *)
Theorem parseBranchRefs_merged_stale (output : string) (cur : option string) :
  (forall b, b ∈ parseBranchRefs output cur ->
     (bi_merged b = true ->
      bi_ahead b = 0%N /\ bi_behind b = 0%N /\ exists u, bi_upstream b = Some u)
     /\ (bi_stale b = true -> bi_kind b = local /\ bi_upstream b = None))
  /\ (forall line refName rest,
        line ∈ nonEmptyLines output ->
        Js.split Js.TAB line = refName :: "-" :: rest -> refName <> "" ->
        exists b, b ∈ parseBranchRefs output cur
                  /\ bi_name b = refName /\ bi_upstream b = None
                  /\ bi_merged b = false
                  /\ (Js.startsWith "refs/remotes/" refName = false ->
                      bi_kind b = local /\ bi_stale b = true)
                  /\ (Js.startsWith "refs/remotes/" refName = true ->
                      bi_kind b = remote /\ bi_stale b = false))
  /\ (forall line refName upstream rest,
        line ∈ nonEmptyLines output ->
        Js.split Js.TAB line = refName :: upstream :: rest -> refName <> "" ->
        upstream <> "" -> upstream <> "-" ->
        exists b, b ∈ parseBranchRefs output cur
                  /\ bi_name b = refName /\ bi_upstream b = Some upstream
                  /\ bi_stale b = false).
Proof.
  split; [|split].
  - intros b Hb. unfold parseBranchRefs in Hb.
    apply list_elem_of_omap in Hb as (line & _ & Hrow).
    apply branchRow_fields in Hrow as (_ & _ & Hup & _ & Hmerged & Hstale).
    assert (Hne : bi_upstream b <> Some "").
    { rewrite Hup. destruct (Js.split Js.TAB line !! 1%nat) as [[|c u]|];
        simpl; try discriminate.
      destruct (negb _); discriminate. }
    clear Hup. split.
    + rewrite Hmerged. intros H.
      apply andb_true_iff in H as [H Hup]. apply andb_true_iff in H as [Ha Hb].
      apply N.eqb_eq in Ha. apply N.eqb_eq in Hb.
      apply truthy_Some in Hup as (u & Hu & _). eauto.
    + rewrite Hstale. intros H. apply andb_true_iff in H as [Hk Hup].
      split.
      * destruct (bi_kind b); [reflexivity|discriminate].
      * destruct (bi_upstream b) as [[|c u]|]; simpl in Hup;
          [congruence | discriminate | reflexivity].
  - intros line refName rest Hline Hsplit Hne.
    destruct (branchRow_accepts cur line refName ("-" :: rest) Hsplit Hne) as [b Hb].
    exists b.
    pose proof (branchRow_fields _ _ _ Hb) as (Hname & Hkind & Hup & _ & Hmerged & Hstale).
    rewrite Hsplit in Hname, Hup. simpl in Hname, Hup. rewrite Hname in Hkind.
    split; [unfold parseBranchRefs; apply list_elem_of_omap; eauto|].
    split; [exact Hname|]. split; [exact Hup|].
    split; [rewrite Hmerged, Hup; apply andb_false_r|].
    split; intros Hremote; rewrite Hremote in Hkind; rewrite Hstale, Hkind, Hup;
      split; reflexivity.
  - intros line refName upstream rest Hline Hsplit Hne Hup1 Hup2.
    destruct (branchRow_accepts cur line refName (upstream :: rest) Hsplit Hne) as [b Hb].
    exists b.
    pose proof (branchRow_fields _ _ _ Hb) as (Hname & _ & Hup & _ & _ & Hstale).
    rewrite Hsplit in Hname, Hup. simpl in Hname, Hup.
    assert (Hu : bi_upstream b = Some upstream).
    { rewrite Hup. destruct upstream as [|c u]; [congruence|].
      cbn [Js.truthy Js.orElse andb].
      destruct (String.eqb_spec (String c u) "-"); [congruence|reflexivity]. }
    split; [unfold parseBranchRefs; apply list_elem_of_omap; eauto|].
    split; [exact Hname|]. split; [exact Hu|].
    rewrite Hstale, Hu. destruct upstream; [congruence|]. simpl. apply andb_false_r.
Qed.

Lemma parseBranchRefs_merged_stale_witness :
  (exists b, b ∈ parseBranchRefs sampleBranches (Some "main")
             /\ bi_name b = "refs/heads/hotfix/ci" /\ bi_upstream b = None
             /\ bi_merged b = false /\ bi_kind b = local /\ bi_stale b = true)
  /\ (exists b, b ∈ parseBranchRefs sampleBranches (Some "main")
                /\ bi_name b = "refs/heads/topic" /\ bi_upstream b = Some "origin/topic"
                /\ bi_stale b = false).
Proof.
  destruct (parseBranchRefs_merged_stale sampleBranches (Some "main"))
    as (_ & Hdash & Hup).
  split.
  - destruct (Hdash (refRow "refs/heads/hotfix/ci" "-" "" "1700000000")
                "refs/heads/hotfix/ci" [""; "1700000000"])
      as (b & Hin & Hname & Hnone & Hmerged & Hlocal & _).
    + apply list_elem_of_In. vm_compute. right. left. reflexivity.
    + vm_compute. reflexivity.
    + discriminate.
    + exists b. destruct (Hlocal eq_refl) as [Hk Hs]. auto 10.
  - apply (Hup (refRow "refs/heads/topic" "origin/topic" "[ahead 3, behind 1]" "1700000200")
               "refs/heads/topic" "origin/topic" ["[ahead 3, behind 1]"; "1700000200"]).
    + apply list_elem_of_In. vm_compute. right. right. left. reflexivity.
    + vm_compute. reflexivity.
    + discriminate.
    + discriminate.
    + discriminate.
Defined.

Lemma spanDigits_none (s : string) : startsWithDigit s = false -> Js.spanDigits s = "".
Proof. destruct s as [|c s]; simpl; [reflexivity|]. intros ->. reflexivity. Qed.

(** No match of [lit(\d+)]: wherever [lit] occurs, no digit follows. *)
Lemma matchDigitsAfter_no_token (lit s : string) :
  (forall pre post, s = pre +:+ lit +:+ post -> startsWithDigit post = false) ->
  Js.matchDigitsAfter lit s = None.
Proof.
  assert (Hhere : forall t,
            (forall pre post, t = pre +:+ lit +:+ post -> startsWithDigit post = false) ->
            Js.matchHere lit t = None).
  { intros t H. unfold Js.matchHere. destruct (Js.startsWith lit t) eqn:E; [|reflexivity].
    rewrite spanDigits_none; [reflexivity|].
    apply (H "" (Js.dropChars (String.length lit) t)). rewrite append_nil.
    apply startsWith_split, E. }
  induction s as [|c s IH]; intros H.
  - change (Js.matchDigitsAfter lit "")
      with (match Js.matchHere lit "" with Some ds => Some ds | None => None end).
    rewrite (Hhere "" H). reflexivity.
  - rewrite matchDigitsAfter_cons, (Hhere _ H). apply IH.
    intros pre post E. apply (H (String c pre) post). rewrite append_cons, E. reflexivity.
Qed.

Lemma matchDigitsAfter_None_inv (lit s pre post : string) :
  Js.matchDigitsAfter lit s = None -> s = pre +:+ lit +:+ post ->
  startsWithDigit post = false.
Proof.
  revert s. induction pre as [|c pre IH]; intros s Hnone ->.
  - rewrite append_nil in Hnone.
    assert (Hhere : Js.matchHere lit (lit +:+ post) = None).
    { destruct (lit +:+ post) as [|d t]; simpl in Hnone;
        destruct (Js.matchHere lit _); [discriminate|reflexivity|discriminate|reflexivity]. }
    unfold Js.matchHere in Hhere. rewrite startsWith_append, dropChars_append in Hhere.
    destruct post as [|d post]; [reflexivity|]. simpl in *.
    destruct (Js.isDigit d); [discriminate Hhere|reflexivity].
  - rewrite append_cons, matchDigitsAfter_cons in Hnone.
    destruct (Js.matchHere lit _); [discriminate|]. apply (IH _ Hnone eq_refl).
Qed.

(** C4, as the code has it.  For every record of [parseBranchRefs], ahead
    and behind are what [parseAheadBehind] captures in the third field of
    its row: the digits after the leftmost "ahead " and after the leftmost
    "behind " that digits follow, as in git's [[ahead N, behind M]], read
    as a number (here for counts up to 2^53, which a number holds
    exactly); each is zero when the field has no such token, that is when
    no digit follows an occurrence of "ahead ", respectively "behind ". *)
Theorem parseBranchRefs_ahead_behind :
  (forall output cur b,
     b ∈ parseBranchRefs output cur ->
     exists line, line ∈ nonEmptyLines output
       /\ branchRow cur line = Some b
       /\ (bi_ahead b, bi_behind b)
          = parseAheadBehind (Js.orElse (Js.split Js.TAB line !! 2%nat) ""))
  /\ (forall a b, isDigitRun a = true -> isDigitRun b = true ->
        (Js.digitsValue a <= 2 ^ 53)%N -> (Js.digitsValue b <= 2 ^ 53)%N ->
        parseAheadBehind ("[ahead " +:+ a +:+ ", behind " +:+ b +:+ "]")
        = (Js.digitsValue a, Js.digitsValue b))
  /\ (forall a, isDigitRun a = true -> (Js.digitsValue a <= 2 ^ 53)%N ->
        parseAheadBehind ("[ahead " +:+ a +:+ "]") = (Js.digitsValue a, 0%N))
  /\ (forall b, isDigitRun b = true -> (Js.digitsValue b <= 2 ^ 53)%N ->
        parseAheadBehind ("[behind " +:+ b +:+ "]") = (0%N, Js.digitsValue b))
  /\ (forall metadata,
        (forall pre post, metadata = pre +:+ "ahead " +:+ post ->
                          startsWithDigit post = false) ->
        fst (parseAheadBehind metadata) = 0%N)
  /\ (forall metadata,
        (forall pre post, metadata = pre +:+ "behind " +:+ post ->
                          startsWithDigit post = false) ->
        snd (parseAheadBehind metadata) = 0%N).
Proof.
  assert (Hahead : forall a post, isDigitRun a = true -> startsWithDigit post = false ->
            capturedNumber "ahead " ("[ahead " +:+ a +:+ post) = Js.digitsValue a).
  { intros a post Ha Hpost. unfold capturedNumber.
    change ("[ahead " +:+ a +:+ post) with ("[" +:+ "ahead " +:+ a +:+ post).
    rewrite matchDigitsAfter_skip by reflexivity.
    rewrite (matchDigitsAfter_hit _ _ a) by (apply matchHere_hit; assumption).
    reflexivity. }
  assert (Hbehind : forall pre b post, occursIn "b" pre = false ->
            isDigitRun b = true -> startsWithDigit post = false ->
            capturedNumber "behind " (pre +:+ "behind " +:+ b +:+ post) = Js.digitsValue b).
  { intros pre b post Hpre Hb Hpost. unfold capturedNumber.
    rewrite matchDigitsAfter_skip by exact Hpre.
    rewrite (matchDigitsAfter_hit _ _ b) by (apply matchHere_hit; assumption).
    reflexivity. }
  assert (Hnob : forall a, isDigitRun a = true -> occursIn "b" a = false).
  { intros a Ha. apply occursIn_digits; [reflexivity|].
    apply isDigitRun_allDigits, Ha. }
  split; [|split; [|split; [|split; [|split]]]].
  - intros output cur b Hb. unfold parseBranchRefs in Hb.
    apply list_elem_of_omap in Hb as (line & Hline & Hrow).
    exists line. split; [exact Hline|]. split; [exact Hrow|].
    apply branchRow_fields in Hrow as (_ & _ & _ & Hab & _). exact Hab.
  - intros a b Ha Hb _ _. unfold parseAheadBehind. f_equal.
    + apply Hahead; [exact Ha|reflexivity].
    + change ("[ahead " +:+ a +:+ ", behind " +:+ b +:+ "]")
        with ("[ahead " +:+ (a +:+ ", " +:+ "behind " +:+ b +:+ "]")).
      rewrite <- (append_assoc a ", " ("behind " +:+ b +:+ "]")).
      rewrite <- (append_assoc "[ahead " (a +:+ ", ") ("behind " +:+ b +:+ "]")).
      apply Hbehind; [|exact Hb|reflexivity].
      rewrite !occursIn_append, (Hnob a Ha). reflexivity.
  - intros a Ha _. unfold parseAheadBehind. f_equal.
    + apply Hahead; [exact Ha|reflexivity].
    + unfold capturedNumber. rewrite matchDigitsAfter_absent; [reflexivity|].
      rewrite !occursIn_append, (Hnob a Ha). reflexivity.
  - intros b Hb _. unfold parseAheadBehind. f_equal.
    + unfold capturedNumber. rewrite matchDigitsAfter_absent; [reflexivity|].
      rewrite !occursIn_append, (occursIn_digits "a" b); [reflexivity..|].
      apply isDigitRun_allDigits, Hb.
    + change ("[behind " +:+ b +:+ "]") with ("[" +:+ "behind " +:+ b +:+ "]").
      apply Hbehind; [reflexivity|exact Hb|reflexivity].
  - intros metadata H. unfold parseAheadBehind, capturedNumber. cbn [fst].
    rewrite matchDigitsAfter_no_token by exact H. reflexivity.
  - intros metadata H. unfold parseAheadBehind, capturedNumber. cbn [snd].
    rewrite matchDigitsAfter_no_token by exact H. reflexivity.
Qed.

Lemma parseBranchRefs_ahead_behind_witness :
  parseAheadBehind "[ahead 3, behind 1]" = (3%N, 1%N)
  /\ parseAheadBehind "[ahead 12]" = (12%N, 0%N)
  /\ parseAheadBehind "[behind 7]" = (0%N, 7%N)
  /\ fst (parseAheadBehind "[gone]") = 0%N
  /\ snd (parseAheadBehind "[gone]") = 0%N
  /\ fst (parseAheadBehind "[ahead of origin]") = 0%N
  /\ exists line, line ∈ nonEmptyLines sampleBranches
       /\ (3%N, 1%N) = parseAheadBehind (Js.orElse (Js.split Js.TAB line !! 2%nat) "").
Proof.
  destruct parseBranchRefs_ahead_behind as (Hrows & Hboth & Ha & Hb & Hna & Hnb).
  split; [exact (Hboth "3" "1" eq_refl eq_refl ltac:(discriminate) ltac:(discriminate))|].
  split; [exact (Ha "12" eq_refl ltac:(discriminate))|].
  split; [exact (Hb "7" eq_refl ltac:(discriminate))|].
  split; [apply Hna; intros pre post;
          apply (matchDigitsAfter_None_inv "ahead " "[gone]"); reflexivity|].
  split; [apply Hnb; intros pre post;
          apply (matchDigitsAfter_None_inv "behind " "[gone]"); reflexivity|].
  split; [apply Hna; intros pre post;
          apply (matchDigitsAfter_None_inv "ahead " "[ahead of origin]"); reflexivity|].
  cut (exists line, line ∈ nonEmptyLines sampleBranches
         /\ branchRow (Some "main") line
            = Some (mkBranchInfo "refs/heads/topic" "topic" local None false
                      (Some "origin/topic") 3 1 false false (EpochSeconds 1700000200))
         /\ (3%N, 1%N) = parseAheadBehind (Js.orElse (Js.split Js.TAB line !! 2%nat) "")).
  { intros (line & Hin & _ & Hab). exists line. auto. }
  apply (Hrows sampleBranches (Some "main")
           (mkBranchInfo "refs/heads/topic" "topic" local None false
              (Some "origin/topic") 3 1 false false (EpochSeconds 1700000200))).
  apply list_elem_of_In. vm_compute. right. right. left. reflexivity.
Defined.

(** Counterexample to C4 as the specification states it: [+N]/[-N] tokens
    in the tracking field are not what [parseBranchRefs] captures (they
    are the tokens of the [# branch.ab] line of the status parser). *)
Lemma parseBranchRefs_plus_minus_tokens_ignored :
  Js.split Js.TAB plusMinusRow !! 2%nat = Some "+3 -1"
  /\ List.map (fun b => (bi_ahead b, bi_behind b)) (parseBranchRefs plusMinusRow None)
     = [(0%N, 0%N)]
  /\ List.map (fun b => (bi_ahead b, bi_behind b)) (parseBranchRefs plusMinusRow None)
     <> [(3%N, 1%N)].
Proof. vm_compute. repeat split; discriminate. Qed.

(** ** Status parser *)

Lemma startsWith_distinct_heads (a b : ascii) (p q s : string) :
  a <> b -> Js.startsWith (String a p) s = true -> Js.startsWith (String b q) s = false.
Proof.
  intros Hab. unfold Js.startsWith. destruct s as [|c s]; simpl; [discriminate|].
  destruct (ascii_dec a c) as [->|]; [|discriminate].
  destruct (ascii_dec b c); [congruence|reflexivity].
Qed.

Lemma header_not_fileRecord (p line : string) :
  Js.startsWith (String "#" p) line = true -> isFileRecord line = false.
Proof.
  intros H. unfold isFileRecord.
  rewrite (startsWith_distinct_heads "#" "1" p " " line), (startsWith_distinct_heads "#" "2" p " " line);
    [reflexivity | discriminate | exact H | discriminate | exact H].
Qed.

Lemma fileRecord_not_header (p line : string) :
  isFileRecord line = true -> Js.startsWith (String "#" p) line = false.
Proof.
  intros H. destruct (Js.startsWith (String "#" p) line) eqn:E; [|reflexivity].
  rewrite (header_not_fileRecord p line E) in H. discriminate.
Qed.

(** The iteration on a file record, as one equation. *)
Lemma statusLine_fileRecord (st : StatusInfo) (line x y path : string) :
  isFileRecord line = true -> recordFields line = (x, y, path) ->
  statusLine st line
  = if isConflictPair x y then
      mkStatusInfo (st_branch st) (st_detachedHead st) (st_upstream st)
        (st_ahead st) (st_behind st)
        (st_staged st) (st_unstaged st) (st_untracked st)
        (st_conflicts st ++ [mkFileChange path None conflicts x y])
    else
      mkStatusInfo (st_branch st) (st_detachedHead st) (st_upstream st)
        (st_ahead st) (st_behind st)
        (st_staged st ++ (if String.eqb x "." then [] else [mkFileChange path None staged x y]))
        (st_unstaged st ++ (if String.eqb y "." then [] else [mkFileChange path None unstaged x y]))
        (st_untracked st) (st_conflicts st).
Proof.
  intros Hrec Hfields. unfold statusLine.
  rewrite !(fileRecord_not_header _ line Hrec).
  unfold isFileRecord in Hrec. rewrite Hrec, Hfields.
  destruct (isConflictPair x y); [reflexivity|].
  destruct (String.eqb x "."), (String.eqb y "."); simpl; rewrite ?app_nil_r; reflexivity.
Qed.

Lemma statusLine_other (st : StatusInfo) (line : string) :
  isFileRecord line = false ->
  st_staged (statusLine st line) = st_staged st
  /\ st_unstaged (statusLine st line) = st_unstaged st.
Proof.
  intros Hrec. unfold statusLine. unfold isFileRecord in Hrec. rewrite Hrec.
  repeat match goal with
         | |- context [if Js.startsWith ?p line then _ else _] =>
             destruct (Js.startsWith p line)
         end; split; reflexivity.
Qed.

Lemma statusLine_count (st : StatusInfo) (line : string) :
  length (st_staged (statusLine st line)) + length (st_unstaged (statusLine st line))
  = length (st_staged st) + length (st_unstaged st) + sidesPlaced line.
Proof.
  unfold sidesPlaced. destruct (isFileRecord line) eqn:Hrec.
  - destruct (recordFields line) as [[x y] path] eqn:Hfields.
    rewrite (statusLine_fileRecord st line x y path Hrec Hfields).
    destruct (isConflictPair x y); simpl; [lia|].
    rewrite !length_app.
    destruct (String.eqb x "."), (String.eqb y "."); simpl; lia.
  - destruct (statusLine_other st line Hrec) as [H1 H2]. rewrite H1, H2. lia.
Qed.

Lemma fold_statusLine_count (lines : list string) (st : StatusInfo) :
  length (st_staged (fold_left statusLine lines st))
  + length (st_unstaged (fold_left statusLine lines st))
  = length (st_staged st) + length (st_unstaged st)
    + list_sum (List.map sidesPlaced lines).
Proof.
  revert st. induction lines as [|line lines IH]; intros st;
    cbn [fold_left List.map list_sum fold_right]; [lia|].
  rewrite IH, statusLine_count. unfold list_sum. lia.
Qed.

(** Entries are only ever appended. *)
Lemma statusLine_grows (st : StatusInfo) (line : string) :
  (exists l, st_staged (statusLine st line) = st_staged st ++ l)
  /\ (exists l, st_unstaged (statusLine st line) = st_unstaged st ++ l).
Proof.
  destruct (isFileRecord line) eqn:Hrec.
  - destruct (recordFields line) as [[x y] path] eqn:Hfields.
    rewrite (statusLine_fileRecord st line x y path Hrec Hfields).
    destruct (isConflictPair x y); simpl; split; eauto; exists []; rewrite app_nil_r; reflexivity.
  - destruct (statusLine_other st line Hrec) as [-> ->].
    split; exists []; rewrite app_nil_r; reflexivity.
Qed.

Lemma fold_statusLine_grows (lines : list string) (st : StatusInfo) :
  (exists l, st_staged (fold_left statusLine lines st) = st_staged st ++ l)
  /\ (exists l, st_unstaged (fold_left statusLine lines st) = st_unstaged st ++ l).
Proof.
  revert st. induction lines as [|line lines IH]; intros st; simpl.
  - split; exists []; rewrite app_nil_r; reflexivity.
  - destruct (IH (statusLine st line)) as [[l1 H1] [l2 H2]].
    destruct (statusLine_grows st line) as [[m1 G1] [m2 G2]].
    rewrite H1, H2, G1, G2, <- !app_assoc. eauto.
Qed.

Lemma isConflictPair_spec (x y : string) :
  isConflictPair x y = true
  <-> x = "U" \/ y = "U" \/ (x = "A" /\ y = "A") \/ (x = "D" /\ y = "D").
Proof.
  unfold isConflictPair.
  rewrite !orb_true_iff, !andb_true_iff, !String.eqb_eq. tauto.
Qed.

Lemma fold_statusLine_placed (lines : list string) (st : StatusInfo)
  (line x y path : string) :
  line ∈ lines -> isFileRecord line = true -> recordFields line = (x, y, path) ->
  isConflictPair x y = false ->
  (x <> "." -> mkFileChange path None staged x y ∈ st_staged (fold_left statusLine lines st))
  /\ (y <> "." ->
      mkFileChange path None unstaged x y ∈ st_unstaged (fold_left statusLine lines st)).
Proof.
  intros Hin Hrec Hfields Hnc.
  apply list_elem_of_split in Hin as (l1 & l2 & ->).
  rewrite fold_left_app. cbn [fold_left].
  set (st1 := fold_left statusLine l1 st).
  destruct (fold_statusLine_grows l2 (statusLine st1 line)) as [[m1 H1] [m2 H2]].
  rewrite H1, H2, (statusLine_fileRecord st1 line x y path Hrec Hfields), Hnc.
  cbn [st_staged st_unstaged].
  split; intros Hne; apply String.eqb_neq in Hne; rewrite Hne; set_solver.
Qed.

(** Counterexample to C3 as the specification states it: with one file
    staged in part, the sum of the two lengths is two, while one file has
    a non-empty side. *)
Lemma parseStatus_both_sides_counted_twice :
  length (st_staged (parseStatusPorcelainV2 partlyStagedRecord))
  + length (st_unstaged (parseStatusPorcelainV2 partlyStagedRecord)) = 2
  /\ filesWithNonEmptySide partlyStagedRecord = 1
  /\ length (st_staged (parseStatusPorcelainV2 partlyStagedRecord))
     + length (st_unstaged (parseStatusPorcelainV2 partlyStagedRecord))
     <> filesWithNonEmptySide partlyStagedRecord.
Proof. vm_compute. repeat split; discriminate. Qed.

Lemma statusLine_keeps_ab (st : StatusInfo) (line : string) :
  Js.startsWith "# branch.ab " line = false ->
  st_ahead (statusLine st line) = st_ahead st
  /\ st_behind (statusLine st line) = st_behind st.
Proof.
  intros Hab. unfold statusLine. rewrite Hab.
  destruct (recordFields line) as [[x y] path].
  repeat match goal with
         | |- context [if ?c then _ else _] => destruct c
         end; split; reflexivity.
Qed.

Lemma statusLine_keeps_branch (st : StatusInfo) (line : string) :
  Js.startsWith "# branch.head " line = false ->
  st_branch (statusLine st line) = st_branch st.
Proof.
  intros Hhead. unfold statusLine. rewrite Hhead.
  destruct (recordFields line) as [[x y] path].
  repeat match goal with
         | |- context [if ?c then _ else _] => destruct c
         end; reflexivity.
Qed.

Lemma fold_statusLine_keeps_ab (lines : list string) (st : StatusInfo) :
  (forall l, l ∈ lines -> Js.startsWith "# branch.ab " l = false) ->
  st_ahead (fold_left statusLine lines st) = st_ahead st
  /\ st_behind (fold_left statusLine lines st) = st_behind st.
Proof.
  revert st. induction lines as [|line lines IH]; intros st Hno; [split; reflexivity|].
  cbn [fold_left].
  assert (Htail : forall l, l ∈ lines -> Js.startsWith "# branch.ab " l = false)
    by (intros l Hl; apply Hno, list_elem_of_further, Hl).
  assert (Hhead : Js.startsWith "# branch.ab " line = false)
    by (apply Hno, list_elem_of_here).
  destruct (IH (statusLine st line) Htail) as [Ha Hb].
  destruct (statusLine_keeps_ab st line Hhead) as [Ha' Hb'].
  split; congruence.
Qed.

Lemma fold_statusLine_keeps_branch (lines : list string) (st : StatusInfo) :
  (forall l, l ∈ lines -> Js.startsWith "# branch.head " l = false) ->
  st_branch (fold_left statusLine lines st) = st_branch st.
Proof.
  revert st. induction lines as [|line lines IH]; intros st Hno; [reflexivity|].
  cbn [fold_left]. rewrite IH by (intros l Hl; apply Hno, list_elem_of_further, Hl).
  apply statusLine_keeps_branch, Hno, list_elem_of_here.
Qed.

Lemma isDigit_not_space (c : ascii) : Js.isDigit c = true -> Js.isSpace c = false.
Proof. destruct c as [[] [] [] [] [] [] [] []]; intros H; try discriminate H; reflexivity. Qed.

Lemma trimEnd_cons (c : ascii) (s : string) :
  Js.trimEnd (String c s)
  = match Js.trimEnd s with
    | EmptyString => if Js.isSpace c then EmptyString else String c EmptyString
    | t => String c t
    end.
Proof. reflexivity. Qed.

Lemma trimEnd_digits (ds : string) : allDigits ds = true -> Js.trimEnd ds = ds.
Proof.
  induction ds as [|c ds IH]; intros H; [reflexivity|].
  unfold allDigits in H. simpl in H. apply andb_true_iff in H as [Hc Hds].
  rewrite trimEnd_cons, IH by exact Hds.
  destruct ds; [|reflexivity]. rewrite isDigit_not_space by exact Hc. reflexivity.
Qed.

Lemma trimEnd_append (s t : string) :
  Js.trimEnd t <> "" -> Js.trimEnd (s +:+ t) = s +:+ Js.trimEnd t.
Proof.
  intros Ht. induction s as [|a s IH]; [reflexivity|].
  rewrite !append_cons, trimEnd_cons, IH.
  destruct (s +:+ Js.trimEnd t) eqn:E; [|reflexivity].
  destruct s; [|discriminate E]. rewrite append_nil in E. congruence.
Qed.

(** The iteration on a [# branch.ab +A -B] line. *)
Lemma statusLine_branch_ab (st : StatusInfo) (a b : string) :
  isDigitRun a = true -> isDigitRun b = true ->
  st_ahead (statusLine st ("# branch.ab +" +:+ a +:+ " -" +:+ b)) = Js.digitsValue a
  /\ st_behind (statusLine st ("# branch.ab +" +:+ a +:+ " -" +:+ b)) = Js.digitsValue b.
Proof.
  intros Ha Hb.
  assert (Hfragment :
            Js.trim (Js.replace "# branch.ab " "" ("# branch.ab +" +:+ a +:+ " -" +:+ b))
            = "+" +:+ a +:+ " -" +:+ b).
  { change (Js.trimEnd ("+" +:+ a +:+ " -" +:+ b) = "+" +:+ a +:+ " -" +:+ b).
    rewrite <- (append_assoc a " -" b), <- (append_assoc "+" (a +:+ " -") b).
    rewrite trimEnd_append; rewrite trimEnd_digits by (apply isDigitRun_allDigits, Hb);
      [reflexivity|].
    destruct b; [discriminate Hb|discriminate]. }
  change (statusLine st ("# branch.ab +" +:+ a +:+ " -" +:+ b))
    with (let fragment :=
            Js.trim (Js.replace "# branch.ab " "" ("# branch.ab +" +:+ a +:+ " -" +:+ b)) in
          mkStatusInfo (st_branch st) (st_detachedHead st) (st_upstream st)
            (capturedNumber "+" fragment) (capturedNumber "-" fragment)
            (st_staged st) (st_unstaged st) (st_untracked st) (st_conflicts st)).
  cbv zeta. rewrite Hfragment. cbn [st_ahead st_behind]. unfold capturedNumber. split.
  - rewrite (matchDigitsAfter_hit "+" _ a); [reflexivity|].
    apply matchHere_hit; [exact Ha|reflexivity].
  - rewrite <- (append_empty_r b) at 1.
    change ("+" +:+ a +:+ " -" +:+ b +:+ "")
      with ("+" +:+ a +:+ " " +:+ "-" +:+ b +:+ "").
    rewrite <- (append_assoc a " " ("-" +:+ b +:+ "")).
    rewrite <- (append_assoc "+" (a +:+ " ") ("-" +:+ b +:+ "")).
    rewrite matchDigitsAfter_skip.
    + rewrite (matchDigitsAfter_hit "-" _ b); [reflexivity|].
      apply matchHere_hit; [exact Hb|reflexivity].
    + rewrite !occursIn_append, (occursIn_digits "-" a); [reflexivity..|].
      apply isDigitRun_allDigits, Ha.
Qed.

(** C9.  When the last [# branch.ab] line of the status output is
    [# branch.ab +A -B] for decimal numbers [A] and [B] (up to 2^53, which
    a number holds exactly), the parser answers ahead A and behind B: with
    the tokens [+3] and [-1], ahead 3 and behind 1.  Without branch header
    lines it answers the branch "HEAD", ahead 0 and behind 0. *)
Theorem parseStatus_branch_header (output : string) :
  (forall before after a b,
     statusLines output = before ++ ("# branch.ab +" +:+ a +:+ " -" +:+ b) :: after ->
     isDigitRun a = true -> isDigitRun b = true ->
     (Js.digitsValue a <= 2 ^ 53)%N -> (Js.digitsValue b <= 2 ^ 53)%N ->
     (forall l, l ∈ after -> Js.startsWith "# branch.ab " l = false) ->
     st_ahead (parseStatusPorcelainV2 output) = Js.digitsValue a
     /\ st_behind (parseStatusPorcelainV2 output) = Js.digitsValue b)
  /\ (forall before after,
        statusLines output = before ++ "# branch.ab +3 -1" :: after ->
        (forall l, l ∈ after -> Js.startsWith "# branch.ab " l = false) ->
        st_ahead (parseStatusPorcelainV2 output) = 3%N
        /\ st_behind (parseStatusPorcelainV2 output) = 1%N)
  /\ ((forall l, l ∈ statusLines output ->
         Js.startsWith "# branch.head " l = false
         /\ Js.startsWith "# branch.ab " l = false) ->
      st_branch (parseStatusPorcelainV2 output) = "HEAD"
      /\ st_ahead (parseStatusPorcelainV2 output) = 0%N
      /\ st_behind (parseStatusPorcelainV2 output) = 0%N).
Proof.
  assert (Hgeneral : forall before after a b,
     statusLines output = before ++ ("# branch.ab +" +:+ a +:+ " -" +:+ b) :: after ->
     isDigitRun a = true -> isDigitRun b = true ->
     (forall l, l ∈ after -> Js.startsWith "# branch.ab " l = false) ->
     st_ahead (parseStatusPorcelainV2 output) = Js.digitsValue a
     /\ st_behind (parseStatusPorcelainV2 output) = Js.digitsValue b).
  { intros before after a b Hlines Ha Hb Hafter. unfold parseStatusPorcelainV2.
    rewrite Hlines, fold_left_app. cbn [fold_left].
    destruct (fold_statusLine_keeps_ab after
                (statusLine (fold_left statusLine before emptyStatus)
                   ("# branch.ab +" +:+ a +:+ " -" +:+ b)) Hafter) as [-> ->].
    apply statusLine_branch_ab; assumption. }
  split; [|split].
  - intros before after a b Hlines Ha Hb _ _ Hafter.
    apply (Hgeneral before after a b Hlines Ha Hb Hafter).
  - intros before after Hlines Hafter.
    apply (Hgeneral before after "3" "1" Hlines eq_refl eq_refl Hafter).
  - intros Hno. unfold parseStatusPorcelainV2.
    destruct (fold_statusLine_keeps_ab (statusLines output) emptyStatus) as [-> ->];
      [intros l Hl; apply (Hno l Hl)|].
    rewrite fold_statusLine_keeps_branch by (intros l Hl; apply (Hno l Hl)).
    repeat split; reflexivity.
Qed.

Lemma parseStatus_branch_header_witness :
  (st_ahead (parseStatusPorcelainV2 sampleStatus) = 3%N
   /\ st_behind (parseStatusPorcelainV2 sampleStatus) = 1%N)
  /\ (st_ahead (parseStatusPorcelainV2 (textOf ["# branch.ab +12 -0"; "? notes.txt"]))
      = 12%N
      /\ st_behind (parseStatusPorcelainV2 (textOf ["# branch.ab +12 -0"; "? notes.txt"]))
         = 0%N)
  /\ (st_branch (parseStatusPorcelainV2 headerlessStatus) = "HEAD"
      /\ st_ahead (parseStatusPorcelainV2 headerlessStatus) = 0%N
      /\ st_behind (parseStatusPorcelainV2 headerlessStatus) = 0%N).
Proof.
  split; [|split].
  - destruct (parseStatus_branch_header sampleStatus) as (_ & H & _).
    apply (H (take 3 (statusLines sampleStatus)) (drop 4 (statusLines sampleStatus))).
    + vm_compute. reflexivity.
    + intros l Hl. apply list_elem_of_In in Hl. vm_compute in Hl.
      repeat (destruct Hl as [<-|Hl]; [vm_compute; reflexivity|]). destruct Hl.
  - destruct (parseStatus_branch_header (textOf ["# branch.ab +12 -0"; "? notes.txt"]))
      as (H & _ & _).
    apply (H [] ["? notes.txt"] "12" "0").
    + vm_compute. reflexivity.
    + reflexivity.
    + reflexivity.
    + discriminate.
    + discriminate.
    + intros l Hl. apply list_elem_of_singleton in Hl as ->. reflexivity.
  - destruct (parseStatus_branch_header headerlessStatus) as (_ & _ & H).
    apply H. intros l Hl. apply list_elem_of_In in Hl. vm_compute in Hl.
    repeat (destruct Hl as [<-|Hl]; [vm_compute; split; reflexivity|]). destruct Hl.
Defined.

(** ** Worktree parser *)

(** An incomplete block is not pushed, and it is not cleared either. *)
Lemma pushCurrent_incomplete (worktrees : list WorktreeInfo) (current : PartialWorktree) :
  Js.truthy (pw_path current) = false \/ Js.truthy (pw_head current) = false ->
  pushCurrent (worktrees, current) = (worktrees, current).
Proof.
  intros H. unfold pushCurrent.
  destruct H as [-> | ->]; simpl; rewrite ?orb_true_r; reflexivity.
Qed.

Lemma pushCurrent_complete (worktrees : list WorktreeInfo) (current : PartialWorktree) :
  Js.truthy (pw_path current) = true -> Js.truthy (pw_head current) = true ->
  pushCurrent (worktrees, current)
  = (worktrees ++
       [mkWorktreeInfo (Js.orElse (pw_path current) "") (Js.orElse (pw_head current) "")
          (pw_branch current) (flagSet (pw_detached current))
          (flagSet (pw_bare current)) (pw_prunable current)],
     emptyPartial).
Proof. intros Hp Hh. unfold pushCurrent. rewrite Hp, Hh. reflexivity. Qed.

(** The second half of C8: two complete blocks, the first on [main], the
    second detached, give exactly two records. *)
Example parseWorktrees_two_blocks :
  parseWorktrees twoWorktrees
  = [ mkWorktreeInfo "/work/app" "1111111" (Some "main") false false None;
      mkWorktreeInfo "/work/app-review" "2222222" None true false None ].
Proof. reflexivity. Qed.

(** C8 at the failing inputs.  A block with only a path followed by a block
    with only a head gives a record, although neither block has both
    lines; and the [bare] marker of a dropped block (a bare repository has
    no [HEAD] line) is carried into the record of the next block. *)
Theorem parseWorktrees_incomplete_block_leaks :
  parseWorktrees splitBlocks
  = [ mkWorktreeInfo "/work/app" "1111111" None false false None ]
  /\ parseWorktrees bareThenLinked
     = [ mkWorktreeInfo "/work/app-feature" "1111111" (Some "feature") false true None ].
Proof. split; reflexivity. Qed.

(** ** Runs of asynchronous code *)

Lemma runs_bindRun {A B : Type} (r : Run A) (f : A -> Async B)
  (tr : list (Event * Z)) (h' : Heap) (res : Result B) :
  runs (bindRun r f) tr h' res
  <-> (exists tr1 h1 a tr2,
         runs r tr1 h1 (Ok a) /\ runs (f a h1) tr2 h' res /\ tr = tr1 ++ tr2)
      \/ (exists e, runs r tr h' (Thrown e) /\ res = Thrown e).
Proof.
  revert tr. induction r as [h [a|e]|h X e k IH]; intros tr; simpl.
  - split.
    + intros Hf. left. exists [], h, a, tr. auto.
    + intros [(tr1 & h1 & a' & tr2 & (E1 & E2 & E3) & Hf & E4) | (e & (_ & _ & E3) & _)].
      * injection E3 as E3. subst. exact Hf.
      * discriminate E3.
  - split.
    + intros (E1 & E2 & E3). subst. right. exists e. auto.
    + intros [(tr1 & h1 & a' & tr2 & (_ & _ & E3) & _) | (e' & (E1 & E2 & E3) & E4)].
      * discriminate E3.
      * injection E3 as E3. subst. auto.
  - split.
    + intros (x & t & tr' & E & Hk). subst tr.
      apply IH in Hk as [(tr1 & h1 & a & tr2 & H1 & H2 & E) | (e' & H1 & E)]; subst.
      * left. exists ((record e x, t) :: tr1), h1, a, tr2.
        split; [|auto]. exists x, t, tr1. auto.
      * right. exists e'. split; [|reflexivity]. exists x, t, tr'. auto.
    + intros [(tr1 & h1 & a & tr2 & (x & t & tr' & E & H1) & H2 & E')
             | (e' & (x & t & tr' & E & H1) & E')]; subst.
      * exists x, t, (tr' ++ tr2). split; [reflexivity|].
        apply IH. left. exists tr', h1, a, tr2. auto.
      * exists x, t, tr'. split; [reflexivity|]. apply IH. right. eauto.
Qed.

Lemma runs_bind {A B : Type} (m : Async A) (f : A -> Async B) (h : Heap)
  (tr : list (Event * Z)) (h' : Heap) (res : Result B) :
  runs ((m ≫= f) h) tr h' res
  <-> (exists tr1 h1 a tr2,
         runs (m h) tr1 h1 (Ok a) /\ runs (f a h1) tr2 h' res /\ tr = tr1 ++ tr2)
      \/ (exists e, runs (m h) tr h' (Thrown e) /\ res = Thrown e).
Proof. apply runs_bindRun. Qed.

Lemma runs_ret {A : Type} (a : A) (h : Heap) (tr : list (Event * Z)) (h' : Heap)
  (res : Result A) :
  runs ((mret a : Async A) h) tr h' res <-> tr = [] /\ h' = h /\ res = Ok a.
Proof. reflexivity. Qed.

(** Every run ends: an environment drives it to a settled result. *)
Lemma execute_runs {A : Type} (env : Environment) (r : Run A) (past : list (Event * Z)) :
  exists tr, fst (fst (execute env past r)) = past ++ tr
             /\ runs r tr (snd (fst (execute env past r))) (snd (execute env past r)).
Proof.
  revert past. induction r as [h res|h X e k IH]; intros past; simpl.
  - exists []. rewrite app_nil_r. auto.
  - destruct (env X past e) as [x t] eqn:E.
    destruct (IH x (setClock t h) (past ++ [(record e x, t)])) as (tr & Htr & Hruns).
    exists ((record e x, t) :: tr). split.
    + rewrite Htr, <- app_assoc. reflexivity.
    + exists x, t, tr. auto.
Qed.

Lemma execute_runs_nil {A : Type} (env : Environment) (r : Run A) :
  runs r (fst (fst (execute env [] r))) (snd (fst (execute env [] r)))
       (snd (execute env [] r)).
Proof.
  destruct (execute_runs env r []) as (tr & Htr & Hruns).
  simpl in Htr. rewrite Htr. exact Hruns.
Qed.

(** The answers recorded in a trace determine the run. *)
Lemma record_inj {X : Type} (e : Eff X) (x1 x2 : X) :
  record e x1 = record e x2 -> x1 = x2.
Proof.
  destruct e; simpl; intros H; try (injection H as H; exact H).
  - destruct x1, x2. reflexivity.
  - destruct x1, x2. reflexivity.
Qed.

Lemma runs_deterministic {A : Type} (r : Run A)
  (tr1 tr2 s1 s2 : list (Event * Z)) (h1 h2 : Heap) (res1 res2 : Result A) :
  runs r tr1 h1 res1 -> runs r tr2 h2 res2 -> tr1 ++ s1 = tr2 ++ s2 ->
  tr1 = tr2 /\ h1 = h2 /\ res1 = res2.
Proof.
  revert tr1 tr2. induction r as [h res|h X e k IH]; intros tr1 tr2; simpl.
  - intros (-> & -> & ->) (-> & -> & ->) _. auto.
  - intros (x1 & t1 & tr1' & -> & H1) (x2 & t2 & tr2' & -> & H2) E.
    simpl in E. injection E as Ex Et E. apply record_inj in Ex. subst x2 t2.
    destruct (IH x1 (setClock t1 h) tr1' tr2' H1 H2 E) as (-> & -> & ->). auto.
Qed.

(** ** GitService: the cache and [runGit] *)

Lemma runs_runGit (cwd : string) (args : list string) (h : Heap)
  (tr : list (Event * Z)) (h' : Heap) (res : Result string) :
  runs (runGit cwd args h) tr h' res
  <-> exists answer t,
        tr = [(EvExec "git" ("-C" :: cwd :: args) answer, t)]
        /\ h' = setClock t (purged cwd args h)
        /\ res = match answer with
                 | inl result => Ok (Js.trimEnd (stdout result))
                 | inr failure => Thrown (gitError failure)
                 end.
Proof.
  unfold runGit, invalidateShallowCache, purged, mbind, Async_bind.
  destruct (isWriteCommand args); simpl.
  - split.
    + intros (answer & t & tr' & -> & H). exists answer, t.
      destruct answer as [result|failure]; simpl in H;
        destruct H as (-> & -> & ->); auto.
    + intros (answer & t & -> & -> & ->). exists answer, t, [].
      split; [reflexivity|]. destruct answer; simpl; auto.
  - split.
    + intros (answer & t & tr' & -> & H). exists answer, t.
      destruct answer as [result|failure]; simpl in H;
        destruct H as (-> & -> & ->); auto.
    + intros (answer & t & -> & -> & ->). exists answer, t, [].
      split; [reflexivity|]. destruct answer; simpl; auto.
Qed.

Lemma lookup_withoutKeysIncluding (cwd key : string) (c : gmap string CacheEntry) :
  withoutKeysIncluding cwd c !! key = if Js.includes cwd key then None else c !! key.
Proof.
  unfold withoutKeysIncluding.
  destruct (Js.includes cwd key) eqn:E.
  - apply map_lookup_filter_None. right. intros x _. simpl. rewrite E. discriminate.
  - destruct (c !! key) as [x|] eqn:Ex.
    + apply map_lookup_filter_Some. split; [exact Ex|exact E].
    + apply map_lookup_filter_None. left. exact Ex.
Qed.



Lemma includes_unfold (p s : string) :
  Js.includes p s
  = if Js.startsWith p s then true
    else match s with
         | EmptyString => false
         | String _ s' => Js.includes p s'
         end.
Proof. destruct s; reflexivity. Qed.








(** The deletion goes by the text of the key: a key built from the encoded
    URI of a directory with a space does not contain the directory, and
    its entry survives a write command there. *)
Example invalidateShallowCache_encoded_path :
  Js.includes (fsPath spacedUri) (branchesKey spacedUri (Some "main")) = false
  /\ gitCache (heapOf (runGit (fsPath spacedUri) ["fetch"; "--prune"; "origin"] spacedHeap))
       !! branchesKey spacedUri (Some "main")
     = Some (mkCacheEntry 0 (BranchList [mainBranch])).
Proof. vm_compute. split; reflexivity. Qed.

(** ** The Synchronize workflow *)

(** The runs of the last step. *)
Lemma runs_syncPush (cfg : GitCcConfig) (repo : RepositoryInfo) (h : Heap)
  (tr : list (Event * Z)) (h' : Heap) (res : Result unit) :
  runs (syncPush cfg repo h) tr h' res ->
  exists r5 t5 rest5,
    tr = (EvExec "git" (gitArgv repo statusArgs) r5, t5) :: rest5
    /\ match r5 with
       | inr failure => rest5 = [] /\ res = Thrown (gitError failure)
       | inl out5 =>
           if (0 <? st_ahead (statusOf out5))%N
           then exists r6 t6,
                  rest5 = [(EvExec "git" (gitArgv repo (pushArgs cfg)) r6, t6)]
                  /\ res = match r6 with
                           | inl _ => Ok tt
                           | inr failure => Thrown (gitError failure)
                           end
           else rest5 = [] /\ res = Ok tt
       end.
Proof.
  intros H. unfold syncPush in H. unfold fetch, pull, push, mergeIntoCurrent, rebaseCurrentOnto, getStatus,
    runGit, runGitRaw, invalidateShallowCache, mbind, mret, Async_bind, Async_ret,
    await, post, throw in *. simpl in H.
  destruct H as (r5 & t5 & rest5 & -> & H). exists r5, t5, rest5.
  split; [reflexivity|].
  destruct r5 as [out5|f5]; simpl in H.
  - fold (statusOf out5) in H.
    destruct (0 <? st_ahead (statusOf out5))%N; simpl in H.
    + destruct H as (r6 & t6 & rest6 & -> & H). exists r6, t6.
      destruct r6 as [out6|f6]; simpl in H; destruct H as (-> & _ & ->); auto.
    + destruct H as (-> & _ & ->). auto.
  - destruct H as (-> & _ & ->). auto.
Qed.

(** The runs of the corrective step on a diverged branch. *)
Lemma runs_syncCorrect_diverged (cfg : GitCcConfig) (repo : RepositoryInfo)
  (status : StatusInfo) (h : Heap) (tr : list (Event * Z)) (h' : Heap)
  (res : Result bool) :
  (0 < st_ahead status)%N -> (0 < st_behind status)%N ->
  runs (syncCorrect cfg repo status h) tr h' res ->
  exists picked t3 rest3,
    tr = (EvQuickPick syncChoices divergedPlaceHolder picked, t3) :: rest3
    /\ (picked = Some 0%nat ->
        forall u, st_upstream status = Some u -> u <> "" ->
        exists r4 t4,
          rest3 = [(EvExec "git" (gitArgv repo ["rebase"; u]) r4, t4)]
          /\ res = match r4 with
                   | inl _ => Ok true
                   | inr failure => Thrown (gitError failure)
                   end)
    /\ (picked = Some 2%nat \/ picked = None -> rest3 = [] /\ res = Ok false).
Proof.
  intros Ha Hb H. unfold syncCorrect in H.
  apply N.ltb_lt in Ha. apply N.ltb_lt in Hb. rewrite Ha, Hb in H.
  unfold fetch, pull, push, mergeIntoCurrent, rebaseCurrentOnto, getStatus,
    runGit, runGitRaw, invalidateShallowCache, mbind, mret, Async_bind, Async_ret,
    await, post, throw in *. simpl in H.
  destruct H as (picked & t3 & rest3 & -> & H). exists picked, t3, rest3.
  split; [reflexivity|]. split.
  - intros -> u Hu Hne. simpl in H. rewrite Hu in H.
    assert (Ht : Js.truthy (Some u) = true) by (destruct u; [congruence|reflexivity]).
    rewrite Ht in H. simpl in H.
    destruct H as (r4 & t4 & rest4 & -> & H). exists r4, t4.
    destruct r4 as [out4|f4]; simpl in H; destruct H as (-> & _ & ->); auto.
  - intros [-> | ->]; simpl in H; destruct H as (-> & _ & ->); auto.
Qed.

Lemma runs_git_unit (cwd : string) (args : list string) (h : Heap)
  (tr : list (Event * Z)) (h' : Heap) (res : Result unit) :
  runs ((runGit cwd args ≫= fun _ => mret tt) h) tr h' res
  <-> exists answer t,
        tr = [(EvExec "git" ("-C" :: cwd :: args) answer, t)]
        /\ h' = setClock t (purged cwd args h)
        /\ res = match answer with
                 | inl _ => Ok tt
                 | inr failure => Thrown (gitError failure)
                 end.
Proof.
  rewrite runs_bind. split.
  - intros [(tr1 & h1 & a & tr2 & H1 & H2 & ->) | (e & H1 & ->)].
    + apply runs_runGit in H1 as (answer & t & -> & -> & Hres).
      destruct H2 as (-> & -> & ->). exists answer, t.
      destruct answer; [auto|discriminate].
    + apply runs_runGit in H1 as (answer & t & -> & -> & Hres).
      exists answer, t. destruct answer; [discriminate|].
      injection Hres as ->. auto.
  - intros (answer & t & -> & -> & ->). destruct answer as [result|failure].
    + left. exists [(EvExec "git" ("-C" :: cwd :: args) (inl result), t)],
        (setClock t (purged cwd args h)), (Js.trimEnd (stdout result)), [].
      split; [|split; [split; [|split]; reflexivity | reflexivity]].
      apply runs_runGit. exists (inl result), t. auto.
    + right. exists (gitError failure). split; [|reflexivity].
      apply runs_runGit. exists (inr failure), t. auto.
Qed.

Lemma runs_getStatus (repoUri : Uri) (h : Heap)
  (tr : list (Event * Z)) (h' : Heap) (res : Result StatusInfo) :
  runs (getStatus repoUri h) tr h' res
  <-> exists answer t,
        tr = [(EvExec "git" ("-C" :: fsPath repoUri :: statusArgs) answer, t)]
        /\ h' = setClock t h
        /\ res = match answer with
                 | inl result => Ok (statusOf result)
                 | inr failure => Thrown (gitError failure)
                 end.
Proof.
  unfold getStatus. rewrite runs_bind. split.
  - intros [(tr1 & h1 & a & tr2 & H1 & H2 & ->) | (e & H1 & ->)].
    + apply runs_runGit in H1 as (answer & t & -> & -> & Hres).
      destruct H2 as (-> & -> & ->). exists answer, t.
      destruct answer; [|discriminate]. injection Hres as ->.
      split; [reflexivity|]. split; reflexivity.
    + apply runs_runGit in H1 as (answer & t & -> & -> & Hres).
      exists answer, t. destruct answer; [discriminate|].
      injection Hres as ->. auto.
  - intros (answer & t & -> & -> & ->). destruct answer as [result|failure].
    + left. exists [(EvExec "git" ("-C" :: fsPath repoUri :: statusArgs) (inl result), t)],
        (setClock t h), (Js.trimEnd (stdout result)), [].
      split; [|split; [split; [|split]; reflexivity | reflexivity]].
      apply runs_runGit. exists (inl result), t. auto.
    + right. exists (gitError failure). split; [|reflexivity].
      apply runs_runGit. exists (inr failure), t. auto.
Qed.

(** C1.  Every run of the Synchronize body starts with the fetch.  When
    the fetch succeeds and the status recomputed after it shows ahead > 0
    and behind > 0, the operator is asked to choose.  With the choice
    "Rebase onto upstream" and an upstream [u], the next subprocess is
    [rebase u]; when it succeeds the status is computed once more, and the
    push is launched exactly when that status still shows ahead > 0, as the
    last subprocess.  With the choice "Cancel", or no choice, the run ends
    there: no rebase, merge, pull or push is launched. *)
Theorem sync_diverged_call_order (cfg : GitCcConfig) (repo : RepositoryInfo)
  (h : Heap) (tr : list (Event * Z)) (h' : Heap) (res : Result unit) :
  runs (syncBody cfg repo h) tr h' res ->
  (exists r1 t1 rest1, tr = (EvExec "git" (gitArgv repo (fetchArgs cfg)) r1, t1) :: rest1)
  /\ forall out1 t1 out2 t2 rest,
       tr = (EvExec "git" (gitArgv repo (fetchArgs cfg)) (inl out1), t1)
            :: (EvExec "git" (gitArgv repo statusArgs) (inl out2), t2) :: rest ->
       (0 < st_ahead (statusOf out2))%N -> (0 < st_behind (statusOf out2))%N ->
       exists picked t3 rest3,
         rest = (EvQuickPick syncChoices divergedPlaceHolder picked, t3) :: rest3
         /\ (picked = Some 0%nat ->
             forall u, st_upstream (statusOf out2) = Some u -> u <> "" ->
             exists r4 t4 rest4,
               rest3 = (EvExec "git" (gitArgv repo ["rebase"; u]) r4, t4) :: rest4
               /\ match r4 with
                  | inr failure => rest4 = [] /\ res = Thrown (gitError failure)
                  | inl _ =>
                      exists r5 t5 rest5,
                        rest4 = (EvExec "git" (gitArgv repo statusArgs) r5, t5) :: rest5
                        /\ match r5 with
                           | inr failure => rest5 = [] /\ res = Thrown (gitError failure)
                           | inl out5 =>
                               if (0 <? st_ahead (statusOf out5))%N
                               then exists r6 t6,
                                      rest5 = [(EvExec "git" (gitArgv repo (pushArgs cfg)) r6, t6)]
                                      /\ res = match r6 with
                                               | inl _ => Ok tt
                                               | inr failure => Thrown (gitError failure)
                                               end
                               else rest5 = [] /\ res = Ok tt
                           end
                  end)
         /\ (picked = Some 2%nat \/ picked = None -> rest3 = [] /\ res = Ok tt).
Proof.
  intros H. unfold syncBody in H.
  apply runs_bind in H as [(tr0 & h0 & [] & tr0' & Hpost & H & ->) | (e & Hpost & _)];
    [|destruct Hpost as (_ & _ & [=])].
  destruct Hpost as (-> & -> & _). rewrite app_nil_l.
  apply runs_bind in H as [(tr1 & h1 & [] & tr1' & Hfetch & H & ->) | (e & Hfetch & ->)].
  2: { apply runs_git_unit in Hfetch as (r1 & t1 & -> & _ & Hres).
       split; [eauto|]. intros out1 t1' out2 t2 rest [=]. }
  apply runs_git_unit in Hfetch as (r1 & t1 & -> & -> & Hres1).
  split; [simpl; eauto|].
  intros out1 t1' out2 t2 rest Htr Ha Hb. simpl in Htr.
  injection Htr as -> -> ->.
  apply runs_bind in H as [(tr2 & h2 & status & tr2' & Hstatus & H & E) | (e & Hstatus & ->)].
  2: { apply runs_getStatus in Hstatus as (r2 & t2' & [= <- <-] & _ & Hres). discriminate. }
  apply runs_getStatus in Hstatus as (r2 & t2' & -> & -> & Hres2).
  simpl in E. injection E as <- <- <-. injection Hres2 as ->.
  apply runs_bind in H as [(tr3 & h3 & proceed & tr3' & Hcorrect & H & ->) | (e & Hcorrect & ->)].
  - destruct (runs_syncCorrect_diverged _ _ _ _ _ _ _ Ha Hb Hcorrect)
      as (picked & t3 & rest3 & -> & Hrebase & Hcancel).
    exists picked, t3, (rest3 ++ tr3'). split; [reflexivity|]. split.
    + intros Hp u Hu Hne. destruct (Hrebase Hp u Hu Hne) as (r4 & t4 & -> & Hres4).
      exists r4, t4, tr3'. split; [reflexivity|].
      destruct r4 as [out4|f4]; [|discriminate].
      injection Hres4 as ->. apply runs_syncPush in H. exact H.
    + intros Hp. destruct (Hcancel Hp) as (-> & [= ->]).
      destruct H as (-> & _ & ->). auto.
  - destruct (runs_syncCorrect_diverged _ _ _ _ _ _ _ Ha Hb Hcorrect)
      as (picked & t3 & rest3 & -> & Hrebase & Hcancel).
    exists picked, t3, rest3. split; [reflexivity|]. split.
    + intros Hp u Hu Hne. destruct (Hrebase Hp u Hu Hne) as (r4 & t4 & -> & Hres4).
      exists r4, t4, []. split; [reflexivity|].
      destruct r4 as [out4|f4]; [discriminate|].
      injection Hres4 as ->. auto.
    + intros Hp. destruct (Hcancel Hp) as (_ & [=]).
Qed.

Lemma sync_diverged_call_order_witness :
  subprocessCalls rebaseTrace
  = [ gitArgv (sampleRepo "a") ["fetch"; "--prune"; "origin"];
      gitArgv (sampleRepo "a") statusArgs;
      gitArgv (sampleRepo "a") ["rebase"; "origin/main"];
      gitArgv (sampleRepo "a") statusArgs;
      gitArgv (sampleRepo "a") ["push"; "origin"] ]
  /\ exists picked t3 rest3,
       drop 2 rebaseTrace
       = (EvQuickPick syncChoices divergedPlaceHolder picked, t3) :: rest3
       /\ exists r4 t4 rest4,
            rest3 = (EvExec "git" (gitArgv (sampleRepo "a") ["rebase"; "origin/main"]) r4, t4)
                    :: rest4.
Proof.
  split; [vm_compute; reflexivity|].
  destruct (sync_diverged_call_order (sampleConfig ask) (sampleRepo "a") emptyHeap
              rebaseTrace _ _
              (execute_runs_nil (scripted divergedGit (Some 0%nat) None) _))
    as [_ Hshape].
  destruct (Hshape (mkExecOutput "" "") 1000%Z (mkExecOutput divergedStatus "") 2000%Z
              (drop 2 rebaseTrace))
    as (picked & t3 & rest3 & E & Hrebase & _).
  - vm_compute. reflexivity.
  - vm_compute. reflexivity.
  - vm_compute. reflexivity.
  - exists picked, t3, rest3. split; [exact E|].
    assert (Hp : picked = Some 0%nat).
    { vm_compute in E. injection E as E _ _. symmetry. exact E. }
    destruct (Hrebase Hp "origin/main") as (r4 & t4 & rest4 & E4 & _).
    + vm_compute. reflexivity.
    + discriminate.
    + eauto.
Defined.

(** ** The Smart Checkout workflow *)

Lemma includes_append (p pre post : string) :
  Js.includes p (pre +:+ p +:+ post) = true.
Proof.
  induction pre as [|a pre IH].
  - rewrite append_nil.
    destruct (p +:+ post) as [|c s] eqn:E.
    + change (Js.includes p "") with (if Js.startsWith p "" then true else false).
      rewrite <- E, startsWith_append. reflexivity.
    + change (Js.includes p (String c s))
        with (if Js.startsWith p (String c s) then true else Js.includes p s).
      rewrite <- E, startsWith_append. reflexivity.
  - rewrite append_cons.
    change (Js.includes p (String a (pre +:+ p +:+ post)))
      with (if Js.startsWith p (String a (pre +:+ p +:+ post)) then true
            else Js.includes p (pre +:+ p +:+ post)).
    rewrite IH. destruct (Js.startsWith _ _); reflexivity.
Qed.

Lemma purged_workspaceState (cwd : string) (args : list string) (h : Heap) :
  workspaceState (purged cwd args h) = workspaceState h.
Proof. unfold purged. destruct (isWriteCommand args); reflexivity. Qed.

Lemma truthy_autoStashMessage (toISOString : Z -> string) (nowMs : Z) (branch : string) :
  Js.truthy (Some (autoStashMessage toISOString nowMs branch)) = true.
Proof. reflexivity. Qed.

Lemma runs_recordCheckout (repoKey branchName : string) (h : Heap)
  (tr : list (Event * Z)) (h' : Heap) (res : Result unit) :
  runs (recordCheckout repoKey branchName h) tr h' res ->
  exists t, tr = [(EvMementoUpdate (memoryKey repoKey), t)]
            /\ res = Ok tt
            /\ head (getRecents h' repoKey) = Some branchName.
Proof.
  unfold recordCheckout, getMemory, saveMemory, mbind, Async_bind. simpl.
  intros (x & t & tr' & -> & -> & -> & ->). exists t.
  split; [reflexivity|]. split; [reflexivity|].
  unfold getRecents, memoryOf. simpl. rewrite lookup_insert_eq. reflexivity.
Qed.

Lemma runs_offerStashRestore (repo : RepositoryInfo) (h : Heap)
  (tr : list (Event * Z)) (h' : Heap) (res : Result unit) :
  runs (offerStashRestore repo h) tr h' res ->
  exists answer t rest,
    tr = (EvInformationMessage stashPrompt ["Apply"; "Pop"; "Later"] answer, t) :: rest
    /\ workspaceState h' = workspaceState h
    /\ List.filter isQuickPick rest = [].
Proof.
  unfold offerStashRestore. intros H.
  apply runs_bind in H as [(tr1 & h1 & choice & tr2 & Hask & H & ->) | (e & Hask & _)].
  2: { destruct Hask as (x & t & tr' & _ & _ & _ & [=]). }
  destruct Hask as (x & t & tr' & -> & -> & -> & [= ->]).
  exists x, t, tr2. split; [reflexivity|].
  destruct (isText x "Apply"); [|destruct (isText x "Pop")].
  - unfold stashApply in H. apply runs_git_unit in H as (a & t' & -> & -> & _).
    split; [simpl; rewrite ?purged_workspaceState; reflexivity | reflexivity].
  - unfold stashApply in H. apply runs_git_unit in H as (a & t' & -> & -> & _).
    split; [simpl; rewrite ?purged_workspaceState; reflexivity | reflexivity].
  - destruct H as (-> & -> & _). split; reflexivity.
Qed.

Lemma runs_resolveDirty_autoStash (toISOString : Z -> string) (cfg : GitCcConfig)
  (repo : RepositoryInfo) (status : StatusInfo) (h : Heap)
  (tr : list (Event * Z)) (h' : Heap) (res : Result (option bool)) :
  smartCheckoutDefaultStrategy cfg = autoStash -> (0 < dirtyCount status)%nat ->
  runs (resolveDirty toISOString cfg repo status h) tr h' res ->
  exists r2 t2,
    tr = [(EvExec "git"
             (gitArgv repo ["stash"; "push"; "-m";
                            autoStashMessage toISOString (clock h) (st_branch status)])
             r2, t2)]
    /\ workspaceState h' = workspaceState h
    /\ res = match r2 with
             | inl _ => Ok (Some true)
             | inr failure => Thrown (gitError failure)
             end.
Proof.
  intros Hcfg Hdirty H. unfold resolveDirty in H.
  apply Nat.ltb_lt in Hdirty. rewrite Hdirty, Hcfg in H.
  change (runs ((stash (ri_rootUri repo)
                   (Some (autoStashMessage toISOString (clock h) (st_branch status)))
                   false
                 ≫= fun _ => mret (Some true)) h) tr h' res) in H.
  apply runs_bind in H as [(tr1 & h1 & [] & tr2 & Hstash & H & ->) | (e & Hstash & ->)].
  - unfold stash in Hstash. rewrite truthy_autoStashMessage in Hstash.
    apply runs_git_unit in Hstash as (r2 & t2 & -> & -> & Hres).
    destruct H as (-> & -> & ->). exists r2, t2.
    destruct r2; [|discriminate].
    split; [reflexivity|].
    split; [simpl; rewrite ?purged_workspaceState; reflexivity|reflexivity].
  - unfold stash in Hstash. rewrite truthy_autoStashMessage in Hstash.
    apply runs_git_unit in Hstash as (r2 & t2 & -> & -> & Hres).
    exists r2, t2. destruct r2; [discriminate|]. injection Hres as ->.
    split; [reflexivity|].
    split; [simpl; rewrite ?purged_workspaceState; reflexivity|reflexivity].
Qed.

Lemma autoStashMessage_contents (toISOString : Z -> string) (nowMs : Z) (branch : string) :
  Js.includes branch (autoStashMessage toISOString nowMs branch) = true
  /\ Js.includes (Js.replaceAllChar ":" "-" (toISOString nowMs))
                 (autoStashMessage toISOString nowMs branch) = true
  /\ Js.startsWith "auto: " (autoStashMessage toISOString nowMs branch) = true.
Proof.
  unfold autoStashMessage. split; [|split].
  - rewrite <- (append_empty_r branch) at 2.
    rewrite <- (append_assoc _ " " (branch +:+ "")).
    rewrite <- (append_assoc "auto: " _ (branch +:+ "")).
    apply includes_append.
  - apply includes_append.
  - apply startsWith_append.
Qed.

(** C2, as the code has it.  The target branch is the argument of the
    handler or the branch picked at its start; the strategy is [autoStash],
    and the status shows a dirty tree without conflicts.  Then no quick
    pick is shown from the status on; the next subprocess after the status
    is [stash push -m message], where the message starts with "auto: " and
    contains the time stamp (the ISO text of the clock, colons replaced)
    and the branch of the status; when the stash succeeds the checkout of
    the target is launched; when that succeeds the target is the head of
    the recent branches of the repository, and the operator is then
    offered to apply the stash. *)
Theorem smartCheckout_autoStash (toISOString : Z -> string) (cfg : GitCcConfig)
  (repo : RepositoryInfo) (branchArg : option BranchInfo) (h : Heap)
  (tr : list (Event * Z)) (h' : Heap) (res : Result unit) :
  runs (smartCheckoutBody toISOString cfg repo branchArg h) tr h' res ->
  smartCheckoutDefaultStrategy cfg = autoStash ->
  forall pre h1 target out1 t1 rest,
    targetChosen repo branchArg h pre h1 target ->
    tr = pre ++ (EvExec "git" (gitArgv repo statusArgs) (inl out1), t1) :: rest ->
    (0 < dirtyCount (statusOf out1))%nat ->
    st_conflicts (statusOf out1) = [] ->
    let message := autoStashMessage toISOString t1 (st_branch (statusOf out1)) in
    Js.includes (st_branch (statusOf out1)) message = true
    /\ Js.includes (Js.replaceAllChar ":" "-" (toISOString t1)) message = true
    /\ Js.startsWith "auto: " message = true
    /\ List.filter isQuickPick rest = []
    /\ exists r2 t2 rest2,
         rest = (EvExec "git" (gitArgv repo ["stash"; "push"; "-m"; message]) r2, t2)
                :: rest2
         /\ match r2 with
            | inr failure => rest2 = [] /\ res = Thrown (gitError failure)
            | inl _ =>
                exists r3 t3 rest3,
                  rest2 = (EvExec "git" (gitArgv repo ["checkout"; bi_shortName target]) r3, t3)
                          :: rest3
                  /\ match r3 with
                     | inr failure => rest3 = [] /\ res = Thrown (gitError failure)
                     | inl _ =>
                         head (getRecents h' (fsPath (ri_rootUri repo)))
                         = Some (bi_shortName target)
                         /\ exists t4 answer t5 rest5,
                              rest3
                              = (EvMementoUpdate (memoryKey (fsPath (ri_rootUri repo))), t4)
                                :: (EvInformationMessage stashPrompt
                                      ["Apply"; "Pop"; "Later"] answer, t5)
                                :: rest5
                     end
            end.
Proof.
  intros H Hcfg pre h1 target out1 t1 rest Hchosen Htr Hdirty Hconf message. subst tr.
  destruct (autoStashMessage_contents toISOString t1 (st_branch (statusOf out1)))
    as (Hbranch & Hstamp & Htag).
  split; [exact Hbranch|]. split; [exact Hstamp|]. split; [exact Htag|].
  unfold smartCheckoutBody in H. unfold targetChosen in Hchosen.
  apply runs_bind in H as [(tr0 & h0 & chosen & tr0' & Hchoose & H & E) | (e & Hchoose & _)].
  2: { destruct (runs_deterministic _ _ _ []
                   ((EvExec "git" (gitArgv repo statusArgs) (inl out1), t1) :: rest)
                   _ _ _ _ Hchoose Hchosen) as (_ & _ & [=]).
       rewrite app_nil_r. reflexivity. }
  destruct (runs_deterministic _ _ _ _ _ _ _ _ _ Hchoose Hchosen (eq_sym E))
    as (-> & -> & [= ->]).
  apply app_inv_head in E. subst tr0'. clear Hchoose Hchosen.
  unfold smartCheckoutTo in H.
  apply runs_bind in H as [(tr1 & h1' & status & tr1' & Hstatus & H & E) | (e & Hstatus & _)].
  2: { apply runs_getStatus in Hstatus as (r & t & E & _ & Hres).
       injection E as <- _ _. discriminate Hres. }
  apply runs_getStatus in Hstatus as (r & t & -> & -> & Hres).
  simpl in E. injection E as <- <- ->. injection Hres as ->.
  rewrite Hconf in H. cbn [length Nat.ltb Nat.leb] in H.
  apply runs_bind in H as [(tr2 & h2 & resolved & tr2' & Hresolve & H & ->) | (e & Hresolve & ->)].
  - apply (runs_resolveDirty_autoStash _ _ _ _ _ _ _ _ Hcfg Hdirty) in Hresolve
      as (r2 & t2 & -> & Hws2 & Hres2).
    destruct r2 as [out2|f2]; [|discriminate]. injection Hres2 as ->.
    unfold checkoutAndRecord in H.
    apply runs_bind in H as [(tr3 & h3 & [] & tr3' & Hcheckout & H & ->) | (e & Hcheckout & ->)].
    + unfold checkoutBranch in Hcheckout.
      apply runs_git_unit in Hcheckout as (r3 & t3 & -> & -> & Hres3).
      destruct r3 as [out3|f3]; [|discriminate].
      apply runs_bind in H as [(tr4 & h4 & [] & tr4' & Hrecord & H & ->) | (e & Hrecord & _)].
      2: { apply runs_recordCheckout in Hrecord as (t4 & _ & [=] & _). }
      apply runs_recordCheckout in Hrecord as (t4 & -> & _ & Hrecents).
      apply runs_offerStashRestore in H as (answer & t5 & rest5 & -> & Hws5 & Hquiet).
      split; [simpl; exact Hquiet|].
      exists (inl out2), t2, ((EvExec "git" (gitArgv repo ["checkout"; bi_shortName target])
                                (inl out3), t3)
                              :: (EvMementoUpdate (memoryKey (fsPath (ri_rootUri repo))), t4)
                              :: (EvInformationMessage stashPrompt ["Apply"; "Pop"; "Later"]
                                    answer, t5) :: rest5).
      split; [reflexivity|].
      exists (inl out3), t3, ((EvMementoUpdate (memoryKey (fsPath (ri_rootUri repo))), t4)
                              :: (EvInformationMessage stashPrompt ["Apply"; "Pop"; "Later"]
                                    answer, t5) :: rest5).
      split; [reflexivity|]. split.
      * unfold getRecents, memoryOf in *. rewrite Hws5. exact Hrecents.
      * eauto.
    + unfold checkoutBranch in Hcheckout.
      apply runs_git_unit in Hcheckout as (r3 & t3 & -> & -> & Hres3).
      destruct r3 as [out3|f3]; [discriminate|]. injection Hres3 as ->.
      split; [reflexivity|].
      exists (inl out2), t2, [(EvExec "git" (gitArgv repo ["checkout"; bi_shortName target])
                                 (inr f3), t3)].
      split; [reflexivity|]. exists (inr f3), t3, []. auto.
  - apply (runs_resolveDirty_autoStash _ _ _ _ _ _ _ _ Hcfg Hdirty) in Hresolve
      as (r2 & t2 & -> & Hws2 & Hres2).
    destruct r2 as [out2|f2]; [discriminate|]. injection Hres2 as ->.
    split; [reflexivity|]. exists (inr f2), t2, []. auto.
Qed.

Lemma smartCheckout_autoStash_witness :
  subprocessCalls (autoStashRun dirtyStatus).1.1
  = [ gitArgv (sampleRepo "a") statusArgs;
      gitArgv (sampleRepo "a")
        ["stash"; "push"; "-m"; "auto: 2024-05-06T07-08-09.000Z feature/login"];
      gitArgv (sampleRepo "a") ["checkout"; "main"] ]
  /\ List.filter isQuickPick (drop 1 (autoStashRun dirtyStatus).1.1) = []
  /\ Js.includes "feature/login"
       (autoStashMessage sampleISO 1000 "feature/login") = true.
Proof.
  split; [vm_compute; reflexivity|].
  destruct (smartCheckout_autoStash sampleISO (sampleConfig autoStash) (sampleRepo "a")
              (Some mainBranch) emptyHeap (autoStashRun dirtyStatus).1.1 _ _
              (execute_runs_nil _ _) eq_refl
              [] emptyHeap mainBranch
              (mkExecOutput dirtyStatus "") 1000%Z (drop 1 (autoStashRun dirtyStatus).1.1))
    as (Hbranch & _ & _ & Hquiet & _).
  - unfold targetChosen. simpl. auto.
  - vm_compute. reflexivity.
  - vm_compute. lia.
  - vm_compute. reflexivity.
  - split; [exact Hquiet|exact Hbranch].
Defined.

(** Counterexample to C2 as the specification states it: the tree is
    dirty by a conflict.  The counts sum to one and the strategy is
    [autoStash], yet the run ends after the status with an error notice;
    nothing is stashed, nothing is checked out, nothing is recorded. *)
Lemma smartCheckout_conflicts_stop :
  dirtyCount (statusOf (mkExecOutput conflictedStatus "")) = 1
  /\ subprocessCalls (autoStashRun conflictedStatus).1.1
     = [ gitArgv (sampleRepo "a") statusArgs ]
  /\ notices (autoStashRun conflictedStatus).1.2
     = [ ErrorNotice "Resolve conflicts before switching branches." ]
  /\ getRecents (autoStashRun conflictedStatus).1.2 (fsPath (ri_rootUri (sampleRepo "a"))) = []
  /\ (autoStashRun conflictedStatus).2 = Ok tt.
Proof. vm_compute. repeat split; reflexivity. Qed.

(** * Properties of the further code *)

(** ** More on strings *)

Lemma length_append (s t : string) :
  String.length (s +:+ t) = (String.length s + String.length t)%nat.
Proof. induction s as [|a s IH]; simpl; [reflexivity|]. rewrite IH. reflexivity. Qed.

Lemma takeChars_append (p s : string) : Js.takeChars (String.length p) (p +:+ s) = p.
Proof. induction p as [|a p IH]; simpl; [destruct s; reflexivity|]. rewrite IH. reflexivity. Qed.

Lemma take_drop_chars (n : nat) (s : string) : Js.takeChars n s +:+ Js.dropChars n s = s.
Proof.
  revert s. induction n as [|n IH]; intros s; [reflexivity|].
  destruct s as [|a s]; [reflexivity|].
  change (String a (Js.takeChars n s +:+ Js.dropChars n s) = String a s).
  rewrite IH. reflexivity.
Qed.

(** ** The regular-expression engine *)

Lemma longestFirst_inv {T : Type} (n least : nat) (attempt : nat -> option T) (x : T) :
  Rx.longestFirst n least attempt = Some x ->
  exists j, (least <= j <= n)%nat /\ attempt j = Some x.
Proof.
  induction n as [|n IH]; simpl.
  - destruct least; simpl; [|discriminate].
    destruct (attempt 0%nat) eqn:E; [|discriminate].
    intros [= ->]. exists 0%nat. split; [lia|exact E].
  - destruct (S n <? least)%nat eqn:El; [discriminate|].
    apply Nat.ltb_ge in El.
    destruct (attempt (S n)) eqn:E.
    + intros [= ->]. exists (S n). split; [lia|exact E].
    + intros H. destruct (IH H) as (j & Hj & Hx). exists j. split; [lia|exact Hx].
Qed.

Lemma longestFirst_first {T : Type} (n least : nat) (attempt : nat -> option T) (x : T) :
  (least <= n)%nat -> attempt n = Some x -> Rx.longestFirst n least attempt = Some x.
Proof.
  intros Hle Hx. destruct n as [|n]; simpl.
  - destruct least; [|lia]. simpl. rewrite Hx. reflexivity.
  - apply Nat.ltb_ge in Hle. rewrite Hle, Hx. reflexivity.
Qed.

(** The characters of [s] are all in the class [k]. *)
Lemma spanLength_take (k : Rx.Class) (j : nat) (s : string) :
  (j <= Rx.spanLength k s)%nat ->
  forallb (Rx.inClass k) (list_ascii_of_string (Js.takeChars j s)) = true
  /\ String.length (Js.takeChars j s) = j.
Proof.
  revert s. induction j as [|j IH]; intros s H; [split; reflexivity|].
  destruct s as [|c s]; simpl in H; [lia|].
  destruct (Rx.inClass k c) eqn:E; [|lia].
  destruct (IH s ltac:(lia)) as [H1 H2]. simpl. rewrite E, H1, H2. split; reflexivity.
Qed.

Lemma spanLength_run (k : Rx.Class) (m s : string) :
  forallb (Rx.inClass k) (list_ascii_of_string m) = true ->
  match s with
  | EmptyString => True
  | String c _ => Rx.inClass k c = false
  end ->
  Rx.spanLength k (m +:+ s) = String.length m.
Proof.
  intros Hm Hs. induction m as [|c m IH]; simpl.
  - destruct s as [|c s]; [reflexivity|]. simpl. rewrite Hs. reflexivity.
  - simpl in Hm. apply andb_true_iff in Hm as [Hc Hm]. rewrite Hc, IH by exact Hm.
    reflexivity.
Qed.

(** A successful match of [r] followed by [k] is a success of [k]: after a
    prefix of the input, and with the captures of the other groups as they
    were. *)
Lemma run_inv {T : Type} (r : Rx.Re) :
  forall (pos : nat) (s : string) (caps : gmap nat string)
         (k : nat -> string -> gmap nat string -> option T) (x : T),
    Rx.run r pos s caps k = Some x ->
    exists m s' caps',
      s = m +:+ s' /\ k (pos + String.length m)%nat s' caps' = Some x
      /\ forall g, g ∉ groupsOf r -> caps' !! g = caps !! g.
Proof.
  induction r as [| |p|c least|i r IH|r IH|r1 IH1 r2 IH2]; intros pos s caps k x; simpl.
  - destruct (pos =? 0)%nat; [|discriminate]. intros H.
    exists "", s, caps. rewrite Nat.add_0_r. auto.
  - destruct (String.eqb s ""); [|discriminate]. intros H.
    exists "", s, caps. rewrite Nat.add_0_r. auto.
  - destruct (Js.startsWith p s) eqn:E; [|discriminate]. intros H.
    exists p, (Js.dropChars (String.length p) s), caps.
    split; [apply startsWith_split, E|]. auto.
  - intros H. apply longestFirst_inv in H as (j & Hj & H).
    destruct (spanLength_take c j s ltac:(lia)) as [_ Hlen].
    exists (Js.takeChars j s), (Js.dropChars j s), caps.
    rewrite take_drop_chars, Hlen. auto.
  - intros H. apply IH in H as (m & s' & caps' & -> & H & Hframe).
    exists m, s', (<[i := Js.takeChars (pos + String.length m - pos) (m +:+ s')]> caps').
    split; [reflexivity|]. split; [exact H|].
    intros g Hg. rewrite lookup_insert_ne by (intros ->; apply Hg; left).
    apply Hframe. intros Hin. apply Hg. right. exact Hin.
  - destruct (Rx.run r pos s caps _) as [y|] eqn:E.
    + intros [= ->]. apply IH in E as (m & s' & caps' & -> & H & Hframe).
      destruct (pos + String.length m =? pos)%nat; [discriminate|].
      exists m, s', caps'. auto.
    + intros H. exists "", s, caps. rewrite Nat.add_0_r. auto.
  - intros H. apply IH1 in H as (m1 & s1 & caps1 & -> & H & Hframe1).
    apply IH2 in H as (m2 & s2 & caps2 & -> & H & Hframe2).
    exists (m1 +:+ m2), s2, caps2. rewrite append_assoc, length_append, Nat.add_assoc.
    split; [reflexivity|]. split; [exact H|].
    intros g Hg. rewrite Hframe2, Hframe1; [reflexivity| |];
      intros Hin; apply Hg; apply elem_of_app; auto.
Qed.

(** An anchored pattern matches at the start of the input or not at all. *)
Lemma search_Bol_later (r : Rx.Re) (s : string) (pos : nat) :
  Rx.search (Rx.Cat Rx.Bol r) (S pos) s = None.
Proof.
  revert pos. induction s as [|c s IH]; intros pos; simpl; [reflexivity|]. apply IH.
Qed.

Lemma exec_Bol (r : Rx.Re) (s : string) :
  Rx.exec (Rx.Cat Rx.Bol r) s
  = Rx.run r 0 s ∅ (fun pos' s' caps => Some (Rx.mkMatch 0 pos' s' caps)).
Proof.
  unfold Rx.exec. destruct s as [|c s]; simpl.
  - destruct (Rx.run r 0 "" ∅ _); reflexivity.
  - rewrite search_Bol_later. destruct (Rx.run r 0 (String c s) ∅ _); reflexivity.
Qed.

(** ** The stash parser *)


Lemma allDigits_inClass (s : string) :
  forallb (Rx.inClass Rx.Digit) (list_ascii_of_string s) = allDigits s.
Proof. reflexivity. Qed.

Lemma takeChars_prefix (n : nat) (a b : string) :
  n = String.length a -> Js.takeChars n (a +:+ b) = a.
Proof. intros ->. apply takeChars_append. Qed.

Lemma stashHead_inv (tail : Rx.Re) (line : string) (m : Rx.Match) :
  1%nat ∉ groupsOf tail -> 2%nat ∉ groupsOf tail ->
  Rx.exec
    (Rx.Cat Rx.Bol
       (Rx.Cat (Rx.Group 1
                  (Rx.Cat (Rx.Lit "stash@{")
                     (Rx.Cat (Rx.Group 2 (Rx.Many Rx.Digit 1)) (Rx.Lit "}"))))
          (Rx.Cat (Rx.Lit ":") tail))) line = Some m ->
  exists ds rest,
    isDigitRun ds = true
    /\ line = "stash@{" +:+ ds +:+ "}:" +:+ rest
    /\ Rx.group 1 m = Some ("stash@{" +:+ ds +:+ "}")
    /\ Rx.group 2 m = Some ds.
Proof.
  intros H1 H2 E. rewrite exec_Bol in E. cbn [Rx.run] in E.
  destruct (Js.startsWith "stash@{" line) eqn:Ehead; [|discriminate].
  apply startsWith_split in Ehead.
  set (s1 := Js.dropChars (String.length "stash@{") line) in *.
  apply longestFirst_inv in E as (j & Hj & E).
  destruct (Js.startsWith "}" (Js.dropChars j s1)) eqn:Ebrace; [|discriminate].
  apply startsWith_split in Ebrace.
  set (s2 := Js.dropChars (String.length "}") (Js.dropChars j s1)) in *.
  destruct (Js.startsWith ":" s2) eqn:Ecolon; [|discriminate].
  apply startsWith_split in Ecolon.
  apply run_inv in E as (mt & s' & caps' & _ & E & Hframe).
  injection E as <-.
  destruct (spanLength_take Rx.Digit j s1 ltac:(lia)) as [Hds Hlen].
  exists (Js.takeChars j s1), (Js.dropChars (String.length ":") s2).
  assert (Hline : line = "stash@{" +:+ Js.takeChars j s1 +:+ "}:"
                         +:+ Js.dropChars (String.length ":") s2).
  { rewrite Ehead at 1. f_equal. rewrite <- (take_drop_chars j s1) at 1. f_equal.
    rewrite Ebrace at 1. change "}:" with ("}" +:+ ":"). rewrite append_assoc. f_equal.
    exact Ecolon. }
  split; [|split; [exact Hline|split]].
  - unfold isDigitRun. rewrite <- allDigits_inClass, Hds, andb_true_r.
    destruct (Js.takeChars j s1); [simpl in Hlen; lia|reflexivity].
  - unfold Rx.group. simpl. rewrite Hframe by exact H1.
    rewrite lookup_insert_eq. f_equal.
    rewrite Hline at 1. change "}:" with ("}" +:+ ":").
    rewrite <- !append_assoc, (append_assoc _ ":").
    apply takeChars_prefix. rewrite !length_append, Hlen. simpl. lia.
  - unfold Rx.group. simpl. rewrite Hframe by exact H2.
    rewrite lookup_insert_ne by discriminate. rewrite lookup_insert_eq. f_equal.
    replace (0 + String.length "stash@{" + j - (0 + String.length "stash@{"))%nat
      with j by (simpl; lia).
    reflexivity.
Qed.

Lemma stashRow_shape (line : string) (e : StashEntry) :
  stashRow line = Some e ->
  exists ds rest, isDigitRun ds = true
    /\ line = "stash@{" +:+ ds +:+ "}:" +:+ rest
    /\ se_ref e = "stash@{" +:+ ds +:+ "}"
    /\ se_index e = Js.digitsValue ds.
Proof.
  unfold stashRow. destruct (Rx.exec stashPattern line) as [m|] eqn:E; [|discriminate].
  intros [= <-]. unfold stashPattern in E.
  apply stashHead_inv in E as (ds & rest & Hds & Hline & Hg1 & Hg2).
  - exists ds, rest. simpl. rewrite Hg1, Hg2. auto.
  - simpl. rewrite !elem_of_cons, elem_of_nil. intros [|[|]]; [discriminate..|assumption].
  - simpl. rewrite !elem_of_cons, elem_of_nil. intros [|[|]]; [discriminate..|assumption].
Qed.



Lemma longestFirst_hit {T : Type} (k : Rx.Class) (m s : string) (least : nat)
  (attempt : nat -> option T) (x : T) :
  forallb (Rx.inClass k) (list_ascii_of_string m) = true ->
  match s with
  | EmptyString => True
  | String c _ => Rx.inClass k c = false
  end ->
  (least <= String.length m)%nat ->
  attempt (String.length m) = Some x ->
  Rx.longestFirst (Rx.spanLength k (m +:+ s)) least attempt = Some x.
Proof.
  intros Hm Hs Hle Hx. rewrite spanLength_run by assumption.
  apply longestFirst_first; assumption.
Qed.

Lemma trimStart_length (s : string) : (String.length (Js.trimStart s) <= String.length s)%nat.
Proof. induction s as [|c s IH]; simpl; [lia|]. destruct (Js.isSpace c); simpl; lia. Qed.

Lemma trimEnd_length (s : string) : (String.length (Js.trimEnd s) <= String.length s)%nat.
Proof.
  induction s as [|c s IH]; simpl; [lia|].
  destruct (Js.trimEnd s); [destruct (Js.isSpace c)|]; simpl in *; lia.
Qed.

(** A trimmed, non-empty string starts with a character that is no space. *)
Lemma trimmed_head (s : string) :
  Js.trim s = s -> s <> "" ->
  match s with
  | EmptyString => True
  | String c _ => Js.isSpace c = false
  end.
Proof.
  destruct s as [|c s]; [congruence|]. intros H _.
  destruct (Js.isSpace c) eqn:E; [|reflexivity].
  unfold Js.trim in H. simpl in H. rewrite E in H.
  pose proof (trimEnd_length (Js.trimStart s)). pose proof (trimStart_length s).
  rewrite H in H0. simpl in H0. lia.
Qed.

Lemma notOccurs_class (c : ascii) (s : string) :
  occursIn c s = false ->
  forallb (Rx.inClass (Rx.Except c)) (list_ascii_of_string s) = true.
Proof.
  induction s as [|d s IH]; simpl; [reflexivity|].
  intros H. apply orb_false_iff in H as [Hd Hs].
  rewrite Ascii.eqb_sym, Hd, IH by exact Hs. reflexivity.
Qed.

Lemma noTerminator_class (s : string) :
  occursIn Js.LF s = false -> occursIn Js.CR s = false ->
  forallb (Rx.inClass Rx.Dot) (list_ascii_of_string s) = true.
Proof.
  induction s as [|d s IH]; [reflexivity|]. intros H1 H2.
  change (Ascii.eqb Js.LF d || occursIn Js.LF s = false) in H1.
  change (Ascii.eqb Js.CR d || occursIn Js.CR s = false) in H2.
  apply orb_false_iff in H1 as [Hd1 Hs1]. apply orb_false_iff in H2 as [Hd2 Hs2].
  change (negb (Ascii.eqb d Js.LF || Ascii.eqb d Js.CR)
          && forallb (Rx.inClass Rx.Dot) (list_ascii_of_string s) = true).
  rewrite (Ascii.eqb_sym d Js.LF), Hd1, (Ascii.eqb_sym d Js.CR), Hd2, IH by assumption.
  reflexivity.
Qed.

Lemma dropChars_length (s : string) : Js.dropChars (String.length s) s = "".
Proof. induction s as [|c s IH]; [reflexivity|exact IH]. Qed.

Lemma takeChars_of (n : nat) (a b s : string) :
  s = a +:+ b -> n = String.length a -> Js.takeChars n s = a.
Proof. intros -> ->. apply takeChars_append. Qed.

Lemma first_some {T : Type} (a b : option T) (x : T) :
  a = Some x -> match a with Some y => Some y | None => b end = Some x.
Proof. intros ->. reflexivity. Qed.

Lemma stashRow_on_branch (ds branch message : string) :
  isDigitRun ds = true ->
  branch <> "" -> occursIn ":" branch = false -> Js.trim branch = branch ->
  message <> "" -> occursIn Js.LF message = false -> occursIn Js.CR message = false ->
  Js.trim message = message ->
  stashRow ("stash@{" +:+ ds +:+ "}: On " +:+ branch +:+ ": " +:+ message)
  = Some (mkStashEntry ("stash@{" +:+ ds +:+ "}") (Js.digitsValue ds)
            (Some branch) message None None).
Proof.
  intros Hds Hb Hbc Hbt Hm Hm1 Hm2 Hmt.
  pose proof (trimmed_head branch Hbt Hb) as Hbh.
  pose proof (trimmed_head message Hmt Hm) as Hmh.
  unfold isDigitRun in Hds. apply andb_true_iff in Hds as [Hdne Hds].
  assert (E : exists m, Rx.exec stashPattern
                 ("stash@{" +:+ ds +:+ "}: On " +:+ branch +:+ ": " +:+ message) = Some m
               /\ Rx.group 1 m = Some ("stash@{" +:+ ds +:+ "}")
               /\ Rx.group 2 m = Some ds
               /\ Rx.group 3 m = Some branch
               /\ Rx.group 4 m = Some message).
  { unfold stashPattern. rewrite exec_Bol. cbn [Rx.run].
    rewrite startsWith_append, dropChars_append.
    change "}: On " with ("}" +:+ ":" +:+ " " +:+ "On" +:+ " ").
    change ": " with (":" +:+ " ").
    rewrite !append_assoc.
    eexists. split.
    - eapply longestFirst_hit; [exact Hds|reflexivity| |].
      { destruct ds; [discriminate|simpl; lia]. }
      rewrite dropChars_append, startsWith_append, dropChars_append.
      rewrite startsWith_append, dropChars_append.
      eapply first_some.
      eapply (longestFirst_hit Rx.Space " "); [reflexivity|reflexivity|simpl; lia|].
      cbv beta. rewrite dropChars_append, startsWith_append, dropChars_append.
      eapply (longestFirst_hit Rx.Space " "); [reflexivity| |simpl; lia|].
      { destruct branch; [congruence|exact Hbh]. }
      cbv beta. rewrite dropChars_append.
      eapply (longestFirst_hit (Rx.Except ":") branch);
        [apply notOccurs_class, Hbc|reflexivity| |].
      { destruct branch; [congruence|simpl; lia]. }
      cbv beta. rewrite dropChars_append, startsWith_append, dropChars_append.
      match goal with |- (if (?a =? ?b)%nat then _ else _) = _ =>
        destruct (Nat.eqb_spec a b) as [Habs|_]; [simpl in Habs; lia|] end.
      eapply (longestFirst_hit Rx.Space " "); [reflexivity| |simpl; lia|].
      { destruct message; [congruence|exact Hmh]. }
      cbv beta. rewrite dropChars_append.
      rewrite <- (append_empty_r message) at 1.
      eapply (longestFirst_hit Rx.Dot message);
        [apply noTerminator_class; assumption|exact I| |].
      { destruct message; [congruence|simpl; lia]. }
      cbv beta. rewrite dropChars_length. simpl String.eqb. cbv iota.
      reflexivity.
    - unfold Rx.group. cbn [Rx.m_groups].
      repeat split.
      + rewrite !lookup_insert_ne by discriminate. rewrite lookup_insert_eq. f_equal.
        eapply takeChars_of; [rewrite ?append_assoc; reflexivity|].
        rewrite !length_append. simpl. lia.
      + rewrite !lookup_insert_ne by discriminate. rewrite lookup_insert_eq. f_equal.
        eapply takeChars_of; [reflexivity|]. simpl. lia.
      + rewrite !lookup_insert_ne by discriminate. rewrite lookup_insert_eq. f_equal.
        eapply takeChars_of; [reflexivity|]. simpl. lia.
      + rewrite lookup_insert_eq. f_equal.
        eapply takeChars_of; [symmetry; apply append_empty_r|]. simpl. lia. }
  destruct E as (m & E & G1 & G2 & G3 & G4).
  unfold stashRow. rewrite E, G1, G2, G3, G4. simpl. rewrite Hbt, Hmt. reflexivity.
Qed.

(** Two runs of digits, each followed by a character that is no digit:
    if the texts agree, so do the runs and what follows. *)
Lemma digit_prefix_unique (a b : string) (c d : ascii) (r r' : string) :
  allDigits a = true -> allDigits b = true ->
  Js.isDigit c = false -> Js.isDigit d = false ->
  a +:+ String c r = b +:+ String d r' -> a = b /\ c = d.
Proof.
  unfold allDigits. revert b. induction a as [|x a IH]; intros [|y b] Ha Hb Hc Hd E;
    simpl in *.
  - injection E as -> _. auto.
  - injection E as -> _. apply andb_true_iff in Hb as [Hy _]. congruence.
  - injection E as -> _. apply andb_true_iff in Ha as [Hx _]. congruence.
  - injection E as -> E. apply andb_true_iff in Ha as [_ Ha].
    apply andb_true_iff in Hb as [_ Hb].
    destruct (IH b Ha Hb Hc Hd E) as [-> ->]. auto.
Qed.

Lemma stashRow_selector (ds : string) (c : ascii) (rest : string) :
  allDigits ds = true -> Js.isDigit c = false -> c <> "}"%char ->
  stashRow ("stash@{" +:+ ds +:+ String c rest) = None.
Proof.
  intros Hds Hc Hbrace. destruct (stashRow _) as [e|] eqn:E; [|reflexivity].
  apply stashRow_shape in E as (ds' & rest' & Hds' & Hline & _).
  exfalso. apply isDigitRun_allDigits in Hds'.
  change ("stash@{" +:+ ds +:+ String c rest)
    with ("stash@{" +:+ (ds +:+ String c rest)) in Hline.
  change ("stash@{" +:+ ds' +:+ "}:" +:+ rest')
    with ("stash@{" +:+ (ds' +:+ String "}" (":" +:+ rest'))) in Hline.
  assert (E : ds +:+ String c rest = ds' +:+ String "}" (":" +:+ rest')).
  { simpl in Hline. injection Hline as E. exact E. }
  apply digit_prefix_unique in E as [_ E]; [congruence|assumption..|reflexivity].
Qed.

(** X1.  Every entry of [parseStashList] comes from a line that starts
    with [stash@{], a non-empty run of decimal digits and [}:]; its [ref] is
    that selector and its [index] the value of the digits, for a value up
    to 2^53, which a number holds exactly.  A line whose
    selector is not a run of digits up to the closing brace, as in
    [stash@{2 hours ago}], gives no entry: an output made of such lines
    parses to the empty list. *)
Theorem parseStashList_refs (output : string) :
  (forall e, e ∈ parseStashList output ->
     exists line ds rest,
       line ∈ nonEmptyLines output /\ isDigitRun ds = true
       /\ line = "stash@{" +:+ ds +:+ "}:" +:+ rest
       /\ se_ref e = "stash@{" +:+ ds +:+ "}"
       /\ ((Js.digitsValue ds <= 2 ^ 53)%N -> se_index e = Js.digitsValue ds))
  /\ ((forall line, line ∈ nonEmptyLines output ->
         exists ds c rest,
           line = "stash@{" +:+ ds +:+ String c rest
           /\ allDigits ds = true /\ Js.isDigit c = false /\ c <> "}"%char) ->
      parseStashList output = []).
Proof.
  unfold parseStashList. split.
  - intros e He. apply list_elem_of_omap in He as (line & Hline & Hrow).
    apply stashRow_shape in Hrow as (ds & rest & H). exists line, ds, rest. tauto.
  - intros Hall. induction (nonEmptyLines output) as [|line lines IH]; [reflexivity|].
    simpl. destruct (Hall line) as (ds & c & rest & -> & Hds & Hc & Hb);
      [apply list_elem_of_here|].
    rewrite stashRow_selector by assumption. apply IH.
    intros l Hl. apply Hall, list_elem_of_further, Hl.
Qed.

Lemma parseStashList_refs_witness :
  (exists line ds rest,
     line ∈ nonEmptyLines (textOf ["stash@{0}: On main: wip"; "stash@{1}: WIP on main: 1111111 fix"])
     /\ isDigitRun ds = true
     /\ line = "stash@{" +:+ ds +:+ "}:" +:+ rest
     /\ "stash@{1}" = "stash@{" +:+ ds +:+ "}"
     /\ ((Js.digitsValue ds <= 2 ^ 53)%N -> 1%N = Js.digitsValue ds))
  /\ parseStashList (textOf ["stash@{2 hours ago}: On main: wip";
                             "stash@{3 days ago}: WIP on main: 1111111 fix"]) = [].
Proof.
  split.
  - apply (proj1 (parseStashList_refs
                    (textOf ["stash@{0}: On main: wip"; "stash@{1}: WIP on main: 1111111 fix"]))
                 (mkStashEntry "stash@{1}" 1 None "WIP on main: 1111111 fix" None None)).
    apply list_elem_of_In. vm_compute. right. left. reflexivity.
  - apply (proj2 (parseStashList_refs _)).
    intros line Hline. apply list_elem_of_In in Hline. vm_compute in Hline.
    destruct Hline as [<-|[<-|[]]].
    + exists "2", " "%char, "hours ago}: On main: wip".
      split; [reflexivity|split; [reflexivity|split; [reflexivity|discriminate]]].
    + exists "3", " "%char, "days ago}: WIP on main: 1111111 fix".
      split; [reflexivity|split; [reflexivity|split; [reflexivity|discriminate]]].
Defined.

Lemma longestFirst_none {T : Type} (n least : nat) (attempt : nat -> option T) :
  (forall j, (j <= n)%nat -> attempt j = None) -> Rx.longestFirst n least attempt = None.
Proof.
  induction n as [|n IH]; intros H; simpl.
  - destruct (0 <? least)%nat; [reflexivity|]. rewrite H by lia. reflexivity.
  - destruct (S n <? least)%nat; [reflexivity|]. rewrite H by lia.
    apply IH. intros j Hj. apply H. lia.
Qed.

Lemma startsWith_cons_false (p : string) (c : ascii) (s : string) :
  Js.startsWith p (String c s) = true -> p = "" \/ exists p', p = String c p'.
Proof.
  unfold Js.startsWith. destruct p as [|a p]; [auto|]. simpl.
  destruct (ascii_dec a c) as [->|]; [eauto|discriminate].
Qed.

Lemma stashRow_plain (ds message : string) :
  isDigitRun ds = true ->
  message <> "" -> occursIn Js.LF message = false -> occursIn Js.CR message = false ->
  Js.trim message = message -> Js.startsWith "On" message = false ->
  stashRow ("stash@{" +:+ ds +:+ "}: " +:+ message)
  = Some (mkStashEntry ("stash@{" +:+ ds +:+ "}") (Js.digitsValue ds)
            None message None None).
Proof.
  intros Hds Hm Hm1 Hm2 Hmt Hon.
  pose proof (trimmed_head message Hmt Hm) as Hmh.
  unfold isDigitRun in Hds. apply andb_true_iff in Hds as [Hdne Hds].
  assert (E : exists m, Rx.exec stashPattern ("stash@{" +:+ ds +:+ "}: " +:+ message) = Some m
               /\ Rx.group 1 m = Some ("stash@{" +:+ ds +:+ "}")
               /\ Rx.group 2 m = Some ds
               /\ Rx.group 3 m = None
               /\ Rx.group 4 m = Some message).
  { unfold stashPattern. rewrite exec_Bol. cbn [Rx.run].
    rewrite startsWith_append, dropChars_append.
    change "}: " with ("}" +:+ ":" +:+ " ").
    rewrite !append_assoc.
    eexists. split.
    - eapply longestFirst_hit; [exact Hds|reflexivity| |].
      { destruct ds; [discriminate|simpl; lia]. }
      rewrite dropChars_append, startsWith_append, dropChars_append.
      rewrite startsWith_append, dropChars_append.
      rewrite (spanLength_run Rx.Space " " message);
        [|reflexivity|destruct message; [congruence|exact Hmh]].
      rewrite longestFirst_none.
      2:{ intros j Hj. simpl in Hj.
          assert (Hj' : j = 0%nat \/ j = 1%nat) by lia. destruct Hj' as [-> | ->].
          - reflexivity.
          - change (Js.dropChars 1 (" " +:+ message)) with message.
            rewrite Hon. reflexivity. }
      eapply (longestFirst_first 1 0); [lia|].
      change (Js.dropChars 1 (" " +:+ message)) with message.
      rewrite <- (append_empty_r message) at 1.
      eapply (longestFirst_hit Rx.Dot message);
        [apply noTerminator_class; assumption|exact I| |].
      { destruct message; [congruence|simpl; lia]. }
      cbv beta. rewrite dropChars_length. simpl String.eqb. cbv iota.
      reflexivity.
    - unfold Rx.group. cbn [Rx.m_groups].
      split; [|split; [|split]].
      + rewrite !lookup_insert_ne by discriminate. rewrite lookup_insert_eq. f_equal.
        eapply takeChars_of; [rewrite ?append_assoc; reflexivity|].
        rewrite !length_append. simpl. lia.
      + rewrite !lookup_insert_ne by discriminate. rewrite lookup_insert_eq. f_equal.
        eapply takeChars_of; [reflexivity|]. simpl. lia.
      + do 3 (rewrite lookup_insert_ne by discriminate). apply lookup_empty.
      + rewrite lookup_insert_eq. f_equal.
        eapply takeChars_of; [symmetry; apply append_empty_r|]. simpl. lia. }
  destruct E as (m & E & G1 & G2 & G3 & G4).
  unfold stashRow. rewrite E, G1, G2, G3, G4. simpl. rewrite Hmt. reflexivity.
Qed.

(** X2.  A line [stash@{N}: On <branch>: <message>] of the stash list,
    with [N] up to 2^53, a branch name without colon and a message on one
    line, neither padded with white space, gives the entry with the index
    [N] and that branch and message.
    A line [stash@{N}: <message>] whose message does not begin with [On],
    such as git's [WIP on <branch>: ...], gives an entry without branch
    whose message is all the text. *)
Theorem parseStashList_entries (output ds message : string) :
  isDigitRun ds = true -> (Js.digitsValue ds <= 2 ^ 53)%N ->
  message <> "" -> occursIn Js.LF message = false -> occursIn Js.CR message = false ->
  Js.trim message = message ->
  (forall branch,
     branch <> "" -> occursIn ":" branch = false -> Js.trim branch = branch ->
     ("stash@{" +:+ ds +:+ "}: On " +:+ branch +:+ ": " +:+ message) ∈ nonEmptyLines output ->
     mkStashEntry ("stash@{" +:+ ds +:+ "}") (Js.digitsValue ds) (Some branch) message
       None None ∈ parseStashList output)
  /\ (Js.startsWith "On" message = false ->
      ("stash@{" +:+ ds +:+ "}: " +:+ message) ∈ nonEmptyLines output ->
      mkStashEntry ("stash@{" +:+ ds +:+ "}") (Js.digitsValue ds) None message
        None None ∈ parseStashList output).
Proof.
  intros Hds _ Hm Hm1 Hm2 Hmt. unfold parseStashList. split.
  - intros branch Hb Hbc Hbt Hin. apply list_elem_of_omap. eexists. split; [exact Hin|].
    apply stashRow_on_branch; assumption.
  - intros Hon Hin. apply list_elem_of_omap. eexists. split; [exact Hin|].
    apply stashRow_plain; assumption.
Qed.

Lemma parseStashList_entries_witness :
  mkStashEntry "stash@{0}" 0 (Some "feature/login") "WIP on login flow" None None
    ∈ parseStashList (textOf ["stash@{0}: On feature/login: WIP on login flow";
                              "stash@{0}: WIP on login flow"])
  /\ mkStashEntry "stash@{0}" 0 None "WIP on login flow" None None
      ∈ parseStashList (textOf ["stash@{0}: On feature/login: WIP on login flow";
                                "stash@{0}: WIP on login flow"]).
Proof.
  destruct (parseStashList_entries
              (textOf ["stash@{0}: On feature/login: WIP on login flow";
                       "stash@{0}: WIP on login flow"])
              "0" "WIP on login flow"
              eq_refl ltac:(discriminate) ltac:(discriminate) eq_refl eq_refl eq_refl)
    as [Hon Hplain].
  split.
  - apply (Hon "feature/login" ltac:(discriminate) eq_refl eq_refl).
    apply list_elem_of_In. vm_compute. left. reflexivity.
  - apply (Hplain eq_refl).
    apply list_elem_of_In. vm_compute. right. left. reflexivity.
Defined.

(** ** Relative ages *)

(** X3.  [formatRelativeAge], for [Date.now()] among the time values of
    [Date] and a time stamp that is a whole number of seconds, positive and
    at most 2^53 (in that range the doubles of the source compute what the
    integers compute).  It answers [unknown] without a time stamp and for
    the time stamp zero.  Otherwise it prints a whole number, at least one,
    and a unit: seconds below a minute, minutes below an hour, hours below
    a day, days from there on; the number is the age in that unit, rounded
    down, and an age below one second, or a time stamp in the future, is
    printed as [1s]. *)
Theorem formatRelativeAge_units (nowMs epoch : Z) :
  (0 <= nowMs <= 8640000000000000)%Z ->
  formatRelativeAge nowMs None = "unknown"
  /\ formatRelativeAge nowMs (Some 0%Z) = "unknown"
  /\ (0 < epoch <= 2 ^ 53 ->
      let diff := Z.max 1 (nowMs / 1000 - epoch) in
      exists q unit,
        formatRelativeAge nowMs (Some epoch) = numberText (Z.to_N q) +:+ unit
        /\ 1 <= q
        /\ ((unit = "s" /\ q = diff /\ q < 60)
            \/ (unit = "m" /\ q = diff / 60 /\ q < 60)
            \/ (unit = "h" /\ q = diff / 3600 /\ q < 24)
            \/ (unit = "d" /\ q = diff / 86400)))%Z
  /\ (0 < epoch <= 2 ^ 53 -> nowMs / 1000 - epoch <= 1 ->
      formatRelativeAge nowMs (Some epoch) = "1s")%Z.
Proof.
  intros _.
  split; [reflexivity|]. split; [reflexivity|]. split.
  - intros Hne diff. unfold formatRelativeAge. fold diff.
    destruct (Z.eqb_spec epoch 0) as [|_]; [lia|].
    assert (Hdiff : (1 <= diff)%Z) by (unfold diff; lia).
    destruct (Z.ltb_spec diff 60).
    { exists diff, "s". split; [reflexivity|]. split; [lia|]. left. auto. }
    destruct (Z.ltb_spec diff 3600).
    { exists (diff / 60)%Z, "m". split; [reflexivity|].
      split; [|right; left; split; [reflexivity|split; [reflexivity|]]];
        Z.div_mod_to_equations; lia. }
    destruct (Z.ltb_spec diff 86400).
    { exists (diff / 3600)%Z, "h". split; [reflexivity|].
      split; [|right; right; left; split; [reflexivity|split; [reflexivity|]]];
        Z.div_mod_to_equations; lia. }
    exists (diff / 86400)%Z, "d". split; [reflexivity|].
    split; [|right; right; right; auto]. Z.div_mod_to_equations; lia.
  - intros Hne Hfuture. unfold formatRelativeAge.
    destruct (Z.eqb_spec epoch 0) as [|_]; [lia|].
    replace (Z.max 1 (nowMs / 1000 - epoch)) with 1%Z by lia. reflexivity.
Qed.

Lemma formatRelativeAge_units_witness :
  (exists q unit,
     formatRelativeAge 1700007300000 (Some 1700000000%Z) = numberText (Z.to_N q) +:+ unit
     /\ 1 <= q
     /\ ((unit = "s" /\ q = Z.max 1 (1700007300000 / 1000 - 1700000000) /\ q < 60)
         \/ (unit = "m" /\ q = Z.max 1 (1700007300000 / 1000 - 1700000000) / 60 /\ q < 60)
         \/ (unit = "h" /\ q = Z.max 1 (1700007300000 / 1000 - 1700000000) / 3600 /\ q < 24)
         \/ (unit = "d" /\ q = Z.max 1 (1700007300000 / 1000 - 1700000000) / 86400)))%Z
  /\ formatRelativeAge 1700007300000 (Some 1800000000%Z) = "1s".
Proof.
  assert (Hnow : (0 <= 1700007300000 <= 8640000000000000)%Z) by lia.
  split.
  - apply (proj1 (proj2 (proj2 (formatRelativeAge_units 1700007300000 1700000000 Hnow)))).
    lia.
  - apply (proj2 (proj2 (proj2 (formatRelativeAge_units 1700007300000 1800000000 Hnow)))).
    + lia.
    + vm_compute. discriminate.
Defined.

(** ** Splitting and joining *)

Lemma occursIn_cons (c d : ascii) (s : string) :
  occursIn c (String d s) = Ascii.eqb c d || occursIn c s.
Proof. reflexivity. Qed.

Lemma split_cons (sep c : ascii) (s : string) :
  Js.split sep (String c s)
  = if Ascii.eqb c sep then EmptyString :: Js.split sep s
    else Js.consHead c (Js.split sep s).
Proof. reflexivity. Qed.

Lemma split_clean (sep : ascii) (a : string) :
  occursIn sep a = false -> Js.split sep a = [a].
Proof.
  induction a as [|c a IH]; [reflexivity|]. rewrite occursIn_cons, split_cons.
  intros H. apply orb_false_iff in H as [Hc Ha].
  rewrite Ascii.eqb_sym, Hc, IH by exact Ha. reflexivity.
Qed.

Lemma split_append (sep : ascii) (a b : string) :
  occursIn sep a = false ->
  Js.split sep (a +:+ String sep b) = a :: Js.split sep b.
Proof.
  induction a as [|c a IH]; intros H.
  - change (Js.split sep (String sep b) = "" :: Js.split sep b).
    rewrite split_cons, Ascii.eqb_refl. reflexivity.
  - rewrite occursIn_cons in H. apply orb_false_iff in H as [Hc Ha].
    rewrite append_cons, split_cons, Ascii.eqb_sym, Hc, IH by exact Ha. reflexivity.
Qed.

Lemma join_cons2 (sep p q : string) (ps : list string) :
  Js.join sep (p :: q :: ps) = p +:+ sep +:+ Js.join sep (q :: ps).
Proof. reflexivity. Qed.

(** Splitting what was joined gives the pieces back, when no piece holds
    the separator. *)
Lemma split_join (sep : ascii) (pieces : list string) :
  pieces <> [] -> Forall (fun p => occursIn sep p = false) pieces ->
  Js.split sep (Js.join (String sep EmptyString) pieces) = pieces.
Proof.
  intros Hne Hall. induction Hall as [|p ps Hp Hps IH]; [congruence|].
  destruct ps as [|q ps].
  - apply split_clean, Hp.
  - rewrite join_cons2. change (String sep "" +:+ ?x) with (String sep x).
    rewrite split_append by exact Hp. rewrite IH by discriminate. reflexivity.
Qed.

(** Joining what was split gives the text back. *)
Lemma join_split (sep : ascii) (s : string) :
  Js.join (String sep EmptyString) (Js.split sep s) = s.
Proof.
  induction s as [|c s IH]; [reflexivity|]. rewrite split_cons.
  destruct (Ascii.eqb_spec c sep) as [->|Hc].
  - destruct (Js.split sep s) as [|p ps] eqn:E.
    + simpl in IH. subst s. discriminate E.
    + rewrite join_cons2, IH. reflexivity.
  - destruct (Js.split sep s) as [|p ps] eqn:E.
    + simpl in IH. subst s. discriminate E.
    + simpl Js.consHead. rewrite <- IH. destruct ps; reflexivity.
Qed.

Lemma split_nonempty (sep : ascii) (s : string) : Js.split sep s <> [].
Proof.
  destruct s as [|c s]; [discriminate|]. rewrite split_cons.
  destruct (Ascii.eqb c sep); [discriminate|].
  destruct (Js.split sep s); discriminate.
Qed.

(** No piece of a split holds the separator, nor any character that the
    text does not hold. *)
Lemma split_pieces (sep c : ascii) (s p : string) :
  p ∈ Js.split sep s ->
  occursIn sep p = false /\ (occursIn c s = false -> occursIn c p = false).
Proof.
  revert p. induction s as [|d s IH]; intros p Hp.
  - apply list_elem_of_singleton in Hp as ->. auto.
  - rewrite split_cons in Hp. destruct (Ascii.eqb_spec d sep) as [->|Hd].
    + apply elem_of_cons in Hp as [->|Hp]; [auto|].
      destruct (IH p Hp) as [H1 H2]. split; [exact H1|].
      rewrite occursIn_cons. intros H. apply orb_false_iff in H as [_ H]. auto.
    + destruct (Js.split sep s) as [|q qs] eqn:E; simpl in Hp.
      * exfalso. exact (split_nonempty sep s E).
      * apply elem_of_cons in Hp as [->|Hp].
        -- destruct (IH q ltac:(apply list_elem_of_here)) as [H1 H2]. split.
           ++ rewrite occursIn_cons, H1.
              destruct (Ascii.eqb_spec sep d); [congruence|reflexivity].
           ++ rewrite !occursIn_cons. intros H. apply orb_false_iff in H as [-> H].
              rewrite H2 by exact H. reflexivity.
        -- destruct (IH p ltac:(apply list_elem_of_further; exact Hp)) as [H1 H2]. split; [exact H1|].
           rewrite occursIn_cons. intros H. apply orb_false_iff in H as [_ H]. auto.
Qed.

Lemma splitLines_cons (c : ascii) (s : string) :
  Js.splitLines (String c s)
  = if Ascii.eqb c Js.LF then EmptyString :: Js.splitLines s
    else if Ascii.eqb c Js.CR && Js.startsWith (String Js.LF EmptyString) s
         then Js.splitLines s
         else Js.consHead c (Js.splitLines s).
Proof. reflexivity. Qed.

Lemma splitLines_clean (a : string) :
  occursIn Js.LF a = false -> Js.splitLines a = [a].
Proof.
  induction a as [|c a IH]; [reflexivity|]. rewrite occursIn_cons, splitLines_cons.
  intros H. apply orb_false_iff in H as [Hc Ha].
  rewrite Ascii.eqb_sym, Hc, IH by exact Ha.
  destruct (Ascii.eqb c Js.CR); [|reflexivity]. simpl.
  destruct a as [|d a]; [reflexivity|].
  rewrite occursIn_cons in Ha. apply orb_false_iff in Ha as [Hd _].
  rewrite startsWith_head_ne by exact Hd. reflexivity.
Qed.

Lemma splitLines_append (a b : string) :
  occursIn Js.LF a = false -> occursIn Js.CR a = false ->
  Js.splitLines (a +:+ String Js.LF b) = a :: Js.splitLines b.
Proof.
  induction a as [|c a IH]; intros H1 H2.
  - change (Js.splitLines (String Js.LF b) = "" :: Js.splitLines b).
    rewrite splitLines_cons. reflexivity.
  - rewrite occursIn_cons in H1, H2.
    apply orb_false_iff in H1 as [Hc1 Ha1]. apply orb_false_iff in H2 as [Hc2 Ha2].
    rewrite append_cons, splitLines_cons, (Ascii.eqb_sym c Js.LF), Hc1,
      (Ascii.eqb_sym c Js.CR), Hc2, IH by assumption.
    reflexivity.
Qed.

(** The lines of a text made of lines without line feed and carriage
    return. *)
Lemma splitLines_textOf (lines : list string) :
  lines <> [] ->
  Forall (fun l => occursIn Js.LF l = false /\ occursIn Js.CR l = false) lines ->
  Js.splitLines (textOf lines) = lines.
Proof.
  intros Hne Hall. unfold textOf. induction Hall as [|l ls [Hl1 Hl2] Hls IH]; [congruence|].
  destruct ls as [|q ls].
  - apply splitLines_clean, Hl1.
  - rewrite join_cons2. change (String Js.LF "" +:+ ?x) with (String Js.LF x).
    rewrite splitLines_append by assumption. rewrite IH by discriminate. reflexivity.
Qed.

Lemma nonEmptyLines_textOf (lines : list string) :
  Forall (fun l => l <> "" /\ occursIn Js.LF l = false /\ occursIn Js.CR l = false) lines ->
  nonEmptyLines (textOf lines) = lines.
Proof.
  intros Hall. unfold nonEmptyLines. destruct lines as [|l ls]; [reflexivity|].
  rewrite splitLines_textOf; [|discriminate|].
  - induction Hall as [|x xs [Hx _] _ IH]; [reflexivity|].
    simpl. destruct x; [congruence|]. simpl. rewrite IH. reflexivity.
  - eapply Forall_impl; [exact Hall|]. simpl. tauto.
Qed.

Lemma splitLines_nonempty (s : string) : Js.splitLines s <> [].
Proof.
  induction s as [|c s IH]; [discriminate|]. rewrite splitLines_cons.
  destruct (Ascii.eqb c Js.LF); [discriminate|].
  destruct (Ascii.eqb c Js.CR && Js.startsWith (String Js.LF "") s); [exact IH|].
  destruct (Js.splitLines s); discriminate.
Qed.

(** No line holds a line feed. *)
Lemma splitLines_pieces (s p : string) (c : ascii) :
  p ∈ Js.splitLines s ->
  occursIn Js.LF p = false /\ (occursIn c s = false -> occursIn c p = false).
Proof.
  revert p. induction s as [|d s IH]; intros p Hp.
  - apply list_elem_of_singleton in Hp as ->. auto.
  - rewrite splitLines_cons in Hp. destruct (Ascii.eqb_spec d Js.LF) as [->|Hd].
    + apply elem_of_cons in Hp as [->|Hp]; [auto|].
      destruct (IH p Hp) as [H1 H2]. split; [exact H1|].
      rewrite occursIn_cons. intros H. apply orb_false_iff in H as [_ H]. auto.
    + destruct (Ascii.eqb d Js.CR && Js.startsWith (String Js.LF "") s).
      * destruct (IH p Hp) as [H1 H2]. split; [exact H1|].
        rewrite occursIn_cons. intros H. apply orb_false_iff in H as [_ H]. auto.
      * destruct (Js.splitLines s) as [|q qs] eqn:E; simpl in Hp.
        -- exfalso. exact (splitLines_nonempty s E).
        -- apply elem_of_cons in Hp as [->|Hp].
           ++ destruct (IH q ltac:(apply list_elem_of_here)) as [H1 H2]. split.
              ** rewrite occursIn_cons, H1.
                 destruct (Ascii.eqb_spec Js.LF d); [congruence|reflexivity].
              ** rewrite !occursIn_cons. intros H. apply orb_false_iff in H as [-> H].
                 rewrite H2 by exact H. reflexivity.
           ++ destruct (IH p ltac:(apply list_elem_of_further; exact Hp)) as [H1 H2]. split; [exact H1|].
              rewrite occursIn_cons. intros H. apply orb_false_iff in H as [_ H]. auto.
Qed.

(** ** The commit-log parser *)

Lemma oneLine_spec (s : string) :
  oneLine s = true <-> occursIn Js.LF s = false /\ occursIn Js.CR s = false.
Proof.
  unfold oneLine. rewrite andb_true_iff, !negb_true_iff. reflexivity.
Qed.

Lemma isField_spec (s : string) :
  isField s = true
  <-> occursIn Js.LF s = false /\ occursIn Js.CR s = false /\ occursIn Js.TAB s = false.
Proof.
  unfold isField. rewrite andb_true_iff, oneLine_spec, negb_true_iff. tauto.
Qed.

Lemma takeChars_length (n : nat) (s : string) :
  (String.length (Js.takeChars n s) <= n)%nat.
Proof.
  revert s. induction n as [|n IH]; intros [|c s]; simpl; try lia.
  specialize (IH s). lia.
Qed.

Lemma occursIn_takeChars (c : ascii) (n : nat) (s : string) :
  occursIn c s = false -> occursIn c (Js.takeChars n s) = false.
Proof.
  intros H. rewrite <- (take_drop_chars n s), occursIn_append in H.
  apply orb_false_iff in H. tauto.
Qed.

(** A field of a row holds no tab and no line feed; so does the default
    that stands for a missing field. *)
Lemma row_field (output line : string) (i : nat) (default : string) :
  line ∈ nonEmptyLines output ->
  occursIn Js.TAB default = false -> occursIn Js.LF default = false ->
  occursIn Js.TAB (Js.orElse (Js.split Js.TAB line !! i) default) = false
  /\ occursIn Js.LF (Js.orElse (Js.split Js.TAB line !! i) default) = false.
Proof.
  intros Hline Ht Hl. unfold nonEmptyLines in Hline.
  apply list_elem_of_In, filter_In in Hline as [Hline _]. apply list_elem_of_In in Hline.
  destruct (splitLines_pieces output line Js.LF Hline) as [Hlf _].
  destruct (Js.split Js.TAB line !! i) as [p|] eqn:E; simpl; [|auto].
  apply list_elem_of_lookup_2 in E.
  destruct (split_pieces Js.TAB Js.LF line p E) as [H1 H2]. auto.
Qed.

(** X4.  Every entry of [parseMiniLog] has a hash that is not empty and a
    short hash made of the first eight characters of the hash, or of all
    of them when there are fewer; none of its fields holds a tab or a line
    feed.  There are no more entries than non-empty lines. *)
Theorem parseMiniLog_entries (output : string) :
  (forall e, e ∈ parseMiniLog output ->
     ml_hash e <> ""
     /\ ml_shortHash e = Js.takeChars 8 (ml_hash e)
     /\ (String.length (ml_shortHash e) <= 8)%nat
     /\ Forall (fun field => occursIn Js.TAB field = false /\ occursIn Js.LF field = false)
          [ml_hash e; ml_shortHash e; ml_author e; ml_relativeDate e; ml_subject e])
  /\ (length (parseMiniLog output) <= length (nonEmptyLines output))%nat.
Proof.
  unfold parseMiniLog. split.
  - intros e He. apply list_elem_of_In, filter_In in He as [He Hhash].
    apply in_map_iff in He as (line & <- & Hline). apply list_elem_of_In in Hline.
    unfold miniLogRow in *. cbn [ml_hash ml_shortHash ml_author ml_relativeDate ml_subject] in *.
    pose proof (row_field output line 0 "" Hline eq_refl eq_refl) as H0.
    pose proof (row_field output line 1 "unknown" Hline eq_refl eq_refl) as H1.
    pose proof (row_field output line 2 "unknown" Hline eq_refl eq_refl) as H2.
    pose proof (row_field output line 3 "" Hline eq_refl eq_refl) as H3.
    set (hash := Js.orElse (Js.split Js.TAB line !! 0%nat) "") in *.
    split; [|split; [reflexivity|split; [apply takeChars_length|]]].
    + intros E. rewrite E in Hhash. discriminate.
    + repeat constructor; try tauto; apply occursIn_takeChars; tauto.
  - etransitivity; [apply filter_length_le|]. rewrite length_map. reflexivity.
Qed.

Lemma parseMiniLog_entries_witness :
  ml_hash (mkMiniLogEntry "1111111122222222" "11111111" "Alice" "2 hours ago" "Fix login") <> ""
  /\ ml_shortHash (mkMiniLogEntry "1111111122222222" "11111111" "Alice" "2 hours ago" "Fix login")
     = Js.takeChars 8 "1111111122222222".
Proof.
  destruct (proj1 (parseMiniLog_entries
                     (logRow (mkMiniLogEntry "1111111122222222" "11111111" "Alice"
                                "2 hours ago" "Fix login")))
                  (mkMiniLogEntry "1111111122222222" "11111111" "Alice" "2 hours ago" "Fix login"))
    as (H1 & H2 & _).
  - apply list_elem_of_In. vm_compute. left. reflexivity.
  - split; assumption.
Defined.

Lemma miniLogRow_logRow (e : MiniLogEntry) :
  Forall (fun field => isField field = true)
    [ml_hash e; ml_author e; ml_relativeDate e; ml_subject e] ->
  ml_shortHash e = Js.takeChars 8 (ml_hash e) ->
  miniLogRow (logRow e) = e.
Proof.
  intros Hfields Hshort. unfold miniLogRow, logRow.
  rewrite split_join; [|discriminate|].
  - destruct e. simpl in *. rewrite Hshort. reflexivity.
  - eapply Forall_impl; [exact Hfields|]. intros f Hf. apply isField_spec in Hf. tauto.
Qed.

Lemma logRow_line (e : MiniLogEntry) :
  Forall (fun field => isField field = true)
    [ml_hash e; ml_author e; ml_relativeDate e; ml_subject e] ->
  ml_hash e <> "" ->
  logRow e <> "" /\ occursIn Js.LF (logRow e) = false /\ occursIn Js.CR (logRow e) = false.
Proof.
  intros Hfields Hhash. unfold logRow.
  inversion Hfields as [|? ? H1 Hf1]; subst. inversion Hf1 as [|? ? H2 Hf2]; subst.
  inversion Hf2 as [|? ? H3 Hf3]; subst. inversion Hf3 as [|? ? H4 _]; subst.
  apply isField_spec in H1 as (? & ? & _). apply isField_spec in H2 as (? & ? & _).
  apply isField_spec in H3 as (? & ? & _). apply isField_spec in H4 as (? & ? & _).
  rewrite !join_cons2. change (Js.join _ [ml_subject e]) with (ml_subject e).
  split.
  - destruct (ml_hash e); [congruence|discriminate].
  - rewrite !occursIn_append.
    repeat match goal with H : occursIn _ _ = false |- _ => rewrite H; clear H end.
    split; reflexivity.
Qed.

(** X5.  Printing and parsing the commit log: for entries whose four
    fields hold no tab, line feed or carriage return, whose hash is not
    empty and whose short hash is the first eight characters of the hash,
    [parseMiniLog] gives back the entries, in order, from the rows that
    [git log] prints for them under the format of [getMiniLog]. *)
Theorem parseMiniLog_logRows (entries : list MiniLogEntry) :
  Forall (fun e =>
            Forall (fun field => isField field = true)
              [ml_hash e; ml_author e; ml_relativeDate e; ml_subject e]
            /\ ml_hash e <> ""
            /\ ml_shortHash e = Js.takeChars 8 (ml_hash e)) entries ->
  parseMiniLog (textOf (List.map logRow entries)) = entries.
Proof.
  intros Hall. unfold parseMiniLog.
  rewrite nonEmptyLines_textOf.
  - induction Hall as [|e es (Hf & Hh & Hs) _ IH]; [reflexivity|].
    rewrite !List.map_cons, miniLogRow_logRow by assumption.
    cbn [List.filter]. rewrite IH.
    destruct (ml_hash e) eqn:E; [congruence|]. reflexivity.
  - apply Forall_map. eapply Forall_impl; [exact Hall|].
    intros e (Hf & Hh & _). apply logRow_line; assumption.
Qed.

Lemma parseMiniLog_logRows_witness :
  parseMiniLog
    (textOf (List.map logRow
               [mkMiniLogEntry "1111111122222222" "11111111" "Alice" "2 hours ago" "Fix login";
                mkMiniLogEntry "3333333" "3333333" "Bob" "3 days ago" ""]))
  = [mkMiniLogEntry "1111111122222222" "11111111" "Alice" "2 hours ago" "Fix login";
     mkMiniLogEntry "3333333" "3333333" "Bob" "3 days ago" ""].
Proof.
  apply parseMiniLog_logRows.
  repeat constructor; discriminate.
Defined.

(** ** The status parser, continued *)

Lemma statusLine_sectionsAgree (st : StatusInfo) (line : string) :
  sectionsAgree st -> sectionsAgree (statusLine st line).
Proof.
  intros (H1 & H2 & H3 & H4). unfold statusLine.
  destruct (Js.startsWith "# branch.head " line); [repeat split; assumption|].
  destruct (Js.startsWith "# branch.upstream " line); [repeat split; assumption|].
  destruct (Js.startsWith "# branch.ab " line); [repeat split; assumption|].
  destruct (Js.startsWith "1 " line || Js.startsWith "2 " line).
  { destruct (recordFields line) as [[x y] path].
    destruct (isConflictPair x y) eqn:Ec.
    - repeat split; try assumption. cbn [st_conflicts].
      apply Forall_app. split; [assumption|]. repeat constructor. exact Ec.
    - repeat split; try assumption; cbn [st_staged st_unstaged].
      + destruct (String.eqb_spec x "."); [assumption|].
        apply Forall_app. split; [assumption|]. repeat constructor; assumption.
      + destruct (String.eqb_spec y "."); [assumption|].
        apply Forall_app. split; [assumption|]. repeat constructor; assumption. }
  destruct (Js.startsWith "u " line).
  { repeat split; try assumption. cbn [st_conflicts].
    apply Forall_app. split; [assumption|]. repeat constructor. }
  destruct (Js.startsWith "? " line).
  { repeat split; try assumption. cbn [st_untracked].
    apply Forall_app. split; [assumption|]. repeat constructor. }
  repeat split; assumption.
Qed.

(** X6.  In the result of [parseStatusPorcelainV2] every change carries
    the section of the list it is in: a staged change has an index code
    other than [.], an unstaged change a work-tree code other than [.],
    neither with a conflict pattern; an untracked change has the codes
    [?]; a conflict has a conflict pattern ([U] on a side, [AA] or
    [DD]). *)
Theorem parseStatus_sections_agree (output : string) :
  sectionsAgree (parseStatusPorcelainV2 output).
Proof.
  unfold parseStatusPorcelainV2.
  assert (H : sectionsAgree emptyStatus) by (repeat split; constructor).
  revert H. generalize emptyStatus.
  induction (statusLines output) as [|line lines IH]; intros st H; [exact H|].
  simpl. apply IH, statusLine_sectionsAgree, H.
Qed.

Lemma split_join_append (sep : ascii) (pieces : list string) (rest : string) :
  pieces <> [] -> Forall (fun p => occursIn sep p = false) pieces ->
  Js.split sep (Js.join (String sep EmptyString) pieces +:+ String sep rest)
  = pieces ++ Js.split sep rest.
Proof.
  intros Hne Hall. induction Hall as [|p ps Hp Hps IH]; [congruence|].
  destruct ps as [|q ps].
  - simpl Js.join. apply split_append, Hp.
  - rewrite join_cons2. change (String sep "" +:+ ?x) with (String sep x).
    rewrite append_assoc, append_cons, split_append by exact Hp.
    rewrite IH by discriminate. reflexivity.
Qed.

(** X7.  The path of a file record is all the text after its eighth
    space, spaces included: for a line made of the kind [1] or [2], the
    status pair, six more fields without space, and then any text, the
    change that [parseStatusPorcelainV2] lists has that text as its path
    and the two characters of the pair as its codes.  (For a rename
    record, of kind [2], the text after the eighth space starts with the
    similarity score.) *)
Theorem parseStatus_record_path (output kind xy : string) (meta : list string)
  (rest : string) :
  kind = "1" \/ kind = "2" -> length meta = 6%nat ->
  Forall (fun field => occursIn " " field = false) (xy :: meta) ->
  let line := Js.join " " (kind :: xy :: meta) +:+ " " +:+ rest in
  let x := Js.orElse (charAt 0 xy) "." in
  let y := Js.orElse (charAt 1 xy) "." in
  recordFields line = (x, y, rest)
  /\ (line ∈ statusLines output -> isConflictPair x y = false ->
      (x <> "." ->
       mkFileChange rest None staged x y ∈ st_staged (parseStatusPorcelainV2 output))
      /\ (y <> "." ->
          mkFileChange rest None unstaged x y
            ∈ st_unstaged (parseStatusPorcelainV2 output))).
Proof.
  intros Hkind Hlen Hclean line x y.
  assert (Hsplit : Js.split " " line = (kind :: xy :: meta) ++ Js.split " " rest).
  { unfold line. change (" " +:+ rest) with (String " " rest).
    apply split_join_append; [discriminate|].
    constructor; [destruct Hkind as [-> | ->]; reflexivity|exact Hclean]. }
  assert (Hfields : recordFields line = (x, y, rest)).
  { unfold recordFields. rewrite Hsplit.
    do 7 (destruct meta as [|? meta]; try discriminate Hlen).
    cbn [app lookup list_lookup drop Js.orElse]. rewrite drop_0, join_split. reflexivity. }
  split; [exact Hfields|].
  intros Hin Hnc. apply (fold_statusLine_placed _ _ line); try assumption.
  unfold isFileRecord, line. destruct Hkind as [-> | ->].
  - rewrite join_cons2, !append_assoc.
    change ("1" +:+ " " +:+ ?z) with ("1 " +:+ z).
    rewrite startsWith_append. reflexivity.
  - rewrite join_cons2, !append_assoc.
    change ("2" +:+ " " +:+ ?z) with ("2 " +:+ z).
    rewrite (startsWith_append "2 "), orb_true_r. reflexivity.
Qed.

Lemma parseStatus_record_path_witness :
  recordFields "1 M. N... 100644 100644 100644 1111111 2222222 docs/release notes.md"
  = ("M", ".", "docs/release notes.md")
  /\ mkFileChange "docs/release notes.md" None staged "M" "."
     ∈ st_staged (parseStatusPorcelainV2
                    (textOf ["# branch.head main";
                             "1 M. N... 100644 100644 100644 1111111 2222222 docs/release notes.md"])).
Proof.
  destruct (parseStatus_record_path
              (textOf ["# branch.head main";
                       "1 M. N... 100644 100644 100644 1111111 2222222 docs/release notes.md"])
              "1" "M." ["N..."; "100644"; "100644"; "100644"; "1111111"; "2222222"]
              "docs/release notes.md" (or_introl eq_refl) eq_refl)
    as [Hfields Hplaced].
  - repeat constructor.
  - split; [exact Hfields|]. apply Hplaced.
    + apply list_elem_of_In. vm_compute. right. left. reflexivity.
    + reflexivity.
    + discriminate.
Defined.


(** ** Routing of file records *)

(** The iteration on the record of an unmerged file, as one equation. *)
Lemma statusLine_unmerged (st : StatusInfo) (line : string) :
  Js.startsWith "u " line = true ->
  statusLine st line
  = mkStatusInfo (st_branch st) (st_detachedHead st) (st_upstream st)
      (st_ahead st) (st_behind st)
      (st_staged st) (st_unstaged st) (st_untracked st)
      (st_conflicts st
       ++ [mkFileChange (Js.join " " (drop 10 (Js.split " " line))) None conflicts "U" "U"]).
Proof.
  intros Hu. unfold statusLine.
  rewrite (startsWith_distinct_heads "u" "#" " " " branch.head " line) by (discriminate || exact Hu).
  rewrite (startsWith_distinct_heads "u" "#" " " " branch.upstream " line)
    by (discriminate || exact Hu).
  rewrite (startsWith_distinct_heads "u" "#" " " " branch.ab " line) by (discriminate || exact Hu).
  rewrite (startsWith_distinct_heads "u" "1" " " " " line) by (discriminate || exact Hu).
  rewrite (startsWith_distinct_heads "u" "2" " " " " line) by (discriminate || exact Hu).
  rewrite Hu. reflexivity.
Qed.

(** Conflicts are only ever appended. *)
Lemma statusLine_conflicts_grow (st : StatusInfo) (line : string) :
  exists l, st_conflicts (statusLine st line) = st_conflicts st ++ l.
Proof.
  unfold statusLine. destruct (recordFields line) as [[x y] path].
  repeat match goal with
         | |- context [if ?c then _ else _] => destruct c
         end; cbn [st_conflicts]; eauto; exists []; rewrite app_nil_r; reflexivity.
Qed.

Lemma fold_statusLine_conflicts_grow (lines : list string) (st : StatusInfo) :
  exists l, st_conflicts (fold_left statusLine lines st) = st_conflicts st ++ l.
Proof.
  revert st. induction lines as [|line lines IH]; intros st; simpl.
  - exists []. rewrite app_nil_r. reflexivity.
  - destruct (IH (statusLine st line)) as [l1 H1].
    destruct (statusLine_conflicts_grow st line) as [l2 H2].
    rewrite H1, H2, <- app_assoc. eauto.
Qed.

Lemma fold_statusLine_sectionsAgree (lines : list string) (st : StatusInfo) :
  sectionsAgree st -> sectionsAgree (fold_left statusLine lines st).
Proof.
  revert st. induction lines as [|line lines IH]; intros st H; [exact H|].
  apply IH, statusLine_sectionsAgree, H.
Qed.

(** C3, as the code has it.  A record of kind [1] or [2] with status
    characters [x], [y]: a [U] on either side, or the pair [AA] or [DD],
    puts the file in conflicts and in no other set; otherwise [x] other
    than [.] appends an entry to staged and [y] other than [.] appends a
    separate entry to unstaged, so a record with both sides non-empty is in
    both sets.  The record of an unmerged file, of kind [u], puts the file
    in conflicts with the codes [U], [U], whatever its status pair, and in
    no other set; its path is the text after the tenth space.  No change
    listed as staged or unstaged has a conflict pattern.
    [staged.length + unstaged.length] is the number of non-empty sides of
    the records that are no conflict pattern: such a record with both
    sides non-empty counts twice. *)
Theorem parseStatus_record_routing :
  (forall st line x y path,
     isFileRecord line = true -> recordFields line = (x, y, path) ->
     (x = "U" \/ y = "U" \/ (x = "A" /\ y = "A") \/ (x = "D" /\ y = "D") ->
      st_conflicts (statusLine st line)
      = st_conflicts st ++ [mkFileChange path None conflicts x y]
      /\ st_staged (statusLine st line) = st_staged st
      /\ st_unstaged (statusLine st line) = st_unstaged st
      /\ st_untracked (statusLine st line) = st_untracked st)
     /\ (~ (x = "U" \/ y = "U" \/ (x = "A" /\ y = "A") \/ (x = "D" /\ y = "D")) ->
         st_conflicts (statusLine st line) = st_conflicts st
         /\ st_untracked (statusLine st line) = st_untracked st
         /\ st_staged (statusLine st line)
            = st_staged st
              ++ (if String.eqb x "." then [] else [mkFileChange path None staged x y])
         /\ st_unstaged (statusLine st line)
            = st_unstaged st
              ++ (if String.eqb y "." then [] else [mkFileChange path None unstaged x y])))
  /\ (forall st xy meta rest,
        length meta = 8%nat ->
        Forall (fun field => occursIn " " field = false) (xy :: meta) ->
        let line := Js.join " " ("u" :: xy :: meta) +:+ " " +:+ rest in
        st_conflicts (statusLine st line)
        = st_conflicts st ++ [mkFileChange rest None conflicts "U" "U"]
        /\ st_staged (statusLine st line) = st_staged st
        /\ st_unstaged (statusLine st line) = st_unstaged st
        /\ st_untracked (statusLine st line) = st_untracked st)
  /\ (forall output line x y path,
        line ∈ statusLines output ->
        isFileRecord line = true -> recordFields line = (x, y, path) ->
        ~ (x = "U" \/ y = "U" \/ (x = "A" /\ y = "A") \/ (x = "D" /\ y = "D")) ->
        (x <> "." ->
         mkFileChange path None staged x y ∈ st_staged (parseStatusPorcelainV2 output))
        /\ (y <> "." ->
            mkFileChange path None unstaged x y
              ∈ st_unstaged (parseStatusPorcelainV2 output)))
  /\ (forall output line,
        line ∈ statusLines output ->
        (forall x y path,
           isFileRecord line = true -> recordFields line = (x, y, path) ->
           x = "U" \/ y = "U" \/ (x = "A" /\ y = "A") \/ (x = "D" /\ y = "D") ->
           mkFileChange path None conflicts x y
             ∈ st_conflicts (parseStatusPorcelainV2 output))
        /\ (forall xy meta rest,
              length meta = 8%nat ->
              Forall (fun field => occursIn " " field = false) (xy :: meta) ->
              line = Js.join " " ("u" :: xy :: meta) +:+ " " +:+ rest ->
              mkFileChange rest None conflicts "U" "U"
                ∈ st_conflicts (parseStatusPorcelainV2 output)))
  /\ (forall output c,
        c ∈ st_staged (parseStatusPorcelainV2 output)
        \/ c ∈ st_unstaged (parseStatusPorcelainV2 output) ->
        ~ (fc_x c = "U" \/ fc_y c = "U" \/ (fc_x c = "A" /\ fc_y c = "A")
           \/ (fc_x c = "D" /\ fc_y c = "D")))
  /\ (forall output,
        length (st_staged (parseStatusPorcelainV2 output))
        + length (st_unstaged (parseStatusPorcelainV2 output))
        = list_sum (List.map sidesPlaced (statusLines output))).
Proof.
  assert (Hshape : forall xy meta rest,
            length meta = 8%nat ->
            Forall (fun field => occursIn " " field = false) (xy :: meta) ->
            Js.startsWith "u " (Js.join " " ("u" :: xy :: meta) +:+ " " +:+ rest) = true
            /\ Js.join " " (drop 10 (Js.split " "
                                       (Js.join " " ("u" :: xy :: meta) +:+ " " +:+ rest)))
               = rest).
  { intros xy meta rest Hlen Hclean. split.
    - rewrite join_cons2, !append_assoc.
      change ("u" +:+ " " +:+ ?z) with ("u " +:+ z). apply startsWith_append.
    - change (" " +:+ rest) with (String " " rest).
      rewrite split_join_append;
        [|discriminate|constructor; [reflexivity|exact Hclean]].
      do 9 (destruct meta as [|? meta]; try discriminate Hlen).
      cbn [app drop]. rewrite drop_0. apply join_split. }
  assert (Hplaced : forall output line change,
            line ∈ statusLines output ->
            (forall st, st_conflicts (statusLine st line) = st_conflicts st ++ [change]) ->
            change ∈ st_conflicts (parseStatusPorcelainV2 output)).
  { intros output line change Hin Hstep. unfold parseStatusPorcelainV2.
    apply list_elem_of_split in Hin as (l1 & l2 & ->).
    rewrite fold_left_app. cbn [fold_left].
    destruct (fold_statusLine_conflicts_grow l2
                (statusLine (fold_left statusLine l1 emptyStatus) line)) as [l Hl].
    rewrite Hl, Hstep, <- app_assoc. apply list_elem_of_In, in_or_app. right. left.
    reflexivity. }
  split; [|split; [|split; [|split; [|split]]]].
  - intros st line x y path Hrec Hfields.
    rewrite (statusLine_fileRecord st line x y path Hrec Hfields).
    split; intros Hc.
    + apply isConflictPair_spec in Hc. rewrite Hc. repeat split; reflexivity.
    + destruct (isConflictPair x y) eqn:E.
      * exfalso. apply Hc, isConflictPair_spec, E.
      * repeat split; reflexivity.
  - intros st xy meta rest Hlen Hclean line.
    destruct (Hshape xy meta rest Hlen Hclean) as [Hu Hpath]. fold line in Hu, Hpath.
    rewrite (statusLine_unmerged st line Hu), Hpath. repeat split; reflexivity.
  - intros output line x y path Hin Hrec Hfields Hc.
    apply (fold_statusLine_placed _ _ line); try assumption.
    destruct (isConflictPair x y) eqn:E; [|reflexivity].
    exfalso. apply Hc, isConflictPair_spec, E.
  - intros output line Hin. split.
    + intros x y path Hrec Hfields Hc. apply (Hplaced output line); [exact Hin|].
      intros st. rewrite (statusLine_fileRecord st line x y path Hrec Hfields).
      apply isConflictPair_spec in Hc. rewrite Hc. reflexivity.
    + intros xy meta rest Hlen Hclean ->. apply (Hplaced output _ _ Hin).
      intros st. destruct (Hshape xy meta rest Hlen Hclean) as [Hu Hpath].
      rewrite (statusLine_unmerged st _ Hu), Hpath. reflexivity.
  - intros output c Hc.
    assert (Hagree : sectionsAgree (parseStatusPorcelainV2 output)).
    { apply fold_statusLine_sectionsAgree. repeat split; constructor. }
    destruct Hagree as (Hs & Hu & _ & _). rewrite <- isConflictPair_spec.
    rewrite Forall_forall in Hs, Hu.
    destruct Hc as [Hc|Hc]; [apply Hs in Hc|apply Hu in Hc];
      destruct Hc as (_ & _ & Hc); congruence.
  - intros output. unfold parseStatusPorcelainV2.
    rewrite fold_statusLine_count. reflexivity.
Qed.

Lemma parseStatus_record_routing_witness :
  (mkFileChange "src/app.ts" None staged "M" "M"
     ∈ st_staged (parseStatusPorcelainV2 sampleStatus)
   /\ mkFileChange "src/app.ts" None unstaged "M" "M"
        ∈ st_unstaged (parseStatusPorcelainV2 sampleStatus))
  /\ (mkFileChange "merge me.txt" None conflicts "U" "U"
        ∈ st_conflicts
            (parseStatusPorcelainV2
               (textOf ["# branch.head main";
                        "u AA N... 100644 100644 100644 100644 1111111 2222222 3333333 merge me.txt";
                        "1 M. N... 100644 100644 100644 1111111 2222222 README.md"]))
      /\ st_staged (statusLine emptyStatus
           "u AA N... 100644 100644 100644 100644 1111111 2222222 3333333 merge me.txt")
         = [])
  /\ length (st_staged (parseStatusPorcelainV2 sampleStatus))
     + length (st_unstaged (parseStatusPorcelainV2 sampleStatus)) = 4.
Proof.
  destruct parseStatus_record_routing
    as (_ & Hunmerged & Hboth & Hconflicts & _ & Hcount).
  split; [|split].
  - assert (Hnc : ~ ("M" = "U" \/ "M" = "U" \/ ("M" = "A" /\ "M" = "A")
                     \/ ("M" = "D" /\ "M" = "D"))).
    { intros [H|[H|[[H _]|[H _]]]]; discriminate H. }
    destruct (Hboth sampleStatus partlyStagedRecord "M" "M" "src/app.ts") as [Hs Hu].
    + apply list_elem_of_In. vm_compute. do 5 right. left. reflexivity.
    + reflexivity.
    + reflexivity.
    + exact Hnc.
    + split; [apply Hs | apply Hu]; discriminate.
  - split.
    + assert (Hin : "u AA N... 100644 100644 100644 100644 1111111 2222222 3333333 merge me.txt"
                    ∈ statusLines
                        (textOf ["# branch.head main";
                                 "u AA N... 100644 100644 100644 100644 1111111 2222222 3333333 merge me.txt";
                                 "1 M. N... 100644 100644 100644 1111111 2222222 README.md"]))
        by (apply list_elem_of_In; vm_compute; right; left; reflexivity).
      apply (proj2 (Hconflicts _ _ Hin)
               "AA" ["N..."; "100644"; "100644"; "100644"; "100644"; "1111111"; "2222222";
                     "3333333"] "merge me.txt" eq_refl).
      * repeat constructor.
      * reflexivity.
    + destruct (Hunmerged emptyStatus "AA"
                  ["N..."; "100644"; "100644"; "100644"; "100644"; "1111111"; "2222222";
                   "3333333"] "merge me.txt" eq_refl) as (_ & Hst & _).
      * repeat constructor.
      * exact Hst.
  - rewrite Hcount. reflexivity.
Defined.

(** ** The worktree parser, continued *)

Lemma trimEnd_nonspace (c : ascii) (s : string) :
  Js.isSpace c = false -> Js.trimEnd (String c s) <> "".
Proof.
  intros Hc. simpl. destruct (Js.trimEnd s); [rewrite Hc|]; discriminate.
Qed.

Lemma trim_nonspace (c : ascii) (s : string) :
  Js.isSpace c = false -> Js.trim (String c s) <> "".
Proof.
  intros Hc. unfold Js.trim. simpl Js.trimStart. rewrite Hc.
  apply trimEnd_nonspace, Hc.
Qed.

(** A line that starts with a word is not blank. *)
Lemma startsWith_not_blank (c : ascii) (p line : string) :
  Js.isSpace c = false -> Js.startsWith (String c p) line = true ->
  String.eqb (Js.trim line) "" = false.
Proof.
  intros Hc H. apply startsWith_split in H. rewrite H, append_cons.
  apply String.eqb_neq, trim_nonspace, Hc.
Qed.


Lemma pushCurrent_counted (worktrees : list WorktreeInfo) (current : PartialWorktree) :
  let pushed := pushCurrent (worktrees, current) in
  (Forall (fun w => wt_path w <> "" /\ wt_head w <> "") worktrees ->
   Forall (fun w => wt_path w <> "" /\ wt_head w <> "") pushed.1)
  /\ (length pushed.1 + (if Js.truthy (pw_path pushed.2) then 1 else 0)
      <= length worktrees + (if Js.truthy (pw_path current) then 1 else 0))%nat.
Proof.
  unfold pushCurrent.
  destruct (Js.truthy (pw_path current)) eqn:Ep; simpl;
    [destruct (Js.truthy (pw_head current)) eqn:Eh; simpl|].
  - split.
    + intros H. apply Forall_app. split; [exact H|]. repeat constructor.
      * apply truthy_Some in Ep as (p & -> & Hp). exact Hp.
      * apply truthy_Some in Eh as (p & -> & Hp). exact Hp.
    + rewrite length_app. simpl. lia.
  - rewrite Ep. split; [auto|lia].
  - rewrite Ep. split; [auto|lia].
Qed.

Lemma worktreeLine_counted (s : WorktreeState) (line : string) :
  let s' := worktreeLine s line in
  (Forall (fun w => wt_path w <> "" /\ wt_head w <> "") s.1 ->
   Forall (fun w => wt_path w <> "" /\ wt_head w <> "") s'.1)
  /\ (length s'.1 + (if Js.truthy (pw_path s'.2) then 1 else 0)
      <= length s.1 + (if Js.truthy (pw_path s.2) then 1 else 0)
         + (if Js.startsWith "worktree " line then 1 else 0))%nat.
Proof.
  destruct s as [worktrees current]. unfold worktreeLine.
  destruct (String.eqb (Js.trim line) "") eqn:Eblank.
  { destruct (pushCurrent_counted worktrees current) as [H1 H2].
    split; [exact H1|]. simpl in *. lia. }
  destruct (Js.startsWith "worktree " line).
  { cbn [fst snd pw_path]. split; [auto|].
    repeat match goal with |- context [Js.truthy ?o] => destruct (Js.truthy o) end; lia. }
  destruct (Js.startsWith "HEAD " line); [simpl; split; [auto|lia]|].
  destruct (Js.startsWith "branch " line); [simpl; split; [auto|lia]|].
  destruct (String.eqb line "detached"); [simpl; split; [auto|lia]|].
  destruct (String.eqb line "bare"); [simpl; split; [auto|lia]|].
  destruct (Js.startsWith "prunable " line); simpl; split; auto; lia.
Qed.

Lemma fold_worktreeLine_counted (lines : list string) (s : WorktreeState) :
  let s' := fold_left worktreeLine lines s in
  (Forall (fun w => wt_path w <> "" /\ wt_head w <> "") s.1 ->
   Forall (fun w => wt_path w <> "" /\ wt_head w <> "") s'.1)
  /\ (length s'.1 + (if Js.truthy (pw_path s'.2) then 1 else 0)
      <= length s.1 + (if Js.truthy (pw_path s.2) then 1 else 0)
         + worktreeLines lines)%nat.
Proof.
  revert s. induction lines as [|line lines IH]; intros s; simpl.
  - split; [auto|]. unfold worktreeLines. simpl. lia.
  - destruct (IH (worktreeLine s line)) as [H1 H2].
    destruct (worktreeLine_counted s line) as [H3 H4].
    split; [auto|]. unfold worktreeLines in *. simpl.
    destruct (Js.startsWith "worktree " line); simpl in *; lia.
Qed.

(** X8.  Every record of [parseWorktrees] has a path and a head that are
    not empty, and there are no more records than lines that start with
    [worktree ]. *)
Theorem parseWorktrees_records (output : string) :
  Forall (fun w => wt_path w <> "" /\ wt_head w <> "") (parseWorktrees output)
  /\ (length (parseWorktrees output) <= worktreeLines (Js.splitLines output))%nat.
Proof.
  unfold parseWorktrees.
  destruct (fold_worktreeLine_counted (Js.splitLines output) ([], emptyPartial)) as [H1 H2].
  destruct (fold_left worktreeLine (Js.splitLines output) ([], emptyPartial))
    as [worktrees current].
  destruct (pushCurrent_counted worktrees current) as [H3 H4].
  simpl in *. split.
  - apply H3, H1. constructor.
  - destruct (Js.truthy (pw_path (pushCurrent (worktrees, current)).2)),
      (Js.truthy (pw_path current)); lia.
Qed.

Lemma replace_unfold (p r s : string) :
  Js.replace p r s
  = if Js.startsWith p s then r +:+ Js.dropChars (String.length p) s
    else match s with
         | EmptyString => EmptyString
         | String c s' => String c (Js.replace p r s')
         end.
Proof. destruct s; reflexivity. Qed.

Lemma replace_prefix (p r s : string) : Js.replace p r (p +:+ s) = r +:+ s.
Proof. rewrite replace_unfold, startsWith_append, dropChars_append. reflexivity. Qed.

Lemma isWord_spec (s : string) :
  isWord s = true
  <-> s <> "" /\ Js.trim s = s /\ occursIn Js.LF s = false /\ occursIn Js.CR s = false.
Proof.
  unfold isWord, isTrimmed.
  rewrite !andb_true_iff, negb_true_iff, String.eqb_neq, String.eqb_eq, oneLine_spec.
  tauto.
Qed.

Lemma worktreeLine_path (worktrees : list WorktreeInfo) (current : PartialWorktree)
  (path : string) :
  Js.trim path = path ->
  worktreeLine (worktrees, current) ("worktree " +:+ path)
  = (worktrees,
     mkPartialWorktree (Some path) (pw_head current) (pw_branch current)
       (pw_detached current) (pw_bare current) (pw_prunable current)).
Proof.
  intros Ht. unfold worktreeLine.
  rewrite (startsWith_not_blank "w" "orktree " _ eq_refl (startsWith_append _ _)).
  rewrite startsWith_append, replace_prefix. rewrite append_nil, Ht. reflexivity.
Qed.

Lemma worktreeLine_head (worktrees : list WorktreeInfo) (current : PartialWorktree)
  (head : string) :
  Js.trim head = head ->
  worktreeLine (worktrees, current) ("HEAD " +:+ head)
  = (worktrees,
     mkPartialWorktree (pw_path current) (Some head) (pw_branch current)
       (pw_detached current) (pw_bare current) (pw_prunable current)).
Proof.
  intros Ht. unfold worktreeLine.
  rewrite (startsWith_not_blank "H" "EAD " _ eq_refl (startsWith_append _ _)).
  rewrite (startsWith_append "HEAD "), replace_prefix.
  change (Js.startsWith "worktree " ("HEAD " +:+ head)) with false.
  rewrite append_nil, Ht. reflexivity.
Qed.

Lemma worktreeLine_branch (worktrees : list WorktreeInfo) (current : PartialWorktree)
  (branch : string) :
  Js.trim branch = branch ->
  worktreeLine (worktrees, current) ("branch refs/heads/" +:+ branch)
  = (worktrees,
     mkPartialWorktree (pw_path current) (pw_head current) (Some branch)
       (pw_detached current) (pw_bare current) (pw_prunable current)).
Proof.
  intros Ht. unfold worktreeLine.
  rewrite (startsWith_not_blank "b" "ranch refs/heads/" _ eq_refl (startsWith_append _ _)).
  rewrite replace_prefix.
  change (Js.startsWith "worktree " ("branch refs/heads/" +:+ branch)) with false.
  change (Js.startsWith "HEAD " ("branch refs/heads/" +:+ branch)) with false.
  change ("branch refs/heads/" +:+ branch) with ("branch " +:+ "refs/heads/" +:+ branch).
  rewrite (startsWith_append "branch "). rewrite append_nil, Ht. reflexivity.
Qed.

Lemma worktreeLine_detached (worktrees : list WorktreeInfo) (current : PartialWorktree) :
  worktreeLine (worktrees, current) "detached"
  = (worktrees,
     mkPartialWorktree (pw_path current) (pw_head current) (pw_branch current)
       (Some true) (pw_bare current) (pw_prunable current)).
Proof. reflexivity. Qed.

Lemma worktreeLine_prunable (worktrees : list WorktreeInfo) (current : PartialWorktree)
  (reason : string) :
  Js.trim reason = reason ->
  worktreeLine (worktrees, current) ("prunable " +:+ reason)
  = (worktrees,
     mkPartialWorktree (pw_path current) (pw_head current) (pw_branch current)
       (pw_detached current) (pw_bare current) (Some reason)).
Proof.
  intros Ht. unfold worktreeLine.
  rewrite (startsWith_not_blank "p" "runable " _ eq_refl (startsWith_append _ _)).
  rewrite (startsWith_append "prunable "), replace_prefix.
  change (Js.startsWith "worktree " ("prunable " +:+ reason)) with false.
  change (Js.startsWith "HEAD " ("prunable " +:+ reason)) with false.
  change (Js.startsWith "branch " ("prunable " +:+ reason)) with false.
  change (String.eqb ("prunable " +:+ reason) "detached") with false.
  change (String.eqb ("prunable " +:+ reason) "bare") with false.
  rewrite append_nil, Ht. reflexivity.
Qed.

Lemma worktreeLine_blank (s : WorktreeState) : worktreeLine s "" = pushCurrent s.
Proof. destruct s. reflexivity. Qed.


Lemma fold_worktreeBlock (w : WorktreeInfo) (rest : list string)
  (worktrees : list WorktreeInfo) :
  listedWorktree w ->
  fold_left worktreeLine (worktreeBlock w ++ rest) (worktrees, emptyPartial)
  = fold_left worktreeLine rest (worktrees ++ [w], emptyPartial).
Proof.
  destruct w as [path head branch detached bare prunable].
  unfold listedWorktree. cbn [wt_path wt_head wt_branch wt_detached wt_bare wt_prunable].
  intros (Hpath & Hhead & Hbranch & Hprunable & ->).
  apply isWord_spec in Hpath as (Hp1 & Hp2 & _).
  apply isWord_spec in Hhead as (Hh1 & Hh2 & _).
  unfold worktreeBlock. cbn [wt_path wt_head wt_branch wt_detached wt_prunable].
  cbn [app fold_left]. rewrite worktreeLine_path, worktreeLine_head by assumption.
  cbn [emptyPartial pw_path pw_head pw_branch pw_detached pw_bare pw_prunable].
  assert (Hend : forall (b : option string) (d : option bool) (p : option string),
             flagSet d = detached ->
             fold_left worktreeLine ("" :: rest)
               (worktrees, mkPartialWorktree (Some path) (Some head) b d None p)
             = fold_left worktreeLine rest
                 (worktrees ++ [mkWorktreeInfo path head b detached false p], emptyPartial)).
  { intros b d p Hd. cbn [fold_left]. rewrite worktreeLine_blank. unfold pushCurrent.
    cbn [pw_path pw_head pw_branch pw_detached pw_bare pw_prunable].
    destruct path; [congruence|]. destruct head; [congruence|].
    simpl. rewrite Hd. reflexivity. }
  destruct branch as [b|].
  - specialize (Hbranch b eq_refl). apply isWord_spec in Hbranch as (_ & Hb & _).
    cbn [app fold_left]. rewrite worktreeLine_branch by assumption.
    cbn [pw_path pw_head pw_branch pw_detached pw_bare pw_prunable].
    destruct detached; cbn [app fold_left]; rewrite ?worktreeLine_detached;
      cbn [pw_path pw_head pw_branch pw_detached pw_bare pw_prunable];
      (destruct prunable as [p|];
       [specialize (Hprunable p eq_refl); apply isWord_spec in Hprunable as (_ & Hp & _);
        cbn [app fold_left]; rewrite worktreeLine_prunable by assumption;
        cbn [pw_path pw_head pw_branch pw_detached pw_bare pw_prunable]
       |cbn [app]]);
      apply Hend; reflexivity.
  - destruct detached; cbn [app fold_left]; rewrite ?worktreeLine_detached;
      cbn [pw_path pw_head pw_branch pw_detached pw_bare pw_prunable];
      (destruct prunable as [p|];
       [specialize (Hprunable p eq_refl); apply isWord_spec in Hprunable as (_ & Hp & _);
        cbn [app fold_left]; rewrite worktreeLine_prunable by assumption;
        cbn [pw_path pw_head pw_branch pw_detached pw_bare pw_prunable]
       |cbn [app]]);
      apply Hend; reflexivity.
Qed.

Lemma fold_worktreeBlocks (ws : list WorktreeInfo) (worktrees : list WorktreeInfo) :
  Forall listedWorktree ws ->
  fold_left worktreeLine (concat (List.map worktreeBlock ws)) (worktrees, emptyPartial)
  = (worktrees ++ ws, emptyPartial).
Proof.
  intros Hall. revert worktrees. induction Hall as [|w ws Hw _ IH]; intros worktrees.
  - simpl. rewrite app_nil_r. reflexivity.
  - rewrite List.map_cons, concat_cons, fold_worktreeBlock by exact Hw.
    rewrite IH, <- app_assoc.
    reflexivity.
Qed.

Lemma occursIn_literal_append (c : ascii) (lit s : string) :
  occursIn c lit = false -> occursIn c s = false -> occursIn c (lit +:+ s) = false.
Proof. intros H1 H2. rewrite occursIn_append, H1, H2. reflexivity. Qed.

Lemma worktreeBlock_lines (w : WorktreeInfo) :
  listedWorktree w ->
  Forall (fun l => occursIn Js.LF l = false /\ occursIn Js.CR l = false) (worktreeBlock w).
Proof.
  intros (Hpath & Hhead & Hbranch & Hprunable & _).
  apply isWord_spec in Hpath as (_ & _ & ? & ?).
  apply isWord_spec in Hhead as (_ & _ & ? & ?).
  unfold worktreeBlock.
  destruct (wt_branch w) as [b|];
    [specialize (Hbranch b eq_refl); apply isWord_spec in Hbranch as (_ & _ & ? & ?)|];
    (destruct (wt_prunable w) as [p|];
     [specialize (Hprunable p eq_refl); apply isWord_spec in Hprunable as (_ & _ & ? & ?)|]);
    destruct (wt_detached w); cbn [app]; repeat constructor;
    try reflexivity; apply occursIn_literal_append; solve [reflexivity|assumption].
Qed.

(** X9.  Printing and parsing the worktree list: for worktrees that are
    not bare, whose path and head are words (not empty, on one line, not
    padded) and whose branch and reason, when present, are words too,
    [parseWorktrees] gives back the worktrees, in order, from the blocks
    that [git worktree list --porcelain] prints for them. *)
Theorem parseWorktrees_blocks (ws : list WorktreeInfo) :
  Forall listedWorktree ws ->
  parseWorktrees (textOf (concat (List.map worktreeBlock ws))) = ws.
Proof.
  intros Hall. unfold parseWorktrees.
  destruct ws as [|w ws]; [reflexivity|].
  rewrite splitLines_textOf.
  - rewrite fold_worktreeBlocks by exact Hall. reflexivity.
  - simpl. unfold worktreeBlock. discriminate.
  - apply Forall_concat, Forall_map.
    eapply Forall_impl; [exact Hall|]. intros x Hx. apply worktreeBlock_lines, Hx.
Qed.

Lemma parseWorktrees_blocks_witness :
  parseWorktrees
    (textOf (concat (List.map worktreeBlock
       [mkWorktreeInfo "/work/app" "1111111" (Some "main") false false None;
        mkWorktreeInfo "/work/app review" "2222222" None true false (Some "gitdir file points to non-existent location")])))
  = [mkWorktreeInfo "/work/app" "1111111" (Some "main") false false None;
     mkWorktreeInfo "/work/app review" "2222222" None true false (Some "gitdir file points to non-existent location")].
Proof.
  apply parseWorktrees_blocks.
  repeat constructor; cbn; try reflexivity; intros ? [= <-]; reflexivity.
Defined.

(** ** The branch parser, continued *)

Lemma replace_absent (p r s : string) : Js.includes p s = false -> Js.replace p r s = s.
Proof.
  induction s as [|c s IH]; rewrite includes_unfold, replace_unfold;
    destruct (Js.startsWith p _); try discriminate; [reflexivity|].
  intros H. rewrite IH by exact H. reflexivity.
Qed.

(** X10.  The names that [parseBranchRefs] derives from a row.  For the
    ref [refs/heads/<name>] the record is local, without remote name, its
    short name is [<name>], and it is current exactly when [<name>] is the
    current branch.  For the ref [refs/remotes/<remote>/<name>] the record
    is remote, its short name is [<remote>/<name>], its remote name is
    [<remote>], and it is never current.  (The names are not padded with
    white space; the local name does not contain [refs/remotes/] and the
    remote ref does not contain [refs/heads/], which the parser would cut
    out.) *)
Theorem parseBranchRefs_names (output : string) (cur : option string)
  (line : string) (rest : list string) (name : string) :
  line ∈ nonEmptyLines output ->
  (Js.split Js.TAB line = ("refs/heads/" +:+ name) :: rest ->
   Js.trim name = name -> Js.includes "refs/remotes/" name = false ->
   exists b, b ∈ parseBranchRefs output cur
             /\ bi_name b = "refs/heads/" +:+ name /\ bi_shortName b = name
             /\ bi_kind b = local /\ bi_remoteName b = None
             /\ bi_isCurrent b = sameName name cur)
  /\ (forall origin,
        Js.split Js.TAB line = ("refs/remotes/" +:+ origin +:+ "/" +:+ name) :: rest ->
        occursIn "/" origin = false ->
        Js.trim (origin +:+ "/" +:+ name) = origin +:+ "/" +:+ name ->
        Js.includes "refs/heads/" ("refs/remotes/" +:+ origin +:+ "/" +:+ name) = false ->
        exists b, b ∈ parseBranchRefs output cur
                  /\ bi_name b = "refs/remotes/" +:+ origin +:+ "/" +:+ name
                  /\ bi_shortName b = origin +:+ "/" +:+ name
                  /\ bi_kind b = remote /\ bi_remoteName b = Some origin
                  /\ bi_isCurrent b = false).
Proof.
  intros Hline. unfold parseBranchRefs. split.
  - intros Hsplit Htrim Hin.
    destruct (branchRow_accepts cur line _ rest Hsplit ltac:(discriminate)) as [b Hb].
    exists b. split; [apply list_elem_of_omap; eauto|].
    unfold branchRow in Hb. rewrite Hsplit in Hb.
    cbn [lookup list_lookup Js.truthy append negb Js.orElse] in Hb.
    rewrite replace_prefix, append_nil, (replace_absent _ _ name Hin), Htrim in Hb.
    change (Js.startsWith "refs/remotes/" ("refs/heads/" +:+ name)) with false in Hb.
    cbn [BranchKind_eqb andb] in Hb.
    destruct (parseAheadBehind _) as [ahead behind]. injection Hb as <-.
    repeat split; reflexivity.
  - intros origin Hsplit Horigin Htrim Hin.
    destruct (branchRow_accepts cur line _ rest Hsplit ltac:(discriminate)) as [b Hb].
    exists b. split; [apply list_elem_of_omap; eauto|].
    unfold branchRow in Hb. rewrite Hsplit in Hb.
    cbn [lookup list_lookup Js.truthy append negb Js.orElse] in Hb.
    rewrite (replace_absent "refs/heads/" _ _ Hin), replace_prefix, append_nil, Htrim,
      startsWith_append in Hb.
    cbn [BranchKind_eqb andb] in Hb.
    change ("/" +:+ name) with (String "/" name) in Hb.
    rewrite split_append in Hb by exact Horigin.
    cbn [lookup list_lookup] in Hb.
    destruct (parseAheadBehind _) as [ahead behind]. injection Hb as <-.
    repeat split; reflexivity.
Qed.

Lemma parseBranchRefs_names_witness :
  (exists b, b ∈ parseBranchRefs sampleBranches (Some "main")
             /\ bi_name b = "refs/heads/hotfix/ci" /\ bi_shortName b = "hotfix/ci"
             /\ bi_kind b = local /\ bi_remoteName b = None
             /\ bi_isCurrent b = sameName "hotfix/ci" (Some "main"))
  /\ (exists b, b ∈ parseBranchRefs sampleBranches (Some "main")
                /\ bi_name b = "refs/remotes/origin/main"
                /\ bi_shortName b = "origin/main"
                /\ bi_kind b = remote /\ bi_remoteName b = Some "origin"
                /\ bi_isCurrent b = false).
Proof.
  split.
  - apply (proj1 (parseBranchRefs_names sampleBranches (Some "main")
                    (refRow "refs/heads/hotfix/ci" "-" "" "1700000000")
                    ["-"; ""; "1700000000"] "hotfix/ci"
                    ltac:(apply list_elem_of_In; vm_compute; right; left; reflexivity)));
      reflexivity.
  - apply (proj2 (parseBranchRefs_names sampleBranches (Some "main")
                    (refRow "refs/remotes/origin/main" "" "" "1700000100")
                    [""; ""; "1700000100"] "main"
                    ltac:(apply list_elem_of_In; vm_compute; do 3 right; left; reflexivity))
                 "origin");
      reflexivity.
Defined.

(** ** Error actions *)

(** The actions that the classifier can offer. *)
Lemma suggestAction_actions (message : string) (stderr : option string) (action : string) :
  action ∈ sg_actions (suggestAction message stderr) ->
  action = "Set Upstream" \/ action = "Smart Checkout"
  \/ action = "Pull then Push" \/ action = "Force with Lease".
Proof.
  unfold suggestAction.
  repeat match goal with
         | |- context [if ?c then _ else _] => destruct c
         end; cbn [sg_actions]; rewrite ?elem_of_cons, ?elem_of_nil; tauto.
Qed.

Lemma runs_await {X : Type} (e : Eff X) (h : Heap) (tr : list (Event * Z)) (h' : Heap)
  (res : Result X) :
  runs (await e h) tr h' res
  <-> exists x t, tr = [(record e x, t)] /\ h' = setClock t h /\ res = Ok x.
Proof.
  unfold await. simpl. split.
  - intros (x & t & tr' & -> & -> & -> & ->). eauto.
  - intros (x & t & -> & -> & ->). exists x, t, []. auto.
Qed.

(** X11.  Every action that [suggestAction] offers is one that
    [runErrorAction] acts on.  [Set Upstream], [Smart Checkout] and
    [Force with Lease] execute the command of that name and nothing else.
    [Pull then Push] launches the pull and, only when the pull has
    succeeded, the push; a failure of either is thrown. *)
Theorem runErrorAction_offers (cfg : GitCcConfig) (message : string)
  (stderr : option string) (action : string) (repoUri : Uri) (h : Heap)
  (tr : list (Event * Z)) (h' : Heap) (res : Result unit) :
  action ∈ sg_actions (suggestAction message stderr) ->
  runs (runErrorAction cfg (Some action) repoUri h) tr h' res ->
  (action = "Set Upstream"
   /\ exists t, tr = [(EvCommand "gitcc.setUpstream", t)] /\ res = Ok tt)
  \/ (action = "Smart Checkout"
      /\ exists t, tr = [(EvCommand "gitcc.smartCheckout", t)] /\ res = Ok tt)
  \/ (action = "Force with Lease"
      /\ exists t, tr = [(EvCommand "gitcc.forcePushWithLease", t)] /\ res = Ok tt)
  \/ (action = "Pull then Push"
      /\ exists r1 t1,
           let pullCall :=
             (EvExec "git"
                ("-C" :: fsPath repoUri
                 :: ["pull"] ++ (if pullRebase cfg then ["--rebase"] else [])
                    ++ remoteArg (defaultRemote cfg)) r1, t1) in
           match r1 with
           | inr failure => tr = [pullCall] /\ res = Thrown (gitError failure)
           | inl _ =>
               exists r2 t2,
                 tr = [pullCall;
                       (EvExec "git"
                          ("-C" :: fsPath repoUri :: ["push"] ++ remoteArg (defaultRemote cfg))
                          r2, t2)]
                 /\ res = match r2 with
                          | inl _ => Ok tt
                          | inr failure => Thrown (gitError failure)
                          end
           end).
Proof.
  intros Hin Hruns. apply suggestAction_actions in Hin.
  destruct Hin as [-> | [-> | [-> | ->]]]; unfold runErrorAction in Hruns;
    cbn [Js.truthy negb isText String.eqb Ascii.eqb Bool.eqb] in Hruns.
  - left. split; [reflexivity|]. apply runs_await in Hruns as ([] & t & -> & _ & ->). eauto.
  - right. left. split; [reflexivity|].
    apply runs_await in Hruns as ([] & t & -> & _ & ->). eauto.
  - right. right. right. split; [reflexivity|].
    apply runs_bind in Hruns as [(tr1 & h1 & [] & tr2 & H1 & H2 & ->) | (e & H1 & ->)].
    + unfold pull in H1. apply runs_git_unit in H1 as (r1 & t1 & -> & -> & Hres).
      exists r1, t1. destruct r1 as [out1|f1]; [|discriminate].
      unfold push in H2. apply runs_git_unit in H2 as (r2 & t2 & -> & -> & ->).
      exists r2, t2. auto.
    + unfold pull in H1. apply runs_git_unit in H1 as (r1 & t1 & -> & -> & Hres).
      exists r1, t1. destruct r1 as [out1|f1]; [discriminate|].
      injection Hres as ->. auto.
  - right. right. left. split; [reflexivity|].
    apply runs_await in Hruns as ([] & t & -> & _ & ->). eauto.
Qed.

Lemma runErrorAction_offers_witness :
  exists r1 t1,
    match r1 with
    | inr failure =>
        fst (fst (execute (scripted (fun _ _ => inl (mkExecOutput "" "")) None None) []
                    (runErrorAction (sampleConfig ask) (Some "Pull then Push") sampleUri emptyHeap)))
        = [(EvExec "git" ["-C"; "/work/app"; "pull"; "origin"] r1, t1)]
    | inl _ =>
        exists r2 t2,
          fst (fst (execute (scripted (fun _ _ => inl (mkExecOutput "" "")) None None) []
                      (runErrorAction (sampleConfig ask) (Some "Pull then Push") sampleUri emptyHeap)))
          = [(EvExec "git" ["-C"; "/work/app"; "pull"; "origin"] r1, t1);
             (EvExec "git" ["-C"; "/work/app"; "push"; "origin"] r2, t2)]
    end.
Proof.
  destruct (runErrorAction_offers (sampleConfig ask) rejectedPush.1 rejectedPush.2
              "Pull then Push" sampleUri emptyHeap _ _ _
              ltac:(apply list_elem_of_In; vm_compute; left; reflexivity)
              (execute_runs_nil (scripted (fun _ _ => inl (mkExecOutput "" "")) None None)
                 (runErrorAction (sampleConfig ask) (Some "Pull then Push") sampleUri emptyHeap)))
    as [[H _] | [[H _] | [[H _] | [_ (r1 & t1 & H)]]]]; try discriminate H.
  exists r1, t1. destruct r1 as [out1|f1].
  - destruct H as (r2 & t2 & H & _). exists r2, t2. exact H.
  - destruct H as [H _]. exact H.
Defined.

(** ** GitService: cached reads *)

Lemma runs_getCached (key : string) (ttl : Z) (h : Heap) (tr : list (Event * Z))
  (h' : Heap) (res : Result (option CacheValue)) :
  runs (getCached key ttl h) tr h' res
  <-> tr = []
      /\ match gitCache h !! key with
         | None => h' = h /\ res = Ok None
         | Some cached =>
             if (clock h - ce_at cached >? ttl)%Z
             then h' = setGitCache (delete key (gitCache h)) h /\ res = Ok None
             else h' = h /\ res = Ok (Some (ce_value cached))
         end.
Proof.
  unfold getCached. destruct (gitCache h !! key) as [cached|]; simpl.
  - destruct (clock h - ce_at cached >? ttl)%Z; simpl; tauto.
  - tauto.
Qed.

(** A cached read that has to ask git: the listing is launched; when it
    succeeds its parse is returned and stored with the time of the answer,
    and when it fails nothing is stored. *)
Lemma runs_fill {A : Type} (cwd : string) (args : list string) (key : string)
  (parse : string -> A) (wrap : A -> CacheValue) (h : Heap)
  (tr : list (Event * Z)) (h' : Heap) (res : Result A) :
  isWriteCommand args = false ->
  runs ((output ← runGit cwd args;
         cacheSet key (wrap (parse output));; mret (parse output)) h) tr h' res ->
  exists answer t,
    tr = [(EvExec "git" ("-C" :: cwd :: args) answer, t)]
    /\ match answer with
       | inl result =>
           res = Ok (parse (Js.trimEnd (stdout result)))
           /\ h' = setGitCache
                     (<[key := mkCacheEntry t (wrap (parse (Js.trimEnd (stdout result))))]>
                        (gitCache h)) (setClock t h)
       | inr failure => res = Thrown (gitError failure) /\ h' = setClock t h
       end.
Proof.
  intros Hread Hruns.
  apply runs_bind in Hruns as [(tr1 & h1 & out & tr2 & H1 & H2 & ->) | (e & H1 & ->)].
  - apply runs_runGit in H1 as (answer & t & -> & -> & Hres).
    exists answer, t. destruct answer as [result|failure]; [|discriminate].
    injection Hres as ->. unfold purged in H2. rewrite Hread in H2.
    simpl in H2. destruct H2 as (-> & -> & ->). auto.
  - apply runs_runGit in H1 as (answer & t & -> & -> & Hres).
    exists answer, t. destruct answer as [result|failure]; [discriminate|].
    injection Hres as ->. unfold purged. rewrite Hread. auto.
Qed.

(** X12.  [getBranches] and its cache.  An entry under the key of the
    request that is at most 3000 ms old is returned as it is: no subprocess
    is launched and the heap does not change.  Without an entry, or with
    one that is older, the listing is launched; when it succeeds the parsed
    list is returned and stored under the key with the time of the answer,
    and when it fails the error is thrown and the key holds nothing.  A
    request that follows a successful one at once gets the same list from
    the cache. *)
Theorem getBranches_cache (repoUri : Uri) (cur : option string) (h : Heap) :
  (forall cachedAt v,
     gitCache h !! branchesKey repoUri cur = Some (mkCacheEntry cachedAt (BranchList v)) ->
     (clock h - cachedAt <= 3000)%Z ->
     getBranches repoUri cur h = Done h (Ok v))
  /\ (forall tr h' res,
        staleOrMissing (branchesKey repoUri cur) 3000 h ->
        runs (getBranches repoUri cur h) tr h' res ->
        exists answer t,
          tr = [(EvExec "git" ("-C" :: fsPath repoUri :: forEachRefArgs) answer, t)]
          /\ match answer with
             | inl result =>
                 res = Ok (parseBranchRefs (Js.trimEnd (stdout result)) cur)
                 /\ gitCache h' !! branchesKey repoUri cur
                    = Some (mkCacheEntry t
                              (BranchList (parseBranchRefs (Js.trimEnd (stdout result)) cur)))
             | inr failure =>
                 res = Thrown (gitError failure)
                 /\ gitCache h' !! branchesKey repoUri cur = None
             end)
  /\ (forall tr h' v,
        runs (getBranches repoUri cur h) tr h' (Ok v) ->
        getBranches repoUri cur h' = Done h' (Ok v)).
Proof.
  set (key := branchesKey repoUri cur).
  assert (Hhit : forall h0 cachedAt v,
             gitCache h0 !! key = Some (mkCacheEntry cachedAt (BranchList v)) ->
             (clock h0 - cachedAt <= 3000)%Z ->
             getBranches repoUri cur h0 = Done h0 (Ok v)).
  { intros h0 cachedAt v Hlook Hage. unfold getBranches, mbind, Async_bind, getCached.
    fold key. rewrite Hlook. cbn [ce_at ce_value].
    destruct (Z.gtb_spec (clock h0 - cachedAt) 3000); [lia|]. reflexivity. }
  assert (Hmiss : forall tr h' res,
    runs (getBranches repoUri cur h) tr h' res ->
    (exists cachedAt v,
        gitCache h !! key = Some (mkCacheEntry cachedAt (BranchList v))
        /\ (clock h - cachedAt <= 3000)%Z /\ tr = [] /\ h' = h /\ res = Ok v)
    \/ exists answer t,
         tr = [(EvExec "git" ("-C" :: fsPath repoUri :: forEachRefArgs) answer, t)]
         /\ match answer with
            | inl result =>
                res = Ok (parseBranchRefs (Js.trimEnd (stdout result)) cur)
                /\ clock h' = t
                /\ gitCache h' !! key
                   = Some (mkCacheEntry t
                             (BranchList (parseBranchRefs (Js.trimEnd (stdout result)) cur)))
            | inr failure =>
                res = Thrown (gitError failure)
                /\ (staleOrMissing key 3000 h -> gitCache h' !! key = None)
            end).
  { intros tr h' res Hruns. unfold getBranches in Hruns. fold key in Hruns.
    apply runs_bind in Hruns as [(tr1 & h1 & cached & tr2 & H1 & H2 & ->) | (e & H1 & ->)].
    2:{ apply runs_getCached in H1 as (_ & H1).
        destruct (gitCache h !! key) as [c|]; [destruct (_ >? _)%Z|];
          destruct H1 as [_ H1]; discriminate. }
    apply runs_getCached in H1 as (-> & H1).
    destruct (gitCache h !! key) as [[cachedAt value]|] eqn:Hlook.
    - cbn [ce_at ce_value] in H1.
      destruct (Z.gtb_spec (clock h - cachedAt) 3000) as [Hold|Hfresh].
      + destruct H1 as [-> [= ->]]. cbn [asBranchList] in H2. right.
        apply runs_fill in H2 as (answer & t & -> & H2); [|reflexivity].
        exists answer, t. split; [reflexivity|].
        destruct answer as [result|failure]; destruct H2 as [-> ->].
        * split; [reflexivity|]. split; [reflexivity|]. simpl. apply lookup_insert_eq.
        * split; [reflexivity|]. intros _. simpl. apply lookup_delete_eq.
      + destruct H1 as [-> [= ->]]. destruct value as [v|v]; cbn [asBranchList] in H2.
        * left. destruct H2 as (-> & -> & ->). exists cachedAt, v. auto.
        * right. apply runs_fill in H2 as (answer & t & -> & H2); [|reflexivity].
          exists answer, t. split; [reflexivity|].
          destruct answer as [result|failure]; destruct H2 as [-> ->].
          -- split; [reflexivity|]. split; [reflexivity|]. simpl. apply lookup_insert_eq.
          -- split; [reflexivity|]. unfold staleOrMissing. rewrite Hlook. simpl. lia.
    - destruct H1 as [-> [= ->]]. cbn [asBranchList] in H2. right.
      apply runs_fill in H2 as (answer & t & -> & H2); [|reflexivity].
      exists answer, t. split; [reflexivity|].
      destruct answer as [result|failure]; destruct H2 as [-> ->].
      + split; [reflexivity|]. split; [reflexivity|]. simpl. apply lookup_insert_eq.
      + split; [reflexivity|]. intros _. simpl. exact Hlook. }
  split; [apply Hhit|]. split.
  - intros tr h' res Hstale Hruns.
    destruct (Hmiss tr h' res Hruns) as [(cachedAt & v & Hlook & Hage & _) | (answer & t & Htr & H)].
    + unfold staleOrMissing in Hstale. fold key in Hstale. rewrite Hlook in Hstale.
      simpl in Hstale. lia.
    + exists answer, t. split; [exact Htr|].
      destruct answer as [result|failure].
      * destruct H as (H1 & _ & H3). auto.
      * destruct H as (H1 & H2). auto.
  - intros tr h' v Hruns.
    destruct (Hmiss tr h' (Ok v) Hruns)
      as [(cachedAt & v' & Hlook & Hage & _ & -> & [= <-]) | (answer & t & _ & H)].
    + apply (Hhit h cachedAt v Hlook Hage).
    + destruct answer as [result|failure]; [|destruct H as [H _]; discriminate H].
      destruct H as ([= ->] & Hclock & Hlook).
      apply (Hhit h' t _ Hlook). lia.
Qed.

Lemma getBranches_cache_witness :
  getBranches sampleUri (Some "main") cachedHeap = Done cachedHeap (Ok [mainBranch])
  /\ exists answer t,
       fst (fst (execute (scripted (fun _ _ => inl (mkExecOutput sampleBranches "")) None None) []
                   (getBranches sampleUri (Some "main") emptyHeap)))
       = [(EvExec "git" ("-C" :: fsPath sampleUri :: forEachRefArgs) answer, t)].
Proof.
  split.
  - apply (proj1 (getBranches_cache sampleUri (Some "main") cachedHeap) 0%Z [mainBranch]).
    + reflexivity.
    + vm_compute. discriminate.
  - destruct (proj1 (proj2 (getBranches_cache sampleUri (Some "main") emptyHeap)) _ _ _
                ltac:(vm_compute; exact I)
                (execute_runs_nil
                   (scripted (fun _ _ => inl (mkExecOutput sampleBranches "")) None None)
                   (getBranches sampleUri (Some "main") emptyHeap)))
      as (answer & t & H & _).
    exists answer, t. exact H.
Defined.

(** ** GitService: commands in sequence and under [try] *)

Lemma runs_catchRun {A : Type} (r : Run A) (handler : Exn -> Async A)
  (tr : list (Event * Z)) (h' : Heap) (res : Result A) :
  runs (catchRun r handler) tr h' res
  <-> (exists a, runs r tr h' (Ok a) /\ res = Ok a)
      \/ (exists tr1 h1 e tr2,
            runs r tr1 h1 (Thrown e) /\ runs (handler e h1) tr2 h' res /\ tr = tr1 ++ tr2).
Proof.
  revert tr. induction r as [h [a|e]|h X e k IH]; intros tr; simpl.
  - split.
    + intros (-> & -> & ->). left. exists a. auto.
    + intros [(a' & (-> & -> & E) & ->) | (tr1 & h1 & e & tr2 & (_ & _ & E) & _)].
      * auto.
      * discriminate E.
  - split.
    + intros H. right. exists [], h, e, tr. auto.
    + intros [(a' & (_ & _ & E) & _) | (tr1 & h1 & e' & tr2 & (-> & -> & E) & H & ->)].
      * discriminate E.
      * injection E as <-. exact H.
  - split.
    + intros (x & t & tr' & -> & H).
      apply IH in H as [(a & H & ->) | (tr1 & h1 & e' & tr2 & H1 & H2 & ->)].
      * left. exists a. split; [|reflexivity]. exists x, t, tr'. auto.
      * right. exists ((record e x, t) :: tr1), h1, e', tr2.
        split; [exists x, t, tr1; auto|]. auto.
    + intros [(a & (x & t & tr' & -> & H) & ->)
             | (tr1 & h1 & e' & tr2 & (x & t & tr' & -> & H1) & H2 & ->)].
      * exists x, t, tr'. split; [reflexivity|]. apply IH. left. eauto.
      * exists x, t, (tr' ++ tr2). split; [reflexivity|]. apply IH. right.
        exists tr', h1, e', tr2. auto.
Qed.

Lemma runs_tryCatch {A : Type} (body : Async A) (handler : Exn -> Async A) (h : Heap)
  (tr : list (Event * Z)) (h' : Heap) (res : Result A) :
  runs (tryCatch body handler h) tr h' res
  <-> (exists a, runs (body h) tr h' (Ok a) /\ res = Ok a)
      \/ (exists tr1 h1 e tr2,
            runs (body h) tr1 h1 (Thrown e) /\ runs (handler e h1) tr2 h' res
            /\ tr = tr1 ++ tr2).
Proof. apply runs_catchRun. Qed.

(** X13.  [abortMergeOrRebase] launches [merge --abort]; when that
    succeeds nothing else is launched, and when it fails its error is
    dropped and [rebase --abort] is launched, whose failure is the one
    thrown. *)
Theorem abortMergeOrRebase_fallback (repoUri : Uri) (h : Heap) (tr : list (Event * Z))
  (h' : Heap) (res : Result unit) :
  runs (abortMergeOrRebase repoUri h) tr h' res ->
  exists r1 t1,
    match r1 with
    | inl _ =>
        tr = [(EvExec "git" ["-C"; fsPath repoUri; "merge"; "--abort"] r1, t1)]
        /\ res = Ok tt
    | inr _ =>
        exists r2 t2,
          tr = [(EvExec "git" ["-C"; fsPath repoUri; "merge"; "--abort"] r1, t1);
                (EvExec "git" ["-C"; fsPath repoUri; "rebase"; "--abort"] r2, t2)]
          /\ res = match r2 with
                   | inl _ => Ok tt
                   | inr failure => Thrown (gitError failure)
                   end
    end.
Proof.
  unfold abortMergeOrRebase. intros Hruns.
  apply runs_tryCatch in Hruns as [(a & H1 & ->) | (tr1 & h1 & e & tr2 & H1 & H2 & ->)].
  - apply runs_git_unit in H1 as (r1 & t1 & -> & _ & Hres). exists r1, t1.
    destruct r1; [|discriminate]. destruct a. auto.
  - apply runs_git_unit in H1 as (r1 & t1 & -> & _ & Hres). exists r1, t1.
    destruct r1; [discriminate|].
    apply runs_git_unit in H2 as (r2 & t2 & -> & _ & ->). exists r2, t2. auto.
Qed.

Lemma abortMergeOrRebase_fallback_witness :
  exists r1 t1 r2 t2,
    fst (fst (execute (scripted (fun _ argv =>
                                   if isText (argv !! 2%nat) "merge"
                                   then inr (mkExecFailure "fatal: There is no merge to abort" None None)
                                   else inl (mkExecOutput "" "")) None None) []
                (abortMergeOrRebase sampleUri emptyHeap)))
    = [(EvExec "git" ["-C"; "/work/app"; "merge"; "--abort"] (inr r1), t1);
       (EvExec "git" ["-C"; "/work/app"; "rebase"; "--abort"] r2, t2)].
Proof.
  destruct (abortMergeOrRebase_fallback sampleUri emptyHeap _ _ _
              (execute_runs_nil
                 (scripted (fun _ argv =>
                              if isText (argv !! 2%nat) "merge"
                              then inr (mkExecFailure "fatal: There is no merge to abort" None None)
                              else inl (mkExecOutput "" "")) None None)
                 (abortMergeOrRebase sampleUri emptyHeap)))
    as (r1 & t1 & H).
  destruct r1 as [out1|f1].
  - destruct H as [H _]. vm_compute in H. discriminate H.
  - destruct H as (r2 & t2 & H & _). exists f1, t1, r2, t2. exact H.
Defined.

(** X14.  [discardAll] restores the work tree and then removes the
    untracked files: [clean -fd] is launched only when [restore] has
    succeeded, and a failure of either is thrown. *)
Theorem discardAll_order (repoUri : Uri) (h : Heap) (tr : list (Event * Z))
  (h' : Heap) (res : Result unit) :
  runs (discardAll repoUri h) tr h' res ->
  exists r1 t1,
    match r1 with
    | inr failure =>
        tr = [(EvExec "git" ["-C"; fsPath repoUri; "restore"; "--worktree"; "--"; "."] r1, t1)]
        /\ res = Thrown (gitError failure)
    | inl _ =>
        exists r2 t2,
          tr = [(EvExec "git" ["-C"; fsPath repoUri; "restore"; "--worktree"; "--"; "."] r1, t1);
                (EvExec "git" ["-C"; fsPath repoUri; "clean"; "-fd"] r2, t2)]
          /\ res = match r2 with
                   | inl _ => Ok tt
                   | inr failure => Thrown (gitError failure)
                   end
    end.
Proof.
  unfold discardAll. intros Hruns.
  apply runs_bind in Hruns as [(tr1 & h1 & a & tr2 & H1 & H2 & ->) | (e & H1 & ->)].
  - apply runs_runGit in H1 as (r1 & t1 & -> & _ & Hres). exists r1, t1.
    destruct r1; [|discriminate].
    apply runs_git_unit in H2 as (r2 & t2 & -> & _ & ->). exists r2, t2. auto.
  - apply runs_runGit in H1 as (r1 & t1 & -> & _ & Hres). exists r1, t1.
    destruct r1; [discriminate|]. injection Hres as ->. auto.
Qed.

Lemma discardAll_order_witness :
  exists f1 t1,
    fst (fst (execute (scripted (fun _ _ => inr (mkExecFailure "error: pathspec" None None))
                         None None) []
                (discardAll sampleUri emptyHeap)))
    = [(EvExec "git" ["-C"; "/work/app"; "restore"; "--worktree"; "--"; "."] (inr f1), t1)].
Proof.
  destruct (discardAll_order sampleUri emptyHeap _ _ _
              (execute_runs_nil
                 (scripted (fun _ _ => inr (mkExecFailure "error: pathspec" None None)) None None)
                 (discardAll sampleUri emptyHeap)))
    as (r1 & t1 & H).
  destruct r1 as [out1|f1].
  - destruct H as (r2 & t2 & H & _). vm_compute in H. discriminate H.
  - destruct H as [H _]. exists f1, t1. exact H.
Defined.

(** X15.  The probes never throw.  [isGitAvailable] launches
    [git --version], outside any repository, and answers whether it
    succeeded; [getTopLevel] launches [rev-parse --show-toplevel] in the
    given directory and answers the trimmed output, or nothing when the
    command fails.  Neither touches the cache. *)
Theorem probes_never_throw (repoPath : string) (h : Heap) :
  (forall tr h' res,
     runs (isGitAvailable h) tr h' res ->
     exists r t,
       tr = [(EvExec "git" ["--version"] r, t)]
       /\ res = Ok (match r with inl _ => true | inr _ => false end)
       /\ gitCache h' = gitCache h)
  /\ (forall tr h' res,
        runs (getTopLevel repoPath h) tr h' res ->
        exists r t,
          tr = [(EvExec "git" ["-C"; repoPath; "rev-parse"; "--show-toplevel"] r, t)]
          /\ res = Ok (match r with
                       | inl result => Some (Js.trim (Js.trimEnd (stdout result)))
                       | inr _ => None
                       end)
          /\ gitCache h' = gitCache h).
Proof.
  split.
  - intros tr h' res Hruns. unfold isGitAvailable in Hruns.
    unfold tryCatch, runGitRaw, mbind, mret, Async_bind, Async_ret, await, throw in Hruns.
    simpl in Hruns. destruct Hruns as (r & t & tr' & -> & Hruns). exists r, t.
    destruct r as [result|failure]; simpl in Hruns; destruct Hruns as (-> & -> & ->); auto.
  - intros tr h' res Hruns. unfold getTopLevel in Hruns.
    apply runs_tryCatch in Hruns as [(a & H1 & ->) | (tr1 & h1 & e & tr2 & H1 & H2 & ->)].
    + apply runs_bind in H1 as [(tr1 & h1 & out & tr2 & H1 & H2 & ->) | (e & H1 & E)];
        [|discriminate E].
      apply runs_runGit in H1 as (r & t & -> & -> & Hres). exists r, t.
      destruct r as [result|failure]; [|discriminate]. injection Hres as ->.
      destruct H2 as (-> & -> & [= ->]). auto.
    + apply runs_bind in H1 as [(tr0 & h0 & out & tr3 & H1 & H3 & ->) | (e' & H1 & E)].
      * destruct H3 as (_ & _ & E). discriminate E.
      * apply runs_runGit in H1 as (r & t & -> & -> & Hres). exists r, t.
        destruct r as [result|failure]; [discriminate|].
        destruct H2 as (-> & -> & ->). auto.
Qed.

Lemma probes_never_throw_witness :
  exists r t,
    fst (fst (execute (scripted (fun _ _ => inr (mkExecFailure "spawn git ENOENT" None
                                                   (Some (CodeText "ENOENT")))) None None) []
                (isGitAvailable emptyHeap)))
    = [(EvExec "git" ["--version"] r, t)]
    /\ snd (execute (scripted (fun _ _ => inr (mkExecFailure "spawn git ENOENT" None
                                                 (Some (CodeText "ENOENT")))) None None) []
              (isGitAvailable emptyHeap))
       = Ok (match r with inl _ => true | inr _ => false end).
Proof.
  destruct (proj1 (probes_never_throw "/work/app" emptyHeap) _ _ _
              (execute_runs_nil
                 (scripted (fun _ _ => inr (mkExecFailure "spawn git ENOENT" None
                                              (Some (CodeText "ENOENT")))) None None)
                 (isGitAvailable emptyHeap)))
    as (r & t & H1 & H2 & _).
  exists r, t. split; assumption.
Defined.

(** ** GitService: reads and the cache *)

Lemma runs_parsed {A : Type} (cwd : string) (args : list string) (parse : string -> A)
  (h : Heap) (tr : list (Event * Z)) (h' : Heap) (res : Result A) :
  runs ((output ← runGit cwd args; mret (parse output)) h) tr h' res
  <-> exists answer t,
        tr = [(EvExec "git" ("-C" :: cwd :: args) answer, t)]
        /\ h' = setClock t (purged cwd args h)
        /\ res = match answer with
                 | inl result => Ok (parse (Js.trimEnd (stdout result)))
                 | inr failure => Thrown (gitError failure)
                 end.
Proof.
  rewrite runs_bind. split.
  - intros [(tr1 & h1 & a & tr2 & H1 & H2 & ->) | (e & H1 & ->)].
    + apply runs_runGit in H1 as (answer & t & -> & -> & Hres).
      destruct H2 as (-> & -> & ->). exists answer, t.
      destruct answer; [|discriminate]. injection Hres as ->. auto.
    + apply runs_runGit in H1 as (answer & t & -> & -> & Hres).
      exists answer, t. destruct answer; [discriminate|].
      injection Hres as ->. auto.
  - intros (answer & t & -> & -> & ->). destruct answer as [result|failure].
    + left. exists [(EvExec "git" ("-C" :: cwd :: args) (inl result), t)],
        (setClock t (purged cwd args h)), (Js.trimEnd (stdout result)), [].
      split; [|split; [split; [|split]; reflexivity | reflexivity]].
      apply runs_runGit. exists (inl result), t. auto.
    + right. exists (gitError failure). split; [|reflexivity].
      apply runs_runGit. exists (inr failure), t. auto.
Qed.

(** X16.  Which reads empty the cache.  The listings of stashes and of
    worktrees go through [runGit] with [stash] and [worktree] as first
    argument, which are write commands for the cache: whatever git
    answers, no entry whose key contains the directory of the repository
    is left after them.  The status leaves the cache as it is. *)
Theorem listings_purge (repoUri : Uri) (h : Heap) (tr : list (Event * Z)) (h' : Heap) :
  (forall res key,
     runs (getStashes repoUri h) tr h' res ->
     Js.includes (fsPath repoUri) key = true -> gitCache h' !! key = None)
  /\ (forall res key,
        runs (getWorktrees repoUri h) tr h' res ->
        Js.includes (fsPath repoUri) key = true -> gitCache h' !! key = None)
  /\ (forall res, runs (getStatus repoUri h) tr h' res -> gitCache h' = gitCache h).
Proof.
  split; [|split].
  - intros res key Hruns Hkey. unfold getStashes in Hruns.
    apply runs_parsed in Hruns as (answer & t & _ & -> & _).
    simpl. rewrite lookup_withoutKeysIncluding, Hkey. reflexivity.
  - intros res key Hruns Hkey. unfold getWorktrees in Hruns.
    apply runs_parsed in Hruns as (answer & t & _ & -> & _).
    simpl. rewrite lookup_withoutKeysIncluding, Hkey. reflexivity.
  - intros res Hruns. apply runs_getStatus in Hruns as (answer & t & _ & -> & _).
    reflexivity.
Qed.

Lemma listings_purge_witness :
  gitCache (snd (fst (execute (scripted (fun _ _ => inl (mkExecOutput "" "")) None None) []
                        (getStashes sampleUri cachedHeap))))
    !! branchesKey sampleUri (Some "main") = None.
Proof.
  apply (proj1 (listings_purge sampleUri cachedHeap _ _) _ _
           (execute_runs_nil (scripted (fun _ _ => inl (mkExecOutput "" "")) None None)
              (getStashes sampleUri cachedHeap))).
  reflexivity.
Defined.

Lemma trimEnd_trailing (s : string) (c : ascii) :
  Js.isSpace c = true -> Js.trimEnd (s +:+ String c EmptyString) = Js.trimEnd s.
Proof.
  intros Hc. induction s as [|a s IH].
  - simpl. rewrite Hc. reflexivity.
  - rewrite append_cons, !trimEnd_cons, IH. reflexivity.
Qed.

Lemma trimStart_digits (ds rest : string) :
  isDigitRun ds = true -> Js.trimStart (ds +:+ rest) = ds +:+ rest.
Proof.
  unfold isDigitRun, allDigits. destruct ds as [|c ds]; [discriminate|]. simpl.
  intros H. apply andb_true_iff in H as [H _]. rewrite isDigit_not_space by exact H.
  reflexivity.
Qed.

Lemma splitSpaces_digits (g : bool) (ds : string) :
  allDigits ds = true -> splitSpacesFrom g ds = [ds].
Proof.
  unfold allDigits. revert g. induction ds as [|c ds IH]; intros g H; [reflexivity|].
  simpl in H. apply andb_true_iff in H as [Hc Hds].
  simpl. rewrite isDigit_not_space by exact Hc. rewrite IH by exact Hds. reflexivity.
Qed.

Lemma splitSpaces_pair (a b : string) (c : ascii) :
  allDigits a = true -> allDigits b = true -> Js.isSpace c = true ->
  splitSpaces (a +:+ String c b) = [a; b].
Proof.
  unfold splitSpaces, allDigits. intros Ha Hb Hc. induction a as [|x a IH].
  - simpl. rewrite Hc. rewrite splitSpaces_digits by exact Hb. reflexivity.
  - simpl in Ha. apply andb_true_iff in Ha as [Hx Ha].
    rewrite append_cons. simpl. rewrite isDigit_not_space by exact Hx.
    rewrite IH by exact Ha. reflexivity.
Qed.

(** X17.  [compareBranches] reads only: it launches [rev-list
    --left-right --count left...right], then the log of [right..left] and
    the log of [left..right], each after the one before has succeeded, and
    the cache is as before.  The two counts are the first two pieces of the
    trimmed answer between runs of white space; for git's answer
    [A<TAB>B], of decimal digits with values up to 2^53, which a number
    holds exactly, they are [A] and [B]. *)
Theorem compareBranches_reads (repoUri : Uri) (left right : string) (h : Heap) :
  (forall tr h' res,
     runs (compareBranches repoUri left right h) tr h' res ->
     gitCache h' = gitCache h
     /\ exists r1 t1,
          let counts :=
            (EvExec "git" ("-C" :: fsPath repoUri
                           :: ["rev-list"; "--left-right"; "--count"; left +:+ "..." +:+ right])
                    r1, t1) in
          match r1 with
          | inr failure => tr = [counts] /\ res = Thrown (gitError failure)
          | inl out1 =>
              exists r2 t2,
                let leftLog :=
                  (EvExec "git" ("-C" :: fsPath repoUri :: miniLogArgs (right +:+ ".." +:+ left) 20)
                          r2, t2) in
                match r2 with
                | inr failure => tr = [counts; leftLog] /\ res = Thrown (gitError failure)
                | inl out2 =>
                    exists r3 t3,
                      tr = [counts; leftLog;
                            (EvExec "git"
                               ("-C" :: fsPath repoUri :: miniLogArgs (left +:+ ".." +:+ right) 20)
                               r3, t3)]
                      /\ res = match r3 with
                               | inr failure => Thrown (gitError failure)
                               | inl out3 =>
                                   let pieces :=
                                     splitSpaces (Js.trim (Js.trimEnd (stdout out1))) in
                                   Ok (mkBranchComparison
                                         (countOf (pieces !! 0%nat)) (countOf (pieces !! 1%nat))
                                         (parseMiniLog (Js.trimEnd (stdout out2)))
                                         (parseMiniLog (Js.trimEnd (stdout out3))))
                               end
                end
          end)
  /\ (forall a b,
        isDigitRun a = true -> isDigitRun b = true ->
        (Js.digitsValue a <= 2 ^ 53)%N -> (Js.digitsValue b <= 2 ^ 53)%N ->
        let pieces :=
          splitSpaces (Js.trim (Js.trimEnd (a +:+ String Js.TAB b +:+ String Js.LF ""))) in
        countOf (pieces !! 0%nat) = CountOf (Js.digitsValue a)
        /\ countOf (pieces !! 1%nat) = CountOf (Js.digitsValue b)).
Proof.
  split.
  - intros tr h' res Hruns. unfold compareBranches in Hruns.
    apply runs_bind in Hruns as [(tr1 & h1 & out1 & tr2 & H1 & H2 & ->) | (e & H1 & ->)].
    2:{ apply runs_runGit in H1 as (r1 & t1 & -> & -> & Hres).
        split; [reflexivity|]. exists r1, t1. destruct r1; [discriminate|].
        injection Hres as ->. auto. }
    apply runs_runGit in H1 as (r1 & t1 & -> & -> & Hres).
    destruct r1 as [result1|]; [|discriminate]. injection Hres as ->.
    apply runs_bind in H2 as [(tr2' & h2 & leftOnly & tr3 & H2 & H3 & ->) | (e & H2 & ->)].
    2:{ unfold getMiniLogForRange in H2.
        apply runs_parsed in H2 as (r2 & t2 & -> & -> & Hres).
        split; [reflexivity|]. exists (inl result1), t1, r2, t2.
        destruct r2; [discriminate|]. injection Hres as ->. auto. }
    unfold getMiniLogForRange in H2.
    apply runs_parsed in H2 as (r2 & t2 & -> & -> & Hres).
    destruct r2 as [result2|]; [|discriminate]. injection Hres as ->.
    apply runs_bind in H3 as [(tr3' & h3 & rightOnly & tr4 & H3 & H4 & ->) | (e & H3 & ->)].
    + unfold getMiniLogForRange in H3.
      apply runs_parsed in H3 as (r3 & t3 & -> & -> & Hres).
      destruct r3 as [result3|]; [|discriminate]. injection Hres as ->.
      destruct H4 as (-> & -> & ->).
      split; [reflexivity|]. exists (inl result1), t1, (inl result2), t2, (inl result3), t3.
      auto.
    + unfold getMiniLogForRange in H3.
      apply runs_parsed in H3 as (r3 & t3 & -> & -> & Hres).
      split; [reflexivity|]. exists (inl result1), t1, (inl result2), t2, r3, t3.
      destruct r3; [discriminate|]. injection Hres as ->. auto.
  - intros a b Ha Hb _ _ pieces.
    assert (Hpieces : pieces = [a; b]).
    { unfold pieces.
      assert (Hb' : Js.trimEnd b <> "")
        by (rewrite trimEnd_digits by (apply isDigitRun_allDigits, Hb);
            destruct b; [discriminate|discriminate]).
      assert (Hx : Js.trimEnd (a +:+ String Js.TAB b) = a +:+ String Js.TAB b).
      { change (a +:+ String Js.TAB b) with (a +:+ String Js.TAB "" +:+ b).
        rewrite <- append_assoc, trimEnd_append by exact Hb'.
        rewrite trimEnd_digits by (apply isDigitRun_allDigits, Hb). reflexivity. }
      replace (a +:+ String Js.TAB b +:+ String Js.LF "")
        with ((a +:+ String Js.TAB b) +:+ String Js.LF "")
        by (rewrite append_assoc; reflexivity).
      rewrite trimEnd_trailing by reflexivity. rewrite Hx.
      unfold Js.trim. rewrite trimStart_digits by exact Ha. rewrite Hx.
      apply splitSpaces_pair;
        [apply isDigitRun_allDigits, Ha|apply isDigitRun_allDigits, Hb|reflexivity]. }
    rewrite Hpieces. unfold countOf. simpl.
    rewrite (isDigitRun_allDigits a Ha), (isDigitRun_allDigits b Hb). auto.
Qed.

Lemma compareBranches_reads_witness :
  (countOf (splitSpaces (Js.trim (Js.trimEnd ("3" +:+ String Js.TAB "12" +:+ String Js.LF "")))
            !! 0%nat) = CountOf 3
   /\ countOf (splitSpaces (Js.trim (Js.trimEnd ("3" +:+ String Js.TAB "12" +:+ String Js.LF "")))
               !! 1%nat) = CountOf 12)
  /\ gitCache
       (execute (scripted (fun _ _ => inl (mkExecOutput ("3" +:+ String Js.TAB "12") "")) None None) []
          (compareBranches sampleUri "main" "topic" cachedHeap)).1.2
     = gitCache cachedHeap.
Proof.
  split.
  - apply (proj2 (compareBranches_reads sampleUri "main" "topic" emptyHeap) "3" "12");
      first [reflexivity | discriminate].
  - apply (proj1 (compareBranches_reads sampleUri "main" "topic" cachedHeap) _ _ _
             (execute_runs_nil (scripted (fun _ _ => inl (mkExecOutput ("3" +:+ String Js.TAB "12") "")) None None)
                (compareBranches sampleUri "main" "topic" cachedHeap))).
Defined.

(** ** Branch memory *)

Lemma memoryKey_inj (k1 k2 : string) : memoryKey k1 = memoryKey k2 -> k1 = k2.
Proof. unfold memoryKey. simpl. intros [= H]. exact H. Qed.

(** The heap after a memory has been saved and the update awaited. *)
Lemma runs_saveMemory (repoKey : string) (memory : RepoBranchMemory) (h : Heap)
  (tr : list (Event * Z)) (h' : Heap) (res : Result unit) :
  runs (saveMemory repoKey memory h) tr h' res
  <-> exists t,
        tr = [(EvMementoUpdate (memoryKey repoKey), t)] /\ res = Ok tt
        /\ clock h' = t /\ gitCache h' = gitCache h /\ notices h' = notices h
        /\ workspaceState h' = <[memoryKey repoKey := memory]> (workspaceState h).
Proof.
  unfold saveMemory. simpl. split.
  - intros ([] & t & tr' & -> & -> & -> & ->). exists t. repeat split; reflexivity.
  - intros (t & -> & -> & Hc & Hg & Hn & Hw). exists tt, t, [].
    split; [reflexivity|]. split; [reflexivity|]. split; [|reflexivity].
    destruct h'. simpl in *. subst. reflexivity.
Qed.

Lemma memoryOf_saved (h h' : Heap) (repoKey : string) (memory : RepoBranchMemory) :
  workspaceState h' = <[memoryKey repoKey := memory]> (workspaceState h) ->
  memoryOf h' repoKey = memory
  /\ forall other, other <> repoKey -> memoryOf h' other = memoryOf h other.
Proof.
  intros Hw. unfold memoryOf. rewrite Hw. split.
  - rewrite lookup_insert_eq. reflexivity.
  - intros other Hne. rewrite lookup_insert_ne; [reflexivity|].
    intros E. apply Hne. symmetry. apply memoryKey_inj, E.
Qed.

Lemma filter_other_length (name : string) (names : list string) :
  name ∈ names ->
  (length (List.filter (fun n => negb (String.eqb n name)) names) < length names)%nat.
Proof.
  induction names as [|n names IH]; intros Hin; [inversion Hin|].
  simpl. destruct (String.eqb_spec n name) as [->|Hne]; simpl.
  - pose proof (filter_length_le (fun n => negb (String.eqb n name)) names). lia.
  - apply elem_of_cons in Hin as [->|Hin]; [congruence|]. specialize (IH Hin). lia.
Qed.

Lemma NoDup_take {A : Type} (n : nat) (l : list A) : NoDup l -> NoDup (take n l).
Proof.
  intros H. rewrite <- (take_drop n l) in H. apply NoDup_app in H. tauto.
Qed.

(** X18.  What [recordCheckout] leaves in the memory of the repository.
    The recent branches are the branch checked out, followed by the former
    ones without it, cut to ten; so they are at most ten, stay free of
    duplicates, and when the branch was among ten or fewer recent ones they
    are the same branches in another order.  The favourites, and the memory
    of any other repository, are as before.  The update of the memento is
    the only interaction. *)
Theorem recordCheckout_recents (repoKey branchName : string) (h : Heap)
  (tr : list (Event * Z)) (h' : Heap) (res : Result unit) :
  runs (recordCheckout repoKey branchName h) tr h' res ->
  (exists t, tr = [(EvMementoUpdate (memoryKey repoKey), t)]) /\ res = Ok tt
  /\ getRecents h' repoKey
     = take 10 (branchName
                :: List.filter (fun name => negb (String.eqb name branchName))
                               (getRecents h repoKey))
  /\ (length (getRecents h' repoKey) <= 10)%nat
  /\ (NoDup (getRecents h repoKey) -> NoDup (getRecents h' repoKey))
  /\ (branchName ∈ getRecents h repoKey -> (length (getRecents h repoKey) <= 10)%nat ->
      forall name, name ∈ getRecents h' repoKey <-> name ∈ getRecents h repoKey)
  /\ getFavorites h' repoKey = getFavorites h repoKey
  /\ (forall other, other <> repoKey ->
        getRecents h' other = getRecents h other
        /\ getFavorites h' other = getFavorites h other).
Proof.
  intros Hruns. unfold recordCheckout in Hruns.
  apply runs_bind in Hruns as [(tr1 & h1 & memory & tr2 & H1 & H2 & ->) | (e & H1 & _)].
  2:{ destruct H1 as (_ & _ & E). discriminate E. }
  destruct H1 as (-> & -> & [= ->]).
  apply runs_saveMemory in H2 as (t & -> & -> & _ & _ & _ & Hw).
  destruct (memoryOf_saved h h' repoKey _ Hw) as [Hmem Hother].
  unfold getRecents, getFavorites. rewrite Hmem. cbn [recents favorites].
  set (old := recents (memoryOf h repoKey)).
  set (others := List.filter (fun name => negb (String.eqb name branchName)) old).
  split; [eauto|]. split; [reflexivity|]. split; [reflexivity|].
  split; [rewrite length_take; lia|]. split; [|split; [|split]].
  - intros Hnd. apply NoDup_take. constructor.
    + unfold others. rewrite list_elem_of_In, filter_In. intros [_ Hb].
      rewrite String.eqb_refl in Hb. discriminate.
    + apply NoDup_ListNoDup, List.NoDup_filter, NoDup_ListNoDup, Hnd.
  - intros Hin Hlen name.
    pose proof (filter_other_length branchName old Hin) as Hshort. fold others in Hshort.
    rewrite take_ge by (simpl; lia).
    rewrite elem_of_cons. unfold others. rewrite list_elem_of_In, filter_In, <- list_elem_of_In.
    rewrite negb_true_iff, String.eqb_neq. split.
    + intros [->|[H _]]; assumption.
    + intros H. destruct (String.eqb_spec name branchName); auto.
  - reflexivity.
  - intros other Hne. rewrite (Hother other Hne). auto.
Qed.

Lemma recordCheckout_recents_witness :
  getRecents
    (snd (fst (execute (scripted (fun _ _ => inl (mkExecOutput "" "")) None None) []
                 (recordCheckout "/work/app" "main" emptyHeap)))) "/work/app"
  = take 10 ("main" :: List.filter (fun name => negb (String.eqb name "main"))
                                   (getRecents emptyHeap "/work/app")).
Proof.
  apply (recordCheckout_recents "/work/app" "main" emptyHeap _ _ _
           (execute_runs_nil (scripted (fun _ _ => inl (mkExecOutput "" "")) None None)
              (recordCheckout "/work/app" "main" emptyHeap))).
Defined.

Lemma includesName_spec (names : list string) (name : string) :
  includesName names name = true <-> name ∈ names.
Proof.
  unfold includesName. rewrite existsb_exists, list_elem_of_In. split.
  - intros (x & Hin & Heq). apply String.eqb_eq in Heq. subst. exact Hin.
  - intros Hin. exists name. split; [exact Hin|apply String.eqb_refl].
Qed.

Lemma filter_absent (names : list string) (name : string) :
  includesName names name = false ->
  List.filter (fun n => negb (String.eqb n name)) names = names.
Proof.
  unfold includesName. induction names as [|n ns IH]; [reflexivity|].
  simpl. intros H. apply orb_false_iff in H as [Hn Hns].
  rewrite String.eqb_sym, Hn. simpl. f_equal. apply IH, Hns.
Qed.

(** The runs of [pin]: nothing for a favourite, one update otherwise. *)
Lemma runs_pin (repoKey branchName : string) (h : Heap)
  (tr : list (Event * Z)) (h' : Heap) (res : Result unit) :
  runs (pin repoKey branchName h) tr h' res ->
  res = Ok tt
  /\ if isFavorite h repoKey branchName
     then tr = [] /\ h' = h
     else (exists t, tr = [(EvMementoUpdate (memoryKey repoKey), t)])
          /\ memoryOf h' repoKey
             = mkRepoBranchMemory (take 50 (branchName :: getFavorites h repoKey))
                                  (getRecents h repoKey).
Proof.
  intros Hruns. unfold pin in Hruns.
  apply runs_bind in Hruns as [(tr1 & h1 & memory & tr2 & H1 & H2 & ->) | (e & H1 & _)].
  2:{ destruct H1 as (_ & _ & E). discriminate E. }
  destruct H1 as (-> & -> & [= ->]).
  unfold isFavorite, getFavorites, getRecents.
  destruct (includesName (favorites (memoryOf h repoKey)) branchName) eqn:Efav;
    cbn [negb] in H2.
  - destruct H2 as (-> & -> & ->). auto.
  - apply runs_saveMemory in H2 as (t & -> & -> & _ & _ & _ & Hw).
    destruct (memoryOf_saved h h' repoKey _ Hw) as [Hmem _].
    split; [reflexivity|]. split; [eauto|exact Hmem].
Qed.

(** X19.  [pin] makes the branch a favourite.  When it is one already,
    nothing is written and the heap is as before.  Otherwise the branch is
    put in front of the favourites, which are cut to fifty, and the memento
    is updated: the favourites stay free of duplicates and, from fifty or
    fewer, at most fifty.  The recent branches are as before. *)
Theorem pin_favorites (repoKey branchName : string) (h : Heap)
  (tr : list (Event * Z)) (h' : Heap) (res : Result unit) :
  runs (pin repoKey branchName h) tr h' res ->
  res = Ok tt
  /\ isFavorite h' repoKey branchName = true
  /\ (isFavorite h repoKey branchName = true -> tr = [] /\ h' = h)
  /\ (isFavorite h repoKey branchName = false ->
      (exists t, tr = [(EvMementoUpdate (memoryKey repoKey), t)])
      /\ getFavorites h' repoKey = take 50 (branchName :: getFavorites h repoKey))
  /\ (NoDup (getFavorites h repoKey) -> NoDup (getFavorites h' repoKey))
  /\ ((length (getFavorites h repoKey) <= 50)%nat ->
      (length (getFavorites h' repoKey) <= 50)%nat)
  /\ getRecents h' repoKey = getRecents h repoKey.
Proof.
  intros Hruns. apply runs_pin in Hruns as [-> Hruns].
  split; [reflexivity|].
  destruct (isFavorite h repoKey branchName) eqn:Efav.
  - destruct Hruns as [-> ->]. rewrite Efav.
    split; [reflexivity|]. split; [auto|]. split; [discriminate|]. auto.
  - destruct Hruns as [Htr Hmem]. unfold isFavorite, getFavorites, getRecents in *.
    rewrite Hmem. cbn [favorites recents].
    split; [|split; [discriminate|split; [|split; [|split]]]].
    + apply includesName_spec. simpl. apply list_elem_of_here.
    + intros _. auto.
    + intros Hnd. apply NoDup_take. constructor; [|exact Hnd].
      intros Hin. apply includesName_spec in Hin. congruence.
    + intros _. rewrite length_take. lia.
    + reflexivity.
Qed.

Lemma pin_favorites_witness :
  isFavorite
    (snd (fst (execute (scripted (fun _ _ => inl (mkExecOutput "" "")) None None) []
                 (pin "/work/app" "main" emptyHeap)))) "/work/app" "main" = true.
Proof.
  apply (pin_favorites "/work/app" "main" emptyHeap _ _ _
           (execute_runs_nil (scripted (fun _ _ => inl (mkExecOutput "" "")) None None)
              (pin "/work/app" "main" emptyHeap))).
Defined.

(** X20.  [unpin] removes the branch from the favourites and keeps the
    others, in order; the memento is updated whether the branch was a
    favourite or not, and the recent branches are as before.  Unpinning a
    branch that has just been pinned, when there were fewer than fifty
    favourites without it, gives the favourites back as they were. *)
Theorem unpin_favorites (repoKey branchName : string) (h : Heap)
  (tr : list (Event * Z)) (h' : Heap) (res : Result unit) :
  runs (unpin repoKey branchName h) tr h' res ->
  (exists t, tr = [(EvMementoUpdate (memoryKey repoKey), t)]) /\ res = Ok tt
  /\ isFavorite h' repoKey branchName = false
  /\ getFavorites h' repoKey
     = List.filter (fun name => negb (String.eqb name branchName)) (getFavorites h repoKey)
  /\ (forall other, other <> branchName ->
        isFavorite h' repoKey other = isFavorite h repoKey other)
  /\ getRecents h' repoKey = getRecents h repoKey
  /\ (forall h0 tr0 res0,
        runs (pin repoKey branchName h0) tr0 h res0 ->
        isFavorite h0 repoKey branchName = false ->
        (length (getFavorites h0 repoKey) < 50)%nat ->
        getFavorites h' repoKey = getFavorites h0 repoKey).
Proof.
  intros Hruns. unfold unpin in Hruns.
  apply runs_bind in Hruns as [(tr1 & h1 & memory & tr2 & H1 & H2 & ->) | (e & H1 & _)].
  2:{ destruct H1 as (_ & _ & E). discriminate E. }
  destruct H1 as (-> & -> & [= ->]).
  apply runs_saveMemory in H2 as (t & -> & -> & _ & _ & _ & Hw).
  destruct (memoryOf_saved h h' repoKey _ Hw) as [Hmem _].
  unfold isFavorite, getFavorites, getRecents. rewrite Hmem. cbn [favorites recents].
  set (old := favorites (memoryOf h repoKey)).
  split; [eauto|]. split; [reflexivity|]. split; [|split; [reflexivity|split; [|split]]].
  - apply not_true_iff_false. rewrite includesName_spec, list_elem_of_In, filter_In.
    intros [_ Hb]. rewrite String.eqb_refl in Hb. discriminate.
  - intros other Hne. apply eq_true_iff_eq.
    rewrite !includesName_spec, !list_elem_of_In, filter_In, negb_true_iff, String.eqb_neq.
    tauto.
  - reflexivity.
  - intros h0 tr0 res0 Hpin Hnot Hlen.
    apply runs_pin in Hpin as [_ Hpin]. unfold isFavorite, getFavorites in Hpin.
    rewrite Hnot in Hpin. destruct Hpin as [_ Hfav].
    unfold old. rewrite Hfav. cbn [favorites]. rewrite take_ge by (simpl; lia).
    simpl. rewrite String.eqb_refl. simpl.
    apply filter_absent, Hnot.
Qed.

Lemma unpin_favorites_witness :
  getFavorites
    (snd (fst (execute (scripted (fun _ _ => inl (mkExecOutput "" "")) None None) []
                 (unpin "/work/app" "gone" rememberingHeap)))) "/work/app"
  = ["topic"; "main"]
  /\ isFavorite
       (snd (fst (execute (scripted (fun _ _ => inl (mkExecOutput "" "")) None None) []
                    (unpin "/work/app" "gone" rememberingHeap)))) "/work/app" "gone" = false
  /\ isFavorite
       (snd (fst (execute (scripted (fun _ _ => inl (mkExecOutput "" "")) None None) []
                    (unpin "/work/app" "gone" rememberingHeap)))) "/work/app" "main" = true.
Proof.
  destruct (unpin_favorites "/work/app" "gone" rememberingHeap _ _ _
              (execute_runs_nil (scripted (fun _ _ => inl (mkExecOutput "" "")) None None)
                 (unpin "/work/app" "gone" rememberingHeap)))
    as (_ & _ & Hgone & Hlist & Hothers & _).
  split; [rewrite Hlist; reflexivity|]. split; [exact Hgone|].
  rewrite (Hothers "main") by discriminate. reflexivity.
Defined.

(** ** Repository registry, continued *)

Lemma insertBy_elem {A : Type} (compare : A -> A -> Z) (x y : A) (l : list A) :
  y ∈ insertBy compare x l <-> y = x \/ y ∈ l.
Proof.
  induction l as [|z l IH]; simpl.
  - rewrite list_elem_of_singleton, elem_of_nil. tauto.
  - destruct (compare x z <=? 0)%Z.
    + rewrite !elem_of_cons. tauto.
    + rewrite !elem_of_cons, IH. tauto.
Qed.

Lemma sortBy_elem {A : Type} (compare : A -> A -> Z) (y : A) (l : list A) :
  y ∈ sortBy compare l <-> y ∈ l.
Proof.
  unfold sortBy. induction l as [|x l IH]; simpl; [reflexivity|].
  rewrite insertBy_elem, IH, elem_of_cons. reflexivity.
Qed.

Lemma sortBy_length {A : Type} (compare : A -> A -> Z) (l : list A) :
  length (sortBy compare l) = length l.
Proof.
  unfold sortBy. induction l as [|x l IH]; simpl; [reflexivity|]. rewrite <- IH.
  generalize (foldr (insertBy compare) [] l). intros s.
  induction s as [|z s IHs]; simpl; [reflexivity|].
  destruct (compare x z <=? 0)%Z; simpl; [reflexivity|]. rewrite IHs. reflexivity.
Qed.

(** The first of the repositories sorted by [deeperFirst] has a root at
    least as long as any other. *)
Lemma sortBy_deeperFirst_head (l : list RepositoryInfo) (found : RepositoryInfo) :
  sortBy deeperFirst l !! 0%nat = Some found ->
  forall r, r ∈ l ->
    (String.length (fsPath (ri_rootUri r)) <= String.length (fsPath (ri_rootUri found)))%nat.
Proof.
  unfold sortBy. revert found. induction l as [|a l IH]; intros found Hhead r Hr.
  - inversion Hr.
  - simpl in Hhead. destruct (foldr (insertBy deeperFirst) [] l) as [|y s] eqn:Es.
    + simpl in Hhead. injection Hhead as <-.
      assert (Hl : l = []).
      { destruct l as [|b l]; [reflexivity|].
        pose proof (sortBy_length deeperFirst (b :: l)) as Hlen.
        unfold sortBy in Hlen. rewrite Es in Hlen. discriminate Hlen. }
      subst l. apply list_elem_of_singleton in Hr as ->. lia.
    + specialize (IH y eq_refl). simpl in Hhead. unfold deeperFirst in Hhead at 1.
      destruct (Z.leb_spec
                  (Z.of_nat (String.length (fsPath (ri_rootUri y)))
                   - Z.of_nat (String.length (fsPath (ri_rootUri a)))) 0) as [Hle|Hgt];
        simpl in Hhead; injection Hhead as <-.
      * apply elem_of_cons in Hr as [->|Hr]; [lia|]. specialize (IH r Hr). lia.
      * apply elem_of_cons in Hr as [->|Hr]; [lia|]. apply IH, Hr.
Qed.

(** X21.  [setActiveRepositoryForUri] selects the deepest repository that
    encloses the path: one whose root is the path or is followed in the
    path by the separator.  When no repository encloses the path, or the
    deepest one is active already, the registry is as before and the
    answer is [false]; otherwise that repository becomes the active one and
    the answer is [true].  The list of repositories is never changed. *)
Theorem setActiveRepositoryForUri_deepest (win32 : bool) (uri : Uri)
  (m : RepositoryManager) :
  repositories (setActiveRepositoryForUri win32 uri m).1 = repositories m
  /\ (forall r,
        enclosesPath win32 (fsPath uri) r = true
        <-> fsPath uri = fsPath (ri_rootUri r)
            \/ exists rest,
                 fsPath uri = fsPath (ri_rootUri r) +:+ pathSeparator win32 +:+ rest)
  /\ ((forall r, r ∈ repositories m -> enclosesPath win32 (fsPath uri) r = false) ->
      setActiveRepositoryForUri win32 uri m = (m, false))
  /\ (forall r, r ∈ repositories m -> enclosesPath win32 (fsPath uri) r = true ->
      exists found,
        found ∈ repositories m /\ enclosesPath win32 (fsPath uri) found = true
        /\ (forall other, other ∈ repositories m ->
              enclosesPath win32 (fsPath uri) other = true ->
              (String.length (fsPath (ri_rootUri other))
               <= String.length (fsPath (ri_rootUri found)))%nat)
        /\ setActiveRepositoryForUri win32 uri m
           = if isActiveId m found then (m, false)
             else (mkRepositoryManager (Some (ri_id found)) (repositories m), true)).
Proof.
  unfold setActiveRepositoryForUri.
  set (matches := List.filter (enclosesPath win32 (fsPath uri)) (repositories m)).
  split; [|split; [|split]].
  - destruct (sortBy deeperFirst matches !! 0%nat) as [found|]; [|reflexivity].
    destruct (isActiveId m found); reflexivity.
  - intros r. unfold enclosesPath. rewrite orb_true_iff, String.eqb_eq. split.
    + intros [H|H]; [auto|]. right. apply startsWith_split in H.
      rewrite append_assoc in H. eauto.
    + intros [H|(rest & H)]; [auto|]. right. rewrite H, <- append_assoc.
      apply startsWith_append.
  - intros Hnone. assert (Hm : matches = []).
    { unfold matches. induction (repositories m) as [|a l IH]; [reflexivity|].
      simpl. rewrite (Hnone a) by apply list_elem_of_here. apply IH.
      intros r Hr. apply Hnone, list_elem_of_further, Hr. }
    rewrite Hm. reflexivity.
  - intros r Hr Henc.
    assert (Hin : r ∈ matches)
      by (unfold matches; rewrite list_elem_of_In, filter_In, <- list_elem_of_In; auto).
    destruct (sortBy deeperFirst matches !! 0%nat) as [found|] eqn:Ehead.
    + exists found.
      assert (Hfound : found ∈ matches)
        by (apply (sortBy_elem deeperFirst), list_elem_of_lookup_2 with 0%nat, Ehead).
      unfold matches in Hfound.
      rewrite list_elem_of_In, filter_In, <- list_elem_of_In in Hfound.
      destruct Hfound as [Hf1 Hf2]. split; [exact Hf1|]. split; [exact Hf2|].
      split; [|reflexivity].
      intros other Ho Hoe. apply (sortBy_deeperFirst_head matches found Ehead).
      unfold matches. rewrite list_elem_of_In, filter_In, <- list_elem_of_In. auto.
    + exfalso. apply (sortBy_elem deeperFirst) in Hin.
      destruct (sortBy deeperFirst matches); [inversion Hin|discriminate Ehead].
Qed.

Lemma setActiveRepositoryForUri_deepest_witness :
  exists found,
    found ∈ repositories (mkRepositoryManager (Some "a")
       [mkRepositoryInfo "a" (mkUri "/work/app" "") "app" "main" false None 0 0 0 false;
        mkRepositoryInfo "b" (mkUri "/work/app/packages/ui" "") "ui" "main" false None 0 0 0 false;
        mkRepositoryInfo "c" (mkUri "/work/app2" "") "app2" "main" false None 0 0 0 false])
    /\ enclosesPath false (fsPath (mkUri "/work/app/packages/ui/src/index.ts" "")) found = true
    /\ (forall other,
          other ∈ repositories (mkRepositoryManager (Some "a")
       [mkRepositoryInfo "a" (mkUri "/work/app" "") "app" "main" false None 0 0 0 false;
        mkRepositoryInfo "b" (mkUri "/work/app/packages/ui" "") "ui" "main" false None 0 0 0 false;
        mkRepositoryInfo "c" (mkUri "/work/app2" "") "app2" "main" false None 0 0 0 false]) ->
          enclosesPath false (fsPath (mkUri "/work/app/packages/ui/src/index.ts" "")) other = true ->
          (String.length (fsPath (ri_rootUri other))
           <= String.length (fsPath (ri_rootUri found)))%nat)
    /\ setActiveRepositoryForUri false (mkUri "/work/app/packages/ui/src/index.ts" "") (mkRepositoryManager (Some "a")
       [mkRepositoryInfo "a" (mkUri "/work/app" "") "app" "main" false None 0 0 0 false;
        mkRepositoryInfo "b" (mkUri "/work/app/packages/ui" "") "ui" "main" false None 0 0 0 false;
        mkRepositoryInfo "c" (mkUri "/work/app2" "") "app2" "main" false None 0 0 0 false])
       = if isActiveId (mkRepositoryManager (Some "a")
       [mkRepositoryInfo "a" (mkUri "/work/app" "") "app" "main" false None 0 0 0 false;
        mkRepositoryInfo "b" (mkUri "/work/app/packages/ui" "") "ui" "main" false None 0 0 0 false;
        mkRepositoryInfo "c" (mkUri "/work/app2" "") "app2" "main" false None 0 0 0 false]) found
         then ((mkRepositoryManager (Some "a")
       [mkRepositoryInfo "a" (mkUri "/work/app" "") "app" "main" false None 0 0 0 false;
        mkRepositoryInfo "b" (mkUri "/work/app/packages/ui" "") "ui" "main" false None 0 0 0 false;
        mkRepositoryInfo "c" (mkUri "/work/app2" "") "app2" "main" false None 0 0 0 false]), false)
         else (mkRepositoryManager (Some (ri_id found))
                 (repositories (mkRepositoryManager (Some "a")
       [mkRepositoryInfo "a" (mkUri "/work/app" "") "app" "main" false None 0 0 0 false;
        mkRepositoryInfo "b" (mkUri "/work/app/packages/ui" "") "ui" "main" false None 0 0 0 false;
        mkRepositoryInfo "c" (mkUri "/work/app2" "") "app2" "main" false None 0 0 0 false])), true).
Proof.
  exact (proj2 (proj2 (proj2
           (setActiveRepositoryForUri_deepest false (mkUri "/work/app/packages/ui/src/index.ts" "") (mkRepositoryManager (Some "a")
       [mkRepositoryInfo "a" (mkUri "/work/app" "") "app" "main" false None 0 0 0 false;
        mkRepositoryInfo "b" (mkUri "/work/app/packages/ui" "") "ui" "main" false None 0 0 0 false;
        mkRepositoryInfo "c" (mkUri "/work/app2" "") "app2" "main" false None 0 0 0 false]))))
           (mkRepositoryInfo "a" (mkUri "/work/app" "") "app" "main" false None 0 0 0 false)
           ltac:(apply list_elem_of_here) eq_refl).
Defined.

(** ** [escapeHtml] *)

Lemma replaceAllChar_append (c : ascii) (r a b : string) :
  Js.replaceAllChar c r (a +:+ b) = Js.replaceAllChar c r a +:+ Js.replaceAllChar c r b.
Proof.
  induction a as [|d a IH]; [reflexivity|].
  change (String d a +:+ b) with (String d (a +:+ b)).
  cbn [Js.replaceAllChar]. rewrite IH. destruct (Ascii.eqb c d).
  - rewrite append_assoc. reflexivity.
  - reflexivity.
Qed.

(** One pass over the text gives the same result as the four replacements:
    the [&] of an entity is not encoded again. *)
Lemma escapeHtml_cons (c : ascii) (s : string) :
  escapeHtml (String c s)
  = (if Ascii.eqb c "&" then "&amp;"
     else if Ascii.eqb c "<" then "&lt;"
     else if Ascii.eqb c ">" then "&gt;"
     else if Ascii.eqb c DQUOTE then "&quot;"
     else String c "") +:+ escapeHtml s.
Proof.
  unfold escapeHtml. cbn [Js.replaceAllChar].
  rewrite (Ascii.eqb_sym "&" c). destruct (Ascii.eqb_spec c "&") as [->|Hamp].
  { rewrite !replaceAllChar_append. reflexivity. }
  cbn [Js.replaceAllChar].
  rewrite (Ascii.eqb_sym "<" c). destruct (Ascii.eqb_spec c "<") as [->|Hlt].
  { rewrite !replaceAllChar_append. reflexivity. }
  cbn [Js.replaceAllChar].
  rewrite (Ascii.eqb_sym ">" c). destruct (Ascii.eqb_spec c ">") as [->|Hgt].
  { rewrite !replaceAllChar_append. reflexivity. }
  cbn [Js.replaceAllChar].
  rewrite (Ascii.eqb_sym DQUOTE c). destruct (Ascii.eqb_spec c DQUOTE) as [->|Hq].
  { reflexivity. }
  reflexivity.
Qed.

Lemma includes_char_cons (c d : ascii) (s : string) :
  Js.includes (String c "") (String d s)
  = Ascii.eqb c d || Js.includes (String c "") s.
Proof.
  rewrite includes_unfold. unfold Js.startsWith. cbn [String.prefix].
  destruct (ascii_dec c d) as [->|Hne].
  - rewrite Ascii.eqb_refl. destruct s; reflexivity.
  - apply Ascii.eqb_neq in Hne. rewrite Hne. reflexivity.
Qed.

Lemma escapeHtml_clean (c : ascii) (value : string) :
  c = "<"%char \/ c = ">"%char \/ c = DQUOTE ->
  Js.includes (String c "") (escapeHtml value) = false.
Proof.
  intros Hc. induction value as [|d value IH]; [reflexivity|].
  rewrite escapeHtml_cons.
  destruct (Ascii.eqb_spec d "&") as [->|Hamp];
    [|destruct (Ascii.eqb_spec d "<") as [->|Hlt];
      [|destruct (Ascii.eqb_spec d ">") as [->|Hgt];
        [|destruct (Ascii.eqb_spec d DQUOTE) as [->|Hq]]]];
    rewrite ?append_cons, ?append_nil, ?includes_char_cons, IH;
    destruct Hc as [->|[->| ->]]; try reflexivity.
  - apply Ascii.eqb_neq in Hlt. rewrite Ascii.eqb_sym, Hlt. reflexivity.
  - apply Ascii.eqb_neq in Hgt. rewrite Ascii.eqb_sym, Hgt. reflexivity.
  - apply Ascii.eqb_neq in Hq. rewrite Ascii.eqb_sym, Hq. reflexivity.
Qed.

Lemma escapeHtml_head (c : ascii) (s : string) :
  exists d rest, escapeHtml (String c s) = String d rest
    /\ (d = "&"%char <-> c = "&"%char \/ c = "<"%char \/ c = ">"%char \/ c = DQUOTE)
    /\ (d <> "&"%char -> d = c /\ rest = escapeHtml s).
Proof.
  rewrite escapeHtml_cons.
  destruct (Ascii.eqb_spec c "&") as [->|Hamp];
    [|destruct (Ascii.eqb_spec c "<") as [->|Hlt];
      [|destruct (Ascii.eqb_spec c ">") as [->|Hgt];
        [|destruct (Ascii.eqb_spec c DQUOTE) as [->|Hq]]]];
    rewrite ?append_cons, ?append_nil; eexists _, _; (split; [reflexivity|]).
  all: split; [split; intros H; first [reflexivity | tauto | congruence]
              | intros H; first [congruence | split; reflexivity]].
Qed.

Lemma escapeHtml_injective (a b : string) : escapeHtml a = escapeHtml b -> a = b.
Proof.
  revert b. induction a as [|c a IH]; intros [|d b] H.
  - reflexivity.
  - destruct (escapeHtml_head d b) as (x & rest & E & _). rewrite E in H. discriminate H.
  - destruct (escapeHtml_head c a) as (x & rest & E & _). rewrite E in H. discriminate H.
  - rewrite !escapeHtml_cons in H.
    destruct (Ascii.eqb_spec c "&") as [->|Hc1];
      [|destruct (Ascii.eqb_spec c "<") as [->|Hc2];
        [|destruct (Ascii.eqb_spec c ">") as [->|Hc3];
          [|destruct (Ascii.eqb_spec c DQUOTE) as [->|Hc4]]]];
    (destruct (Ascii.eqb_spec d "&") as [->|Hd1];
      [|destruct (Ascii.eqb_spec d "<") as [->|Hd2];
        [|destruct (Ascii.eqb_spec d ">") as [->|Hd3];
          [|destruct (Ascii.eqb_spec d DQUOTE) as [->|Hd4]]]]);
    rewrite ?append_cons, ?append_nil in H;
    try discriminate H;
    try (injection H as H; f_equal; apply IH, H);
    try (injection H as Hcd H; congruence);
    try (injection H as Hcd H; f_equal; [exact Hcd|apply IH, H]).
Qed.

(** X22.  [escapeHtml] leaves no [<], [>] or double quote in its result,
    and it loses nothing: two texts with the same encoding are the same
    text. *)
Theorem escapeHtml_safe (value : string) :
  Js.includes "<" (escapeHtml value) = false
  /\ Js.includes ">" (escapeHtml value) = false
  /\ Js.includes (String DQUOTE "") (escapeHtml value) = false
  /\ (forall other, escapeHtml other = escapeHtml value -> other = value).
Proof.
  split; [apply escapeHtml_clean; auto|].
  split; [apply escapeHtml_clean; auto|].
  split; [apply escapeHtml_clean; auto|].
  intros other. apply escapeHtml_injective.
Qed.

(** ** Handlers of the branch commands *)

(** Reading the branch list leaves the memento alone, and fails only with
    the failure of git. *)
Lemma runs_getBranches_memory (repoUri : Uri) (currentBranch : option string) (h : Heap)
  (tr : list (Event * Z)) (h' : Heap) (res : Result (list BranchInfo)) :
  runs (getBranches repoUri currentBranch h) tr h' res ->
  workspaceState h' = workspaceState h
  /\ ((exists branches, res = Ok branches)
      \/ exists failure, res = Thrown (gitError failure)).
Proof.
  unfold getBranches. intros Hruns.
  apply runs_bind in Hruns as [(tr1 & h1 & cached & tr2 & H1 & H2 & ->) | (e & H1 & ->)].
  - apply runs_getCached in H1 as (-> & H1).
    assert (Hw : workspaceState h1 = workspaceState h).
    { destruct (gitCache h !! branchesKey repoUri currentBranch) as [entry|].
      - destruct (clock h - ce_at entry >? 3000)%Z; destruct H1 as (-> & _); reflexivity.
      - destruct H1 as (-> & _). reflexivity. }
    rewrite <- Hw. clear H1 Hw.
    destruct (asBranchList cached) as [value|].
    + destruct H2 as (-> & -> & ->). eauto.
    + apply runs_fill in H2 as (answer & t & -> & H2); [|reflexivity].
      destruct answer as [result|failure]; destruct H2 as (-> & ->); eauto.
  - apply runs_getCached in H1 as (_ & H1).
    destruct (gitCache h !! branchesKey repoUri currentBranch) as [entry|].
    + destruct (clock h - ce_at entry >? 3000)%Z; destruct H1 as (_ & E); discriminate E.
    + destruct H1 as (_ & E). discriminate E.
Qed.

Lemma runs_pickBranch_memory (repoUri : Uri) (currentBranch placeholder : string)
  (h : Heap) (tr : list (Event * Z)) (h' : Heap) (res : Result (option BranchInfo)) :
  runs (pickBranch repoUri currentBranch placeholder h) tr h' res ->
  workspaceState h' = workspaceState h
  /\ ((exists picked, res = Ok picked) \/ exists failure, res = Thrown (gitError failure)).
Proof.
  unfold pickBranch. intros Hruns.
  apply runs_bind in Hruns as [(tr1 & h1 & branches & tr2 & H1 & H2 & ->) | (e & H1 & ->)].
  - apply runs_getBranches_memory in H1 as [Hw _]. rewrite <- Hw.
    apply runs_bind in H2 as [(tr3 & h3 & picked & tr4 & H3 & H4 & ->) | (e & H3 & ->)].
    + apply runs_await in H3 as (x & t & -> & -> & [= <-]).
      destruct H4 as (-> & -> & ->). eauto.
    + apply runs_await in H3 as (x & t & _ & _ & E). discriminate E.
  - apply runs_getBranches_memory in H1 as [Hw [(branches & E)|(failure & E)]];
      [discriminate E|]. split; [exact Hw|]. right. exists failure. injection E as ->. reflexivity.
Qed.

Lemma runs_argOrPick (repo : RepositoryInfo) (branchArg : option BranchInfo)
  (placeholder : string) (h : Heap) (tr : list (Event * Z)) (h' : Heap)
  (res : Result (option BranchInfo)) :
  runs (argOrPick repo branchArg placeholder h) tr h' res ->
  workspaceState h' = workspaceState h
  /\ ((exists picked, res = Ok picked) \/ exists failure, res = Thrown (gitError failure))
  /\ (forall given, branchArg = Some given -> tr = [] /\ h' = h /\ res = Ok (Some given)).
Proof.
  unfold argOrPick. destruct branchArg as [given|].
  - intros (-> & -> & ->). split; [reflexivity|]. split; [eauto|].
    intros ? [= <-]. auto.
  - intros Hruns. apply runs_pickBranch_memory in Hruns as [Hw Hres].
    split; [exact Hw|]. split; [exact Hres|]. intros ? E. discriminate E.
Qed.

(** What [argOrPick] settles with: the branch given, or the record that
    the quick pick over the listed branches selects. *)
Lemma runs_argOrPick_cases (repo : RepositoryInfo) (branchArg : option BranchInfo)
  (placeholder : string) (h : Heap) (tr : list (Event * Z)) (h' : Heap)
  (res : Result (option BranchInfo)) :
  runs (argOrPick repo branchArg placeholder h) tr h' res ->
  match branchArg with
  | Some given => tr = [] /\ h' = h /\ res = Ok (Some given)
  | None =>
      exists trList hList listed,
        runs (getBranches (ri_rootUri repo) (Some (ri_currentBranch repo)) h)
             trList hList listed
        /\ match listed with
           | Thrown e => tr = trList /\ h' = hList /\ res = Thrown e
           | Ok branches =>
               exists answer t,
                 tr = trList
                      ++ [(EvQuickPick (List.map bi_shortName branches) placeholder answer, t)]
                 /\ h' = setClock t hList
                 /\ res = Ok (answer ≫= (fun i => branches !! i))
           end
  end.
Proof.
  unfold argOrPick. destruct branchArg as [given|]; [intros H; exact H|].
  unfold pickBranch. intros Hruns.
  apply runs_bind in Hruns as [(tr1 & h1 & branches & tr2 & H1 & H2 & ->) | (e & H1 & ->)].
  - exists tr1, h1, (Ok branches). split; [exact H1|].
    apply runs_bind in H2 as [(tr3 & h3 & picked & tr4 & H3 & H4 & ->) | (e & H3 & ->)].
    + apply runs_await in H3 as (x & t & -> & -> & [= <-]).
      destruct H4 as (-> & -> & ->). exists picked, t. auto.
    + apply runs_await in H3 as (x & t & _ & _ & E). discriminate E.
  - exists tr, h', (Thrown e). auto.
Qed.

(** X23.  The function that the handler of [gitcc.checkoutBranch] hands to
    [withRepo] records a branch among the recent ones only after git has
    checked it out.  It settles on a branch first: the branch given, or
    else the record that the quick pick selects from the branches that
    [getBranches] lists, by its position.  With no branch selected it ends
    there, and a failure of the listing is thrown.  Otherwise it launches
    [git checkout] with the short name of that branch: when git succeeds,
    the update of the memento follows and that branch is the first of the
    recent ones; when git fails, the failure is thrown and no update is
    made.  In every run without that successful checkout the memento is
    left as it was. *)
Theorem checkoutBranch_records_success (repo : RepositoryInfo)
  (branchArg : option BranchInfo) (h : Heap) (tr : list (Event * Z)) (h' : Heap)
  (res : Result unit) :
  runs (checkoutBranchBody repo branchArg h) tr h' res ->
  exists trPick hPick chosen,
    runs (argOrPick repo branchArg "Select branch to checkout" h) trPick hPick chosen
    /\ match branchArg with
       | Some given => trPick = [] /\ hPick = h /\ chosen = Ok (Some given)
       | None =>
           exists trList hList listed,
             runs (getBranches (ri_rootUri repo) (Some (ri_currentBranch repo)) h)
                  trList hList listed
             /\ match listed with
                | Thrown e => trPick = trList /\ chosen = Thrown e
                | Ok branches =>
                    exists answer t,
                      trPick
                      = trList
                        ++ [(EvQuickPick (List.map bi_shortName branches)
                               "Select branch to checkout" answer, t)]
                      /\ chosen = Ok (answer ≫= (fun i => branches !! i))
                end
       end
    /\ match chosen with
       | Thrown e =>
           tr = trPick /\ res = Thrown e /\ workspaceState h' = workspaceState h
       | Ok None =>
           tr = trPick /\ res = Ok tt /\ workspaceState h' = workspaceState h
       | Ok (Some branch) =>
           exists answer t,
             match answer with
             | inl out =>
                 exists t2,
                   tr = trPick
                        ++ [(EvExec "git"
                               ["-C"; fsPath (ri_rootUri repo); "checkout"; bi_shortName branch]
                               (inl out), t);
                            (EvMementoUpdate (memoryKey (fsPath (ri_rootUri repo))), t2)]
                   /\ res = Ok tt
                   /\ head (getRecents h' (fsPath (ri_rootUri repo)))
                      = Some (bi_shortName branch)
             | inr failure =>
                 tr = trPick
                      ++ [(EvExec "git"
                             ["-C"; fsPath (ri_rootUri repo); "checkout"; bi_shortName branch]
                             (inr failure), t)]
                 /\ res = Thrown (gitError failure)
                 /\ workspaceState h' = workspaceState h
             end
       end.
Proof.
  unfold checkoutBranchBody. intros Hruns.
  assert (Hchoice : forall trPick hPick chosen,
            runs (argOrPick repo branchArg "Select branch to checkout" h) trPick hPick chosen ->
            match branchArg with
            | Some given => trPick = [] /\ hPick = h /\ chosen = Ok (Some given)
            | None =>
                exists trList hList listed,
                  runs (getBranches (ri_rootUri repo) (Some (ri_currentBranch repo)) h)
                       trList hList listed
                  /\ match listed with
                     | Thrown e => trPick = trList /\ chosen = Thrown e
                     | Ok branches =>
                         exists answer t,
                           trPick
                           = trList
                             ++ [(EvQuickPick (List.map bi_shortName branches)
                                    "Select branch to checkout" answer, t)]
                           /\ chosen = Ok (answer ≫= (fun i => branches !! i))
                     end
            end).
  { intros trPick hPick chosen Hpick. apply runs_argOrPick_cases in Hpick.
    destruct branchArg as [given|]; [exact Hpick|].
    destruct Hpick as (trList & hList & listed & Hlist & Hrest).
    exists trList, hList, listed. split; [exact Hlist|].
    destruct listed as [branches|e].
    - destruct Hrest as (answer & t & -> & _ & ->). eauto.
    - destruct Hrest as (-> & _ & ->). auto. }
  apply runs_bind in Hruns as [(tr1 & h1 & chosen & tr2 & H1 & H2 & ->) | (e & H1 & ->)].
  - exists tr1, h1, (Ok chosen). split; [exact H1|]. split; [exact (Hchoice _ _ _ H1)|].
    apply runs_argOrPick in H1 as (Hw & _).
    destruct chosen as [branch|].
    + apply runs_bind in H2 as [(tr3 & h3 & [] & tr4 & H3 & H4 & ->) | (e & H3 & ->)].
      * unfold checkoutBranch in H3.
        apply runs_git_unit in H3 as (answer & t & -> & -> & Hres).
        destruct answer as [out|failure]; [|discriminate Hres].
        apply runs_recordCheckout in H4 as (t2 & -> & -> & Hhead).
        exists (inl out), t, t2. auto.
      * unfold checkoutBranch in H3.
        apply runs_git_unit in H3 as (answer & t & -> & -> & Hres).
        destruct answer as [out|failure]; [discriminate Hres|]. injection Hres as ->.
        exists (inr failure), t. split; [reflexivity|]. split; [reflexivity|].
        rewrite <- Hw. unfold setClock. cbn [workspaceState].
        apply purged_workspaceState.
    + destruct H2 as (-> & -> & ->). rewrite app_nil_r. auto.
  - exists tr, h', (Thrown e). split; [exact H1|]. split; [exact (Hchoice _ _ _ H1)|].
    apply runs_argOrPick in H1 as (Hw & _). auto.
Qed.

Lemma checkoutBranch_records_success_witness :
  List.map fst
    (fst (fst (execute (scripted (fun _ _ => inl (mkExecOutput "" "")) (Some 1%nat) None) []
                 (checkoutBranchBody (sampleRepo "a") None rememberingHeap))))
  = [EvQuickPick ["main"; "topic"; "feature/login"] "Select branch to checkout" (Some 1%nat);
     EvExec "git" ["-C"; "/work/app"; "checkout"; "topic"] (inl (mkExecOutput "" ""));
     EvMementoUpdate (memoryKey "/work/app")]
  /\ head (getRecents
             (snd (fst (execute
                          (scripted (fun _ _ => inl (mkExecOutput "" "")) (Some 1%nat) None) []
                          (checkoutBranchBody (sampleRepo "a") None rememberingHeap))))
             "/work/app")
     = Some "topic".
Proof.
  destruct (checkoutBranch_records_success (sampleRepo "a") None rememberingHeap _ _ _
              (execute_runs_nil
                 (scripted (fun _ _ => inl (mkExecOutput "" "")) (Some 1%nat) None)
                 (checkoutBranchBody (sampleRepo "a") None rememberingHeap)))
    as (trPick & hPick & chosen & _ & (trList & hList & listed & Hlist & Hpick) & Hrun).
  vm_compute in Hlist. destruct Hlist as (-> & _ & ->).
  destruct Hpick as (answer & t & -> & ->).
  destruct answer as [[|[|[|i]]]|]; cbn in Hrun.
  all: try (destruct Hrun as (out & t1 & Hrun); destruct out as [out|failure];
            [destruct Hrun as (t2 & Htr & _ & Hhead)|destruct Hrun as (Htr & _)]).
  all: try (destruct Hrun as (Htr & _)).
  all: try (vm_compute in Htr; discriminate Htr).
  split; [vm_compute; reflexivity|]. exact Hhead.
Defined.

(** ** Branches view *)

Lemma insertBy_Permutation {A : Type} (compare : A -> A -> Z) (x : A) (l : list A) :
  insertBy compare x l ≡ₚ x :: l.
Proof.
  induction l as [|y l IH]; simpl; [reflexivity|].
  destruct (compare x y <=? 0)%Z; [reflexivity|].
  rewrite IH. apply Permutation_swap.
Qed.

Lemma sortBy_Permutation {A : Type} (compare : A -> A -> Z) (l : list A) :
  sortBy compare l ≡ₚ l.
Proof.
  unfold sortBy. induction l as [|x l IH]; simpl; [reflexivity|].
  rewrite insertBy_Permutation, IH. reflexivity.
Qed.

Lemma groupGet_None (group : string) (map : Groups) :
  groupGet group map = None <-> group ∉ map.*1.
Proof.
  induction map as [|[g members] map IH]; simpl.
  - split; [intros _ H; inversion H|reflexivity].
  - rewrite not_elem_of_cons. destruct (String.eqb_spec g group) as [->|Hne].
    + split; [discriminate|intros [H _]; congruence].
    + rewrite IH. split; [intros H; split; [congruence|exact H]|intros [_ H]; exact H].
Qed.

Lemma groupGet_elem (group : string) (members : list BranchInfo) (map : Groups) :
  NoDup map.*1 -> (group, members) ∈ map <-> groupGet group map = Some members.
Proof.
  induction map as [|[g old] map IH]; simpl; intros Hnd.
  - split; [intros H; inversion H|discriminate].
  - apply NoDup_cons in Hnd as [Hfresh Hnd]. rewrite elem_of_cons, (IH Hnd).
    destruct (String.eqb_spec g group) as [->|Hne].
    + split.
      * intros [[= ->]|H]; [reflexivity|].
        rewrite (proj2 (groupGet_None group map) Hfresh) in H. discriminate H.
      * intros [= ->]. left. reflexivity.
    + split; [intros [[= -> ->]|H]; [congruence|exact H]|intros H; right; exact H].
Qed.

Lemma groupGet_groupSet (group other : string) (members : list BranchInfo) (map : Groups) :
  groupGet other (groupSet group members map)
  = if String.eqb group other then Some members else groupGet other map.
Proof.
  induction map as [|[g old] map IH]; simpl.
  - rewrite String.eqb_sym. destruct (String.eqb other group); reflexivity.
  - destruct (String.eqb_spec g group) as [->|Hne]; simpl.
    + destruct (String.eqb group other); reflexivity.
    + rewrite IH. destruct (String.eqb_spec g other) as [->|Hne'].
      * apply String.eqb_neq in Hne. rewrite String.eqb_sym, Hne. reflexivity.
      * reflexivity.
Qed.

Lemma groupSet_keys (group : string) (members : list BranchInfo) (map : Groups) :
  (groupSet group members map).*1
  = match groupGet group map with
    | Some _ => map.*1
    | None => map.*1 ++ [group]
    end.
Proof.
  induction map as [|[g old] map IH]; [reflexivity|].
  cbn [groupSet groupGet].
  destruct (String.eqb_spec g group) as [->|Hne]; [reflexivity|].
  rewrite !fmap_cons, IH. destruct (groupGet group map); reflexivity.
Qed.

(** The map that a grouping loop builds: its keys are distinct, and under
    each key are the branches of that key, in their order. *)
Lemma fold_addToGroup (key : BranchInfo -> string) (branches seen : list BranchInfo)
  (map : Groups) :
  NoDup map.*1 ->
  (forall group, groupGet group map
                 = match List.filter (fun b => String.eqb (key b) group) seen with
                   | [] => None
                   | members => Some members
                   end) ->
  NoDup (fold_left (fun map branch => addToGroup (key branch) branch map) branches map).*1
  /\ (forall group,
        groupGet group
          (fold_left (fun map branch => addToGroup (key branch) branch map) branches map)
        = match List.filter (fun b => String.eqb (key b) group) (seen ++ branches) with
          | [] => None
          | members => Some members
          end).
Proof.
  revert seen map. induction branches as [|b branches IH]; intros seen map Hnd Hget.
  - rewrite app_nil_r. auto.
  - replace (seen ++ b :: branches) with ((seen ++ [b]) ++ branches)
      by (rewrite <- app_assoc; reflexivity).
    simpl fold_left. apply IH.
    + unfold addToGroup. rewrite groupSet_keys.
      destruct (groupGet (key b) map) eqn:E; [exact Hnd|].
      apply NoDup_app. split; [exact Hnd|]. split.
      * intros x Hx Hb. apply list_elem_of_singleton in Hb as ->.
        apply groupGet_None in E. contradiction.
      * apply NoDup_singleton.
    + intros group. unfold addToGroup. rewrite groupGet_groupSet, List.filter_app.
      cbn [List.filter]. destruct (String.eqb_spec (key b) group) as [<-|Hne].
      * rewrite Hget.
        destruct (List.filter (fun b0 => String.eqb (key b0) (key b)) seen);
          reflexivity.
      * rewrite app_nil_r. apply Hget.
Qed.

Lemma grouped (localeCompare : string -> string -> Z) (key : BranchInfo -> string)
  (branches : list BranchInfo) :
  NoDup (sortGroups localeCompare
           (fold_left (fun map branch => addToGroup (key branch) branch map) branches [])).*1
  /\ (forall group members,
        (group, members)
          ∈ sortGroups localeCompare
              (fold_left (fun map branch => addToGroup (key branch) branch map) branches [])
        <-> members <> []
            /\ members = List.filter (fun b => String.eqb (key b) group) branches).
Proof.
  destruct (fold_addToGroup key branches [] [] (NoDup_nil_2) (fun _ => eq_refl))
    as [Hnd Hget].
  simpl in Hget. unfold sortGroups. split.
  - rewrite sortBy_Permutation. exact Hnd.
  - intros group members. rewrite sortBy_elem, (groupGet_elem _ _ _ Hnd), Hget.
    destruct (List.filter (fun b => String.eqb (key b) group) branches) as [|b l].
    + split; [discriminate|intros [H ->]; congruence].
    + split; [intros [= <-]; split; [discriminate|reflexivity]|intros [_ ->]; reflexivity].
Qed.

Lemma find_first {A} (f : A -> bool) (before : list A) (x : A) (after : list A) :
  Forall (fun y => f y = false) before -> f x = true ->
  List.find f (before ++ x :: after) = Some x.
Proof.
  intros Hbefore Hx. induction Hbefore as [|y before Hy _ IH]; simpl.
  - rewrite Hx. reflexivity.
  - rewrite Hy. exact IH.
Qed.

Lemma find_nowhere {A} (f : A -> bool) (l : list A) :
  Forall (fun y => f y = false) l -> List.find f l = None.
Proof.
  intros Hl. induction Hl as [|y l Hy _ IH]; simpl; [reflexivity|].
  rewrite Hy. exact IH.
Qed.

Lemma replace_slash (stem rest : string) :
  occursIn "/" stem = false ->
  Js.replace "/" "" (stem +:+ "/" +:+ rest) = stem +:+ rest.
Proof.
  induction stem as [|c stem IH]; intros Hstem.
  - rewrite !append_nil. apply (replace_prefix "/" "" rest).
  - rewrite occursIn_cons in Hstem. apply orb_false_iff in Hstem as [Hc Hstem].
    apply Ascii.eqb_neq in Hc.
    change (String c stem +:+ "/" +:+ rest) with (String c (stem +:+ "/" +:+ rest)).
    rewrite replace_unfold. unfold Js.startsWith. cbn [String.prefix].
    destruct (ascii_dec "/" c) as [Heq|_]; [contradiction|].
    change (String c stem +:+ rest) with (String c (stem +:+ rest)).
    f_equal. apply IH, Hstem.
Qed.

Lemma replace_no_slash (s : string) :
  occursIn "/" s = false -> Js.replace "/" "" s = s.
Proof.
  induction s as [|c s IH]; intros Hs; [reflexivity|].
  rewrite occursIn_cons in Hs. apply orb_false_iff in Hs as [Hc Hs].
  apply Ascii.eqb_neq in Hc.
  rewrite replace_unfold. unfold Js.startsWith. cbn [String.prefix].
  destruct (ascii_dec "/" c) as [Heq|_]; [contradiction|].
  f_equal. apply IH, Hs.
Qed.

(** X24.  The groups of the branches view.  [groupLocal] and [groupRemote]
    give each group once; a group holds the branches of its key, in the
    order of the listing, and a key without a branch gives no group.  The
    key of a local branch is decided by the first configured prefix that
    its short name starts with: [other] when that prefix is the empty
    string, the prefix without its first slash otherwise, so [stem/rest]
    gives [stemrest] for a slash-free stem and a slash-free prefix is its
    own key; a branch that starts with no configured prefix has the key
    [other].  The key of a remote branch is its remote name, and [unknown]
    when it has none. *)
Theorem branch_groups (localeCompare : string -> string -> Z)
  (branches : list BranchInfo) (prefixes : list string) :
  NoDup (groupLocal localeCompare branches prefixes).*1
  /\ (forall group members,
        (group, members) ∈ groupLocal localeCompare branches prefixes
        <-> members <> []
            /\ members
               = List.filter (fun b => String.eqb (localGroup prefixes b) group) branches)
  /\ NoDup (groupRemote localeCompare branches).*1
  /\ (forall group members,
        (group, members) ∈ groupRemote localeCompare branches
        <-> members <> []
            /\ members
               = List.filter (fun b => String.eqb (remoteGroup b) group) branches)
  /\ (forall b before prefix after,
        prefixes = before ++ prefix :: after ->
        Forall (fun earlier => Js.startsWith earlier (bi_shortName b) = false) before ->
        Js.startsWith prefix (bi_shortName b) = true ->
        localGroup prefixes b
        = if String.eqb prefix "" then "other" else Js.replace "/" "" prefix)
  /\ (forall b,
        Forall (fun prefix => Js.startsWith prefix (bi_shortName b) = false) prefixes ->
        localGroup prefixes b = "other")
  /\ (forall b,
        (forall prefix, prefix ∈ prefixes -> prefix <> "" ->
           Js.startsWith prefix (bi_shortName b) = false) ->
        localGroup prefixes b = "other")
  /\ (forall stem rest,
        occursIn "/" stem = false ->
        Js.replace "/" "" (stem +:+ "/" +:+ rest) = stem +:+ rest)
  /\ (forall prefix, occursIn "/" prefix = false -> Js.replace "/" "" prefix = prefix)
  /\ (forall b,
        remoteGroup b = match bi_remoteName b with Some name => name | None => "unknown" end).
Proof.
  destruct (grouped localeCompare (localGroup prefixes) branches) as [Hl1 Hl2].
  destruct (grouped localeCompare remoteGroup branches) as [Hr1 Hr2].
  split; [exact Hl1|]. split; [exact Hl2|]. split; [exact Hr1|]. split; [exact Hr2|].
  split; [|split; [|split; [|split; [|split]]]].
  - intros b before prefix after -> Hbefore Hprefix. unfold localGroup.
    rewrite (find_first (fun prefix => Js.startsWith prefix (bi_shortName b))
               before prefix after Hbefore Hprefix).
    destruct prefix; reflexivity.
  - intros b Hnone. unfold localGroup.
    rewrite (find_nowhere _ _ Hnone). reflexivity.
  - intros b Hnone. unfold localGroup.
    destruct (List.find (fun prefix => Js.startsWith prefix (bi_shortName b)) prefixes)
      as [prefix|] eqn:E; [|reflexivity].
    apply find_some in E as [Hin Hstarts].
    destruct (string_dec prefix "") as [->|Hne]; [reflexivity|].
    rewrite (Hnone prefix) in Hstarts;
      [discriminate Hstarts|apply list_elem_of_In, Hin|exact Hne].
  - exact replace_slash.
  - exact replace_no_slash.
  - intros b. unfold remoteGroup. destruct (bi_remoteName b); reflexivity.
Qed.

Lemma branch_groups_witness :
  ("feature", [loginBranch])
    ∈ groupLocal (fun _ _ => 0%Z) [mainBranch; loginBranch; topicBranch]
        ["feature/"; "bugfix/"]
  /\ ("other", [mainBranch; topicBranch])
       ∈ groupLocal (fun _ _ => 0%Z) [mainBranch; loginBranch; topicBranch]
           ["feature/"; "bugfix/"]
  /\ ("origin", [originMainBranch]) ∈ groupRemote (fun _ _ => 0%Z) [originMainBranch]
  /\ localGroup ["bugfix/"; "feature/"] loginBranch = "feature"
  /\ localGroup [""; "feature/"] loginBranch = "other"
  /\ localGroup ["feature/"; "bugfix/"] mainBranch = "other".
Proof.
  destruct (branch_groups (fun _ _ => 0%Z) [mainBranch; loginBranch; topicBranch]
              ["feature/"; "bugfix/"])
    as (_ & Hlocal & _ & _ & _ & Hnone & _).
  split; [apply Hlocal; split; [discriminate|reflexivity]|].
  split; [apply Hlocal; split; [discriminate|reflexivity]|].
  split; [|split; [|split]].
  - apply (proj1 (proj2 (proj2 (proj2
             (branch_groups (fun _ _ => 0%Z) [originMainBranch] [])))));
      split; [discriminate|reflexivity].
  - apply (proj1 (proj2 (proj2 (proj2 (proj2
             (branch_groups (fun _ _ => 0%Z) [] ["bugfix/"; "feature/"])))))
             loginBranch ["bugfix/"] "feature/" []);
      [reflexivity|repeat constructor|reflexivity].
  - apply (proj1 (proj2 (proj2 (proj2 (proj2
             (branch_groups (fun _ _ => 0%Z) [] [""; "feature/"])))))
             loginBranch [] "" ["feature/"]);
      [reflexivity|constructor|reflexivity].
  - apply Hnone. repeat constructor.
Defined.

Lemma fold_byName (branches : list BranchInfo) (map : gmap string BranchInfo)
  (name : string) :
  fold_left (fun map branch => <[bi_shortName branch := branch]> map) branches map !! name
  = match last (List.filter (fun b => String.eqb (bi_shortName b) name) branches) with
    | Some b => Some b
    | None => map !! name
    end.
Proof.
  revert map. induction branches as [|b branches IH]; intros map; [reflexivity|].
  cbn [fold_left List.filter]. rewrite IH.
  destruct (String.eqb_spec (bi_shortName b) name) as [<-|Hne].
  - generalize (List.filter (fun b0 => String.eqb (bi_shortName b0) (bi_shortName b))
                            branches).
    intros [|c l].
    + simpl. apply lookup_insert_eq.
    + change (last (b :: c :: l)) with (last (c :: l)).
      destruct (last (c :: l)) eqn:El; [reflexivity|].
      apply last_None in El. discriminate El.
  - destruct (last (List.filter (fun b0 => String.eqb (bi_shortName b0) name) branches));
      [reflexivity|]. apply lookup_insert_ne, Hne.
Qed.

Lemma byName_lookup (branches : list BranchInfo) (name : string) :
  byName branches !! name
  = last (List.filter (fun b => String.eqb (bi_shortName b) name) branches).
Proof.
  unfold byName. rewrite fold_byName, lookup_empty.
  destruct (last _); reflexivity.
Qed.

Lemma resolveNames_last (names : list string) (branches : list BranchInfo) :
  resolveNames names branches
  = omap (fun name =>
            last (List.filter (fun b => String.eqb (bi_shortName b) name) branches))
         names.
Proof.
  unfold resolveNames. induction names as [|name names IH]; [reflexivity|].
  cbn [omap list_omap]. rewrite byName_lookup, IH. reflexivity.
Qed.

(** X25.  The favourites and the recent branches of the branches view.
    After a refresh for a repository, the view shows the pinned names and
    the recent names of the memory that name a listed branch, in the order
    of the memory; a name that no listed branch has is left out, and of two
    listed branches with one short name the later one is shown.  The
    refresh interacts as [getBranches] does and leaves the memento as it
    was.  Without an active repository the view is empty and nothing is
    asked. *)
Theorem refreshBranches_memory (localeCompare : string -> string -> Z)
  (cfg : GitCcConfig) (active : option RepositoryInfo) (h : Heap)
  (tr : list (Event * Z)) (h' : Heap) (view : BranchesView) :
  runs (refreshBranches localeCompare cfg active h) tr h' (Ok view) ->
  match active with
  | None => view = mkBranchesView [] [] [] [] /\ tr = [] /\ h' = h
  | Some repo =>
      exists branches,
        runs (getBranches (ri_rootUri repo) (Some (ri_currentBranch repo)) h) tr h'
             (Ok branches)
        /\ workspaceState h' = workspaceState h
        /\ favoritesShown view
           = omap (fun name =>
                     last (List.filter (fun b => String.eqb (bi_shortName b) name) branches))
                  (getFavorites h (fsPath (ri_rootUri repo)))
        /\ recentsShown view
           = omap (fun name =>
                     last (List.filter (fun b => String.eqb (bi_shortName b) name) branches))
                  (getRecents h (fsPath (ri_rootUri repo)))
        /\ (forall b, b ∈ favoritesShown view ->
              b ∈ branches
              /\ isFavorite h (fsPath (ri_rootUri repo)) (bi_shortName b) = true)
        /\ (length (favoritesShown view)
            <= length (getFavorites h (fsPath (ri_rootUri repo))))%nat
  end.
Proof.
  destruct active as [repo|]; cbn [refreshBranches].
  2:{ intros (-> & -> & [= ->]). auto. }
  intros Hruns.
  apply runs_bind in Hruns as [(tr1 & h1 & branches & tr2 & H1 & H2 & ->) | (e & _ & E)];
    [|discriminate E].
  pose proof (runs_getBranches_memory _ _ _ _ _ _ H1) as [Hw _].
  destruct H2 as (-> & -> & [= ->]). rewrite app_nil_r.
  exists branches. split; [exact H1|]. split; [exact Hw|].
  cbn [favoritesShown recentsShown].
  assert (Hfav : getFavorites h1 (fsPath (ri_rootUri repo))
                 = getFavorites h (fsPath (ri_rootUri repo)))
    by (unfold getFavorites, memoryOf; rewrite Hw; reflexivity).
  assert (Hrec : getRecents h1 (fsPath (ri_rootUri repo))
                 = getRecents h (fsPath (ri_rootUri repo)))
    by (unfold getRecents, memoryOf; rewrite Hw; reflexivity).
  rewrite Hfav, Hrec, !resolveNames_last.
  split; [reflexivity|]. split; [reflexivity|]. split.
  - intros b Hb. apply list_elem_of_omap in Hb as (name & Hname & Hlast).
    apply last_Some in Hlast as (l & Hl).
    assert (Hin : In b (List.filter (fun b0 => String.eqb (bi_shortName b0) name) branches))
      by (rewrite Hl; apply in_or_app; right; left; reflexivity).
    apply filter_In in Hin as [Hin Heq]. apply String.eqb_eq in Heq. subst name.
    split; [apply list_elem_of_In, Hin|].
    apply includesName_spec, Hname.
  - generalize (getFavorites h (fsPath (ri_rootUri repo))). intros names.
    induction names as [|name names IH]; [reflexivity|].
    cbn [omap list_omap]. destruct (last _); simpl; lia.
Qed.

Lemma refreshBranches_memory_witness :
  favoritesShown rememberedView = [topicBranch; mainBranch]
  /\ recentsShown rememberedView = [mainBranch]
  /\ (forall b, b ∈ favoritesShown rememberedView ->
        b ∈ [mainBranch; topicBranch; loginBranch]
        /\ isFavorite rememberingHeap "/work/app" (bi_shortName b) = true).
Proof.
  destruct (refreshBranches_memory (fun _ _ => 0%Z) (sampleConfig ask)
              (Some (sampleRepo "a")) rememberingHeap [] rememberingHeap rememberedView)
    as (branches & Hruns & _ & Hfav & Hrec & Hall & _).
  - vm_compute. auto.
  - assert (Hb : branches = [mainBranch; topicBranch; loginBranch]).
    { vm_compute in Hruns. destruct Hruns as (_ & _ & [= ->]). reflexivity. }
    subst branches.
    split; [rewrite Hfav; reflexivity|].
    split; [rewrite Hrec; reflexivity|].
    exact Hall.
Defined.

(** ** Refreshing the registry *)

Lemma find_isActiveId (id : string) (next : list RepositoryInfo) :
  existsb (fun r => String.eqb (ri_id r) id) next = true ->
  exists repo,
    List.find (isActiveId (mkRepositoryManager (Some id) next)) next = Some repo
    /\ repo ∈ next /\ ri_id repo = id.
Proof.
  intros Hex. unfold isActiveId. cbn [activeRepositoryId].
  destruct (List.find (fun repo => String.eqb (ri_id repo) id) next) as [repo|] eqn:E.
  - exists repo. apply find_some in E as [Hin Heq]. apply String.eqb_eq in Heq.
    split; [reflexivity|]. split; [apply list_elem_of_In, Hin|exact Heq].
  - apply existsb_exists in Hex as (r & Hin & Heq).
    rewrite (find_none _ _ E r Hin) in Heq. discriminate Heq.
Qed.

Lemma selectActive_first (first : RepositoryInfo) (rest : list RepositoryInfo) :
  getActiveRepository
    (mkRepositoryManager (Some (ri_id first)) (first :: rest)) = Some first.
Proof.
  unfold getActiveRepository. cbn [activeRepositoryId repositories].
  destruct (Js.truthy (Some (ri_id first))); [|reflexivity].
  cbn [negb List.find]. unfold isActiveId at 1. cbn [activeRepositoryId].
  rewrite String.eqb_refl. reflexivity.
Qed.

(** The active repository that the end of [refreshRepositories] selects. *)
Lemma selectActive_resolves (active : option string) (next : list RepositoryInfo) :
  match next with
  | [] => Js.truthy (selectActive active next) = false
  | first :: _ =>
      exists repo,
        getActiveRepository (mkRepositoryManager (selectActive active next) next)
        = Some repo
        /\ repo ∈ next
        /\ selectActive active next = Some (ri_id repo)
        /\ (forall id, active = Some id -> id <> "" ->
            (exists r, r ∈ next /\ ri_id r = id) -> ri_id repo = id)
        /\ ((forall r, r ∈ next -> active <> Some (ri_id r)) -> repo = first)
  end.
Proof.
  unfold selectActive. destruct next as [|first rest].
  - destruct active as [[|c id]|]; reflexivity.
  - cbn [length Nat.ltb Nat.leb andb]. rewrite andb_true_r.
    destruct (Js.truthy active) eqn:Ht; cbn [negb andb].
    + destruct active as [id|]; [|discriminate Ht]. cbn [Js.orElse].
      destruct (existsb (fun r => String.eqb (ri_id r) id) (first :: rest)) eqn:Hex;
        cbn [negb].
      * destruct (find_isActiveId id (first :: rest) Hex) as (repo & Hfind & Hin & Hid).
        exists repo. unfold getActiveRepository. cbn [activeRepositoryId repositories].
        rewrite Ht. cbn [negb]. rewrite Hfind.
        split; [reflexivity|]. split; [exact Hin|]. split; [congruence|].
        split; [intros ? [= <-] _ _; exact Hid|].
        intros Hnone. exfalso. apply (Hnone repo Hin). congruence.
      * exists first. cbn [lookup list_lookup fmap option_fmap option_map].
        split; [apply selectActive_first|].
        split; [apply list_elem_of_here|]. split; [reflexivity|]. split; [|reflexivity].
        intros ? [= <-] _ (r & Hin & Hid). exfalso.
        assert (Hex' : existsb (fun r => String.eqb (ri_id r) id) (first :: rest) = true).
        { apply existsb_exists. exists r. split; [apply list_elem_of_In, Hin|].
          apply String.eqb_eq, Hid. }
        congruence.
    + exists first. cbn [lookup list_lookup fmap option_fmap option_map].
      split; [apply selectActive_first|].
      split; [apply list_elem_of_here|]. split; [reflexivity|]. split; [|reflexivity].
      intros id -> Hne _. exfalso. destruct id; [congruence|discriminate Ht].
Qed.

(** X26.  The active repository after [refreshRepositories].  When the
    refresh found no repository none is active: the active identifier is
    unset, or the empty one.  Otherwise the active
    identifier names a repository of the new list, and that repository is
    what [getActiveRepository] returns: the repository that was active
    before when the new list still holds its identifier, and the first of
    the list when it does not.  The refresh is taken to run without another
    handler changing the registry between its steps. *)
Theorem refreshRepositories_active (detectRepositories : Async (list Uri))
  (getRepositoryInfo : Uri -> Async RepositoryInfo) (force : bool)
  (registry : Registry) (h : Heap) (tr : list (Event * Z)) (h' : Heap)
  (registry' : Registry) :
  runs (refreshRepositories detectRepositories getRepositoryInfo force registry h)
       tr h' (Ok registry') ->
  match repositories (manager registry') with
  | [] => activeRepositoryId (manager registry') = None
          \/ activeRepositoryId (manager registry') = Some ""
  | first :: _ =>
      exists repo,
        getActiveRepository (manager registry') = Some repo
        /\ repo ∈ repositories (manager registry')
        /\ activeRepositoryId (manager registry') = Some (ri_id repo)
        /\ (forall id, activeRepositoryId (manager registry) = Some id -> id <> "" ->
            (exists r, r ∈ repositories (manager registry') /\ ri_id r = id) ->
            ri_id repo = id)
        /\ ((forall r, r ∈ repositories (manager registry') ->
               activeRepositoryId (manager registry) <> Some (ri_id r)) ->
            repo = first)
  end.
Proof.
  unfold refreshRepositories. intros Hruns.
  apply runs_bind in Hruns as [(tr1 & h1 & found & tr2 & H1 & H2 & ->) | (e & _ & E)];
    [|discriminate E].
  apply runs_bind in H2 as [(tr3 & h3 & gathered & tr4 & H3 & H4 & ->) | (e & _ & E)];
    [|discriminate E].
  destruct H4 as (-> & -> & [= ->]). cbn [manager repositories activeRepositoryId].
  pose proof (selectActive_resolves (activeRepositoryId (manager registry)) gathered.2)
    as Hsel.
  destruct gathered.2 as [|first rest].
  - destruct (selectActive (activeRepositoryId (manager registry)) [])
      as [[|c id]|]; [auto|discriminate Hsel|auto].
  - exact Hsel.
Qed.

Lemma refreshRepositories_active_witness :
  exists repo,
    getActiveRepository
      (mkRepositoryManager (Some "b") [sampleRepo "a"; sampleRepo "b"]) = Some repo
    /\ ri_id repo = "b".
Proof.
  destruct (refreshRepositories_active
              (mret [sampleUri; spacedUri])
              (fun uri => mret (sampleRepo (if String.eqb (fsPath uri) "/work/app"
                                            then "a" else "b")))
              true (mkRegistry (mkRepositoryManager (Some "b") []) ∅) emptyHeap []
              emptyHeap
              (mkRegistry (mkRepositoryManager (Some "b") [sampleRepo "a"; sampleRepo "b"])
                 (StateStore.set (uriText spacedUri) (sampleRepo "b") 0
                    (StateStore.set (uriText sampleUri) (sampleRepo "a") 0 ∅))))
    as (repo & Hget & _ & Hid & _).
  - vm_compute. auto.
  - exists repo. split; [exact Hget|]. cbn [manager activeRepositoryId] in Hid. congruence.
Defined.

(** X27.  A refresh that is not forced asks nothing about a repository
    whose description was stored at most 3000 ms ago: when every detected
    repository has such an entry, the run of the refresh is the run of the
    detection, the repositories are the stored descriptions in the order of
    the detection, and the cache is as it was. *)
Theorem refreshRepositories_reuses (detectRepositories : Async (list Uri))
  (getRepositoryInfo : Uri -> Async RepositoryInfo) (registry : Registry)
  (h : Heap) (tr : list (Event * Z)) (h' : Heap) (found : list Uri) :
  runs (detectRepositories h) tr h' (Ok found) ->
  Forall (fun uri => StateStore.isFresh (uriText uri) 3000 (clock h') (infoCache registry)
                     = true) found ->
  exists stored,
    Forall2 (fun uri info => StateStore.get (uriText uri) (infoCache registry) = Some info)
            found stored
    /\ runs (refreshRepositories detectRepositories getRepositoryInfo false registry h)
            tr h'
            (Ok (mkRegistry
                   (mkRepositoryManager
                      (selectActive (activeRepositoryId (manager registry)) stored) stored)
                   (infoCache registry))).
Proof.
  intros Hdetect Hfresh.
  assert (Hgather : forall next,
    exists stored,
      Forall2 (fun uri info => StateStore.get (uriText uri) (infoCache registry) = Some info)
              found stored
      /\ gatherRepositories getRepositoryInfo false found (infoCache registry) next h'
         = Done h' (Ok (infoCache registry, next ++ stored))).
  { clear Hdetect. induction Hfresh as [|uri rest Huri _ IH]; intros next.
    - exists []. split; [constructor|]. rewrite app_nil_r. reflexivity.
    - cbn [gatherRepositories]. unfold mbind, Async_bind, dateNow. cbn [bindRun negb andb].
      rewrite Huri. unfold StateStore.isFresh in Huri. unfold StateStore.get.
      match type of Huri with
      | context [match ?x with _ => _ end] => destruct x as [entry|] eqn:E
      end; [|discriminate Huri].
      cbn [fmap option_fmap option_map].
      destruct (IH (next ++ [StateStore.value entry])) as (stored & Hall & Heq).
      exists (StateStore.value entry :: stored). split.
      + constructor; [|exact Hall]. unfold StateStore.get. rewrite E. reflexivity.
      + rewrite Heq, <- app_assoc. reflexivity. }
  destruct (Hgather []) as (stored & Hall & Heq). exists stored. split; [exact Hall|].
  unfold refreshRepositories. apply runs_bind. left.
  exists tr, h', found, []. split; [exact Hdetect|]. split; [|rewrite app_nil_r; reflexivity].
  unfold mbind, Async_bind. rewrite Heq. cbn [bindRun]. simpl. auto.
Qed.

Lemma refreshRepositories_reuses_witness :
  exists stored,
    Forall2 (fun uri info =>
               StateStore.get (uriText uri)
                 (StateStore.set (uriText sampleUri) (sampleRepo "a") 0 ∅) = Some info)
            [sampleUri] stored
    /\ runs (refreshRepositories (mret [sampleUri])
               (fun _ => throw (PlainError "unused")) false
               (mkRegistry (mkRepositoryManager None [])
                  (StateStore.set (uriText sampleUri) (sampleRepo "a") 0 ∅))
               emptyHeap)
            [] emptyHeap
            (Ok (mkRegistry
                   (mkRepositoryManager (selectActive None stored) stored)
                   (StateStore.set (uriText sampleUri) (sampleRepo "a") 0 ∅))).
Proof.
  apply (refreshRepositories_reuses (mret [sampleUri])
           (fun _ => throw (PlainError "unused"))
           (mkRegistry (mkRepositoryManager None [])
              (StateStore.set (uriText sampleUri) (sampleRepo "a") 0 ∅))
           emptyHeap [] emptyHeap [sampleUri]).
  - vm_compute. auto.
  - constructor; [vm_compute; reflexivity|constructor].
Defined.

(** ** The state store *)

(** X28.  [StateStore]: what is stored under a key is what [get] returns
    for it, and it is fresh as long as no more than [maxAgeMs] have passed
    since it was stored; the other keys are not touched.  [invalidate] with
    a key forgets that key only; without a key, and with the empty key, it
    forgets every key. *)
Theorem StateStore_round_trip {T : Type} (store : StateStore.t T) (key : string)
  (v : T) (now : Z) :
  StateStore.get key (StateStore.set key v now store) = Some v
  /\ (forall later maxAgeMs,
        StateStore.isFresh key maxAgeMs later (StateStore.set key v now store)
        = (later - now <=? maxAgeMs)%Z)
  /\ (forall other, other <> key ->
        StateStore.get other (StateStore.set key v now store) = StateStore.get other store
        /\ forall later maxAgeMs,
             StateStore.isFresh other maxAgeMs later (StateStore.set key v now store)
             = StateStore.isFresh other maxAgeMs later store)
  /\ (key <> "" ->
      StateStore.get key (StateStore.invalidate (Some key) store) = None
      /\ (forall later maxAgeMs,
            StateStore.isFresh key maxAgeMs later (StateStore.invalidate (Some key) store)
            = false)
      /\ forall other, other <> key ->
           StateStore.get other (StateStore.invalidate (Some key) store)
           = StateStore.get other store)
  /\ (forall other later maxAgeMs,
        StateStore.get other (StateStore.invalidate None store) = None
        /\ StateStore.get other (StateStore.invalidate (Some "") store) = None
        /\ StateStore.isFresh other maxAgeMs later (StateStore.invalidate None store) = false
        /\ StateStore.isFresh other maxAgeMs later (StateStore.invalidate (Some "") store)
           = false).
Proof.
  unfold StateStore.get, StateStore.set, StateStore.isFresh, StateStore.invalidate.
  split; [rewrite lookup_insert_eq; reflexivity|].
  split; [intros later maxAgeMs; rewrite lookup_insert_eq; reflexivity|].
  split.
  { intros other Hne. rewrite lookup_insert_ne by congruence. auto. }
  split.
  { intros Hkey. destruct key as [|c key]; [congruence|]. cbn [Js.truthy negb Js.orElse].
    split; [rewrite lookup_delete_eq; reflexivity|].
    split; [intros later maxAgeMs; rewrite lookup_delete_eq; reflexivity|].
    intros other Hne. rewrite lookup_delete_ne by congruence. reflexivity. }
  intros other later maxAgeMs. cbn [Js.truthy negb]. rewrite lookup_empty. auto.
Qed.

(** ** Handlers that act on a chosen branch or stash *)

Lemma gitCommands_app (tr1 tr2 : list (Event * Z)) :
  gitCommands (tr1 ++ tr2) = gitCommands tr1 ++ gitCommands tr2.
Proof. unfold gitCommands. apply omap_app. Qed.

Lemma runs_getBranches_trace (repoUri : Uri) (currentBranch : option string) (h : Heap)
  (tr : list (Event * Z)) (h' : Heap) (res : Result (list BranchInfo)) :
  runs (getBranches repoUri currentBranch h) tr h' res ->
  gitCommands tr = [] \/ gitCommands tr = [forEachRefArgs].
Proof.
  unfold getBranches. intros Hruns.
  apply runs_bind in Hruns as [(tr1 & h1 & cached & tr2 & H1 & H2 & ->) | (e & H1 & ->)].
  - apply runs_getCached in H1 as (-> & _).
    destruct (asBranchList cached) as [value|].
    + destruct H2 as (-> & _). left. reflexivity.
    + apply runs_fill in H2 as (answer & t & -> & _); [|reflexivity].
      right. reflexivity.
  - apply runs_getCached in H1 as (-> & _). left. reflexivity.
Qed.

Lemma runs_argOrPick_trace (repo : RepositoryInfo) (branchArg : option BranchInfo)
  (placeholder : string) (h : Heap) (tr : list (Event * Z)) (h' : Heap)
  (res : Result (option BranchInfo)) :
  runs (argOrPick repo branchArg placeholder h) tr h' res ->
  gitCommands tr = [] \/ (branchArg = None /\ gitCommands tr = [forEachRefArgs]).
Proof.
  unfold argOrPick. destruct branchArg as [given|].
  { intros (-> & _). left. reflexivity. }
  unfold pickBranch. intros Hruns.
  apply runs_bind in Hruns as [(tr1 & h1 & branches & tr2 & H1 & H2 & ->) | (e & H1 & ->)].
  - apply runs_getBranches_trace in H1.
    assert (Hpick : gitCommands tr2 = []).
    { apply runs_bind in H2 as [(tr3 & h3 & picked & tr4 & H3 & H4 & ->) | (e & H3 & ->)].
      - apply runs_await in H3 as (x & t & -> & _). destruct H4 as (-> & _). reflexivity.
      - apply runs_await in H3 as (x & t & -> & _). reflexivity. }
    rewrite gitCommands_app, Hpick, app_nil_r. destruct H1; auto.
  - apply runs_getBranches_trace in H1. destruct H1; auto.
Qed.

(** A handler that launches one git command on the chosen branch unless it
    is the current branch. *)
Lemma runs_onOtherBranch (repo : RepositoryInfo) (branchArg : option BranchInfo)
  (placeholder : string) (args : string -> list string) (h : Heap)
  (tr : list (Event * Z)) (h' : Heap) (res : Result unit) :
  runs ((branch ← argOrPick repo branchArg placeholder;
         match branch with
         | None => mret tt
         | Some branch =>
             if bi_isCurrent branch then mret tt
             else runGit (fsPath (ri_rootUri repo)) (args (bi_shortName branch));; mret tt
         end) h) tr h' res ->
  (exists listing launched,
     gitCommands tr = listing ++ launched
     /\ (listing = [] \/ (branchArg = None /\ listing = [forEachRefArgs]))
     /\ (launched = []
         \/ exists branch,
              bi_isCurrent branch = false /\ launched = [args (bi_shortName branch)]
              /\ forall given, branchArg = Some given -> branch = given))
  /\ (forall given, branchArg = Some given -> bi_isCurrent given = true ->
        tr = [] /\ h' = h /\ res = Ok tt).
Proof.
  intros Hruns.
  apply runs_bind in Hruns as [(tr1 & h1 & chosen & tr2 & H1 & H2 & ->) | (e & H1 & ->)].
  - pose proof (runs_argOrPick_trace _ _ _ _ _ _ _ H1) as Hlist.
    apply runs_argOrPick in H1 as (_ & _ & Hgiven).
    destruct chosen as [branch|].
    + destruct (bi_isCurrent branch) eqn:Hcur.
      * destruct H2 as (-> & -> & ->). split.
        -- exists (gitCommands tr1), []. rewrite !app_nil_r.
           split; [reflexivity|split; [exact Hlist|left; reflexivity]].
        -- intros given E _. destruct (Hgiven given E) as (-> & -> & _). auto.
      * apply runs_git_unit in H2 as (answer & t & -> & _). split.
        -- exists (gitCommands tr1), [args (bi_shortName branch)].
           split; [rewrite gitCommands_app; reflexivity|]. split; [exact Hlist|].
           right. exists branch. split; [exact Hcur|]. split; [reflexivity|].
           intros given E. destruct (Hgiven given E) as (_ & _ & [= ->]). reflexivity.
        -- intros given E Hc. destruct (Hgiven given E) as (_ & _ & [= ->]). congruence.
    + destruct H2 as (-> & -> & ->). split.
      * exists (gitCommands tr1), []. rewrite !app_nil_r.
           split; [reflexivity|split; [exact Hlist|left; reflexivity]].
      * intros given E _. destruct (Hgiven given E) as (_ & _ & E'). discriminate E'.
  - pose proof (runs_argOrPick_trace _ _ _ _ _ _ _ H1) as Hlist.
    apply runs_argOrPick in H1 as (_ & _ & Hgiven). split.
    + exists (gitCommands tr), []. rewrite !app_nil_r.
      split; [reflexivity|split; [exact Hlist|left; reflexivity]].
    + intros given E _. destruct (Hgiven given E) as (_ & _ & E'). discriminate E'.
Qed.

(** A function that launches one git command on the chosen branch unless
    it is the current branch: the run, event by event. *)
Lemma runs_onOtherBranch_cases (repo : RepositoryInfo) (branchArg : option BranchInfo)
  (placeholder : string) (args : string -> list string) (h : Heap)
  (tr : list (Event * Z)) (h' : Heap) (res : Result unit) :
  runs ((branch ← argOrPick repo branchArg placeholder;
         match branch with
         | None => mret tt
         | Some branch =>
             if bi_isCurrent branch then mret tt
             else runGit (fsPath (ri_rootUri repo)) (args (bi_shortName branch));; mret tt
         end) h) tr h' res ->
  match branchArg with
  | Some given =>
      if bi_isCurrent given then tr = [] /\ h' = h /\ res = Ok tt
      else exists answer t,
             tr = [(EvExec "git"
                      ("-C" :: fsPath (ri_rootUri repo) :: args (bi_shortName given))
                      answer, t)]
             /\ res = match answer with
                      | inl _ => Ok tt
                      | inr failure => Thrown (gitError failure)
                      end
  | None =>
      exists trList hList listed,
        runs (getBranches (ri_rootUri repo) (Some (ri_currentBranch repo)) h)
             trList hList listed
        /\ match listed with
           | Thrown e => tr = trList /\ res = Thrown e
           | Ok branches =>
               exists answer t rest,
                 tr = trList
                      ++ (EvQuickPick (List.map bi_shortName branches) placeholder answer, t)
                         :: rest
                 /\ match answer ≫= (fun i => branches !! i) with
                    | None => rest = [] /\ res = Ok tt
                    | Some picked =>
                        if bi_isCurrent picked then rest = [] /\ res = Ok tt
                        else exists out t',
                               rest = [(EvExec "git"
                                          ("-C" :: fsPath (ri_rootUri repo)
                                           :: args (bi_shortName picked)) out, t')]
                               /\ res = match out with
                                        | inl _ => Ok tt
                                        | inr failure => Thrown (gitError failure)
                                        end
                    end
           end
  end.
Proof.
  intros Hruns.
  apply runs_bind in Hruns as [(tr1 & h1 & chosen & tr2 & H1 & H2 & ->) | (e & H1 & ->)].
  - apply runs_argOrPick_cases in H1. destruct branchArg as [given|].
    + destruct H1 as (-> & -> & [= ->]). destruct (bi_isCurrent given).
      * exact H2.
      * apply runs_git_unit in H2 as (answer & t & -> & _ & ->). eauto.
    + destruct H1 as (trList & hList & listed & Hlist & Hrest).
      exists trList, hList, listed. split; [exact Hlist|].
      destruct listed as [branches|e]; [|destruct Hrest as (_ & _ & E); discriminate E].
      destruct Hrest as (answer & t & -> & -> & [= ->]).
      exists answer, t, tr2. rewrite <- app_assoc. split; [reflexivity|].
      destruct (answer ≫= fun i => branches !! i) as [picked|].
      * destruct (bi_isCurrent picked).
        -- destruct H2 as (-> & _ & ->). auto.
        -- apply runs_git_unit in H2 as (out & t' & -> & _ & ->). eauto.
      * destruct H2 as (-> & _ & ->). auto.
  - apply runs_argOrPick_cases in H1. destruct branchArg as [given|].
    + destruct H1 as (_ & _ & E). discriminate E.
    + destruct H1 as (trList & hList & listed & Hlist & Hrest).
      exists trList, hList, listed. split; [exact Hlist|].
      destruct listed as [branches|e'].
      * destruct Hrest as (answer & t & _ & _ & E). discriminate E.
      * destruct Hrest as (-> & _ & [= ->]). auto.
Qed.

(** X29.  The functions that the handlers of [gitcc.mergeIntoCurrent] and
    [gitcc.rebaseCurrentOnto] hand to [withRepo] never act on a branch
    that is marked current.  With a branch given, they do nothing when it
    is marked current, and otherwise launch one git command, [merge
    --no-ff] or [rebase] with its short name.  With none given, they read
    the branches with [getBranches] and show them in a quick pick; the
    record at the selected position decides: nothing more happens when
    nothing is selected or that record is marked current, and otherwise
    the one command is launched with the short name of that record.  A
    failure of the listing or of the command is thrown.  So beside the
    listing for the pick at most one git command is launched. *)
Theorem merge_rebase_other_branch (repo : RepositoryInfo)
  (branchArg : option BranchInfo) (rebasing : bool) (h : Heap)
  (tr : list (Event * Z)) (h' : Heap) (res : Result unit) :
  runs ((if rebasing then rebaseCurrentOntoBody repo branchArg
         else mergeIntoCurrentBody repo branchArg) h) tr h' res ->
  match branchArg with
  | Some given =>
      if bi_isCurrent given then tr = [] /\ h' = h /\ res = Ok tt
      else exists answer t,
             tr = [(EvExec "git"
                      ("-C" :: fsPath (ri_rootUri repo)
                       :: (if rebasing then ["rebase"; bi_shortName given]
                           else ["merge"; "--no-ff"; bi_shortName given]))
                      answer, t)]
             /\ res = match answer with
                      | inl _ => Ok tt
                      | inr failure => Thrown (gitError failure)
                      end
  | None =>
      exists trList hList listed,
        runs (getBranches (ri_rootUri repo) (Some (ri_currentBranch repo)) h)
             trList hList listed
        /\ match listed with
           | Thrown e => tr = trList /\ res = Thrown e
           | Ok branches =>
               exists answer t rest,
                 tr = trList
                      ++ (EvQuickPick (List.map bi_shortName branches)
                            (if rebasing then "Rebase current onto which branch?"
                             else "Merge which branch into current?") answer, t)
                         :: rest
                 /\ match answer ≫= (fun i => branches !! i) with
                    | None => rest = [] /\ res = Ok tt
                    | Some picked =>
                        if bi_isCurrent picked then rest = [] /\ res = Ok tt
                        else exists out t',
                               rest = [(EvExec "git"
                                          ("-C" :: fsPath (ri_rootUri repo)
                                           :: (if rebasing
                                               then ["rebase"; bi_shortName picked]
                                               else ["merge"; "--no-ff";
                                                     bi_shortName picked]))
                                          out, t')]
                               /\ res = match out with
                                        | inl _ => Ok tt
                                        | inr failure => Thrown (gitError failure)
                                        end
                    end
           end
  end
  /\ exists listing launched,
       gitCommands tr = listing ++ launched
       /\ (listing = [] \/ (branchArg = None /\ listing = [forEachRefArgs]))
       /\ (launched = []
           \/ exists branch,
                bi_isCurrent branch = false
                /\ launched = [if rebasing then ["rebase"; bi_shortName branch]
                               else ["merge"; "--no-ff"; bi_shortName branch]]).
Proof.
  destruct rebasing; intros Hruns.
  - split.
    + apply (runs_onOtherBranch_cases repo branchArg "Rebase current onto which branch?"
               (fun name => ["rebase"; name])), Hruns.
    + destruct (proj1 (runs_onOtherBranch repo branchArg "Rebase current onto which branch?"
                         (fun name => ["rebase"; name]) h tr h' res Hruns))
        as (listing & launched & Htr & Hlist & [->|(branch & Hcur & -> & _)]).
      * exists listing, []. split; [exact Htr|]. split; [exact Hlist|]. left. reflexivity.
      * exists listing, [["rebase"; bi_shortName branch]].
        split; [exact Htr|]. split; [exact Hlist|]. right. exists branch. auto.
  - split.
    + apply (runs_onOtherBranch_cases repo branchArg "Merge which branch into current?"
               (fun name => ["merge"; "--no-ff"; name])), Hruns.
    + destruct (proj1 (runs_onOtherBranch repo branchArg "Merge which branch into current?"
                         (fun name => ["merge"; "--no-ff"; name]) h tr h' res Hruns))
        as (listing & launched & Htr & Hlist & [->|(branch & Hcur & -> & _)]).
      * exists listing, []. split; [exact Htr|]. split; [exact Hlist|]. left. reflexivity.
      * exists listing, [["merge"; "--no-ff"; bi_shortName branch]].
        split; [exact Htr|]. split; [exact Hlist|]. right. exists branch. auto.
Qed.

Lemma merge_rebase_other_branch_witness :
  gitCommands
    (fst (fst (execute (scripted (fun _ _ => inl (mkExecOutput "" "")) None None) []
                 (mergeIntoCurrentBody (sampleRepo "a") (Some topicBranch) emptyHeap))))
  = [["merge"; "--no-ff"; "topic"]]
  /\ fst (fst (execute (scripted (fun _ _ => inl (mkExecOutput "" "")) None None) []
                 (rebaseCurrentOntoBody (sampleRepo "a") (Some mainBranch) emptyHeap)))
     = []
  /\ gitCommands
       (fst (fst (execute (scripted (fun _ _ => inl (mkExecOutput "" "")) (Some 0%nat) None) []
                    (mergeIntoCurrentBody (sampleRepo "a") None rememberingHeap))))
     = []
  /\ gitCommands
       (fst (fst (execute (scripted (fun _ _ => inl (mkExecOutput "" "")) (Some 2%nat) None) []
                    (rebaseCurrentOntoBody (sampleRepo "a") None rememberingHeap))))
     = [["rebase"; "feature/login"]].
Proof.
  split; [|split; [|split]].
  - destruct (proj1 (merge_rebase_other_branch (sampleRepo "a") (Some topicBranch) false
                       emptyHeap _ _ _
                       (execute_runs_nil
                          (scripted (fun _ _ => inl (mkExecOutput "" "")) None None)
                          (mergeIntoCurrentBody (sampleRepo "a") (Some topicBranch)
                             emptyHeap))))
      as (answer & t & Htr & _).
    rewrite Htr. reflexivity.
  - apply (proj1 (merge_rebase_other_branch (sampleRepo "a") (Some mainBranch) true
                    emptyHeap _ _ _
                    (execute_runs_nil
                       (scripted (fun _ _ => inl (mkExecOutput "" "")) None None)
                       (rebaseCurrentOntoBody (sampleRepo "a") (Some mainBranch)
                          emptyHeap)))).
  - destruct (proj1 (merge_rebase_other_branch (sampleRepo "a") None false
                       rememberingHeap _ _ _
                       (execute_runs_nil
                          (scripted (fun _ _ => inl (mkExecOutput "" "")) (Some 0%nat) None)
                          (mergeIntoCurrentBody (sampleRepo "a") None rememberingHeap))))
      as (trList & hList & listed & Hlist & Hrest).
    vm_compute in Hlist. destruct Hlist as (-> & _ & ->).
    destruct Hrest as (answer & t & rest & Htr & Hrest).
    assert (Hanswer : answer = Some 0%nat)
      by (vm_compute in Htr; injection Htr as Ha _ _; symmetry; exact Ha).
    subst answer. cbn in Hrest. destruct Hrest as (-> & _).
    rewrite Htr. reflexivity.
  - destruct (proj1 (merge_rebase_other_branch (sampleRepo "a") None true
                       rememberingHeap _ _ _
                       (execute_runs_nil
                          (scripted (fun _ _ => inl (mkExecOutput "" "")) (Some 2%nat) None)
                          (rebaseCurrentOntoBody (sampleRepo "a") None rememberingHeap))))
      as (trList & hList & listed & Hlist & Hrest).
    vm_compute in Hlist. destruct Hlist as (-> & _ & ->).
    destruct Hrest as (answer & t & rest & Htr & Hrest).
    assert (Hanswer : answer = Some 2%nat)
      by (vm_compute in Htr; injection Htr as Ha _ _; symmetry; exact Ha).
    subst answer. cbn in Hrest. destruct Hrest as (out & t' & -> & _).
    rewrite Htr. reflexivity.
Defined.

(** What [stashOrPick] settles with: the stash given, or the entry that
    the quick pick selects from the parsed output of [git stash list]. *)
Lemma runs_stashOrPick_cases (repo : RepositoryInfo) (stashArg : option StashEntry)
  (placeholder : string) (h : Heap) (tr : list (Event * Z)) (h' : Heap)
  (res : Result (option StashEntry)) :
  runs (stashOrPick repo stashArg placeholder h) tr h' res ->
  match stashArg with
  | Some given => tr = [] /\ h' = h /\ res = Ok (Some given)
  | None =>
      exists answer t,
        match answer with
        | inr failure =>
            tr = [(EvExec "git"
                     ["-C"; fsPath (ri_rootUri repo); "stash"; "list"; "--date=relative"]
                     (inr failure), t)]
            /\ res = Thrown (gitError failure)
        | inl result =>
            exists pick t',
              tr = [(EvExec "git"
                       ["-C"; fsPath (ri_rootUri repo); "stash"; "list"; "--date=relative"]
                       (inl result), t);
                    (EvQuickPick
                       (List.map se_ref (parseStashList (Js.trimEnd (stdout result))))
                       placeholder pick, t')]
              /\ res = Ok (pick ≫= (fun i => parseStashList (Js.trimEnd (stdout result)) !! i))
        end
  end.
Proof.
  unfold stashOrPick. destruct stashArg as [given|]; [intros H; exact H|].
  intros Hruns.
  apply runs_bind in Hruns as [(tr1 & h1 & stashes & tr2 & H1 & H2 & ->) | (e & H1 & ->)].
  - unfold getStashes in H1. apply runs_parsed in H1 as (answer & t & -> & _ & Hres).
    destruct answer as [result|failure]; [|discriminate Hres]. injection Hres as ->.
    exists (inl result), t. unfold pickStash in H2.
    apply runs_bind in H2 as [(tr3 & h3 & picked & tr4 & H3 & H4 & ->) | (e & H3 & ->)].
    + apply runs_await in H3 as (x & t' & -> & _ & [= <-]).
      destruct H4 as (-> & _ & ->). exists picked, t'. auto.
    + apply runs_await in H3 as (x & t' & _ & _ & E). discriminate E.
  - unfold getStashes in H1. apply runs_parsed in H1 as (answer & t & -> & _ & Hres).
    destruct answer as [result|failure]; [discriminate Hres|]. injection Hres as ->.
    exists (inr failure), t. auto.
Qed.

(** X30.  The functions that the stash handlers hand to [withRepo].  Those
    of [gitcc.stashApply] and [gitcc.stashPop], with a stash given, launch
    one git command: [stash apply], respectively [stash pop], with the
    reference of that stash.  With none given they run [git stash list]
    and show the parsed entries in a quick pick; the entry at the selected
    position decides: with nothing selected nothing more happens, and
    otherwise the one command is launched with the reference of that
    entry.  The function of [gitcc.unstash] lists and picks in the same
    way, then asks for [apply] or [pop] and launches that command with the
    reference of the picked entry, or nothing when the question is
    dismissed.  A failure of the listing or of the command is thrown.  No
    other git command, such as [stash drop], is launched. *)
Theorem stash_handlers (repo : RepositoryInfo) (stashArg : option StashEntry)
  (popping : bool) (h : Heap) (tr : list (Event * Z)) (h' : Heap) (res : Result unit) :
  (runs ((if popping then stashPopBody repo stashArg else stashApplyBody repo stashArg) h)
        tr h' res ->
   match stashArg with
   | Some given =>
       exists answer t,
         tr = [(EvExec "git"
                  ["-C"; fsPath (ri_rootUri repo); "stash";
                   if popping then "pop" else "apply"; se_ref given] answer, t)]
         /\ res = match answer with
                  | inl _ => Ok tt
                  | inr failure => Thrown (gitError failure)
                  end
   | None =>
       exists answer t,
         match answer with
         | inr failure =>
             tr = [(EvExec "git"
                      ["-C"; fsPath (ri_rootUri repo); "stash"; "list"; "--date=relative"]
                      (inr failure), t)]
             /\ res = Thrown (gitError failure)
         | inl result =>
             exists pick t' rest,
               tr = (EvExec "git"
                       ["-C"; fsPath (ri_rootUri repo); "stash"; "list"; "--date=relative"]
                       (inl result), t)
                    :: (EvQuickPick
                          (List.map se_ref (parseStashList (Js.trimEnd (stdout result))))
                          (if popping then "Select stash to pop" else "Select stash to apply")
                          pick, t')
                    :: rest
               /\ match pick ≫= (fun i => parseStashList (Js.trimEnd (stdout result)) !! i) with
                  | None => rest = [] /\ res = Ok tt
                  | Some selected =>
                      exists out t2,
                        rest = [(EvExec "git"
                                   ["-C"; fsPath (ri_rootUri repo); "stash";
                                    if popping then "pop" else "apply"; se_ref selected]
                                   out, t2)]
                        /\ res = match out with
                                 | inl _ => Ok tt
                                 | inr failure => Thrown (gitError failure)
                                 end
                  end
         end
   end)
  /\ (runs (unstashBody repo h) tr h' res ->
      exists answer t,
        match answer with
        | inr failure =>
            tr = [(EvExec "git"
                     ["-C"; fsPath (ri_rootUri repo); "stash"; "list"; "--date=relative"]
                     (inr failure), t)]
            /\ res = Thrown (gitError failure)
        | inl result =>
            exists pick t' rest,
              tr = (EvExec "git"
                      ["-C"; fsPath (ri_rootUri repo); "stash"; "list"; "--date=relative"]
                      (inl result), t)
                   :: (EvQuickPick
                         (List.map se_ref (parseStashList (Js.trimEnd (stdout result))))
                         "Select stash to apply/pop" pick, t')
                   :: rest
              /\ match pick ≫= (fun i => parseStashList (Js.trimEnd (stdout result)) !! i) with
                 | None => rest = [] /\ res = Ok tt
                 | Some selected =>
                     exists action t2 launched,
                       rest = (EvQuickPick ["apply"; "pop"] "Unstash action" action, t2)
                              :: launched
                       /\ match action ≫= (fun i => ["apply"; "pop"] !! i) with
                          | None => launched = [] /\ res = Ok tt
                          | Some name =>
                              exists out t3,
                                launched
                                = [(EvExec "git"
                                      ["-C"; fsPath (ri_rootUri repo); "stash"; name;
                                       se_ref selected] out, t3)]
                                /\ res = match out with
                                         | inl _ => Ok tt
                                         | inr failure => Thrown (gitError failure)
                                         end
                          end
                 end
        end).
Proof.
  split.
  - intros Hruns.
    assert (Hbody : runs ((selected ← stashOrPick repo stashArg
                                        (if popping then "Select stash to pop"
                                         else "Select stash to apply");
                           match selected with
                           | None => mret tt
                           | Some selected =>
                               stashApply (ri_rootUri repo) (se_ref selected) popping
                           end) h) tr h' res)
      by (destruct popping; exact Hruns).
    clear Hruns.
    apply runs_bind in Hbody as [(tr1 & h1 & chosen & tr2 & H1 & H2 & ->) | (e & H1 & ->)].
    + apply runs_stashOrPick_cases in H1. destruct stashArg as [given|].
      * destruct H1 as (-> & -> & [= ->]). unfold stashApply in H2.
        apply runs_git_unit in H2 as (answer & t & -> & _ & ->). eauto.
      * destruct H1 as (answer & t & H1). exists answer, t.
        destruct answer as [result|failure]; [|destruct H1 as (_ & E); discriminate E].
        destruct H1 as (pick & t' & -> & [= ->]). exists pick, t', tr2.
        split; [reflexivity|].
        destruct (pick ≫= fun i => parseStashList (Js.trimEnd (stdout result)) !! i)
          as [selected|].
        -- unfold stashApply in H2.
           apply runs_git_unit in H2 as (out & t2 & -> & _ & ->). eauto.
        -- destruct H2 as (-> & _ & ->). auto.
    + apply runs_stashOrPick_cases in H1. destruct stashArg as [given|].
      * destruct H1 as (_ & _ & E). discriminate E.
      * destruct H1 as (answer & t & H1). exists answer, t.
        destruct answer as [result|failure].
        -- destruct H1 as (pick & t' & _ & E). discriminate E.
        -- destruct H1 as (-> & [= ->]). auto.
  - unfold unstashBody. intros Hruns.
    apply runs_bind in Hruns as [(tr1 & h1 & stashes & tr2 & H1 & H2 & ->) | (e & H1 & ->)].
    + unfold getStashes in H1. apply runs_parsed in H1 as (answer & t & -> & _ & Hres).
      destruct answer as [result|failure]; [|discriminate Hres]. injection Hres as ->.
      exists (inl result), t. unfold pickStash in H2.
      apply runs_bind in H2 as [(tr3 & h3 & chosen & tr4 & H3 & H4 & ->) | (e & H3 & ->)].
      * apply runs_bind in H3 as [(tr5 & h5 & pick & tr6 & H5 & H6 & ->) | (e & H5 & E)];
          [|discriminate E].
        apply runs_await in H5 as (x & t' & -> & _ & [= <-]).
           destruct H6 as (-> & _ & [= ->]). exists pick, t', tr4.
           split; [reflexivity|].
           destruct (pick ≫= fun i => parseStashList (Js.trimEnd (stdout result)) !! i)
             as [selected|].
           ++ apply runs_bind in H4
                as [(tr7 & h7 & action & tr8 & H7 & H8 & ->) | (e & H7 & ->)].
              ** apply runs_await in H7 as (x & t2 & -> & _ & [= <-]).
                 exists action, t2, tr8. split; [reflexivity|].
                 destruct action as [[|[|i]]|]; cbn in H8 |- *.
                 --- unfold stashApply in H8.
                     apply runs_git_unit in H8 as (out & t3 & -> & _ & ->).
                     exists out, t3. split; reflexivity.
                 --- unfold stashApply in H8.
                     apply runs_git_unit in H8 as (out & t3 & -> & _ & ->).
                     exists out, t3. split; reflexivity.
                 --- destruct i; cbn in H8 |- *; destruct H8 as (-> & _ & ->); auto.
                 --- destruct H8 as (-> & _ & ->). auto.
              ** apply runs_await in H7 as (x & t2 & _ & _ & E). discriminate E.
           ++ destruct H4 as (-> & _ & ->). auto.
      * apply runs_bind in H3 as [(tr5 & h5 & pick & tr6 & H5 & H6 & ->) | (e' & H5 & E)].
        -- destruct H6 as (_ & _ & E). discriminate E.
        -- apply runs_await in H5 as (x & t' & _ & _ & E'). discriminate E'.
    + unfold getStashes in H1. apply runs_parsed in H1 as (answer & t & -> & _ & Hres).
      destruct answer as [result|failure]; [discriminate Hres|]. injection Hres as ->.
      exists (inr failure), t. auto.
Qed.
(** Evaluate the trace on the left of [H], leaving its right side as it is. *)
Ltac evaluated_trace H :=
  match type of H with
  | ?l = _ => let v := eval vm_compute in l in
              replace l with v in H by (vm_compute; reflexivity)
  end.

Lemma stash_handlers_witness :
  gitCommands
    (fst (fst (execute (scripted (fun _ _ => inl (mkExecOutput stashListing "")) None None) []
                 (stashPopBody (sampleRepo "a")
                    (Some (mkStashEntry "stash@{0}" 0 (Some "main") "wip" None None))
                    emptyHeap))))
  = [["stash"; "pop"; "stash@{0}"]]
  /\ gitCommands
       (fst (fst (execute
                    (scripted (fun _ _ => inl (mkExecOutput stashListing "")) (Some 1%nat) None)
                    [] (stashApplyBody (sampleRepo "a") None emptyHeap))))
     = [["stash"; "list"; "--date=relative"]; ["stash"; "apply"; "stash@{1}"]]
  /\ gitCommands
       (fst (fst (execute
                    (scripted (fun _ _ => inl (mkExecOutput stashListing "")) (Some 1%nat) None)
                    [] (unstashBody (sampleRepo "a") emptyHeap))))
     = [["stash"; "list"; "--date=relative"]; ["stash"; "pop"; "stash@{1}"]]
  /\ gitCommands
       (fst (fst (execute
                    (scripted (fun _ _ => inl (mkExecOutput stashListing "")) None None)
                    [] (stashApplyBody (sampleRepo "a") None emptyHeap))))
     = [["stash"; "list"; "--date=relative"]].
Proof.
  assert (Hsecond : parseStashList (Js.trimEnd (stdout (mkExecOutput stashListing ""))) !! 1%nat
                    = Some (mkStashEntry "stash@{1}" 1 None "WIP on main: 1111111 fix"
                              None None))
    by (vm_compute; reflexivity).
  split; [|split; [|split]].
  - destruct (proj1 (stash_handlers (sampleRepo "a")
                       (Some (mkStashEntry "stash@{0}" 0 (Some "main") "wip" None None))
                       true emptyHeap _ _ _)
                (execute_runs_nil
                   (scripted (fun _ _ => inl (mkExecOutput stashListing "")) None None)
                   (stashPopBody (sampleRepo "a")
                      (Some (mkStashEntry "stash@{0}" 0 (Some "main") "wip" None None))
                      emptyHeap)))
      as (answer & t & Htr & _).
    rewrite Htr. reflexivity.
  - destruct (proj1 (stash_handlers (sampleRepo "a") None false emptyHeap _ _ _)
                (execute_runs_nil
                   (scripted (fun _ _ => inl (mkExecOutput stashListing "")) (Some 1%nat) None)
                   (stashApplyBody (sampleRepo "a") None emptyHeap)))
      as (answer & t & Hrun).
    destruct answer as [result|failure].
    + destruct Hrun as (pick & t' & rest & Htr & Hrest).
      pose proof Htr as Hevents. evaluated_trace Hevents.
      injection Hevents as Hresult _ _ Hpick _ _.
      assert (Hlisting : result = mkExecOutput stashListing "")
        by (rewrite <- Hresult; reflexivity).
      clear Hresult. subst result pick. cbn [mbind option_bind] in Hrest. rewrite Hsecond in Hrest.
      destruct Hrest as (out & t2 & -> & _). rewrite Htr. reflexivity.
    + destruct Hrun as (Htr & _). evaluated_trace Htr. discriminate Htr.
  - destruct (proj2 (stash_handlers (sampleRepo "a") None false emptyHeap _ _ _)
                (execute_runs_nil
                   (scripted (fun _ _ => inl (mkExecOutput stashListing "")) (Some 1%nat) None)
                   (unstashBody (sampleRepo "a") emptyHeap)))
      as (answer & t & Hrun).
    destruct answer as [result|failure].
    + destruct Hrun as (pick & t' & rest & Htr & Hrest).
      pose proof Htr as Hevents. evaluated_trace Hevents.
      injection Hevents as Hresult _ _ Hpick _ Hlaunched.
      assert (Hlisting : result = mkExecOutput stashListing "")
        by (rewrite <- Hresult; reflexivity).
      clear Hresult. subst result pick. cbn [mbind option_bind] in Hrest. rewrite Hsecond in Hrest.
      destruct Hrest as (action & t2 & launched & -> & Hrest).
      injection Hlaunched as Haction _ _. subst action. cbn in Hrest.
      destruct Hrest as (out & t3 & -> & _). rewrite Htr. reflexivity.
    + destruct Hrun as (Htr & _). evaluated_trace Htr. discriminate Htr.
  - destruct (proj1 (stash_handlers (sampleRepo "a") None false emptyHeap _ _ _)
                (execute_runs_nil
                   (scripted (fun _ _ => inl (mkExecOutput stashListing "")) None None)
                   (stashApplyBody (sampleRepo "a") None emptyHeap)))
      as (answer & t & Hrun).
    destruct answer as [result|failure].
    + destruct Hrun as (pick & t' & rest & Htr & Hrest).
      pose proof Htr as Hevents. evaluated_trace Hevents.
      injection Hevents as _ _ _ Hpick _ _.
      subst pick. cbn [mbind option_bind] in Hrest.
      destruct Hrest as (-> & _). rewrite Htr. reflexivity.
    + destruct Hrun as (Htr & _). evaluated_trace Htr. discriminate Htr.
Defined.

